(** * Mcblend geometry core: a shallow embedding and its verified properties

    The development follows the Python sources

    - [mcblend/operator_func/common.py]   (export-side helpers, rotation solver),
    - [mcblend/operator_func/model.py]    (assembly of the exported bone records),
    - [mcblend/operator_func/importer.py] (schema loader and scene builder),
    - [operator_func/__init__.py]         (the export operator).

    Conventions of the embedding.

    - Python exceptions are values of [exn]; a function that may raise
      returns [result].
    - [float] values are idealised: the rotation solver and the pivot
      arithmetic work over the real numbers [R]; the JSON rounding helper
      works over the rationals [Q] extended with the IEEE negative zero, so
      that it stays executable.
    - A Python [dict] is an association list in insertion order (iteration
      order and error precedence depend on it).
    - [while] loops that the source does not bound are given fuel and
      return [None] when it runs out; recursion of the interpreter is
      bounded by an explicit frame budget and raises [RecursionError].
    - Blender's [mathutils] and scene API are outside the repository: they
      appear as [Variable]s of the sections that need them. *)

From Stdlib Require Import Reals Lra Lia ZArith QArith Qround String Ascii List Bool.
From Stdlib Require Import DecimalString Sorted.
Import ListNotations.

Set Implicit Arguments.
Set Warnings "-register-all".
Close Scope Q_scope.

(* ================================================================== *)
(** * Part I. Definitions                                              *)
(* ================================================================== *)

(** ** importer.py: JSON values and the helpers of the loader *)

(** What [json.load] gives: [None], [bool], [int], [float], [str], [list]
    and [dict] (keys in document order). *)
Inductive json : Type :=
| JNull
| JBool (b : bool)
| JInt (z : Z)
| JFloat (q : Q)
| JStr (s : string)
| JList (l : list json)
| JDict (kv : list (string * json)).

(** One token of a JSON path, as the loaders build it: [path + ['bones']]
    or [path + [i]]. *)
Inductive path_elem : Type :=
| PKey (k : string)
| PIdx (i : nat).

Definition json_path := list path_elem.

(** The messages of [FileIsNotAModelException], one constructor per
    f-string of importer.py; the interpolated values are the arguments. *)
Inductive model_msg : Type :=
| MsgNotAList (path : json_path) (name : string)
| MsgInvalidLength (path : json_path) (name : string) (len expected : nat)
| MsgNotListOf (path : json_path) (name : string)
| MsgMissingProperties (path : json_path) (what : string) (missing : list string)
| MsgUnexpectedProperties (path : json_path) (what : string) (additional : list string)
| MsgNotInstance (path : json_path) (name : string)
| MsgUnableToParseVersion (version : json)
| MsgUnsupportedVersionOf (version : json)
| MsgUnsupportedVersion
| MsgInvalidGeometryName (k : string)
| MsgMissingIdentifier (path : json_path).

Inductive exn : Type :=
| FileIsNotAModelException (m : model_msg)
| ImportingNotImplementedError (what : string) (path : json_path)
| ValueError (m : string)
| KeyError
| IndexError
| TypeError
| AttributeError
| RecursionError
| PyException (m : string).

Inductive result (A : Type) : Type :=
| Ok (a : A)
| Raise (e : exn).

Arguments Ok {A} a.
Arguments Raise {A} e.

Definition bind {A B : Type} (m : result A) (f : A -> result B) : result B :=
  match m with
  | Ok a => f a
  | Raise e => Raise e
  end.

Declare Scope py_scope.
Delimit Scope py_scope with py.
Notation "x <- m ;; k" := (bind m (fun x => k))
  (at level 61, m at next level, right associativity) : py_scope.
Notation "m ;;; k" := (bind m (fun _ => k))
  (at level 61, right associativity) : py_scope.
Open Scope py_scope.
Open Scope string_scope.
Open Scope list_scope.

(** The path an error of the loader refers to. *)
Definition msg_path (m : model_msg) : option json_path :=
  match m with
  | MsgNotAList p _ | MsgInvalidLength p _ _ _ | MsgNotListOf p _
  | MsgMissingProperties p _ _ | MsgUnexpectedProperties p _ _
  | MsgNotInstance p _ | MsgMissingIdentifier p => Some p
  | MsgInvalidGeometryName _ => Some []
  | _ => None
  end.

(** *** Dictionaries *)

Fixpoint dict_get (k : string) (kv : list (string * json)) : option json :=
  match kv with
  | [] => None
  | (k', v) :: kv' => if String.eqb k k' then Some v else dict_get k kv'
  end.

Definition dict_keys (kv : list (string * json)) : list string := map fst kv.

(** [k in keys] *)
Definition mem (k : string) (keys : list string) : bool :=
  existsb (String.eqb k) keys.

(** [a - b] on sets of keys. *)
Definition set_diff (a b : list string) : list string :=
  filter (fun k => negb (mem k b)) a.

(** [obj.keys()]: only a [dict] has the method. *)
Definition keys_of (obj : json) : result (list string) :=
  match obj with
  | JDict kv => Ok (dict_keys kv)
  | _ => Raise AttributeError
  end.

(** [sub in s] on strings. *)
Fixpoint is_substring (sub s : string) : bool :=
  String.prefix sub s ||
  match s with
  | EmptyString => false
  | String _ t => is_substring sub t
  end.

Definition is_str_eq (v : json) (s : string) : bool :=
  match v with
  | JStr s' => String.eqb s' s
  | _ => false
  end.

(** [k in obj] for a string [k] and any JSON value. *)
Definition json_contains (k : string) (obj : json) : result bool :=
  match obj with
  | JDict kv => Ok (mem k (dict_keys kv))
  | JList l => Ok (existsb (fun v => is_str_eq v k) l)
  | JStr s => Ok (is_substring k s)
  | _ => Raise TypeError
  end.

(** [obj[k]] for a string [k] and any JSON value. *)
Definition json_getitem (obj : json) (k : string) : result json :=
  match obj with
  | JDict kv =>
      match dict_get k kv with
      | Some v => Ok v
      | None => Raise KeyError
      end
  | _ => Raise TypeError
  end.

(** *** [isinstance] *)

Definition is_list (v : json) : bool :=
  match v with JList _ => true | _ => false end.
Definition is_dict (v : json) : bool :=
  match v with JDict _ => true | _ => false end.
Definition is_str (v : json) : bool :=
  match v with JStr _ => true | _ => false end.
Definition is_bool (v : json) : bool :=
  match v with JBool _ => true | _ => false end.
(** [(int, float)]: [bool] is a subclass of [int]. *)
Definition is_int_or_float (v : json) : bool :=
  match v with JInt _ | JFloat _ | JBool _ => true | _ => false end.
Definition is_list_or_dict (v : json) : bool := is_list v || is_dict v.

(** [int(x)] on a value that passed [(int, float)]. *)
Definition py_int_of_number (v : json) : result Z :=
  match v with
  | JInt z => Ok z
  | JBool b => Ok (if b then 1 else 0)%Z
  | JFloat q => Ok (Z.quot (Qnum q) (Zpos (Qden q)))
  | _ => Raise TypeError
  end.

(** *** The assertions *)

Definition _assert (expr : bool) (msg : model_msg) : result unit :=
  if expr then Ok tt else Raise (FileIsNotAModelException msg).

Definition _assert_is_vector (name : string) (obj : json) (length : nat)
    (types : json -> bool) (json_path : json_path) : result unit :=
  _assert (is_list obj) (MsgNotAList json_path name) ;;;
  match obj with
  | JList l =>
      _assert (Nat.eqb (List.length l) length)
        (MsgInvalidLength json_path name (List.length l) length) ;;;
      _assert (forallb types l) (MsgNotListOf json_path name)
  | _ => Raise TypeError
  end.

Definition _assert_has_required_keys (what : string)
    (has_keys required_keys : list string) (json_path : json_path)
    : result unit :=
  let missing_keys := set_diff required_keys has_keys in
  if negb (Nat.eqb (List.length missing_keys) 0) then
    Raise (FileIsNotAModelException
             (MsgMissingProperties json_path what missing_keys))
  else Ok tt.

Definition _assert_has_accepted_keys_only (what : string)
    (has_keys accepted_keys : list string) (json_path : json_path)
    : result unit :=
  let additional_keys := set_diff has_keys accepted_keys in
  if negb (Nat.eqb (List.length additional_keys) 0) then
    Raise (FileIsNotAModelException
             (MsgUnexpectedProperties json_path what additional_keys))
  else Ok tt.

Definition _assert_is_type (name : string) (obj : json)
    (types : json -> bool) (json_path : json_path) : result unit :=
  if negb (types obj) then
    Raise (FileIsNotAModelException (MsgNotInstance json_path name))
  else Ok tt.

(** ** importer.py: [pick_version_parser] *)

(** [s.split('.')] *)
Fixpoint split_on (sep : ascii) (s : string) : list string :=
  match s with
  | EmptyString => [EmptyString]
  | String c t =>
      if Ascii.eqb c sep then EmptyString :: split_on sep t
      else match split_on sep t with
           | [] => [String c EmptyString]
           | h :: r => String c h :: r
           end
  end.

(** Whitespace that [int] strips (the ASCII part of it). *)
Definition is_space (c : ascii) : bool :=
  let n := nat_of_ascii c in
  (((9 <=? n) && (n <=? 13)) || ((28 <=? n) && (n <=? 32)))%nat.

Definition digit_of (c : ascii) : option Z :=
  let n := nat_of_ascii c in
  if ((48 <=? n) && (n <=? 57))%nat then Some (Z.of_nat (n - 48)) else None.

Fixpoint lstrip (s : list ascii) : list ascii :=
  match s with
  | c :: t => if is_space c then lstrip t else s
  | [] => []
  end.

Definition strip (s : list ascii) : list ascii :=
  rev (lstrip (rev (lstrip s))).

(** Decimal digits, single underscores allowed between two digits. *)
Fixpoint parse_digits (s : list ascii) (acc : Z) (after_digit : bool)
    : option Z :=
  match s with
  | [] => if after_digit then Some acc else None
  | c :: t =>
      match digit_of c with
      | Some d => parse_digits t (10 * acc + d)%Z true
      | None =>
          if Ascii.eqb c "_"%char && after_digit
          then parse_digits t acc false
          else None
      end
  end.

(** [int(a)] on a string of ASCII characters: surrounding whitespace, an
    optional sign, decimal digits.  [None] stands for [ValueError]. *)
Definition py_int (a : string) : option Z :=
  match strip (list_ascii_of_string a) with
  | c :: t =>
      if Ascii.eqb c "-"%char then option_map Z.opp (parse_digits t 0%Z false)
      else if Ascii.eqb c "+"%char then parse_digits t 0%Z false
      else parse_digits (c :: t) 0%Z false
  | [] => None
  end.

(** [str(i)] on an [int]. *)
Definition py_str_of_int (i : Z) : string :=
  NilZero.string_of_int (Z.to_int i).

Fixpoint traverse_option {A B : Type} (f : A -> option B) (l : list A)
    : option (list B) :=
  match l with
  | [] => Some []
  | a :: l' =>
      match f a with
      | None => None
      | Some b =>
          match traverse_option f l' with
          | None => None
          | Some bs => Some (b :: bs)
          end
      end
  end.

(** [to_tuple]: anything that goes wrong inside the [try] (also a version
    that is not a string) becomes [FileIsNotAModelException]. *)
Definition to_tuple (version : json) : result (list Z) :=
  match version with
  | JStr s =>
      match traverse_option py_int (split_on "."%char s) with
      | Some t => Ok t
      | None => Raise (FileIsNotAModelException (MsgUnableToParseVersion version))
      end
  | _ => Raise (FileIsNotAModelException (MsgUnableToParseVersion version))
  end.

(** [a <= b] on tuples of [int]: lexicographic, a proper prefix is smaller. *)
Fixpoint tuple_leb (a b : list Z) : bool :=
  match a, b with
  | [], _ => true
  | _ :: _, [] => false
  | x :: a', y :: b' =>
      if (x <? y)%Z then true
      else if (x =? y)%Z then tuple_leb a' b'
      else false
  end.

Fixpoint insert_desc (x : list Z) (l : list (list Z)) : list (list Z) :=
  match l with
  | [] => [x]
  | y :: l' => if tuple_leb y x then x :: l else y :: insert_desc x l'
  end.

(** [t_parsers.sort(reverse=True)] *)
Definition sort_desc (l : list (list Z)) : list (list Z) :=
  fold_right insert_desc [] l.

Fixpoint traverse {A B : Type} (f : A -> result B) (l : list A)
    : result (list B) :=
  match l with
  | [] => Ok []
  | a :: l' => b <- f a ;; bs <- traverse f l' ;; Ok (b :: bs)
  end.

Definition pick_version_parser (parsers : list string) (version : json)
    : result string :=
  t_parsers <- traverse (fun parser => to_tuple (JStr parser)) parsers ;;
  let t_parsers := sort_desc t_parsers in
  t_version <- to_tuple version ;;
  match find (fun t_parser => tuple_leb t_parser t_version) t_parsers with
  | None => Raise (FileIsNotAModelException (MsgUnsupportedVersionOf version))
  | Some best_choice =>
      Ok (String.concat "." (map py_str_of_int best_choice))
  end.

(** The tuple [('1.12.0', '1.8.0')] every loader passes. *)
Definition known_parsers : list string := ["1.12.0"; "1.8.0"].

(** ** importer.py: [ModelLoader] *)

(** The dictionaries the loader returns, as records; every field holds
    the default of the source until the document overrides it. *)
Record cube_data : Type := mk_cube {
  cube_origin : json;
  cube_size : json;
  cube_rotation : json;
  cube_pivot : json;
  cube_inflate : json;
  cube_mirror : bool;
  cube_uv : json
}.

Record bone_data : Type := mk_bone {
  bone_name : option string;
  bone_parent : option string;
  bone_pivot : json;
  bone_rotation : json;
  bone_mirror : bool;
  bone_inflate : json;
  bone_debug : bool;
  bone_render_group_id : Z;
  bone_cubes : list cube_data;
  bone_locators : list (string * json);
  bone_poly_mesh : json;
  bone_texture_meshes : json
}.

Record description_data : Type := mk_description {
  desc_texture_width : Z;
  desc_texture_height : Z;
  desc_visible_bounds_offset : json;
  desc_visible_bounds_width : json;
  desc_visible_bounds_height : json;
  desc_identifier : option string
}.

Definition zeros3 : json := JList [JInt 0; JInt 0; JInt 0].
Definition zeros2 : json := JList [JInt 0; JInt 0].

Definition default_cube (default_mirror : bool) : cube_data :=
  mk_cube zeros3 zeros3 zeros3 zeros3 (JInt 0) default_mirror zeros2.

Definition default_bone : bone_data :=
  mk_bone None None zeros3 zeros3 false (JFloat (0 # 1)) false 0 [] []
          (JDict []) (JList []).

Definition default_description : description_data :=
  mk_description 64 64 zeros3 (JInt 1) (JInt 1) None.

(** [if key in obj: ...]: run [f] on the value when the key is there. *)
Definition if_in {A : Type} (key : string) (obj : list (string * json))
    (st : A) (f : json -> result A) : result A :=
  match dict_get key obj with
  | Some v => f v
  | None => Ok st
  end.

(** An assertion [isinstance(v, (str,))] followed by the use of [v]. *)
Definition checked_str (name : string) (v : json) (path : json_path)
    : result string :=
  _assert_is_type name v is_str path ;;;
  match v with
  | JStr s => Ok s
  | _ => Raise TypeError
  end.

Definition checked_bool (name : string) (v : json) (path : json_path)
    : result bool :=
  _assert_is_type name v is_bool path ;;;
  match v with
  | JBool b => Ok b
  | _ => Raise TypeError
  end.

(** The literal sets of accepted keys, by parser version. *)
Definition cube_keys_1_12 : list string :=
  ["mirror"; "inflate"; "pivot"; "rotation"; "origin"; "size"; "uv"].

Definition cube_keys_1_8 : list string :=
  ["origin"; "size"; "uv"; "inflate"; "mirror"].

Definition bone_keys_1_12 : list string :=
  ["name"; "parent"; "pivot"; "rotation"; "mirror"; "inflate";
   "debug"; "render_group_id"; "cubes"; "locators"; "poly_mesh";
   "texture_meshes"].

Definition bone_keys_1_8 : list string :=
  ["name"; "reset"; "neverRender"; "parent"; "pivot"; "rotation";
   "bind_pose_rotation"; "mirror"; "inflate"; "debug";
   "render_group_id"; "cubes"; "locators"; "poly_mesh";
   "texture_meshes"].

Definition description_keys_1_12 : list string :=
  ["identifier"; "texture_width"; "texture_height";
   "visible_bounds_offset"; "visible_bounds_width";
   "visible_bounds_height"].

Definition geometry_keys_1_8 : list string :=
  ["debug"; "visible_bounds_width"; "visible_bounds_height";
   "visible_bounds_offset"; "texturewidth"; "textureheight"; "cape"; "bones"].

Section ModelLoader.

(** [self.format_version] *)
Variable format_version : json.

Definition unsupported {A : Type} : result A :=
  Raise (FileIsNotAModelException MsgUnsupportedVersion).

Definition _load_locator (locator : json) (locator_path : json_path)
    : result json :=
  parser_version <- pick_version_parser known_parsers format_version ;;
  if String.eqb parser_version "1.12.0" then
    if is_list locator then
      _assert_is_vector "locator" locator 3 is_int_or_float locator_path ;;;
      Ok locator
    else if is_dict locator then
      Raise (ImportingNotImplementedError "locator" locator_path)
    else
      Raise (FileIsNotAModelException
               (MsgNotInstance (locator_path ++ [PKey "locator"]) "locator"))
  else if String.eqb parser_version "1.8.0" then
    _assert_is_type "locator" locator is_list locator_path ;;;
    _assert_is_vector "locator" locator 3 is_int_or_float locator_path ;;;
    Ok locator
  else unsupported.

Fixpoint _load_locators_items (items : list (string * json))
    (locators_path : json_path) : result (list (string * json)) :=
  match items with
  | [] => Ok []
  | (i, locator) :: items' =>
      v <- _load_locator locator (locators_path ++ [PKey i]) ;;
      rest <- _load_locators_items items' locators_path ;;
      Ok ((i, v) :: rest)
  end.

Definition _load_locators (locators : json) (locators_path : json_path)
    : result (list (string * json)) :=
  parser_version <- pick_version_parser known_parsers format_version ;;
  if String.eqb parser_version "1.12.0" || String.eqb parser_version "1.8.0" then
    _assert_is_type "locators property" locators is_dict locators_path ;;;
    match locators with
    | JDict items => _load_locators_items items locators_path
    | _ => Raise TypeError
    end
  else unsupported.

Definition _load_cube (cube : json) (cube_path : json_path)
    (default_mirror : bool) : result cube_data :=
  let result := default_cube default_mirror in
  parser_version <- pick_version_parser known_parsers format_version ;;
  if String.eqb parser_version "1.12.0" then
    _assert_is_type "cube" cube is_dict cube_path ;;;
    match cube with
    | JDict kv =>
        let acceptable_keys := cube_keys_1_12 in
        _assert_has_accepted_keys_only "cube" (dict_keys kv) acceptable_keys
          cube_path ;;;
        origin <- if_in "origin" kv (cube_origin result) (fun v =>
          _assert_is_vector "origin" v 3 is_int_or_float
            (cube_path ++ [PKey "origin"]) ;;; Ok v) ;;
        size <- if_in "size" kv (cube_size result) (fun v =>
          _assert_is_vector "size" v 3 is_int_or_float
            (cube_path ++ [PKey "size"]) ;;; Ok v) ;;
        rotation <- if_in "rotation" kv (cube_rotation result) (fun v =>
          _assert_is_vector "rotation" v 3 is_int_or_float
            (cube_path ++ [PKey "rotation"]) ;;; Ok v) ;;
        pivot <- if_in "pivot" kv (cube_pivot result) (fun v =>
          _assert_is_vector "pivot" v 3 is_int_or_float
            (cube_path ++ [PKey "pivot"]) ;;; Ok v) ;;
        inflate <- if_in "inflate" kv (cube_inflate result) (fun v =>
          _assert_is_type "inflate" v is_int_or_float
            (cube_path ++ [PKey "inflate"]) ;;; Ok v) ;;
        mirror <- if_in "mirror" kv (cube_mirror result) (fun v =>
          checked_bool "mirror" v (cube_path ++ [PKey "mirror"])) ;;
        uv <- if_in "uv" kv (cube_uv result) (fun v =>
          _assert_is_type "uv" v is_list_or_dict (cube_path ++ [PKey "uv"]) ;;;
          if is_dict v then
            Raise (ImportingNotImplementedError "uv dictionary"
                     (cube_path ++ [PKey "uv"]))
          else if is_list v then
            _assert_is_vector "uv" v 2 is_int_or_float
              (cube_path ++ [PKey "uv"]) ;;; Ok v
          else
            Raise (FileIsNotAModelException
                     (MsgNotInstance (cube_path ++ [PKey "uv"]) "uv"))) ;;
        Ok (mk_cube origin size rotation pivot inflate mirror uv)
    | _ => Raise TypeError
    end
  else if String.eqb parser_version "1.8.0" then
    _assert_is_type "cube" cube is_dict cube_path ;;;
    match cube with
    | JDict kv =>
        let acceptable_keys := cube_keys_1_8 in
        _assert_has_accepted_keys_only "cube" (dict_keys kv) acceptable_keys
          cube_path ;;;
        origin <- if_in "origin" kv (cube_origin result) (fun v =>
          _assert_is_vector "origin" v 3 is_int_or_float
            (cube_path ++ [PKey "origin"]) ;;; Ok v) ;;
        size <- if_in "size" kv (cube_size result) (fun v =>
          _assert_is_vector "size" v 3 is_int_or_float
            (cube_path ++ [PKey "size"]) ;;; Ok v) ;;
        inflate <- if_in "inflate" kv (cube_inflate result) (fun v =>
          _assert_is_type "inflate" v is_int_or_float
            (cube_path ++ [PKey "inflate"]) ;;; Ok v) ;;
        mirror <- if_in "mirror" kv (cube_mirror result) (fun v =>
          checked_bool "mirror" v (cube_path ++ [PKey "mirror"])) ;;
        uv <- if_in "uv" kv (cube_uv result) (fun v =>
          _assert_is_type "uv" v is_list (cube_path ++ [PKey "uv"]) ;;;
          _assert_is_vector "uv" v 2 is_int_or_float
            (cube_path ++ [PKey "uv"]) ;;; Ok v) ;;
        Ok (mk_cube origin size (cube_rotation result) (cube_pivot result)
                    inflate mirror uv)
    | _ => Raise TypeError
    end
  else unsupported.

(** [for i, cube in enumerate(cubes)] *)
Fixpoint _load_cubes_from (i : nat) (cubes : list json)
    (cubes_path : json_path) (default_mirror : bool)
    : result (list cube_data) :=
  match cubes with
  | [] => Ok []
  | cube :: cubes' =>
      c <- _load_cube cube (cubes_path ++ [PIdx i]) default_mirror ;;
      rest <- _load_cubes_from (S i) cubes' cubes_path default_mirror ;;
      Ok (c :: rest)
  end.

Definition _load_cubes (cubes : json) (cubes_path : json_path)
    (default_mirror : bool) : result (list cube_data) :=
  parser_version <- pick_version_parser known_parsers format_version ;;
  if String.eqb parser_version "1.12.0" || String.eqb parser_version "1.8.0" then
    _assert_is_type "cubes property" cubes is_list cubes_path ;;;
    match cubes with
    | JList l => _load_cubes_from 0 l cubes_path default_mirror
    | _ => Raise TypeError
    end
  else unsupported.

(** The statements both branches of [_load_bone] share, from
    ['mirror'] on; [mirror] is [result['mirror']] at that point. *)
Definition _load_bone_tail (kv : list (string * json)) (bone_path : json_path)
    (name parent : option string) (pivot rotation : json)
    : result bone_data :=
  let result := default_bone in
  mirror <- if_in "mirror" kv (bone_mirror result) (fun v =>
    checked_bool "mirror" v (bone_path ++ [PKey "mirror"])) ;;
  if_in "inflate" kv tt (fun v =>
    _assert_is_type "inflate" v is_int_or_float
      (bone_path ++ [PKey "inflate"]) ;;;
    Raise (ImportingNotImplementedError "inflate"
             (bone_path ++ [PKey "inflate"]))) ;;;
  if_in "debug" kv tt (fun v =>
    _assert_is_type "debug" v is_bool (bone_path ++ [PKey "debug"]) ;;;
    Raise (ImportingNotImplementedError "debug"
             (bone_path ++ [PKey "debug"]))) ;;;
  if_in "redner_group_id" kv tt (fun v =>
    _assert_is_type "redner_group_id" v is_int_or_float
      (bone_path ++ [PKey "redner_group_id"]) ;;;
    Raise (ImportingNotImplementedError "redner_group_id"
             (bone_path ++ [PKey "redner_group_id"]))) ;;;
  cubes <- if_in "cubes" kv (bone_cubes result) (fun v =>
    _load_cubes v (bone_path ++ [PKey "cubes"]) mirror) ;;
  locators <- if_in "locators" kv (bone_locators result) (fun v =>
    _load_locators v (bone_path ++ [PKey "locators"])) ;;
  if_in "poly_mesh" kv tt (fun _ =>
    Raise (ImportingNotImplementedError "poly_mesh"
             (bone_path ++ [PKey "poly_mesh"]))) ;;;
  if_in "texture_meshes" kv tt (fun _ =>
    Raise (ImportingNotImplementedError "texture_meshes"
             (bone_path ++ [PKey "texture_meshes"]))) ;;;
  Ok (mk_bone name parent pivot rotation mirror (bone_inflate result)
              (bone_debug result) (bone_render_group_id result)
              cubes locators (bone_poly_mesh result)
              (bone_texture_meshes result)).

Definition _load_bone (bone : json) (bone_path : json_path)
    : result bone_data :=
  let result := default_bone in
  parser_version <- pick_version_parser known_parsers format_version ;;
  if String.eqb parser_version "1.12.0" then
    _assert_is_type "bone" bone is_dict bone_path ;;;
    match bone with
    | JDict kv =>
        _assert_has_required_keys "bone" (dict_keys kv) ["name"] bone_path ;;;
        let acceptable_keys := bone_keys_1_12 in
        _assert_has_accepted_keys_only "bone" (dict_keys kv) acceptable_keys
          bone_path ;;;
        name <- if_in "name" kv (bone_name result) (fun v =>
          s <- checked_str "name" v (bone_path ++ [PKey "name"]) ;; Ok (Some s)) ;;
        parent <- if_in "parent" kv (bone_parent result) (fun v =>
          s <- checked_str "parent" v (bone_path ++ [PKey "parent"]) ;;
          Ok (Some s)) ;;
        pivot <- if_in "pivot" kv (bone_pivot result) (fun v =>
          _assert_is_vector "pivot" v 3 is_int_or_float
            (bone_path ++ [PKey "pivot"]) ;;; Ok v) ;;
        rotation <- if_in "rotation" kv (bone_rotation result) (fun v =>
          _assert_is_vector "rotation" v 3 is_int_or_float
            (bone_path ++ [PKey "rotation"]) ;;; Ok v) ;;
        _load_bone_tail kv bone_path name parent pivot rotation
    | _ => Raise TypeError
    end
  else if String.eqb parser_version "1.8.0" then
    _assert_is_type "bone" bone is_dict bone_path ;;;
    match bone with
    | JDict kv =>
        _assert_has_required_keys "bone" (dict_keys kv) ["name"] bone_path ;;;
        let acceptable_keys := bone_keys_1_8 in
        _assert_has_accepted_keys_only "bone" (dict_keys kv) acceptable_keys
          bone_path ;;;
        name <- if_in "name" kv (bone_name result) (fun v =>
          s <- checked_str "name" v (bone_path ++ [PKey "name"]) ;; Ok (Some s)) ;;
        if_in "reset" kv tt (fun v =>
          _assert_is_type "reset" v is_bool (bone_path ++ [PKey "reset"]) ;;;
          Raise (ImportingNotImplementedError "reset"
                   (bone_path ++ [PKey "reset"]))) ;;;
        if_in "neverRender" kv tt (fun v =>
          _assert_is_type "neverRender" v is_bool
            (bone_path ++ [PKey "neverRender"]) ;;;
          Raise (ImportingNotImplementedError "neverRender"
                   (bone_path ++ [PKey "neverRender"]))) ;;;
        parent <- if_in "parent" kv (bone_parent result) (fun v =>
          s <- checked_str "parent" v (bone_path ++ [PKey "parent"]) ;;
          Ok (Some s)) ;;
        pivot <- if_in "pivot" kv (bone_pivot result) (fun v =>
          _assert_is_vector "pivot" v 3 is_int_or_float
            (bone_path ++ [PKey "pivot"]) ;;; Ok v) ;;
        rotation <- if_in "rotation" kv (bone_rotation result) (fun v =>
          _assert_is_vector "rotation" v 3 is_int_or_float
            (bone_path ++ [PKey "rotation"]) ;;; Ok v) ;;
        if_in "bind_pose_rotation" kv tt (fun v =>
          _assert_is_vector "bind_pose_rotation" v 3 is_int_or_float
            (bone_path ++ [PKey "bind_pose_rotation"]) ;;;
          Raise (ImportingNotImplementedError "bind_pose_rotation"
                   (bone_path ++ [PKey "bind_pose_rotation"]))) ;;;
        _load_bone_tail kv bone_path name parent pivot rotation
    | _ => Raise TypeError
    end
  else unsupported.

(** [for i, bone in enumerate(bones)] *)
Fixpoint _load_bones_from (i : nat) (bones : list json)
    (bones_path : json_path) : result (list bone_data) :=
  match bones with
  | [] => Ok []
  | bone :: bones' =>
      b <- _load_bone bone (bones_path ++ [PIdx i]) ;;
      rest <- _load_bones_from (S i) bones' bones_path ;;
      Ok (b :: rest)
  end.

Definition _load_bones (bones : json) (bones_path : json_path)
    : result (list bone_data) :=
  parser_version <- pick_version_parser known_parsers format_version ;;
  if String.eqb parser_version "1.12.0" || String.eqb parser_version "1.8.0" then
    _assert_is_type "bones property" bones is_list bones_path ;;;
    match bones with
    | JList l => _load_bones_from 0 l bones_path
    | _ => Raise TypeError
    end
  else unsupported.

(** The five optional entries both branches of [_load_description] read;
    [w] and [h] are the keys of the texture size in that version. *)
Definition _load_description_fields (desc : list (string * json))
    (geometry_path : json_path) (w h : string) (identifier : string)
    : result description_data :=
  let result := default_description in
  texture_width <- if_in w desc (desc_texture_width result) (fun v =>
    _assert_is_type w v is_int_or_float (geometry_path ++ [PKey w]) ;;;
    py_int_of_number v) ;;
  texture_height <- if_in h desc (desc_texture_height result) (fun v =>
    _assert_is_type h v is_int_or_float (geometry_path ++ [PKey h]) ;;;
    py_int_of_number v) ;;
  offset <- if_in "visible_bounds_offset" desc
      (desc_visible_bounds_offset result) (fun v =>
    _assert_is_vector "visible_bounds_offset" v 3 is_int_or_float
      (geometry_path ++ [PKey "visible_bounds_offset"]) ;;; Ok v) ;;
  width <- if_in "visible_bounds_width" desc
      (desc_visible_bounds_width result) (fun v =>
    _assert_is_type "visible_bounds_width" v is_int_or_float
      (geometry_path ++ [PKey "visible_bounds_width"]) ;;; Ok v) ;;
  height <- if_in "visible_bounds_height" desc
      (desc_visible_bounds_height result) (fun v =>
    _assert_is_type "visible_bounds_height" v is_int_or_float
      (geometry_path ++ [PKey "visible_bounds_height"]) ;;; Ok v) ;;
  Ok (mk_description texture_width texture_height offset width height
                     (Some identifier)).

Definition _load_description (geometry : json) (geometry_path : json_path)
    : result description_data :=
  parser_version <- pick_version_parser known_parsers format_version ;;
  if String.eqb parser_version "1.12.0" then
    desc <- json_getitem geometry "description" ;;
    let path := geometry_path ++ [PKey "description"] in
    keys <- keys_of desc ;;
    _assert_has_required_keys "description" keys ["identifier"] path ;;;
    let acceptable_keys := description_keys_1_12 in
    _assert_has_accepted_keys_only "description" keys acceptable_keys path ;;;
    identifier_value <- json_getitem desc "identifier" ;;
    identifier <- checked_str "identifier" identifier_value
                    (geometry_path ++ [PKey "identifier"]) ;;
    match desc with
    | JDict kv =>
        _load_description_fields kv geometry_path
          "texture_width" "texture_height" identifier
    | _ => Raise TypeError
    end
  else if String.eqb parser_version "1.8.0" then
    let desc := geometry in
    let path := geometry_path in
    keys <- keys_of desc ;;
    _assert_has_accepted_keys_only "geometry" keys geometry_keys_1_8 path ;;;
    identifier <-
      match last (map Some path) None with
      | None => Raise IndexError
      | Some (PKey k) => Ok k
      | Some (PIdx _) =>
          Raise (FileIsNotAModelException
                   (MsgNotInstance (geometry_path ++ [PKey "identifier"])
                                   "identifier"))
      end ;;
    match desc with
    | JDict kv =>
        if_in "debug" kv tt (fun v =>
          _assert_is_type "debug" v is_bool (geometry_path ++ [PKey "debug"]) ;;;
          Raise (ImportingNotImplementedError "debug" (path ++ [PKey "debug"]))) ;;;
        _load_description_fields kv geometry_path
          "texturewidth" "textureheight" identifier
    | _ => Raise TypeError
    end
  else unsupported.

(** [for i, geometry in enumerate(geometries)] of the 1.12.0 branch. *)
Fixpoint _load_geometry_1_12_from (i : nat) (geometries : list json)
    (geometry_name : string) : result (json * json_path) :=
  match geometries with
  | [] => Raise (ValueError "Unable to find geometry")
  | geometry :: geometries' =>
      let path := [PKey "minecraft:geometry"; PIdx i] in
      _assert_is_type "gometry" geometry is_dict path ;;;
      keys <- keys_of geometry ;;
      _assert_has_required_keys "geometry" keys ["description"; "bones"] path ;;;
      _assert_has_accepted_keys_only "geometry" keys ["description"; "bones"]
        path ;;;
      desc <- json_getitem geometry "description" ;;
      has_identifier <- json_contains "identifier" desc ;;
      if negb has_identifier then
        Raise (FileIsNotAModelException (MsgMissingIdentifier path))
      else
        identifier <- json_getitem desc "identifier" ;;
        if is_str_eq identifier geometry_name || String.eqb geometry_name ""
        then Ok (geometry, path)
        else _load_geometry_1_12_from (S i) geometries' geometry_name
  end.

(** [for k, geometry in geometries.items()] of the 1.8.0 branch. *)
Fixpoint _load_geometry_1_8_items (items : list (string * json))
    (geometry_name : string) : result (json * json_path) :=
  match items with
  | [] => Raise (ValueError "Unable to find geometry")
  | (k, geometry) :: items' =>
      if mem k ["format_version"; "debug"] then
        _load_geometry_1_8_items items' geometry_name
      else
        let path := [PKey k] in
        _assert_is_type "gometry" geometry is_dict path ;;;
        keys <- keys_of geometry ;;
        _assert_has_accepted_keys_only "geometry" keys geometry_keys_1_8 path ;;;
        let identifier := k in
        if String.eqb identifier geometry_name || String.eqb geometry_name ""
        then Ok (geometry, path)
        else _load_geometry_1_8_items items' geometry_name
  end.

Definition _load_geometry (geometry_name : string) (data : json)
    : result (json * json_path) :=
  parser_version <- pick_version_parser known_parsers format_version ;;
  if String.eqb parser_version "1.12.0" then
    geometries <- json_getitem data "minecraft:geometry" ;;
    let path := [PKey "minecraft:geometry"] in
    _assert_is_type "geometries" geometries is_list path ;;;
    match geometries with
    | JList l => _load_geometry_1_12_from 0 l geometry_name
    | _ => Raise TypeError
    end
  else if String.eqb parser_version "1.8.0" then
    let geometries := data in
    _assert_is_type "geometries" geometries is_dict [] ;;;
    match geometries with
    | JDict items => _load_geometry_1_8_items items geometry_name
    | _ => Raise TypeError
    end
  else
    Raise (FileIsNotAModelException (MsgUnsupportedVersionOf format_version)).

End ModelLoader.

(** [for k in data.keys(): _assert(...)] of the 1.8.0 branch of
    [_load_format_version]. *)
Fixpoint check_geometry_names (keys : list string) : result unit :=
  match keys with
  | [] => Ok tt
  | k :: keys' =>
      _assert (String.prefix "geometry." k || mem k ["debug"; "format_version"])
        (MsgInvalidGeometryName k) ;;;
      check_geometry_names keys'
  end.

Definition _load_format_version (data : json) : result json :=
  keys <- keys_of data ;;
  _assert_has_required_keys "model file" keys ["format_version"] [] ;;;
  format_version <- json_getitem data "format_version" ;;
  parser_version <- pick_version_parser known_parsers format_version ;;
  if String.eqb parser_version "1.12.0" then
    _assert_has_required_keys "model file" keys
      ["minecraft:geometry"; "format_version"] [] ;;;
    _assert_has_accepted_keys_only "model file" keys
      ["minecraft:geometry"; "format_version"; "cape"] [] ;;;
    if mem "cape" keys then Raise (ImportingNotImplementedError "cape" [])
    else Ok format_version
  else if String.eqb parser_version "1.8.0" then
    check_geometry_names keys ;;;
    if mem "debug" keys then Raise (ImportingNotImplementedError "debug" [])
    else Ok format_version
  else unsupported.

(** The attributes [ModelLoader.__init__] sets. *)
Record ModelLoader : Type := mk_loader {
  loader_data : json;
  loader_format_version : json;
  loader_description : description_data;
  loader_bones : list bone_data
}.

(** [ModelLoader(data, geometry_name)] *)
Definition load_model (data : json) (geometry_name : string)
    : result ModelLoader :=
  format_version <- _load_format_version data ;;
  gp <- _load_geometry format_version geometry_name data ;;
  let (geometry, geometry_path) := (gp : json * json_path) in
  description <- _load_description format_version geometry geometry_path ;;
  bones_value <- json_getitem geometry "bones" ;;
  bones <- _load_bones format_version bones_value
             (geometry_path ++ [PKey "bones"]) ;;
  Ok (mk_loader data format_version description bones).

(** ** common.py: numbers written to the model *)

(** A Python number as [get_vect_json] sees it: an [int], or a [float]
    (a rational here, with the IEEE negative zero apart). *)
Inductive pynum : Type :=
| PyInt (z : Z)
| PyFloat (q : Q)
| PyNegZero.

(** Rounding to the nearest integer, ties to the even one. *)
Definition round_half_even (q : Q) : Z :=
  let n := Qnum q in
  let d := Zpos (Qden q) in
  let f := (n / d)%Z in
  let r := (n mod d)%Z in
  match (2 * r ?= d)%Z with
  | Lt => f
  | Gt => (f + 1)%Z
  | Eq => if Z.even f then f else (f + 1)%Z
  end.

(** [round(i, 3)]: an [int] stays an [int]; a [float] becomes a multiple of
    one thousandth and keeps its sign when it rounds to zero. *)
Definition py_round3 (i : pynum) : pynum :=
  match i with
  | PyInt z => PyInt z
  | PyFloat q =>
      let k := round_half_even (Qmult q (1000 # 1)) in
      if (k =? 0)%Z && (Qnum q <? 0)%Z then PyNegZero else PyFloat (k # 1000)
  | PyNegZero => PyNegZero
  end.

(** [x == -0.0] *)
Definition is_zero (x : pynum) : bool :=
  match x with
  | PyInt z => (z =? 0)%Z
  | PyFloat q => (Qnum q =? 0)%Z
  | PyNegZero => true
  end.

(** [float(x).is_integer()] *)
Definition is_integer (x : pynum) : bool :=
  match x with
  | PyInt _ => true
  | PyFloat q => (Qnum q mod Zpos (Qden q) =? 0)%Z
  | PyNegZero => true
  end.

(** [int(x)] *)
Definition py_int_of (x : pynum) : Z :=
  match x with
  | PyInt z => z
  | PyFloat q => Z.quot (Qnum q) (Zpos (Qden q))
  | PyNegZero => 0%Z
  end.

(** The body of the loop of [get_vect_json]. *)
Definition normalize_entry (x : pynum) : pynum :=
  let x := if is_zero x then PyFloat (0 # 1) else x in
  if is_integer x then PyInt (py_int_of x) else x.

Definition get_vect_json (arr : list pynum) : list pynum :=
  let result := map py_round3 arr in
  map normalize_entry result.

(** [round(i)] *)
Definition py_round (i : pynum) : pynum :=
  match i with
  | PyInt z => PyInt z
  | PyFloat q => PyInt (round_half_even q)
  | PyNegZero => PyInt 0
  end.

(** The rational a number stands for. *)
Definition num_value (x : pynum) : Q :=
  match x with
  | PyInt z => z # 1
  | PyFloat q => q
  | PyNegZero => 0 # 1
  end.

(** [i if i != -180 else 180] *)
Definition flip_minus_180 (i : pynum) : pynum :=
  if Qeq_bool (num_value i) (-180 # 1) then PyInt 180 else i.

(** A numpy array of three floats, over the rationals. *)
Record qvec3 : Type := mkq { qx : Q; qy : Q; qz : Q }.

Definition qadd (a b : qvec3) : qvec3 :=
  mkq (Qplus (qx a) (qx b)) (Qplus (qy a) (qy b)) (Qplus (qz a) (qz b)).
Definition qsub (a b : qvec3) : qvec3 :=
  mkq (Qminus (qx a) (qx b)) (Qminus (qy a) (qy b)) (Qminus (qz a) (qz b)).
Definition qmul (a b : qvec3) : qvec3 :=
  mkq (Qmult (qx a) (qx b)) (Qmult (qy a) (qy b)) (Qmult (qz a) (qz b)).
Definition qscale (a : qvec3) (k : Q) : qvec3 :=
  mkq (Qmult (qx a) k) (Qmult (qy a) k) (Qmult (qz a) k).
Definition qshift (a : qvec3) (k : Q) : qvec3 :=
  mkq (Qplus (qx a) k) (Qplus (qy a) k) (Qplus (qz a) k).
Definition qdiv (a : qvec3) (k : Q) : qvec3 :=
  mkq (Qdiv (qx a) k) (Qdiv (qy a) k) (Qdiv (qz a) k).

(** Equality of the three rationals, component by component. *)
Definition qeq (a b : qvec3) : Prop :=
  Qeq (qx a) (qx b) /\ Qeq (qy a) (qy b) /\ Qeq (qz a) (qz b).

(** [v[[0, 2, 1]]] and [v.xzy] *)
Definition xzy (v : qvec3) : qvec3 := mkq (qx v) (qz v) (qy v).

(** The three floats of an array, as an iterable of numbers. *)
Definition floats (v : qvec3) : list pynum :=
  [PyFloat (qx v); PyFloat (qy v); PyFloat (qz v)].

Definition MINECRAFT_SCALE_FACTOR : Q := 16 # 1.

Inductive MCObjType : Type := CUBE | BONE | BOTH | LOCATOR.

Definition MCObjType_eqb (a b : MCObjType) : bool :=
  match a, b with
  | CUBE, CUBE | BONE, BONE | BOTH, BOTH | LOCATOR, LOCATOR => true
  | _, _ => false
  end.

Record ObjectId : Type := mk_id { id_name : string; id_bone_name : string }.

Definition ObjectId_eqb (a b : ObjectId) : bool :=
  String.eqb (id_name a) (id_name b) &&
  String.eqb (id_bone_name a) (id_bone_name b).

(** ** The scene of the host, as common.py reads it *)

Section Blender.

(** [mathutils.Matrix] and the operations the sources call on it. *)
Variable Matrix : Type.
Variable matmul : Matrix -> Matrix -> Matrix.
(** [inverted()] raises [ValueError] on a singular matrix. *)
Variable inverted : Matrix -> option Matrix.
Variable normalized : Matrix -> Matrix.
Variable to_translation : Matrix -> qvec3.
(** [m.to_euler('XZY')] and [m.to_quaternion().to_euler('XZY')] *)
Variable to_euler_XZY : Matrix -> qvec3.
Variable quaternion_euler_XZY : Matrix -> qvec3.
(** The scale part of [m.decompose()]. *)
Variable decompose_scale : Matrix -> qvec3.
(** [math.pi], a float. *)
Variable math_pi : Q.

(** A bone of an armature: [data.bones[name]] with the matrix of
    [pose.bones[name]]. *)
Record armature_bone : Type := mk_armature_bone {
  ab_name : string;
  ab_parent : option string;
  ab_children : nat;
  ab_matrix : Matrix
}.

(** A [bpy_types.Object]; the parent chain is part of the value, so it is
    finite, as in a scene. *)
Inductive bpy_Object : Type :=
| BpyObject (type_ : string) (name : string)
    (parent : option bpy_Object) (parent_type : string) (parent_bone : string)
    (children : nat) (custom : list (string * json))
    (matrix_world : Matrix) (bound_box : list qvec3)
    (bones : list armature_bone).

Definition ob_type (o : bpy_Object) : string :=
  match o with BpyObject t _ _ _ _ _ _ _ _ _ => t end.
Definition ob_name (o : bpy_Object) : string :=
  match o with BpyObject _ n _ _ _ _ _ _ _ _ => n end.
Definition ob_parent (o : bpy_Object) : option bpy_Object :=
  match o with BpyObject _ _ p _ _ _ _ _ _ _ => p end.
Definition ob_parent_type (o : bpy_Object) : string :=
  match o with BpyObject _ _ _ t _ _ _ _ _ _ => t end.
Definition ob_parent_bone (o : bpy_Object) : string :=
  match o with BpyObject _ _ _ _ b _ _ _ _ _ => b end.
Definition ob_children (o : bpy_Object) : nat :=
  match o with BpyObject _ _ _ _ _ c _ _ _ _ => c end.
Definition ob_custom (o : bpy_Object) : list (string * json) :=
  match o with BpyObject _ _ _ _ _ _ c _ _ _ => c end.
Definition ob_matrix_world (o : bpy_Object) : Matrix :=
  match o with BpyObject _ _ _ _ _ _ _ m _ _ => m end.
Definition ob_bound_box (o : bpy_Object) : list qvec3 :=
  match o with BpyObject _ _ _ _ _ _ _ _ b _ => b end.
Definition ob_bones (o : bpy_Object) : list armature_bone :=
  match o with BpyObject _ _ _ _ _ _ _ _ _ b => b end.

(** [key in obj] on the custom properties. *)
Definition has_custom (key : string) (o : bpy_Object) : bool :=
  mem key (dict_keys (ob_custom o)).

(** [obj.data.bones[name]] and [obj.pose.bones[name]] *)
Definition find_bone (name : string) (o : bpy_Object) : option armature_bone :=
  find (fun b => String.eqb (ab_name b) name) (ob_bones o).

Record ObjectMcProperties : Type := mk_props {
  thisobj_id : ObjectId;
  thisobj : bpy_Object;
  mcparent : option ObjectId;
  mcchildren : list ObjectId;
  mctype : MCObjType
}.

(** [Dict[ObjectId, ObjectMcProperties]] *)
Definition properties_dict := list (ObjectId * ObjectMcProperties).

Fixpoint props_get (k : ObjectId) (d : properties_dict)
    : option ObjectMcProperties :=
  match d with
  | [] => None
  | (k', v) :: d' => if ObjectId_eqb k k' then Some v else props_get k d'
  end.

(** [d[k] = v] *)
Fixpoint props_set (k : ObjectId) (v : ObjectMcProperties)
    (d : properties_dict) : properties_dict :=
  match d with
  | [] => [(k, v)]
  | (k', v') :: d' =>
      if ObjectId_eqb k k' then (k', v) :: d' else (k', v') :: props_set k v d'
  end.

(** [ObjectMcProperties.name] *)
Definition name (p : ObjectMcProperties) : result string :=
  if String.eqb (ob_type (thisobj p)) "ARMATURE" then
    match find_bone (id_bone_name (thisobj_id p)) (thisobj p) with
    | Some b => Ok (ab_name b)
    | None => Raise KeyError
    end
  else
    Ok (hd EmptyString (split_on "."%char (ob_name (thisobj p)))).

(** [ObjectMcProperties.matrix_world] *)
Definition matrix_world (p : ObjectMcProperties) : result Matrix :=
  if String.eqb (ob_type (thisobj p)) "ARMATURE" then
    match find_bone (id_bone_name (thisobj_id p)) (thisobj p) with
    | Some b => Ok (matmul (ob_matrix_world (thisobj p)) (ab_matrix b))
    | None => Raise KeyError
    end
  else
    Ok (ob_matrix_world (thisobj p)).

Definition has_uv (p : ObjectMcProperties) : bool :=
  has_custom "mc_uv" (thisobj p).
Definition has_mc_inflate (p : ObjectMcProperties) : bool :=
  has_custom "mc_inflate" (thisobj p).
Definition has_mc_mirror (p : ObjectMcProperties) : bool :=
  has_custom "mc_mirror" (thisobj p).

Definition pynum_of_json (v : json) : result pynum :=
  match v with
  | JInt z => Ok (PyInt z)
  | JFloat q => Ok (PyFloat q)
  | JBool b => Ok (PyInt (if b then 1 else 0))
  | _ => Raise TypeError
  end.

(** [tuple(self.thisobj['mc_uv'])] *)
Definition get_mc_uv (p : ObjectMcProperties) : result (list pynum) :=
  v <- json_getitem (JDict (ob_custom (thisobj p))) "mc_uv" ;;
  match v with
  | JList l => traverse pynum_of_json l
  | _ => Raise TypeError
  end.

(** [self.thisobj['mc_inflate']] *)
Definition get_mc_inflate (p : ObjectMcProperties) : result pynum :=
  v <- json_getitem (JDict (ob_custom (thisobj p))) "mc_inflate" ;;
  pynum_of_json v.

(** [get_local_matrix] *)
Definition get_local_matrix (parent_world_matrix child_world_matrix : Matrix)
    : result Matrix :=
  match inverted parent_world_matrix with
  | Some inv => Ok (matmul inv child_world_matrix)
  | None => Raise (ValueError "Matrix.invert(ed): matrix does not have an inverse")
  end.

(** [get_mcrotation] *)
Definition get_mcrotation (child_matrix : Matrix)
    (parent_matrix : option Matrix) : result qvec3 :=
  result <-
    match parent_matrix with
    | Some parent_matrix =>
        let child_matrix := normalized child_matrix in
        let parent_matrix := normalized parent_matrix in
        m <- get_local_matrix parent_matrix child_matrix ;;
        Ok (quaternion_euler_XZY m)
    | None => Ok (to_euler_XZY child_matrix)
    end ;;
  let result := xzy result in
  let result := qmul result (mkq (1 # 1) (-1 # 1) (1 # 1)) in
  Ok (qdiv (qscale result (180 # 1)) math_pi).

(** [bound_box[i]] *)
Definition bound_box_corner (p : ObjectMcProperties) (i : nat) : result qvec3 :=
  match nth_error (ob_bound_box (thisobj p)) i with
  | Some v => Ok v
  | None => Raise IndexError
  end.

Definition get_mcube_size (objprop : ObjectMcProperties) : result qvec3 :=
  hi <- bound_box_corner objprop 6 ;;
  lo <- bound_box_corner objprop 0 ;;
  Ok (xzy (qsub hi lo)).

Definition get_mccube_position (objprop : ObjectMcProperties) : result qvec3 :=
  lo <- bound_box_corner objprop 0 ;;
  Ok (xzy lo).

(** [local_crds] of [get_mcpivot] *)
Definition local_crds (parent_matrix child_matrix : Matrix) : result qvec3 :=
  let parent_matrix := normalized parent_matrix in
  let child_matrix := normalized child_matrix in
  m <- get_local_matrix parent_matrix child_matrix ;;
  Ok (to_translation m).

(** [_get_mcpivot]: the recursion goes up the chain of [mcparent]; [frames]
    is the number of nested calls the interpreter still allows, and
    running out of them is Python's [RecursionError]. *)
Fixpoint _get_mcpivot (frames : nat) (object_properties : properties_dict)
    (objprop : ObjectMcProperties) : result qvec3 :=
  match frames with
  | O => Raise RecursionError
  | S frames' =>
      match mcparent objprop with
      | Some parent_id =>
          match props_get parent_id object_properties with
          | None => Raise KeyError
          | Some parent =>
              parent_matrix <- matrix_world parent ;;
              child_matrix <- matrix_world objprop ;;
              result <- local_crds parent_matrix child_matrix ;;
              up <- _get_mcpivot frames' object_properties parent ;;
              Ok (qadd result up)
          end
      | None =>
          m <- matrix_world objprop ;;
          Ok (to_translation m)
      end
  end.

Definition get_mcpivot (frames : nat) (objprop : ObjectMcProperties)
    (object_properties : properties_dict) : result qvec3 :=
  v <- _get_mcpivot frames object_properties objprop ;;
  Ok (xzy v).

(** [loop_objects] *)
Definition loop_objects (objects : list bpy_Object)
    : list (ObjectId * bpy_Object) :=
  flat_map
    (fun obj =>
       if mem (ob_type obj) ["MESH"; "EMPTY"] then
         [(mk_id (ob_name obj) "", obj)]
       else if String.eqb (ob_type obj) "ARMATURE" then
         map (fun bone => (mk_id (ob_name obj) (ab_name bone), obj))
             (ob_bones obj)
       else [])
    objects.

(** [get_parent_mc_bone]: the [while] loop walks the parents of [obj];
    [obj_id] is the variable of that name. *)
Fixpoint get_parent_mc_bone_from (obj : bpy_Object) (obj_id : option ObjectId)
    : result (option ObjectId) :=
  match obj with
  | BpyObject _ _ parent parent_type parent_bone _ _ _ _ _ =>
      match parent with
      | None => Ok obj_id
      | Some parent_obj =>
          if String.eqb parent_type "BONE" then
            Ok (Some (mk_id (ob_name parent_obj) parent_bone))
          else if String.eqb parent_type "OBJECT" then
            let obj_id := Some (mk_id (ob_name parent_obj) "") in
            if String.eqb (ob_type parent_obj) "EMPTY"
               || has_custom "mc_is_bone" parent_obj
            then Ok obj_id
            else get_parent_mc_bone_from parent_obj obj_id
          else Raise (PyException "Unsuported parent type")
      end
  end.

Definition get_parent_mc_bone (obj : bpy_Object) : result (option ObjectId) :=
  get_parent_mc_bone_from obj None.

(** [objprop.mctype not in [MCObjType.BONE, MCObjType.BOTH]] is [false] *)
Definition is_bone_or_both (t : MCObjType) : bool :=
  match t with BONE | BOTH => true | _ => false end.

(** The loop of [get_name_conflicts] over [object_properties.values()];
    [names] is the list of that name. *)
Fixpoint get_name_conflicts_from (values : list ObjectMcProperties)
    (names : list string) : result string :=
  match values with
  | [] => Ok ""
  | objprop :: values' =>
      if negb (is_bone_or_both (mctype objprop)) then
        get_name_conflicts_from values' names
      else
        n <- name objprop ;;
        if mem n names then Ok n
        else get_name_conflicts_from values' (names ++ [n])
  end.

Definition get_name_conflicts (object_properties : properties_dict)
    : result string :=
  get_name_conflicts_from (map snd object_properties) [].

(** The first loop of [get_object_mcproperties]; [None] in the result of
    the body stands for [continue]. *)
Definition classify (obj_id : ObjectId) (obj : bpy_Object)
    : result (option ObjectMcProperties) :=
  if String.eqb (ob_type obj) "EMPTY" then
    let curr_obj_mc_type :=
      if match ob_parent obj with Some _ => true | None => false end
         && Nat.eqb (ob_children obj) 0
         && negb (has_custom "mc_is_bone" obj)
      then LOCATOR else BONE in
    curr_obj_mc_parent <-
      match ob_parent obj with
      | Some _ => get_parent_mc_bone obj
      | None => Ok None
      end ;;
    Ok (Some (mk_props obj_id obj curr_obj_mc_parent [] curr_obj_mc_type))
  else if String.eqb (ob_type obj) "MESH" then
    if match ob_parent obj with None => true | Some _ => false end
       || has_custom "mc_is_bone" obj
    then Ok (Some (mk_props obj_id obj None [] BOTH))
    else
      curr_obj_mc_parent <- get_parent_mc_bone obj ;;
      Ok (Some (mk_props obj_id obj curr_obj_mc_parent [] CUBE))
  else if String.eqb (ob_type obj) "ARMATURE" then
    match find_bone (id_bone_name obj_id) obj with
    | None => Raise KeyError
    | Some bone =>
        if match ab_parent bone with None => true | Some _ => false end
           && Nat.eqb (ab_children bone) 0
        then Ok None
        else
          let curr_obj_mc_parent :=
            match ab_parent bone with
            | Some parent_name => Some (mk_id (ob_name obj) parent_name)
            | None => None
            end in
          Ok (Some (mk_props obj_id obj curr_obj_mc_parent [] BONE))
    end
  else Ok None.

Fixpoint collect_properties (items : list (ObjectId * bpy_Object))
    (properties : properties_dict) : result properties_dict :=
  match items with
  | [] => Ok properties
  | (obj_id, obj) :: items' =>
      c <- classify obj_id obj ;;
      match c with
      | Some p => collect_properties items' (props_set obj_id p properties)
      | None => collect_properties items' properties
      end
  end.

(** [properties[objprop.mcparent].mcchildren.append(objid)] *)
Definition append_child (parent_id objid : ObjectId)
    (properties : properties_dict) : properties_dict :=
  match props_get parent_id properties with
  | Some p =>
      props_set parent_id
        (mk_props (thisobj_id p) (thisobj p) (mcparent p)
                  (mcchildren p ++ [objid]) (mctype p))
        properties
  | None => properties
  end.

(** The second loop of [get_object_mcproperties]: it runs over the items
    of the dictionary and only touches the lists of children. *)
Definition fill_children (properties : properties_dict) : properties_dict :=
  fold_left
    (fun acc item =>
       match mcparent (snd item) with
       | Some parent_id =>
           match props_get parent_id acc with
           | Some _ => append_child parent_id (fst item) acc
           | None => acc
           end
       | None => acc
       end)
    properties properties.

(** [get_object_mcproperties(context)], on [context.selected_objects]. *)
Definition get_object_mcproperties (selected_objects : list bpy_Object)
    : result properties_dict :=
  properties <- collect_properties (loop_objects selected_objects) [] ;;
  Ok (fill_children properties).

End Blender.

(** ** model.py: the exported model *)

(** The dictionary of one cube in the exported bone. *)
Record mccube_json : Type := mk_mccube {
  cj_uv : list pynum;
  cj_size : list pynum;
  cj_origin : list pynum;
  cj_pivot : list pynum;
  cj_rotation : list pynum;
  cj_inflate : option pynum;
  cj_mirror : bool
}.

(** The dictionary of one exported bone. *)
Record mcbone_json : Type := mk_mcbone {
  bj_name : string;
  bj_cubes : list mccube_json;
  bj_parent : option string;
  bj_pivot : list pynum;
  bj_rotation : list pynum;
  bj_locators : option (list (string * list pynum))
}.

(** The dictionary [get_mcmodel_json] returns; [B] is what a bone is. *)
Record mcmodel_json (B : Type) : Type := mk_mcmodel {
  mj_format_version : string;
  mj_identifier : string;
  mj_texture_width : Z;
  mj_texture_height : Z;
  mj_visible_bounds_width : Z;
  mj_visible_bounds_height : Z;
  mj_visible_bounds_offset : list pynum;
  mj_bones : list B
}.

Definition get_mcmodel_json {B : Type} (model_name : string)
    (mc_bones : list B) (texture_width texture_height : Z) : mcmodel_json B :=
  mk_mcmodel "1.12.0" (String.append "geometry." model_name)
             texture_width texture_height 10 10
             [PyInt 0; PyInt 2; PyInt 0] mc_bones.

(** [d[k] = v] on a dictionary with string keys. *)
Fixpoint str_dict_set {V : Type} (k : string) (v : V)
    (d : list (string * V)) : list (string * V) :=
  match d with
  | [] => [(k, v)]
  | (k', v') :: d' =>
      if String.eqb k k' then (k', v) :: d' else (k', v') :: str_dict_set k v d'
  end.

Section BoneJson.

Variable Matrix : Type.
Variable matmul : Matrix -> Matrix -> Matrix.
Variable inverted : Matrix -> option Matrix.
Variable normalized : Matrix -> Matrix.
Variable to_translation : Matrix -> qvec3.
Variable to_euler_XZY : Matrix -> qvec3.
Variable quaternion_euler_XZY : Matrix -> qvec3.
Variable decompose_scale : Matrix -> qvec3.
Variable math_pi : Q.

(** The number of nested calls [get_mcpivot] may still make. *)
Variable frames : nat.

Let props := ObjectMcProperties Matrix.

(** [_scale] of [get_mcbone_json] *)
Definition _scale (objprop : props) : result qvec3 :=
  m <- matrix_world matmul objprop ;;
  Ok (xzy (decompose_scale m)).

Definition scaled_pivot (objprop : props)
    (object_properties : properties_dict Matrix) : result qvec3 :=
  v <- get_mcpivot matmul inverted normalized to_translation frames
         objprop object_properties ;;
  Ok (qscale v MINECRAFT_SCALE_FACTOR).

(** The body of [for locatorprop in locatorprops]. *)
Definition locator_entry (locatorprop : props)
    (object_properties : properties_dict Matrix)
    : result (string * list pynum) :=
  _l_scale <- _scale locatorprop ;;
  l_pivot <- scaled_pivot locatorprop object_properties ;;
  position <- get_mccube_position locatorprop ;;
  let l_origin :=
    qadd l_pivot (qscale (qmul position _l_scale) MINECRAFT_SCALE_FACTOR) in
  n <- name locatorprop ;;
  Ok (n, get_vect_json (floats l_origin)).

(** The body of [for cubeprop in cubeprops]. *)
Definition cube_entry (boneprop cubeprop : props)
    (object_properties : properties_dict Matrix) : result mccube_json :=
  _c_scale <- _scale cubeprop ;;
  size <- get_mcube_size cubeprop ;;
  let c_size := qscale (qmul size _c_scale) MINECRAFT_SCALE_FACTOR in
  c_pivot <- scaled_pivot cubeprop object_properties ;;
  position <- get_mccube_position cubeprop ;;
  let c_origin :=
    qadd c_pivot (qscale (qmul position _c_scale) MINECRAFT_SCALE_FACTOR) in
  cube_matrix <- matrix_world matmul cubeprop ;;
  bone_matrix <- matrix_world matmul boneprop ;;
  c_rot <- get_mcrotation matmul inverted normalized to_euler_XZY
             quaternion_euler_XZY math_pi cube_matrix (Some bone_matrix) ;;
  uv <- (if has_uv cubeprop then get_mc_uv cubeprop
         else Ok [PyInt 0; PyInt 0]) ;;
  sized <-
    (if has_mc_inflate cubeprop then
       inflate <- get_mc_inflate cubeprop ;;
       Ok (qshift c_size (Qopp (Qmult (num_value inflate) (2 # 1))),
           qshift c_origin (num_value inflate))
     else Ok (c_size, c_origin)) ;;
  let (c_size, c_origin) := (sized : qvec3 * qvec3) in
  inflate <-
    (if has_mc_inflate cubeprop then
       i <- get_mc_inflate cubeprop ;; Ok (Some i)
     else Ok None) ;;
  Ok (mk_mccube
        (get_vect_json uv)
        (map py_round (get_vect_json (floats c_size)))
        (get_vect_json (floats c_origin))
        (get_vect_json (floats c_pivot))
        (map flip_minus_180 (get_vect_json (floats c_rot)))
        inflate
        (has_mc_mirror cubeprop)).

Definition get_mcbone_json (boneprop : props) (cubeprops locatorprops : list props)
    (object_properties : properties_dict Matrix) : result mcbone_json :=
  bone_name <- name boneprop ;;
  head <-
    match mcparent boneprop with
    | Some parent_id =>
        match props_get parent_id object_properties with
        | None => Raise KeyError
        | Some parent =>
            parent_name <- name parent ;;
            bone_matrix <- matrix_world matmul boneprop ;;
            parent_matrix <- matrix_world matmul parent ;;
            b_rot <- get_mcrotation matmul inverted normalized to_euler_XZY
                       quaternion_euler_XZY math_pi bone_matrix
                       (Some parent_matrix) ;;
            Ok (Some parent_name, b_rot)
        end
    | None =>
        bone_matrix <- matrix_world matmul boneprop ;;
        b_rot <- get_mcrotation matmul inverted normalized to_euler_XZY
                   quaternion_euler_XZY math_pi bone_matrix None ;;
        Ok (None, b_rot)
    end ;;
  let (parent_name, b_rot) := (head : option string * qvec3) in
  b_pivot <- scaled_pivot boneprop object_properties ;;
  let pivot := get_vect_json (floats b_pivot) in
  let rotation := get_vect_json (floats b_rot) in
  locators <- traverse (fun l => locator_entry l object_properties)
                       locatorprops ;;
  let locators :=
    if Nat.ltb 0 (List.length locatorprops) then
      Some (fold_left (fun d e => str_dict_set (fst e) (snd e) d) locators [])
    else None in
  cubes <- traverse (fun c => cube_entry boneprop c object_properties)
                    cubeprops ;;
  Ok (mk_mcbone bone_name cubes parent_name pivot rotation locators).

End BoneJson.

(** ** operator_func/__init__.py: [export_model] *)

Section ExportModel.

Variable Matrix : Type.

(** The bone dictionary this file builds with [get_mcbone_json(obj, cubes)],
    a helper of two arguments that is not part of the sources at hand. *)
Variable B : Type.
Variable get_mcbone_json_of_objects :
  bpy_Object Matrix -> list (bpy_Object Matrix) -> result B.

(** [bpy.data.objects[child_name]], the key being an entry of
    [mcchildren] as it stands. *)
Variable bpy_data_objects : ObjectId -> option (bpy_Object Matrix).

(** [object_properties[obj.name]].  This file indexes the dictionary by
    the name of the object, while the keys of the dictionary common.py
    builds are [ObjectId]s; what the lookup finds is left open here, the
    two readings being [by_object_name] and [by_str_key] below. *)
Variable properties_of_name :
  string -> properties_dict Matrix -> option (ObjectMcProperties Matrix).

(** What [export_model] reads from its [context]. *)
Record export_context : Type := mk_context {
  selected_objects : list (bpy_Object Matrix);
  texture_width : Z;
  texture_height : Z;
  model_name : string
}.

(** The inner loop over [mcchildren]: the children of type [CUBE]. *)
Fixpoint child_cubes (children : list ObjectId)
    (object_properties : properties_dict Matrix)
    : result (list (bpy_Object Matrix)) :=
  match children with
  | [] => Ok []
  | child_name :: children' =>
      match props_get child_name object_properties with
      | Some child =>
          if MCObjType_eqb (mctype child) CUBE then
            match bpy_data_objects child_name with
            | None => Raise KeyError
            | Some o =>
                rest <- child_cubes children' object_properties ;;
                Ok (o :: rest)
            end
          else child_cubes children' object_properties
      | None => child_cubes children' object_properties
      end
  end.

(** The loop over [context.selected_objects]. *)
Fixpoint export_bones (objects : list (bpy_Object Matrix))
    (object_properties : properties_dict Matrix) : result (list B) :=
  match objects with
  | [] => Ok []
  | obj :: objects' =>
      match properties_of_name (ob_name obj) object_properties with
      | Some p =>
          if is_bone_or_both (mctype p) then
            let cubes := if MCObjType_eqb (mctype p) BOTH then [obj] else [] in
            children <- child_cubes (mcchildren p) object_properties ;;
            mcbone <- get_mcbone_json_of_objects obj (cubes ++ children) ;;
            rest <- export_bones objects' object_properties ;;
            Ok (mcbone :: rest)
          else export_bones objects' object_properties
      | None => export_bones objects' object_properties
      end
  end.

Definition export_model (context : export_context) : result (mcmodel_json B) :=
  object_properties <- get_object_mcproperties (selected_objects context) ;;
  mc_bones <- export_bones (selected_objects context) object_properties ;;
  Ok (get_mcmodel_json (model_name context) mc_bones
        (texture_width context) (texture_height context)).

End ExportModel.

(** The name read as the key of a mesh or an empty,
    [ObjectId(obj.name, '')]. *)
Definition by_object_name (Matrix : Type) (name : string)
    (object_properties : properties_dict Matrix)
    : option (ObjectMcProperties Matrix) :=
  props_get (mk_id name "") object_properties.

(** The name taken as it is: a [str] equals no [ObjectId], so that
    [obj.name in object_properties] is false. *)
Definition by_str_key (Matrix : Type) (name : string)
    (object_properties : properties_dict Matrix)
    : option (ObjectMcProperties Matrix) :=
  None.

(** ** importer.py: the import records and [ImportGeometry.build] *)

(** An object of the scene under construction; objects are known by their
    position in the scene.  [so_matrix_parent_inverse = Some p] records
    that the inverse of the world matrix of object [p] was stored;
    [so_rotations] lists the Euler triples [rotate] was given. *)
Record scene_object : Type := mk_scene_object {
  so_type : string;
  so_name : string;
  so_location : qvec3;
  so_custom : list string;
  so_vertices : list qvec3;
  so_parent : option nat;
  so_matrix_parent_inverse : option nat;
  so_rotations : list qvec3
}.

Definition scene := list scene_object.

Record ImportLocator : Type := mk_import_locator {
  il_name : string;
  il_position : json;
  il_blend_empty : option nat
}.

Record ImportCube : Type := mk_import_cube {
  ic_blend_cube : option nat;
  ic_uv : json;
  ic_mirror : bool;
  ic_origin : json;
  ic_pivot : json;
  ic_size : json;
  ic_rotation : json
}.

Record ImportBone : Type := mk_import_bone {
  ib_blend_empty : option nat;
  ib_name : string;
  ib_parent : option string;
  ib_cubes : list ImportCube;
  ib_locators : list ImportLocator;
  ib_pivot : json;
  ib_rotation : json;
  ib_mirror : bool
}.

Record ImportGeometry : Type := mk_import_geometry {
  ig_identifier : string;
  ig_texture_width : Z;
  ig_texture_height : Z;
  ig_bones : list (string * ImportBone)
}.

(** [ImportCube(data)] *)
Definition new_ImportCube (data : cube_data) : ImportCube :=
  mk_import_cube None (cube_uv data) (cube_mirror data) (cube_origin data)
                 (cube_pivot data) (cube_size data) (cube_rotation data).

(** [ImportBone(data)] *)
Definition new_ImportBone (data : bone_data) : result ImportBone :=
  let locators :=
    map (fun kv => mk_import_locator (fst kv) (snd kv) None)
        (bone_locators data) in
  let import_cubes := map new_ImportCube (bone_cubes data) in
  match bone_name data with
  | None => Raise KeyError
  | Some name =>
      Ok (mk_import_bone None name (bone_parent data) import_cubes locators
                         (bone_pivot data) (bone_rotation data)
                         (bone_mirror data))
  end.

(** The loop [for bone in loader.bones] of [ImportGeometry.__init__]. *)
Fixpoint read_bones (bones : list bone_data)
    (acc : list (string * ImportBone)) : result (list (string * ImportBone)) :=
  match bones with
  | [] => Ok acc
  | bone :: bones' =>
      import_bone <- new_ImportBone bone ;;
      read_bones bones' (str_dict_set (ib_name import_bone) import_bone acc)
  end.

(** [ImportGeometry(loader)] *)
Definition new_ImportGeometry (loader : ModelLoader) : result ImportGeometry :=
  identifier <-
    match desc_identifier (loader_description loader) with
    | Some i => Ok i
    | None => Raise KeyError
    end ;;
  bones <- read_bones (loader_bones loader) [] ;;
  Ok (mk_import_geometry identifier
        (desc_texture_width (loader_description loader))
        (desc_texture_height (loader_description loader))
        bones).

Definition number_of_json (v : json) : result Q :=
  match v with
  | JInt z => Ok (z # 1)%Q
  | JFloat q => Ok q
  | JBool b => Ok (if b then 1 # 1 else 0 # 1)%Q
  | _ => Raise TypeError
  end.

(** [np.array(v)[[0, 2, 1]]] on a tuple of numbers. *)
Definition np_xzy (v : json) : result qvec3 :=
  match v with
  | JList (a :: b :: c :: _) =>
      x <- number_of_json a ;;
      y <- number_of_json b ;;
      z <- number_of_json c ;;
      Ok (mkq x z y)
  | JList _ => Raise IndexError
  | _ => Raise TypeError
  end.

Section Build.

(** [math.pi] *)
Variable math_pi : Q.

Definition update_object (s : scene) (i : nat)
    (f : scene_object -> scene_object) : result scene :=
  match nth_error s i with
  | None => Raise AttributeError
  | Some o => Ok (firstn i s ++ f o :: skipn (S i) s)
  end.

(** [obj] of the sources is an [Optional]: using [None] as an object is an
    [AttributeError]. *)
Definition deref (o : option nat) : result nat :=
  match o with
  | Some i => Ok i
  | None => Raise AttributeError
  end.

(** [bpy.ops.object.empty_add(...)] and [bpy.ops.mesh.primitive_cube_add(
    size=1, ...)]: the new object is [context.object]. *)
Definition empty_add (s : scene) : scene * nat :=
  (s ++ [mk_scene_object "EMPTY" "Empty" (mkq 0 0 0) [] [] None None []],
   List.length s).

Definition unit_cube_vertices : list qvec3 :=
  let h := (1 # 2)%Q in
  let m := Qopp h in
  [mkq m m m; mkq m m h; mkq m h m; mkq m h h;
   mkq h m m; mkq h m h; mkq h h m; mkq h h h].

Definition primitive_cube_add (s : scene) : scene * nat :=
  (s ++ [mk_scene_object "MESH" "Cube" (mkq 0 0 0) []
           unit_cube_vertices None None []],
   List.length s).

Definition with_location (o : scene_object) (l : qvec3) : scene_object :=
  mk_scene_object (so_type o) (so_name o) l (so_custom o) (so_vertices o)
                  (so_parent o) (so_matrix_parent_inverse o) (so_rotations o).
Definition with_name (o : scene_object) (n : string) : scene_object :=
  mk_scene_object (so_type o) n (so_location o) (so_custom o) (so_vertices o)
                  (so_parent o) (so_matrix_parent_inverse o) (so_rotations o).
Definition with_custom (o : scene_object) (k : string) : scene_object :=
  mk_scene_object (so_type o) (so_name o) (so_location o)
                  (so_custom o ++ [k]) (so_vertices o)
                  (so_parent o) (so_matrix_parent_inverse o) (so_rotations o).
Definition with_vertices (o : scene_object) (v : list qvec3) : scene_object :=
  mk_scene_object (so_type o) (so_name o) (so_location o) (so_custom o) v
                  (so_parent o) (so_matrix_parent_inverse o) (so_rotations o).
Definition with_parent (o : scene_object) (p : nat) : scene_object :=
  mk_scene_object (so_type o) (so_name o) (so_location o) (so_custom o)
                  (so_vertices o) (Some p) (Some p) (so_rotations o).
Definition with_rotation (o : scene_object) (r : qvec3) : scene_object :=
  mk_scene_object (so_type o) (so_name o) (so_location o) (so_custom o)
                  (so_vertices o) (so_parent o) (so_matrix_parent_inverse o)
                  (so_rotations o ++ [r]).

(** [_mc_pivot] *)
Definition _mc_pivot (s : scene) (obj : nat) (mcpivot : json) : result scene :=
  v <- np_xzy mcpivot ;;
  let translation := qdiv v MINECRAFT_SCALE_FACTOR in
  update_object s obj (fun o => with_location o (qadd (so_location o) translation)).

(** [_mc_set_size] *)
Definition _mc_set_size (s : scene) (obj : nat) (mcsize : json) : result scene :=
  v <- np_xzy mcsize ;;
  let pos_delta := qdiv (qdiv v (2 # 1)) MINECRAFT_SCALE_FACTOR in
  let p := (1 # 1)%Q in
  let m := (-1 # 1)%Q in
  let signs :=
    [mkq m m m; mkq m m p; mkq m p m; mkq m p p;
     mkq p m m; mkq p m p; mkq p p m; mkq p p p] in
  update_object s obj (fun o => with_vertices o (map (qmul pos_delta) signs)).

(** [_mc_translate] *)
Definition _mc_translate (s : scene) (obj : nat)
    (mctranslation mcsize mcpivot : json) : result scene :=
  pivot <- np_xzy mcpivot ;;
  let pivot_offset := qdiv pivot MINECRAFT_SCALE_FACTOR in
  size <- np_xzy mcsize ;;
  let size_offset := qdiv (qdiv size (2 # 1)) MINECRAFT_SCALE_FACTOR in
  t <- np_xzy mctranslation ;;
  let translation := qdiv t MINECRAFT_SCALE_FACTOR in
  update_object s obj (fun o =>
    with_vertices o
      (map (fun co => qadd co (qadd (qsub translation pivot_offset) size_offset))
           (so_vertices o))).

(** [_mc_rotate] *)
Definition _mc_rotate (s : scene) (obj : nat) (mcrotation : json)
    : result scene :=
  v <- np_xzy mcrotation ;;
  let rotation :=
    qdiv (qscale (qmul v (mkq (1 # 1) (1 # 1) (-1 # 1))) math_pi) (180 # 1) in
  update_object s obj (fun o => with_rotation o rotation).

(** [child.parent = parent] followed by
    [child.matrix_parent_inverse = parent.matrix_world.inverted()] *)
Definition set_parent (s : scene) (child parent : nat) : result scene :=
  update_object s child (fun o => with_parent o parent).

(** *** Phase 1: creation *)

Fixpoint create_cubes (s : scene) (cubes : list ImportCube)
    : result (scene * list ImportCube) :=
  match cubes with
  | [] => Ok (s, [])
  | cube :: cubes' =>
      let (s, cube_obj) := primitive_cube_add s in
      let cube :=
        mk_import_cube (Some cube_obj) (ic_uv cube) (ic_mirror cube)
                       (ic_origin cube) (ic_pivot cube) (ic_size cube)
                       (ic_rotation cube) in
      s <- (if ic_mirror cube
            then update_object s cube_obj (fun o => with_custom o "mc_mirror")
            else Ok s) ;;
      s <- _mc_set_size s cube_obj (ic_size cube) ;;
      s <- _mc_pivot s cube_obj (ic_pivot cube) ;;
      s <- _mc_translate s cube_obj (ic_origin cube) (ic_size cube)
             (ic_pivot cube) ;;
      r <- create_cubes s cubes' ;;
      Ok (fst r, cube :: snd r)
  end.

Fixpoint create_locators (s : scene) (locators : list ImportLocator)
    : result (scene * list ImportLocator) :=
  match locators with
  | [] => Ok (s, [])
  | locator :: locators' =>
      let (s, locator_obj) := empty_add s in
      let locator :=
        mk_import_locator (il_name locator) (il_position locator)
                          (Some locator_obj) in
      s <- _mc_pivot s locator_obj (il_position locator) ;;
      s <- update_object s locator_obj (fun o => with_name o (il_name locator)) ;;
      r <- create_locators s locators' ;;
      Ok (fst r, locator :: snd r)
  end.

Fixpoint create_bones (s : scene) (bones : list (string * ImportBone))
    : result (scene * list (string * ImportBone)) :=
  match bones with
  | [] => Ok (s, [])
  | (key, bone) :: bones' =>
      let (s, bone_obj) := empty_add s in
      s <- _mc_pivot s bone_obj (ib_pivot bone) ;;
      s <- update_object s bone_obj (fun o => with_name o (ib_name bone)) ;;
      s <- update_object s bone_obj (fun o => with_custom o "mc_is_bone") ;;
      cs <- create_cubes s (ib_cubes bone) ;;
      ls <- create_locators (fst cs) (ib_locators bone) ;;
      let bone :=
        mk_import_bone (Some bone_obj) (ib_name bone) (ib_parent bone)
                       (snd cs) (snd ls) (ib_pivot bone) (ib_rotation bone)
                       (ib_mirror bone) in
      r <- create_bones (fst ls) bones' ;;
      Ok (fst r, (key, bone) :: snd r)
  end.

(** *** Phase 2: parenting *)

Fixpoint lookup_bone (k : string) (bones : list (string * ImportBone))
    : option ImportBone :=
  match bones with
  | [] => None
  | (k', b) :: bones' => if String.eqb k k' then Some b else lookup_bone k bones'
  end.

Fixpoint parent_cubes (s : scene) (bone_obj : option nat)
    (cubes : list ImportCube) : result scene :=
  match cubes with
  | [] => Ok s
  | cube :: cubes' =>
      cube_obj <- deref (ic_blend_cube cube) ;;
      parent <- deref bone_obj ;;
      s <- set_parent s cube_obj parent ;;
      parent_cubes s bone_obj cubes'
  end.

Fixpoint parent_locators (s : scene) (bone_obj : option nat)
    (locators : list ImportLocator) : result scene :=
  match locators with
  | [] => Ok s
  | locator :: locators' =>
      locator_obj <- deref (il_blend_empty locator) ;;
      parent <- deref bone_obj ;;
      s <- set_parent s locator_obj parent ;;
      parent_locators s bone_obj locators'
  end.

(** The body of the loop [for bone in self.bones.values()] of the
    parenting phase; [all_bones] is [self.bones]. *)
Definition parent_bone (all_bones : list (string * ImportBone)) (s : scene)
    (bone : ImportBone) : result scene :=
  let bone_obj := ib_blend_empty bone in
  s <-
    match ib_parent bone with
    | Some parent_name =>
        if mem parent_name (map fst all_bones) then
          match lookup_bone parent_name all_bones with
          | None => Raise KeyError
          | Some parent =>
              let parent_obj := ib_blend_empty parent in
              child <- deref bone_obj ;;
              p <- deref parent_obj ;;
              set_parent s child p
          end
        else Ok s
    | None => Ok s
    end ;;
  s <- parent_cubes s bone_obj (ib_cubes bone) ;;
  parent_locators s bone_obj (ib_locators bone).

Fixpoint parent_bones (all_bones : list (string * ImportBone)) (s : scene)
    (bones : list ImportBone) : result scene :=
  match bones with
  | [] => Ok s
  | bone :: bones' =>
      s <- parent_bone all_bones s bone ;;
      parent_bones all_bones s bones'
  end.

(** *** Phase 3: rotation *)

Fixpoint rotate_cubes (s : scene) (cubes : list ImportCube) : result scene :=
  match cubes with
  | [] => Ok s
  | cube :: cubes' =>
      cube_obj <- deref (ic_blend_cube cube) ;;
      s <- _mc_rotate s cube_obj (ic_rotation cube) ;;
      rotate_cubes s cubes'
  end.

Fixpoint rotate_bones (s : scene) (bones : list ImportBone) : result scene :=
  match bones with
  | [] => Ok s
  | bone :: bones' =>
      bone_obj <- deref (ib_blend_empty bone) ;;
      s <- _mc_rotate s bone_obj (ib_rotation bone) ;;
      s <- rotate_cubes s (ib_cubes bone) ;;
      rotate_bones s bones'
  end.

(** [ImportGeometry.build]: the scene after the three phases, and the
    import records with the objects they created. *)
Definition build (geometry : ImportGeometry) (s : scene)
    : result (scene * list (string * ImportBone)) :=
  created <- create_bones s (ig_bones geometry) ;;
  let (s, bones) := (created : scene * list (string * ImportBone)) in
  s <- parent_bones bones s (map snd bones) ;;
  s <- rotate_bones s (map snd bones) ;;
  Ok (s, bones).

(** The scene between the parenting phase and the rotation phase. *)
Definition build_parented (geometry : ImportGeometry) (s : scene)
    : result (scene * list (string * ImportBone)) :=
  created <- create_bones s (ig_bones geometry) ;;
  let (s, bones) := (created : scene * list (string * ImportBone)) in
  s <- parent_bones bones s (map snd bones) ;;
  Ok (s, bones).

End Build.

(** ** common.py: the rotation-continuity solver *)

Section RotationSolver.
Local Open Scope R_scope.

(** A numpy array of three floats. *)
Record vec3 : Type := mkvec { c0 : R; c1 : R; c2 : R }.

Definition vget (v : vec3) (i : nat) : R :=
  match i with
  | 0%nat => c0 v
  | 1%nat => c1 v
  | _ => c2 v
  end.

Definition vset (v : vec3) (i : nat) (x : R) : vec3 :=
  match i with
  | 0%nat => mkvec x (c1 v) (c2 v)
  | 1%nat => mkvec (c0 v) x (c2 v)
  | _ => mkvec (c0 v) (c1 v) x
  end.

Definition vadd (a b : vec3) : vec3 :=
  mkvec (c0 a + c0 b) (c1 a + c1 b) (c2 a + c2 b).

Definition vsub (a b : vec3) : vec3 :=
  mkvec (c0 a - c0 b) (c1 a - c1 b) (c2 a - c2 b).

Definition vmul (a b : vec3) : vec3 :=
  mkvec (c0 a * c0 b) (c1 a * c1 b) (c2 a * c2 b).

Definition vscale (a : vec3) (k : R) : vec3 :=
  mkvec (c0 a * k) (c1 a * k) (c2 a * k).

Definition np_zeros3 : vec3 := mkvec 0 0 0.

(** [np.linalg.norm] *)
Definition norm (v : vec3) : R :=
  sqrt (c0 v * c0 v + c1 v * c1 v + c2 v * c2 v).

(** [while choice[i] < close_to[i]: ...] of [_pick_closet_location]; the
    state is the pair [(distance, choice)]. *)
Fixpoint while_below (fuel : nat) (i : nat) (arr close_to : vec3)
    (st : R * vec3) : option (R * vec3) :=
  match fuel with
  | O => None
  | S fuel' =>
      let (distance, choice) := st in
      if Rlt_dec (vget choice i) (vget close_to i) then
        let new_choice := vadd choice arr in
        let new_distance := norm (vsub new_choice close_to) in
        if Rgt_dec new_distance distance then Some st
        else while_below fuel' i arr close_to (new_distance, new_choice)
      else Some st
  end.

(** [while choice[i] > close_to[i]: ...] *)
Fixpoint while_above (fuel : nat) (i : nat) (arr close_to : vec3)
    (st : R * vec3) : option (R * vec3) :=
  match fuel with
  | O => None
  | S fuel' =>
      let (distance, choice) := st in
      if Rgt_dec (vget choice i) (vget close_to i) then
        let new_choice := vsub choice arr in
        let new_distance := norm (vsub new_choice close_to) in
        if Rgt_dec new_distance distance then Some st
        else while_above fuel' i arr close_to (new_distance, new_choice)
      else Some st
  end.

(** The body of [for i in range(3)]. *)
Definition axis_pass (fuel : nat) (close_to : vec3) (st : R * vec3)
    (i : nat) : option (R * vec3) :=
  let arr := vset np_zeros3 i 360 in
  match while_below fuel i arr close_to st with
  | Some st1 => while_above fuel i arr close_to st1
  | None => None
  end.

Definition _pick_closet_location (fuel : nat) (modify close_to : vec3)
    : option (R * vec3) :=
  let choice := modify in
  let distance := norm (vsub choice close_to) in
  fold_left
    (fun acc i => match acc with
                  | Some st => axis_pass fuel close_to st i
                  | None => None
                  end)
    (seq 0 3) (Some (distance, choice)).

(** The argument of the second call in [pick_closest_rotation]:
    [(modify + np.array([180, 180 + original_rotation[1] * 2, 180])) *
     np.array([1, -1, 1])]. *)
Definition flipped (modify original_rotation : vec3) : vec3 :=
  vmul
    (vadd modify (mkvec 180 (180 + vget original_rotation 1 * 2) 180))
    (mkvec 1 (-1) 1).

(** [if original_rotation is None:
       original_rotation = np.array([0.0, 0.0, 0.0])] *)
Definition original_or_zero (original_rotation : option vec3) : vec3 :=
  match original_rotation with
  | None => mkvec 0 0 0
  | Some r => r
  end.

Definition pick_closest_rotation (fuel : nat) (modify close_to : vec3)
    (original_rotation : option vec3) : option vec3 :=
  let original_rotation := original_or_zero original_rotation in
  match _pick_closet_location fuel modify close_to with
  | None => None
  | Some (distance1, choice1) =>
      match _pick_closet_location fuel
              (flipped modify original_rotation) close_to with
      | None => None
      | Some (distance2, choice2) =>
          if Rlt_dec distance2 distance1 then Some choice2 else Some choice1
      end
  end.

(** The flip of the specification text:
    [(v.x+180, -(v.y) + 180 + 2*rest.y, v.z+180)]. *)
Definition flip_spec (v rest : vec3) : vec3 :=
  mkvec (c0 v + 180) (- (c1 v) + 180 + 2 * c1 rest) (c2 v + 180).

(** *** Decoding a Minecraft rotation vector

    [_mc_rotate] of importer.py turns a rotation vector of the model into
    the Euler triple
    [(np.array(mcrotation)[[0, 2, 1]] * np.array([1, 1, -1])) * math.pi/180]
    of order ['XZY']. *)
Definition _mc_rotate_euler (mcrotation : vec3) : vec3 :=
  vscale
    (vmul (mkvec (c0 mcrotation) (c2 mcrotation) (c1 mcrotation))
          (mkvec 1 1 (-1)))
    (PI / 180).

(** 3x3 matrices, by rows. *)
Record mat3 : Type := mkmat { row0 : vec3; row1 : vec3; row2 : vec3 }.

Definition dot (a b : vec3) : R := c0 a * c0 b + c1 a * c1 b + c2 a * c2 b.

Definition col (m : mat3) (j : nat) : vec3 :=
  mkvec (vget (row0 m) j) (vget (row1 m) j) (vget (row2 m) j).

Definition mmul (a b : mat3) : mat3 :=
  mkmat
    (mkvec (dot (row0 a) (col b 0)) (dot (row0 a) (col b 1)) (dot (row0 a) (col b 2)))
    (mkvec (dot (row1 a) (col b 0)) (dot (row1 a) (col b 1)) (dot (row1 a) (col b 2)))
    (mkvec (dot (row2 a) (col b 0)) (dot (row2 a) (col b 1)) (dot (row2 a) (col b 2))).

Definition rot_x (a : R) : mat3 :=
  mkmat (mkvec 1 0 0) (mkvec 0 (cos a) (- sin a)) (mkvec 0 (sin a) (cos a)).

Definition rot_y (a : R) : mat3 :=
  mkmat (mkvec (cos a) 0 (sin a)) (mkvec 0 1 0) (mkvec (- sin a) 0 (cos a)).

Definition rot_z (a : R) : mat3 :=
  mkmat (mkvec (cos a) (- sin a) 0) (mkvec (sin a) (cos a) 0) (mkvec 0 0 1).

(** The matrix of an Euler triple of order ['XZY'] as mathutils composes
    it: the rotation about X is applied first, then Z, then Y. *)
Definition euler_XZY_to_matrix (e : vec3) : mat3 :=
  mmul (rot_y (c1 e)) (mmul (rot_z (c2 e)) (rot_x (c0 e))).

(** The rotation matrix a Minecraft rotation vector stands for. *)
Definition rotation_matrix (mcrotation : vec3) : mat3 :=
  euler_XZY_to_matrix (_mc_rotate_euler mcrotation).

End RotationSolver.

(* ================================================================== *)
(** * Part II. Theorems                                                *)
(* ================================================================== *)

Unset Implicit Arguments.

(** ** The rotation-continuity solver *)

Section RotationSolverFacts.
Local Open Scope R_scope.

(** [a] is [b] with whole turns added on each axis. *)
Definition turns (a b : vec3) : Prop :=
  exists k0 k1 k2 : Z,
    a = vadd b (mkvec (360 * IZR k0) (360 * IZR k1) (360 * IZR k2)).

(** What the two loops keep true of the state [(distance, choice)]. *)
Definition aligned_state (modify close_to : vec3) (st : R * vec3) : Prop :=
  turns (snd st) modify /\ fst st = norm (vsub (snd st) close_to).

Lemma vec3_eq (a b : vec3) :
  c0 a = c0 b -> c1 a = c1 b -> c2 a = c2 b -> a = b.
Proof. destruct a, b; simpl; intros; subst; reflexivity. Qed.

Lemma turns_refl (v : vec3) : turns v v.
Proof. exists 0%Z, 0%Z, 0%Z. apply vec3_eq; simpl; lra. Qed.

Lemma turns_trans (a b c : vec3) : turns a b -> turns b c -> turns a c.
Proof.
  intros (k0 & k1 & k2 & ->) (j0 & j1 & j2 & ->).
  exists (j0 + k0)%Z, (j1 + k1)%Z, (j2 + k2)%Z.
  apply vec3_eq; simpl; rewrite plus_IZR; lra.
Qed.

Lemma turns_add_arr (c m : vec3) (i : nat) :
  turns c m -> turns (vadd c (vset np_zeros3 i 360)) m.
Proof.
  intros H. apply turns_trans with (b := c); [|exact H].
  destruct i as [|[|i]].
  - exists 1%Z, 0%Z, 0%Z. apply vec3_eq; simpl; lra.
  - exists 0%Z, 1%Z, 0%Z. apply vec3_eq; simpl; lra.
  - exists 0%Z, 0%Z, 1%Z. apply vec3_eq; simpl; lra.
Qed.

Lemma turns_sub_arr (c m : vec3) (i : nat) :
  turns c m -> turns (vsub c (vset np_zeros3 i 360)) m.
Proof.
  intros H. apply turns_trans with (b := c); [|exact H].
  destruct i as [|[|i]].
  - exists (-1)%Z, 0%Z, 0%Z. apply vec3_eq; simpl; lra.
  - exists 0%Z, (-1)%Z, 0%Z. apply vec3_eq; simpl; lra.
  - exists 0%Z, 0%Z, (-1)%Z. apply vec3_eq; simpl; lra.
Qed.

Lemma while_below_aligned (modify close_to : vec3) (i : nat) :
  forall fuel st st',
    aligned_state modify close_to st ->
    while_below fuel i (vset np_zeros3 i 360) close_to st = Some st' ->
    aligned_state modify close_to st'.
Proof.
  induction fuel as [|fuel IH]; intros [d c] st' Hst Hrun; simpl in Hrun.
  - discriminate.
  - destruct (Rlt_dec (vget c i) (vget close_to i)).
    + destruct (Rgt_dec _ d).
      * inversion Hrun; subst; exact Hst.
      * apply IH in Hrun; [exact Hrun|].
        split; simpl; [apply turns_add_arr; apply Hst | reflexivity].
    + inversion Hrun; subst; exact Hst.
Qed.

Lemma while_above_aligned (modify close_to : vec3) (i : nat) :
  forall fuel st st',
    aligned_state modify close_to st ->
    while_above fuel i (vset np_zeros3 i 360) close_to st = Some st' ->
    aligned_state modify close_to st'.
Proof.
  induction fuel as [|fuel IH]; intros [d c] st' Hst Hrun; simpl in Hrun.
  - discriminate.
  - destruct (Rgt_dec (vget c i) (vget close_to i)).
    + destruct (Rgt_dec _ d).
      * inversion Hrun; subst; exact Hst.
      * apply IH in Hrun; [exact Hrun|].
        split; simpl; [apply turns_sub_arr; apply Hst | reflexivity].
    + inversion Hrun; subst; exact Hst.
Qed.

Lemma axis_pass_aligned (modify close_to : vec3) (fuel i : nat) st st' :
  aligned_state modify close_to st ->
  axis_pass fuel close_to st i = Some st' ->
  aligned_state modify close_to st'.
Proof.
  unfold axis_pass. intros Hst Hrun.
  destruct (while_below fuel i _ close_to st) as [st1|] eqn:E1; [|discriminate].
  eapply while_above_aligned; [|exact Hrun].
  eapply while_below_aligned; eassumption.
Qed.

Lemma _pick_closet_location_aligned (fuel : nat) (modify close_to : vec3) st :
  _pick_closet_location fuel modify close_to = Some st ->
  aligned_state modify close_to st.
Proof.
  unfold _pick_closet_location. simpl.
  set (st0 := (norm (vsub modify close_to), modify)).
  assert (H0 : aligned_state modify close_to st0)
    by (split; [apply turns_refl | reflexivity]).
  destruct (axis_pass fuel close_to st0 0) as [s1|] eqn:E1; [|discriminate].
  destruct (axis_pass fuel close_to s1 1) as [s2|] eqn:E2; [|discriminate].
  intros E3.
  eapply axis_pass_aligned; [|exact E3].
  eapply axis_pass_aligned; [|exact E2].
  eapply axis_pass_aligned; [|exact E1].
  exact H0.
Qed.

(** *** Termination of the loops with enough fuel *)

Lemma while_below_fuel (i : nat) (close_to : vec3) :
  forall n d c,
    vget close_to i - vget c i <= 360 * INR n ->
    forall fuel, (n < fuel)%nat ->
      exists st', while_below fuel i (vset np_zeros3 i 360) close_to (d, c) = Some st'.
Proof.
  induction n as [|n IH]; intros d c Hn fuel Hf;
    (destruct fuel as [|fuel]; [lia|]); simpl.
  - simpl in Hn. destruct (Rlt_dec _ _); [lra|]. eauto.
  - destruct (Rlt_dec _ _); [|eauto].
    destruct (Rgt_dec _ d); [eauto|].
    apply IH; [|lia].
    rewrite S_INR in Hn.
    assert (vget (vadd c (vset np_zeros3 i 360)) i = vget c i + 360)
      by (destruct i as [|[|i]]; simpl; lra).
    lra.
Qed.

Lemma while_above_fuel (i : nat) (close_to : vec3) :
  forall n d c,
    vget c i - vget close_to i <= 360 * INR n ->
    forall fuel, (n < fuel)%nat ->
      exists st', while_above fuel i (vset np_zeros3 i 360) close_to (d, c) = Some st'.
Proof.
  induction n as [|n IH]; intros d c Hn fuel Hf;
    (destruct fuel as [|fuel]; [lia|]); simpl.
  - simpl in Hn. destruct (Rgt_dec (vget c i) _); [lra|]. eauto.
  - destruct (Rgt_dec (vget c i) _); [|eauto].
    destruct (Rgt_dec _ d); [eauto|].
    apply IH; [|lia].
    rewrite S_INR in Hn.
    assert (vget (vsub c (vset np_zeros3 i 360)) i = vget c i - 360)
      by (destruct i as [|[|i]]; simpl; lra).
    lra.
Qed.

Lemma bound_by_nat (x : R) : exists n : nat, x <= 360 * INR n.
Proof.
  destruct (Rle_dec x 0) as [Hx|Hx].
  - exists 0%nat. simpl. lra.
  - destruct (archimed x) as [Hup _].
    exists (Z.to_nat (up x)).
    rewrite INR_IZR_INZ, Z2Nat.id.
    + lra.
    + apply le_IZR. lra.
Qed.

Lemma while_below_mono (i : nat) (arr close_to : vec3) :
  forall fuel st st', while_below fuel i arr close_to st = Some st' ->
    forall fuel', (fuel <= fuel')%nat ->
      while_below fuel' i arr close_to st = Some st'.
Proof.
  induction fuel as [|fuel IH]; intros [d c] st' H fuel' Hle; simpl in H.
  - discriminate.
  - destruct fuel' as [|fuel']; [lia|]. simpl.
    destruct (Rlt_dec _ _); [|exact H].
    destruct (Rgt_dec _ d); [exact H|].
    apply IH; [exact H | lia].
Qed.

Lemma while_above_mono (i : nat) (arr close_to : vec3) :
  forall fuel st st', while_above fuel i arr close_to st = Some st' ->
    forall fuel', (fuel <= fuel')%nat ->
      while_above fuel' i arr close_to st = Some st'.
Proof.
  induction fuel as [|fuel IH]; intros [d c] st' H fuel' Hle; simpl in H.
  - discriminate.
  - destruct fuel' as [|fuel']; [lia|]. simpl.
    destruct (Rgt_dec (vget c i) _); [|exact H].
    destruct (Rgt_dec _ d); [exact H|].
    apply IH; [exact H | lia].
Qed.

Lemma axis_pass_mono (close_to : vec3) (i fuel fuel' : nat) st st' :
  axis_pass fuel close_to st i = Some st' -> (fuel <= fuel')%nat ->
  axis_pass fuel' close_to st i = Some st'.
Proof.
  unfold axis_pass. intros H Hle.
  destruct (while_below fuel i _ close_to st) as [s1|] eqn:E1; [|discriminate].
  rewrite (while_below_mono _ _ _ _ _ _ E1 _ Hle).
  eapply while_above_mono; eassumption.
Qed.

Lemma axis_pass_fuel (close_to : vec3) (i : nat) st :
  exists fuel st', axis_pass fuel close_to st i = Some st'.
Proof.
  destruct st as [d c].
  destruct (bound_by_nat (vget close_to i - vget c i)) as [n Hn].
  destruct (while_below_fuel i close_to n d c Hn (S n)) as [[d1 c1] E1]; [lia|].
  destruct (bound_by_nat (vget c1 i - vget close_to i)) as [m Hm].
  destruct (while_above_fuel i close_to m d1 c1 Hm (S m)) as [st2 E2]; [lia|].
  exists (S n + S m)%nat, st2. unfold axis_pass.
  rewrite (while_below_mono _ _ _ _ _ _ E1 (S n + S m)%nat) by lia.
  apply (while_above_mono _ _ _ _ _ _ E2). lia.
Qed.

Lemma _pick_closet_location_mono (modify close_to : vec3) (fuel fuel' : nat) st :
  _pick_closet_location fuel modify close_to = Some st -> (fuel <= fuel')%nat ->
  _pick_closet_location fuel' modify close_to = Some st.
Proof.
  unfold _pick_closet_location. simpl. intros H Hle.
  destruct (axis_pass fuel close_to _ 0) as [s1|] eqn:E1; [|discriminate].
  destruct (axis_pass fuel close_to s1 1) as [s2|] eqn:E2; [|discriminate].
  rewrite (axis_pass_mono _ _ _ _ _ _ E1 Hle), (axis_pass_mono _ _ _ _ _ _ E2 Hle).
  eapply axis_pass_mono; eassumption.
Qed.

Lemma _pick_closet_location_fuel (modify close_to : vec3) :
  exists fuel st, _pick_closet_location fuel modify close_to = Some st.
Proof.
  destruct (axis_pass_fuel close_to 0 (norm (vsub modify close_to), modify))
    as (f0 & s1 & E1).
  destruct (axis_pass_fuel close_to 1 s1) as (f1 & s2 & E2).
  destruct (axis_pass_fuel close_to 2 s2) as (f2 & s3 & E3).
  exists (f0 + f1 + f2)%nat, s3.
  unfold _pick_closet_location. simpl.
  rewrite (axis_pass_mono _ _ _ (f0 + f1 + f2)%nat _ _ E1) by lia.
  rewrite (axis_pass_mono _ _ _ (f0 + f1 + f2)%nat _ _ E2) by lia.
  apply (axis_pass_mono _ _ _ _ _ _ E3). lia.
Qed.

Lemma pick_closest_rotation_fuel (modify close_to : vec3) (o : option vec3) :
  exists fuel res, pick_closest_rotation fuel modify close_to o = Some res.
Proof.
  set (r := original_or_zero o).
  destruct (_pick_closet_location_fuel modify close_to) as (f1 & [d1 a] & E1).
  destruct (_pick_closet_location_fuel (flipped modify r) close_to)
    as (f2 & [d2 b] & E2).
  exists (f1 + f2)%nat, (if Rlt_dec d2 d1 then b else a).
  unfold pick_closest_rotation. fold r.
  rewrite (_pick_closet_location_mono _ _ _ (f1 + f2)%nat _ E1) by lia.
  rewrite (_pick_closet_location_mono _ _ _ (f1 + f2)%nat _ E2) by lia.
  destruct (Rlt_dec d2 d1); reflexivity.
Qed.

(** *** Rotation matrices of equivalent Euler triples *)

Lemma cos_whole_turns (x : R) (k : Z) : cos (x + 2 * IZR k * PI) = cos x.
Proof.
  destruct (Z_le_gt_dec 0 k) as [Hk|Hk].
  - rewrite <- (Z2Nat.id k Hk), <- INR_IZR_INZ. apply cos_period.
  - rewrite <- (cos_period (x + 2 * IZR k * PI) (Z.to_nat (- k))).
    f_equal. rewrite INR_IZR_INZ, Z2Nat.id by lia. rewrite opp_IZR. ring.
Qed.

Lemma sin_whole_turns (x : R) (k : Z) : sin (x + 2 * IZR k * PI) = sin x.
Proof.
  destruct (Z_le_gt_dec 0 k) as [Hk|Hk].
  - rewrite <- (Z2Nat.id k Hk), <- INR_IZR_INZ. apply sin_period.
  - rewrite <- (sin_period (x + 2 * IZR k * PI) (Z.to_nat (- k))).
    f_equal. rewrite INR_IZR_INZ, Z2Nat.id by lia. rewrite opp_IZR. ring.
Qed.

Lemma euler_whole_turns (e : vec3) (k0 k1 k2 : Z) :
  euler_XZY_to_matrix
    (vadd e (mkvec (2 * IZR k0 * PI) (2 * IZR k1 * PI) (2 * IZR k2 * PI)))
  = euler_XZY_to_matrix e.
Proof.
  unfold euler_XZY_to_matrix, rot_x, rot_y, rot_z. simpl.
  rewrite !cos_whole_turns, !sin_whole_turns. reflexivity.
Qed.

Lemma cos_PI_sub (x : R) : cos (PI - x) = - cos x.
Proof.
  replace (PI - x) with (- x + PI) by ring.
  rewrite neg_cos, cos_neg. reflexivity.
Qed.

Lemma sin_PI_sub (x : R) : sin (PI - x) = sin x.
Proof.
  replace (PI - x) with (- x + PI) by ring.
  rewrite neg_sin, sin_neg. ring.
Qed.

(** The half-turn reparametrisation of an ['XZY'] triple: half a turn more
    about X and Y, and the middle angle (about Z) mirrored. *)
Lemma euler_half_turn_flip (a b c : R) :
  euler_XZY_to_matrix (mkvec (a + PI) (b + PI) (PI - c))
  = euler_XZY_to_matrix (mkvec a b c).
Proof.
  unfold euler_XZY_to_matrix, rot_x, rot_y, rot_z, mmul, dot, col. simpl.
  rewrite !neg_cos, !neg_sin, cos_PI_sub, sin_PI_sub.
  f_equal; apply vec3_eq; simpl; ring.
Qed.

Lemma rotation_matrix_turns (a b : vec3) :
  turns a b -> rotation_matrix a = rotation_matrix b.
Proof.
  intros (k0 & k1 & k2 & ->). unfold rotation_matrix.
  rewrite <- (euler_whole_turns (_mc_rotate_euler b) k0 k2 (- k1)).
  f_equal. apply vec3_eq; simpl; try rewrite opp_IZR; field.
Qed.

(** The flip of the source, read on absolute rotations: if the vector is a
    delta from the rest pose [r], adding [r] back gives the half-turn
    reparametrisation of [modify + r]. *)
Lemma rotation_matrix_flipped (modify r : vec3) :
  rotation_matrix (vadd (flipped modify r) r) = rotation_matrix (vadd modify r).
Proof.
  unfold rotation_matrix.
  set (e := _mc_rotate_euler (vadd modify r)).
  transitivity (euler_XZY_to_matrix (mkvec (c0 e + PI) (c1 e + PI) (PI - c2 e))).
  - f_equal. apply vec3_eq; subst e; simpl; field.
  - rewrite euler_half_turn_flip. destruct e; reflexivity.
Qed.

Lemma rotation_matrix_00 (v : vec3) :
  c0 (row0 (rotation_matrix v)) = cos (c2 v * (PI / 180)) * cos (c1 v * (PI / 180)).
Proof.
  unfold rotation_matrix, euler_XZY_to_matrix, _mc_rotate_euler,
    mmul, rot_x, rot_y, rot_z, dot, col. simpl.
  replace (c1 v * -1 * (PI / 180)) with (- (c1 v * (PI / 180))) by field.
  replace (c2 v * 1 * (PI / 180)) with (c2 v * (PI / 180)) by field.
  rewrite cos_neg. ring.
Qed.

Lemma turns_vadd (a b r : vec3) : turns a b -> turns (vadd a r) (vadd b r).
Proof.
  intros (k0 & k1 & k2 & ->). exists k0, k1, k2.
  apply vec3_eq; simpl; ring.
Qed.

Lemma pick_closest_rotation_cases (fuel : nat) (modify close_to : vec3)
    (o : option vec3) (res : vec3) :
  pick_closest_rotation fuel modify close_to o = Some res ->
  turns res modify \/ turns res (flipped modify (original_or_zero o)).
Proof.
  unfold pick_closest_rotation. intros H.
  destruct (_pick_closet_location fuel modify close_to) as [[d1 a]|] eqn:E1;
    [|discriminate].
  destruct (_pick_closet_location fuel (flipped modify (original_or_zero o)) close_to)
    as [[d2 b]|] eqn:E2; [|discriminate].
  apply _pick_closet_location_aligned in E1, E2.
  destruct (Rlt_dec d2 d1); inversion H; subst.
  - right. apply E2.
  - left. apply E1.
Qed.

End RotationSolverFacts.

Section RotationSolverFacts.
Local Open Scope R_scope.

Lemma norm_of_zero (v : vec3) :
  c0 v = 0 -> c1 v = 0 -> c2 v = 0 -> norm v = 0.
Proof.
  intros H0 H1 H2. unfold norm. rewrite H0, H1, H2.
  replace (0 * 0 + 0 * 0 + 0 * 0) with 0 by ring. apply sqrt_0.
Qed.

Lemma norm_pos_c0 (v : vec3) : c0 v <> 0 -> 0 < norm v.
Proof. intros H. unfold norm. apply sqrt_lt_R0. nra. Qed.

Lemma norm_pos_c1 (v : vec3) : c1 v <> 0 -> 0 < norm v.
Proof. intros H. unfold norm. apply sqrt_lt_R0. nra. Qed.

Lemma whole_turns_not_half (k : Z) (x : Z) :
  (x mod 360 <> 0)%Z -> 360 * IZR k <> IZR x.
Proof.
  intros Hx H. rewrite <- mult_IZR in H. apply eq_IZR in H.
  apply Hx. rewrite <- H. rewrite Z.mul_comm. apply Z_mod_mult.
Qed.

(** A vector that already sits on the target is left alone. *)
Lemma _pick_closet_location_on_target (fuel : nat) (v p : vec3) :
  c0 v = c0 p -> c1 v = c1 p -> c2 v = c2 p ->
  _pick_closet_location (S fuel) v p = Some (norm (vsub v p), v).
Proof.
  intros H0 H1 H2. unfold _pick_closet_location, axis_pass. simpl.
  repeat (match goal with
          | |- context [Rlt_dec ?a ?b] => destruct (Rlt_dec a b); [lra|]
          | |- context [Rgt_dec ?a ?b] => destruct (Rgt_dec a b); [lra|]
          end).
  reflexivity.
Qed.

(** C1. The solver returns on every input, and what it returns stands for
    the same orientation as its argument once the rest pose is added back:
    [result + original_rotation] and [modify + original_rotation] decode to
    the same rotation matrix, whichever candidate wins.  When the rest pose
    has no Y component (in particular when it is omitted), the result
    itself decodes to the matrix of [modify]. *)
Theorem pick_closest_rotation_keeps_orientation :
  forall (modify close_to : vec3) (original_rotation : option vec3),
    (exists fuel res,
        pick_closest_rotation fuel modify close_to original_rotation = Some res) /\
    (forall fuel res,
        pick_closest_rotation fuel modify close_to original_rotation = Some res ->
        rotation_matrix (vadd res (original_or_zero original_rotation))
        = rotation_matrix (vadd modify (original_or_zero original_rotation))) /\
    (forall fuel res,
        c1 (original_or_zero original_rotation) = 0 ->
        pick_closest_rotation fuel modify close_to original_rotation = Some res ->
        rotation_matrix res = rotation_matrix modify).
Proof.
  intros modify close_to o.
  assert (Hmain : forall fuel res,
             pick_closest_rotation fuel modify close_to o = Some res ->
             rotation_matrix (vadd res (original_or_zero o))
             = rotation_matrix (vadd modify (original_or_zero o))).
  { intros fuel res H.
    destruct (pick_closest_rotation_cases _ _ _ _ _ H) as [Ht|Ht].
    - apply rotation_matrix_turns, turns_vadd, Ht.
    - transitivity (rotation_matrix (vadd (flipped modify (original_or_zero o))
                                          (original_or_zero o))).
      + apply rotation_matrix_turns, turns_vadd, Ht.
      + apply rotation_matrix_flipped. }
  split; [apply pick_closest_rotation_fuel|].
  split; [exact Hmain|].
  intros fuel res Hy H.
  destruct (pick_closest_rotation_cases _ _ _ _ _ H) as [Ht|Ht].
  - apply rotation_matrix_turns, Ht.
  - rewrite (rotation_matrix_turns _ _ Ht).
    set (r := original_or_zero o) in *.
    assert (Hr : rotation_matrix (flipped modify r)
                 = rotation_matrix (vadd (flipped modify (mkvec 0 0 0)) (mkvec 0 0 0))).
    { f_equal. apply vec3_eq; simpl; rewrite ?Hy; ring. }
    rewrite Hr, rotation_matrix_flipped. f_equal.
    apply vec3_eq; simpl; ring.
Qed.

Lemma pick_closest_rotation_keeps_orientation_witness :
  exists fuel res,
    pick_closest_rotation fuel (mkvec 10 20 30) (mkvec 350 (-20) 0) None = Some res /\
    rotation_matrix res = rotation_matrix (mkvec 10 20 30).
Proof.
  destruct (pick_closest_rotation_keeps_orientation
              (mkvec 10 20 30) (mkvec 350 (-20) 0) None)
    as ((fuel & res & E) & _ & H).
  exists fuel, res. split; [exact E | exact (H fuel res eq_refl E)].
Defined.

(** C1, as stated, fails: with a rest pose whose Y component is 45 the
    flip candidate wins and the returned vector decodes to another
    orientation than [modify]. *)
Lemma pick_closest_rotation_rest_changes_orientation :
  exists fuel res,
    pick_closest_rotation fuel (mkvec 0 0 0) (mkvec 180 (-270) 180)
      (Some (mkvec 0 45 0)) = Some res /\
    rotation_matrix res <> rotation_matrix (mkvec 0 0 0).
Proof.
  set (v := mkvec 0 0 0). set (p := mkvec 180 (-270) 180).
  set (r := mkvec 0 45 0).
  destruct (_pick_closet_location_fuel v p) as (f1 & [d1 a] & E1).
  exists (S f1), (flipped v r). split.
  - unfold pick_closest_rotation.
    rewrite (_pick_closet_location_mono _ _ _ (S f1) _ E1) by lia.
    simpl original_or_zero.
    rewrite (_pick_closet_location_on_target f1 (flipped v r) p)
      by (simpl; lra).
    destruct (Rlt_dec _ d1) as [Hlt|Hge]; [reflexivity|].
    exfalso. apply Hge.
    rewrite norm_of_zero by (simpl; lra).
    apply _pick_closet_location_aligned in E1.
    destruct E1 as [(k0 & k1 & k2 & Ha) Hd]. simpl in Ha, Hd.
    rewrite Hd. apply norm_pos_c0. rewrite Ha. simpl.
    pose proof (whole_turns_not_half k0 180 ltac:(discriminate)). lra.
  - intros H. apply (f_equal (fun m => c0 (row0 m))) in H.
    rewrite !rotation_matrix_00 in H. simpl in H.
    replace ((0 + (180 + 45 * 2)) * -1 * (PI / 180)) with (- (3 * (PI / 2)))
      in H by field.
    replace (0 * (PI / 180)) with 0 in H by field.
    rewrite cos_neg, cos_3PI2, cos_0 in H. lra.
Qed.

(** C3. The second candidate is the alignment of the vector
    [(v.x+180, -(v.y + 180 + 2*rest.y), v.z+180)]: the Y component of the
    shifted vector is negated as a whole.  The solver returns that candidate
    when it is strictly closer to [close_to] than the first, and the first
    otherwise. *)
Theorem pick_closest_rotation_second_candidate :
  forall (fuel : nat) (v close_to : vec3) (original_rotation : option vec3),
    let rest := original_or_zero original_rotation in
    let v' := mkvec (c0 v + 180) (- (c1 v + 180 + 2 * c1 rest)) (c2 v + 180) in
    flipped v rest = v' /\
    pick_closest_rotation fuel v close_to original_rotation
    = match _pick_closet_location fuel v close_to,
            _pick_closet_location fuel v' close_to with
      | Some (distance1, choice1), Some (distance2, choice2) =>
          Some (if Rlt_dec distance2 distance1 then choice2 else choice1)
      | _, _ => None
      end.
Proof.
  intros fuel v close_to o rest v'.
  assert (Hf : flipped v rest = v')
    by (apply vec3_eq; simpl; ring).
  split; [exact Hf|].
  unfold pick_closest_rotation. fold rest. rewrite Hf.
  destruct (_pick_closet_location fuel v close_to) as [[d1 a]|]; [|reflexivity].
  destruct (_pick_closet_location fuel v' close_to) as [[d2 b]|]; [|reflexivity].
  destruct (Rlt_dec d2 d1); reflexivity.
Qed.

(** C3, as stated, fails: the vector of the specification text differs
    from the one the source aligns, and with a rest pose of 10 degrees about
    Y the two alignments can never agree. *)
Lemma flipped_is_not_flip_spec :
  flipped (mkvec 0 0 0) (mkvec 0 10 0) <> flip_spec (mkvec 0 0 0) (mkvec 0 10 0) /\
  exists fuel b b',
    _pick_closet_location fuel (flipped (mkvec 0 0 0) (mkvec 0 10 0))
      (mkvec 0 0 0) = Some b /\
    _pick_closet_location fuel (flip_spec (mkvec 0 0 0) (mkvec 0 10 0))
      (mkvec 0 0 0) = Some b' /\
    snd b <> snd b'.
Proof.
  set (v := mkvec 0 0 0). set (r := mkvec 0 10 0).
  split.
  - intros H. apply (f_equal c1) in H. simpl in H. lra.
  - destruct (_pick_closet_location_fuel (flipped v r) v) as (f1 & b & E1).
    destruct (_pick_closet_location_fuel (flip_spec v r) v) as (f2 & b' & E2).
    exists (f1 + f2)%nat, b, b'.
    split; [apply (_pick_closet_location_mono _ _ _ _ _ E1); lia|].
    split; [apply (_pick_closet_location_mono _ _ _ _ _ E2); lia|].
    apply _pick_closet_location_aligned in E1, E2.
    destruct E1 as [(k0 & k1 & k2 & Hb) _].
    destruct E2 as [(j0 & j1 & j2 & Hb') _].
    intros H. rewrite Hb, Hb' in H. apply (f_equal c1) in H. simpl in H.
    pose proof (whole_turns_not_half (k1 - j1) 400 ltac:(discriminate)) as Hn.
    rewrite minus_IZR in Hn. lra.
Qed.

End RotationSolverFacts.

(** ** The schema loader: version resolution *)

Lemma tuple_leb_refl (a : list Z) : tuple_leb a a = true.
Proof.
  induction a as [|x a IH]; simpl; [reflexivity|].
  rewrite Z.ltb_irrefl, Z.eqb_refl. exact IH.
Qed.

Lemma tuple_leb_total (a b : list Z) :
  tuple_leb a b = false -> tuple_leb b a = true.
Proof.
  revert b. induction a as [|x a IH]; intros [|y b]; simpl; try discriminate;
    try reflexivity.
  destruct (Z.ltb_spec x y); [discriminate|].
  destruct (Z.eqb_spec x y) as [->|Hne].
  - rewrite Z.ltb_irrefl, Z.eqb_refl. apply IH.
  - intros _. destruct (Z.ltb_spec y x); [reflexivity|lia].
Qed.

Lemma tuple_leb_trans (a b c : list Z) :
  tuple_leb a b = true -> tuple_leb b c = true -> tuple_leb a c = true.
Proof.
  revert b c. induction a as [|x a IH]; intros [|y b] [|z c]; simpl;
    try discriminate; try reflexivity.
  destruct (Z.ltb_spec x y), (Z.ltb_spec y z), (Z.ltb_spec x z);
    try reflexivity; try lia;
    destruct (Z.eqb_spec x y), (Z.eqb_spec y z), (Z.eqb_spec x z);
    try discriminate; try lia; try (intros; reflexivity).
  apply IH.
Qed.

Lemma tuple_leb_antisym (a b : list Z) :
  tuple_leb a b = true -> tuple_leb b a = true -> a = b.
Proof.
  revert b. induction a as [|x a IH]; intros [|y b]; simpl;
    try discriminate; try reflexivity.
  intros H1 H2. destruct (Z.ltb_spec x y) as [Hlt|Hge].
  - destruct (Z.ltb_spec y x); [lia|].
    destruct (Z.eqb_spec y x); [lia|discriminate].
  - destruct (Z.eqb_spec x y) as [->|]; [|discriminate].
    rewrite Z.ltb_irrefl, Z.eqb_refl in H2. f_equal. apply IH; assumption.
Qed.

(** A list in descending order. *)
Definition descending (l : list (list Z)) : Prop :=
  StronglySorted (fun a b => tuple_leb b a = true) l.

Lemma In_insert_desc (t x : list Z) (l : list (list Z)) :
  In t (insert_desc x l) <-> t = x \/ In t l.
Proof.
  induction l as [|y l IH]; simpl.
  - intuition congruence.
  - destruct (tuple_leb y x); simpl; [intuition congruence|].
    rewrite IH. intuition congruence.
Qed.

Lemma In_sort_desc (t : list Z) (l : list (list Z)) :
  In t (sort_desc l) <-> In t l.
Proof.
  induction l as [|x l IH]; simpl; [tauto|].
  rewrite In_insert_desc, IH. intuition congruence.
Qed.

Lemma insert_desc_descending (x : list Z) (l : list (list Z)) :
  descending l -> descending (insert_desc x l).
Proof.
  unfold descending. induction 1 as [|y l Hl IH Hy]; simpl.
  - constructor; constructor.
  - destruct (tuple_leb y x) eqn:E.
    + constructor; [constructor; assumption|].
      constructor; [exact E|].
      rewrite Forall_forall in Hy |- *. intros t Ht.
      eapply tuple_leb_trans; [apply Hy, Ht | exact E].
    + constructor; [exact IH|].
      rewrite Forall_forall in Hy |- *. intros t Ht.
      apply In_insert_desc in Ht. destruct Ht as [->|Ht].
      * apply tuple_leb_total, E.
      * apply Hy, Ht.
Qed.

Lemma sort_desc_descending (l : list (list Z)) : descending (sort_desc l).
Proof.
  induction l as [|x l IH]; simpl.
  - constructor.
  - apply insert_desc_descending, IH.
Qed.

(** In a descending list the first element below a bound is the greatest
    element below it. *)
Lemma find_first_below (bound : list Z) (l : list (list Z)) :
  descending l ->
  match find (fun t => tuple_leb t bound) l with
  | Some best =>
      In best l /\ tuple_leb best bound = true /\
      forall t, In t l -> tuple_leb t bound = true -> tuple_leb t best = true
  | None => forall t, In t l -> tuple_leb t bound = false
  end.
Proof.
  unfold descending. induction 1 as [|y l Hl IH Hy]; simpl.
  - intros t [].
  - destruct (tuple_leb y bound) eqn:E.
    + split; [left; reflexivity|]. split; [exact E|].
      intros t [<-|Ht] _; [apply tuple_leb_refl|].
      rewrite Forall_forall in Hy. apply Hy, Ht.
    + destruct (find _ l) as [best|].
      * destruct IH as (Hin & Hle & Hmax).
        split; [right; exact Hin|]. split; [exact Hle|].
        intros t [<-|Ht] Htb; [congruence|]. apply Hmax; assumption.
      * intros t [<-|Ht]; [exact E|]. apply IH, Ht.
Qed.

Lemma to_tuple_raises (version : json) (e : exn) :
  to_tuple version = Raise e -> exists m, e = FileIsNotAModelException m.
Proof.
  unfold to_tuple.
  destruct version; try (intros H; inversion H; eauto; fail).
  destruct (traverse_option _ _); intros H; inversion H; eauto.
Qed.

Lemma traverse_to_tuple_raises (parsers : list string) (e : exn) :
  traverse (fun parser => to_tuple (JStr parser)) parsers = Raise e ->
  exists m, e = FileIsNotAModelException m.
Proof.
  induction parsers as [|p parsers IH]; cbn [traverse]; [discriminate|].
  destruct (to_tuple (JStr p)) eqn:Ep; cbn [bind].
  - destruct (traverse _ parsers); cbn [bind]; [discriminate|].
    intros H; inversion H; subst. apply IH. reflexivity.
  - intros H; inversion H; subst. eapply to_tuple_raises, Ep.
Qed.

(** C2. When every supported version and the declared version parse as
    dot-separated integer tuples, [pick_version_parser] returns the
    greatest supported tuple that is at most the declared one (rendered
    with dots), and fails with [FileIsNotAModelException] when no supported
    tuple qualifies; when one of the strings does not parse it fails with
    [FileIsNotAModelException] as well.  With the supported versions
    1.12.0 and 1.8.0, a declared 1.9.3 selects 1.8.0 and a declared 1.0.0
    fails. *)
Theorem pick_version_parser_greatest_below :
  (forall (parsers : list string) (version : json),
      match traverse (fun parser => to_tuple (JStr parser)) parsers,
            to_tuple version with
      | Ok t_parsers, Ok t_version =>
          (exists best,
              In best t_parsers /\
              tuple_leb best t_version = true /\
              (forall t, In t t_parsers -> tuple_leb t t_version = true ->
                         tuple_leb t best = true) /\
              pick_version_parser parsers version
              = Ok (String.concat "." (map py_str_of_int best)))
          \/
          ((forall t, In t t_parsers -> tuple_leb t t_version = false) /\
           pick_version_parser parsers version
           = Raise (FileIsNotAModelException (MsgUnsupportedVersionOf version)))
      | _, _ =>
          exists m, pick_version_parser parsers version
                    = Raise (FileIsNotAModelException m)
      end) /\
  pick_version_parser ["1.12.0"; "1.8.0"] (JStr "1.9.3") = Ok "1.8.0" /\
  pick_version_parser ["1.12.0"; "1.8.0"] (JStr "1.0.0")
  = Raise (FileIsNotAModelException (MsgUnsupportedVersionOf (JStr "1.0.0"))).
Proof.
  split; [|split; reflexivity].
  intros parsers version. unfold pick_version_parser.
  destruct (traverse _ parsers) as [t_parsers|e] eqn:Ep; cbn [bind].
  - destruct (to_tuple version) as [t_version|e] eqn:Ev; cbn [bind].
    + pose proof (find_first_below t_version _ (sort_desc_descending t_parsers)) as H.
      destruct (find _ (sort_desc t_parsers)) as [best|].
      * left. exists best. destruct H as (Hin & Hle & Hmax).
        split; [apply In_sort_desc, Hin|]. split; [exact Hle|].
        split; [|reflexivity].
        intros t Ht. apply Hmax, In_sort_desc, Ht.
      * right. split; [|reflexivity].
        intros t Ht. apply H, In_sort_desc, Ht.
    + destruct (to_tuple_raises _ _ Ev) as [m ->]. eauto.
  - destruct (traverse_to_tuple_raises _ _ Ep) as [m ->]. eauto.
Qed.

(** ** The schema loader: structural validation *)

Lemma bind_Ok {A B : Type} (m : result A) (k : A -> result B) (r : B) :
  bind m k = Ok r -> exists a, m = Ok a /\ k a = Ok r.
Proof. destruct m as [a|e]; simpl; [eauto|discriminate]. Qed.

Lemma mem_In (k : string) (keys : list string) :
  mem k keys = true <-> In k keys.
Proof.
  unfold mem. rewrite existsb_exists. split.
  - intros (x & Hx & E). apply String.eqb_eq in E. subst. exact Hx.
  - intros H. exists k. split; [exact H | apply String.eqb_refl].
Qed.

Lemma mem_dict_get (k : string) (kv : list (string * json)) :
  mem k (dict_keys kv) = false <-> dict_get k kv = None.
Proof.
  induction kv as [|[k' v] kv IH]; simpl; [tauto|].
  destruct (String.eqb k k'); simpl; [split; discriminate | exact IH].
Qed.

(** The load of an object fails as a malformed structure, at [path]. *)
Definition structure_error {A : Type} (r : result A) (path : json_path) : Prop :=
  exists m, r = Raise (FileIsNotAModelException m) /\ msg_path m = Some path.

Lemma structure_error_bind {A B : Type} (m : result A) (k : A -> result B)
    (path : json_path) :
  structure_error m path -> structure_error (bind m k) path.
Proof.
  intros (msg & -> & Hp). exists msg. split; [reflexivity | exact Hp].
Qed.

(** An object with [keys] lacks a required key or holds a key that is not
    accepted. *)
Definition lacks_or_exceeds (keys required accepted : list string) : Prop :=
  (exists k, In k required /\ mem k keys = false) \/
  (exists k, In k keys /\ mem k accepted = false).

Lemma set_diff_In (k : string) (a b : list string) :
  In k (set_diff a b) <-> In k a /\ mem k b = false.
Proof.
  unfold set_diff. rewrite filter_In, negb_true_iff. tauto.
Qed.

Lemma _assert_has_required_keys_cases (what : string)
    (has required : list string) (path : json_path) :
  (_assert_has_required_keys what has required path = Ok tt /\
   forall k, In k required -> mem k has = true) \/
  (exists missing,
      _assert_has_required_keys what has required path
      = Raise (FileIsNotAModelException (MsgMissingProperties path what missing)) /\
      missing <> [] /\
      forall k, In k missing <-> In k required /\ mem k has = false).
Proof.
  unfold _assert_has_required_keys.
  destruct (set_diff required has) as [|k0 l] eqn:E; simpl.
  - left. split; [reflexivity|]. intros k Hk.
    destruct (mem k has) eqn:Hm; [reflexivity|].
    assert (In k (set_diff required has)) by (apply set_diff_In; tauto).
    rewrite E in H. destruct H.
  - right. exists (k0 :: l). split; [reflexivity|]. split; [discriminate|].
    intros k. rewrite <- E. apply set_diff_In.
Qed.

Lemma _assert_has_accepted_keys_only_cases (what : string)
    (has accepted : list string) (path : json_path) :
  (_assert_has_accepted_keys_only what has accepted path = Ok tt /\
   forall k, In k has -> mem k accepted = true) \/
  (exists additional,
      _assert_has_accepted_keys_only what has accepted path
      = Raise (FileIsNotAModelException
                 (MsgUnexpectedProperties path what additional)) /\
      additional <> [] /\
      forall k, In k additional <-> In k has /\ mem k accepted = false).
Proof.
  unfold _assert_has_accepted_keys_only.
  destruct (set_diff has accepted) as [|k0 l] eqn:E; simpl.
  - left. split; [reflexivity|]. intros k Hk.
    destruct (mem k accepted) eqn:Hm; [reflexivity|].
    assert (In k (set_diff has accepted)) by (apply set_diff_In; tauto).
    rewrite E in H. destruct H.
  - right. exists (k0 :: l). split; [reflexivity|]. split; [discriminate|].
    intros k. rewrite <- E. apply set_diff_In.
Qed.

(** The two checks in a row, as every loader of an object starts. *)
Lemma key_checks_fail {A : Type} (what what' : string)
    (keys required accepted : list string) (path : json_path)
    (k : result A) :
  lacks_or_exceeds keys required accepted ->
  structure_error
    (_assert_has_required_keys what keys required path ;;;
     _assert_has_accepted_keys_only what' keys accepted path ;;; k) path.
Proof.
  intros H.
  destruct (_assert_has_required_keys_cases what keys required path)
    as [[-> Hall]|(missing & -> & _ & _)].
  - destruct (_assert_has_accepted_keys_only_cases what' keys accepted path)
      as [[-> Hall']|(additional & -> & _ & _)].
    + exfalso. destruct H as [(x & Hx & Hm)|(x & Hx & Hm)].
      * rewrite (Hall x Hx) in Hm. discriminate.
      * rewrite (Hall' x Hx) in Hm. discriminate.
    + eexists. split; reflexivity.
  - eexists. split; reflexivity.
Qed.

Lemma accepted_check_fails {A : Type} (what : string)
    (keys accepted : list string) (path : json_path) (k : result A) :
  (exists x, In x keys /\ mem x accepted = false) ->
  structure_error
    (_assert_has_accepted_keys_only what keys accepted path ;;; k) path.
Proof.
  intros (x & Hx & Hm).
  destruct (_assert_has_accepted_keys_only_cases what keys accepted path)
    as [[-> Hall]|(additional & -> & _ & _)].
  - rewrite (Hall x Hx) in Hm. discriminate.
  - eexists. split; reflexivity.
Qed.

#[local] Arguments _assert_has_required_keys : simpl never.
#[local] Arguments _assert_has_accepted_keys_only : simpl never.
#[local] Arguments _assert_is_vector : simpl never.
#[local] Arguments pick_version_parser : simpl never.
#[local] Arguments String.eqb : simpl nomatch.

Lemma _load_bone_key_checks (fv : json) (kv : list (string * json))
    (path : json_path) :
  (pick_version_parser known_parsers fv = Ok "1.12.0" ->
   lacks_or_exceeds (dict_keys kv) ["name"] bone_keys_1_12 ->
   structure_error (_load_bone fv (JDict kv) path) path) /\
  (pick_version_parser known_parsers fv = Ok "1.8.0" ->
   lacks_or_exceeds (dict_keys kv) ["name"] bone_keys_1_8 ->
   structure_error (_load_bone fv (JDict kv) path) path).
Proof.
  split; intros Hv H; unfold _load_bone; rewrite Hv; simpl;
    apply key_checks_fail; exact H.
Qed.

Lemma _load_cube_key_checks (fv : json) (kv : list (string * json))
    (path : json_path) (default_mirror : bool) :
  (pick_version_parser known_parsers fv = Ok "1.12.0" ->
   (exists k, In k (dict_keys kv) /\ mem k cube_keys_1_12 = false) ->
   structure_error (_load_cube fv (JDict kv) path default_mirror) path) /\
  (pick_version_parser known_parsers fv = Ok "1.8.0" ->
   (exists k, In k (dict_keys kv) /\ mem k cube_keys_1_8 = false) ->
   structure_error (_load_cube fv (JDict kv) path default_mirror) path).
Proof.
  split; intros Hv H; unfold _load_cube; rewrite Hv; simpl;
    apply accepted_check_fails; exact H.
Qed.

Lemma _load_description_key_checks (fv : json) (gkv : list (string * json))
    (path : json_path) :
  (pick_version_parser known_parsers fv = Ok "1.12.0" ->
   forall dkv, dict_get "description" gkv = Some (JDict dkv) ->
   lacks_or_exceeds (dict_keys dkv) ["identifier"] description_keys_1_12 ->
   structure_error (_load_description fv (JDict gkv) path)
                   (path ++ [PKey "description"])) /\
  (pick_version_parser known_parsers fv = Ok "1.8.0" ->
   (exists k, In k (dict_keys gkv) /\ mem k geometry_keys_1_8 = false) ->
   structure_error (_load_description fv (JDict gkv) path) path).
Proof.
  split.
  - intros Hv dkv Hd H. unfold _load_description. rewrite Hv. simpl.
    rewrite Hd. simpl. apply key_checks_fail. exact H.
  - intros Hv H. unfold _load_description. rewrite Hv. simpl.
    apply accepted_check_fails. exact H.
Qed.

Lemma _load_geometry_key_checks (i : nat) (k : string)
    (kv : list (string * json)) (geometry_name : string) :
  (forall rest,
      lacks_or_exceeds (dict_keys kv) ["description"; "bones"]
                       ["description"; "bones"] ->
      structure_error
        (_load_geometry_1_12_from i (JDict kv :: rest) geometry_name)
        [PKey "minecraft:geometry"; PIdx i]) /\
  (forall rest,
      mem k ["format_version"; "debug"] = false ->
      (exists k', In k' (dict_keys kv) /\ mem k' geometry_keys_1_8 = false) ->
      structure_error
        (_load_geometry_1_8_items ((k, JDict kv) :: rest) geometry_name)
        [PKey k]).
Proof.
  split.
  - intros rest H. simpl. apply key_checks_fail. exact H.
  - intros rest Hk H. cbn [_load_geometry_1_8_items]. rewrite Hk. simpl.
    apply accepted_check_fails. exact H.
Qed.

Lemma load_model_without_format_version (data : json) (geometry_name : string)
    (keys : list string) :
  keys_of data = Ok keys ->
  mem "format_version" keys = false ->
  load_model data geometry_name
  = Raise (FileIsNotAModelException
             (MsgMissingProperties [] "model file" ["format_version"])).
Proof.
  intros Hk Hm. unfold load_model, _load_format_version. rewrite Hk. simpl.
  unfold _assert_has_required_keys, set_diff. simpl. rewrite Hm. reflexivity.
Qed.

Lemma check_geometry_names_fails {A : Type} (keys : list string)
    (k : result A) :
  (exists x, In x keys /\ String.prefix "geometry." x = false /\
             mem x ["debug"; "format_version"] = false) ->
  structure_error (check_geometry_names keys ;;; k) [].
Proof.
  intros (x & Hx & Hp & Hm).
  induction keys as [|y keys IH]; [destruct Hx|].
  cbn [check_geometry_names].
  destruct (String.prefix "geometry." y || mem y ["debug"; "format_version"])
    eqn:E; cbn [_assert bind].
  - apply IH. destruct Hx as [->|Hx]; [|exact Hx].
    rewrite Hp, Hm in E. discriminate.
  - eexists. split; reflexivity.
Qed.

Lemma _load_format_version_key_checks (kv : list (string * json))
    (fv : json) (geometry_name : string) :
  dict_get "format_version" kv = Some fv ->
  (pick_version_parser known_parsers fv = Ok "1.12.0" ->
   lacks_or_exceeds (dict_keys kv) ["minecraft:geometry"; "format_version"]
                    ["minecraft:geometry"; "format_version"; "cape"] ->
   structure_error (load_model (JDict kv) geometry_name) []) /\
  (pick_version_parser known_parsers fv = Ok "1.8.0" ->
   (exists x, In x (dict_keys kv) /\ String.prefix "geometry." x = false /\
              mem x ["debug"; "format_version"] = false) ->
   structure_error (load_model (JDict kv) geometry_name) []).
Proof.
  intros Hfv.
  assert (Hreq : _assert_has_required_keys "model file" (dict_keys kv)
                   ["format_version"] [] = Ok tt).
  { destruct (_assert_has_required_keys_cases "model file" (dict_keys kv)
                ["format_version"] []) as [[H _]|(missing & _ & Hne & Hin)];
      [exact H|].
    exfalso. destruct missing as [|x l]; [congruence|].
    destruct (proj1 (Hin x) (or_introl eq_refl)) as [[<-|[]] Hm].
    apply mem_dict_get in Hm. congruence. }
  split; intros Hv H; unfold load_model; apply structure_error_bind;
    unfold _load_format_version; cbn [keys_of bind]; rewrite Hreq;
    cbn [bind json_getitem]; rewrite Hfv; cbn [bind]; rewrite Hv; simpl.
  - apply key_checks_fail. exact H.
  - apply check_geometry_names_fails. exact H.
Qed.

(** ** The schema loader: unsupported features *)

(** [v] is a list of [n] numbers. *)
Definition vector_ok (n : nat) (v : json) : bool :=
  match v with
  | JList l => Nat.eqb (List.length l) n && forallb is_int_or_float l
  | _ => false
  end.

(** The entry [key], when present, passes [check]. *)
Definition field_ok (check : json -> bool) (key : string)
    (kv : list (string * json)) : bool :=
  match dict_get key kv with
  | None => true
  | Some v => check v
  end.

Lemma _assert_is_vector_ok (name : string) (v : json) (n : nat)
    (path : json_path) :
  vector_ok n v = true ->
  _assert_is_vector name v n is_int_or_float path = Ok tt.
Proof.
  unfold vector_ok, _assert_is_vector. destruct v; try discriminate.
  intros H. apply andb_prop in H. destruct H as [H1 H2].
  simpl. rewrite H1, H2. reflexivity.
Qed.

Lemma if_in_vector_ok (name key : string) (kv : list (string * json))
    (st : json) (n : nat) (path : json_path) :
  field_ok (vector_ok n) key kv = true ->
  exists v,
    if_in key kv st
      (fun v => _assert_is_vector name v n is_int_or_float path ;;; Ok v)
    = Ok v.
Proof.
  unfold field_ok, if_in. destruct (dict_get key kv) as [v|]; [|eauto].
  intros H. rewrite (_assert_is_vector_ok _ _ _ _ H). simpl. eauto.
Qed.

Lemma if_in_type_ok (name key : string) (kv : list (string * json))
    (st : json) (check : json -> bool) (path : json_path) :
  field_ok check key kv = true ->
  exists v,
    if_in key kv st (fun v => _assert_is_type name v check path ;;; Ok v)
    = Ok v.
Proof.
  unfold field_ok, if_in, _assert_is_type.
  destruct (dict_get key kv) as [v|]; [|eauto].
  intros H. rewrite H. simpl. eauto.
Qed.

Lemma if_in_bool_ok (name key : string) (kv : list (string * json))
    (st : bool) (path : json_path) :
  field_ok is_bool key kv = true ->
  exists b, if_in key kv st (fun v => checked_bool name v path) = Ok b.
Proof.
  unfold field_ok, if_in, checked_bool, _assert_is_type.
  destruct (dict_get key kv) as [v|]; [|eauto].
  destruct v; try discriminate. intros _. simpl. eauto.
Qed.

(** C7. Under the 1.12.0 parser, a cube whose keys are accepted, whose
    other entries are well-formed and whose [uv] is an object fails with
    [ImportingNotImplementedError('uv dictionary', path + ['uv'])]. *)
Theorem _load_cube_uv_dictionary :
  forall (fv : json) (kv : list (string * json)) (path : json_path)
         (default_mirror : bool) (uv : list (string * json)),
    pick_version_parser known_parsers fv = Ok "1.12.0" ->
    (forall k, In k (dict_keys kv) -> mem k cube_keys_1_12 = true) ->
    field_ok (vector_ok 3) "origin" kv = true ->
    field_ok (vector_ok 3) "size" kv = true ->
    field_ok (vector_ok 3) "rotation" kv = true ->
    field_ok (vector_ok 3) "pivot" kv = true ->
    field_ok is_int_or_float "inflate" kv = true ->
    field_ok is_bool "mirror" kv = true ->
    dict_get "uv" kv = Some (JDict uv) ->
    _load_cube fv (JDict kv) path default_mirror
    = Raise (ImportingNotImplementedError "uv dictionary" (path ++ [PKey "uv"])).
Proof.
  intros fv kv path dm uv Hv Hkeys Ho Hs Hr Hp Hi Hm Huv.
  unfold _load_cube. rewrite Hv. simpl.
  destruct (_assert_has_accepted_keys_only_cases "cube" (dict_keys kv)
              cube_keys_1_12 path) as [[-> _]|(add & _ & Hne & Hin)].
  - cbn [bind].
    destruct (if_in_vector_ok "origin" "origin" kv zeros3 3
                (path ++ [PKey "origin"]) Ho) as [o ->].
    destruct (if_in_vector_ok "size" "size" kv zeros3 3
                (path ++ [PKey "size"]) Hs) as [s ->].
    destruct (if_in_vector_ok "rotation" "rotation" kv zeros3 3
                (path ++ [PKey "rotation"]) Hr) as [r ->].
    destruct (if_in_vector_ok "pivot" "pivot" kv zeros3 3
                (path ++ [PKey "pivot"]) Hp) as [p ->].
    destruct (if_in_type_ok "inflate" "inflate" kv (JInt 0) is_int_or_float
                (path ++ [PKey "inflate"]) Hi) as [i ->].
    destruct (if_in_bool_ok "mirror" "mirror" kv dm
                (path ++ [PKey "mirror"]) Hm) as [m ->].
    cbn [bind]. unfold if_in. rewrite Huv. reflexivity.
  - exfalso. destruct add as [|x l]; [congruence|].
    destruct (proj1 (Hin x) (or_introl eq_refl)) as [Hx Hmem].
    rewrite (Hkeys x Hx) in Hmem. discriminate.
Qed.

(** A whole 1.12.0 document whose only cube gives [uv] as an object. *)
Definition uv_dictionary_document (version : string) : json :=
  let cube := JDict [("size", zeros3); ("uv", JDict [("north", JDict [])])] in
  let bones := JList [JDict [("name", JStr "body"); ("cubes", JList [cube])]] in
  if String.eqb version "1.12.0" then
    JDict [("format_version", JStr version);
           ("minecraft:geometry",
            JList [JDict [("description",
                           JDict [("identifier", JStr "geometry.a")]);
                          ("bones", bones)]])]
  else
    JDict [("format_version", JStr version);
           ("geometry.a", JDict [("bones", bones)])].

Lemma _load_cube_uv_dictionary_witness :
  _load_cube (JStr "1.12.0")
    (JDict [("size", zeros3); ("uv", JDict [("north", JDict [])])])
    [PKey "cubes"; PIdx 0] false
  = Raise (ImportingNotImplementedError "uv dictionary"
             [PKey "cubes"; PIdx 0; PKey "uv"]) /\
  load_model (uv_dictionary_document "1.12.0") ""
  = Raise (ImportingNotImplementedError "uv dictionary"
             [PKey "minecraft:geometry"; PIdx 0; PKey "bones"; PIdx 0;
              PKey "cubes"; PIdx 0; PKey "uv"]).
Proof.
  split.
  - apply (_load_cube_uv_dictionary (JStr "1.12.0")
             [("size", zeros3); ("uv", JDict [("north", JDict [])])]
             [PKey "cubes"; PIdx 0] false [("north", JDict [])]);
      try reflexivity.
    intros k [<-|[<-|[]]]; reflexivity.
  - vm_compute. reflexivity.
Defined.

(** C7, as stated, fails: under the 1.8.0 parser a [uv] given as an
    object is a malformed structure, not an unsupported feature. *)
Lemma uv_dictionary_is_malformed_in_1_8 :
  _load_cube (JStr "1.8.0") (JDict [("uv", JDict [])]) [PIdx 0] false
  = Raise (FileIsNotAModelException (MsgNotInstance [PIdx 0; PKey "uv"] "uv")) /\
  load_model (uv_dictionary_document "1.8.0") ""
  = Raise (FileIsNotAModelException
             (MsgNotInstance [PKey "geometry.a"; PKey "bones"; PIdx 0;
                              PKey "cubes"; PIdx 0; PKey "uv"] "uv")).
Proof. split; vm_compute; reflexivity. Qed.

(** ** The schema loader: defaults *)

#[local] Arguments if_in : simpl never.

Ltac invert_binds :=
  repeat match goal with
         | H : bind _ _ = Ok _ |- _ =>
             apply bind_Ok in H; destruct H as (? & ? & H)
         end.







(** *** Objects that load *)

(** The entry [key] of [kv], or the default. *)
Definition field_or (key : string) (kv : list (string * json))
    (default : json) : json :=
  match dict_get key kv with
  | Some v => v
  | None => default
  end.

Definition bool_or (key : string) (kv : list (string * json))
    (default : bool) : bool :=
  match dict_get key kv with
  | Some (JBool b) => b
  | _ => default
  end.

Definition str_or (key : string) (kv : list (string * json))
    (default : option string) : option string :=
  match dict_get key kv with
  | Some (JStr s) => Some s
  | _ => default
  end.


(** Every key of [kv] is among [accepted]; none of [keys] is a key of
    [kv]. *)
Definition keys_within (kv : list (string * json)) (accepted : list string)
    : bool :=
  forallb (fun k => mem k accepted) (dict_keys kv).

Definition none_of (keys : list string) (kv : list (string * json)) : bool :=
  forallb (fun k => negb (mem k (dict_keys kv))) keys.

Lemma keys_within_accepted (what : string) (kv : list (string * json))
    (accepted : list string) (path : json_path) :
  keys_within kv accepted = true ->
  _assert_has_accepted_keys_only what (dict_keys kv) accepted path = Ok tt.
Proof.
  intros H.
  destruct (_assert_has_accepted_keys_only_cases what (dict_keys kv)
              accepted path) as [[E _]|(add & _ & Hne & Hin)]; [exact E|].
  exfalso. destruct add as [|x l]; [congruence|].
  destruct (proj1 (Hin x) (or_introl eq_refl)) as [Hx Hm].
  unfold keys_within in H. rewrite forallb_forall in H.
  rewrite (H x Hx) in Hm. discriminate.
Qed.


Lemma none_of_absent (keys : list string) (kv : list (string * json))
    (k : string) :
  none_of keys kv = true -> In k keys -> dict_get k kv = None.
Proof.
  intros H Hk. unfold none_of in H. rewrite forallb_forall in H.
  apply mem_dict_get. specialize (H k Hk).
  destruct (mem k (dict_keys kv)); [discriminate | reflexivity].
Qed.

Lemma present_required (what : string) (kv : list (string * json))
    (k : string) (v : json) (path : json_path) :
  dict_get k kv = Some v ->
  _assert_has_required_keys what (dict_keys kv) [k] path = Ok tt.
Proof.
  intros Hk.
  destruct (_assert_has_required_keys_cases what (dict_keys kv) [k] path)
    as [[E _]|(missing & _ & Hne & Hin)]; [exact E|].
  exfalso. destruct missing as [|x l]; [congruence|].
  destruct (proj1 (Hin x) (or_introl eq_refl)) as [[<-|[]] Hm].
  apply mem_dict_get in Hm. congruence.
Qed.

Lemma if_in_absent {A : Type} (key : string) (kv : list (string * json))
    (st : A) (f : json -> result A) :
  dict_get key kv = None -> if_in key kv st f = Ok st.
Proof. unfold if_in. intros ->. reflexivity. Qed.

Lemma if_in_vector_value (name key : string) (kv : list (string * json))
    (st : json) (n : nat) (path : json_path) :
  field_ok (vector_ok n) key kv = true ->
  if_in key kv st
    (fun v => _assert_is_vector name v n is_int_or_float path ;;; Ok v)
  = Ok (field_or key kv st).
Proof.
  unfold field_ok, if_in, field_or.
  destruct (dict_get key kv) as [v|]; [|reflexivity].
  intros H. rewrite (_assert_is_vector_ok _ _ _ _ H). reflexivity.
Qed.


Lemma if_in_bool_value (name key : string) (kv : list (string * json))
    (st : bool) (path : json_path) :
  field_ok is_bool key kv = true ->
  if_in key kv st (fun v => checked_bool name v path)
  = Ok (bool_or key kv st).
Proof.
  unfold field_ok, if_in, bool_or, checked_bool, _assert_is_type.
  destruct (dict_get key kv) as [v|]; [|reflexivity].
  destruct v; try discriminate. reflexivity.
Qed.

Lemma if_in_str_value (name key : string) (kv : list (string * json))
    (st : option string) (path : json_path) :
  field_ok is_str key kv = true ->
  if_in key kv st (fun v => s <- checked_str name v path ;; Ok (Some s))
  = Ok (str_or key kv st).
Proof.
  unfold field_ok, if_in, str_or, checked_str, _assert_is_type.
  destruct (dict_get key kv) as [v|]; [|reflexivity].
  destruct v; try discriminate. reflexivity.
Qed.


(** The accepted keys of a cube and of a bone, by parser. *)
Definition cube_keys (parser_version : string) : list string :=
  if String.eqb parser_version "1.12.0" then cube_keys_1_12
  else cube_keys_1_8.

Definition bone_keys (parser_version : string) : list string :=
  if String.eqb parser_version "1.12.0" then bone_keys_1_12
  else bone_keys_1_8.


(** Its entries, with the defaults of the loader for those left out. *)
Definition cube_of (default_mirror : bool) (cube : json) : cube_data :=
  match cube with
  | JDict kv =>
      mk_cube (field_or "origin" kv zeros3) (field_or "size" kv zeros3)
              (field_or "rotation" kv zeros3) (field_or "pivot" kv zeros3)
              (field_or "inflate" kv (JInt 0))
              (bool_or "mirror" kv default_mirror)
              (field_or "uv" kv zeros2)
  | _ => default_cube default_mirror
  end.









(** The entries of a bone the loader reads before its cubes: accepted
    keys, a name, and where present a parent, a pivot, a rotation and a
    mirror flag of the right type; none of the entries that are not
    implemented. *)
Definition bone_head_ok (parser_version : string)
    (kv : list (string * json)) : bool :=
  keys_within kv (bone_keys parser_version) &&
  match dict_get "name" kv with Some (JStr _) => true | _ => false end &&
  field_ok is_str "parent" kv &&
  field_ok (vector_ok 3) "pivot" kv &&
  field_ok (vector_ok 3) "rotation" kv &&
  field_ok is_bool "mirror" kv &&
  none_of ["inflate"; "debug"; "redner_group_id"; "reset"; "neverRender";
           "bind_pose_rotation"] kv.


(** Its entries, with the defaults of the loader for those left out. *)
Definition bone_of (bone : json) : bone_data :=
  match bone with
  | JDict kv =>
      let mirror := bool_or "mirror" kv false in
      mk_bone (str_or "name" kv None) (str_or "parent" kv None)
              (field_or "pivot" kv zeros3) (field_or "rotation" kv zeros3)
              mirror (JFloat (0 # 1)) false 0
              match dict_get "cubes" kv with
              | Some (JList l) => map (cube_of mirror) l
              | _ => []
              end
              match dict_get "locators" kv with
              | Some (JDict items) => items
              | _ => []
              end
              (JDict []) (JList [])
  | _ => default_bone
  end.

(** What the head of a bone leaves to do: the statements from ['cubes']
    on. *)
Lemma _load_bone_head (fv : json) (pv : string) (kv : list (string * json))
    (path : json_path) :
  pick_version_parser known_parsers fv = Ok pv ->
  pv = "1.12.0" \/ pv = "1.8.0" ->
  bone_head_ok pv kv = true ->
  _load_bone fv (JDict kv) path
  = (let mirror := bool_or "mirror" kv false in
     cubes <- if_in "cubes" kv [] (fun v =>
       _load_cubes fv v (path ++ [PKey "cubes"]) mirror) ;;
     locators <- if_in "locators" kv [] (fun v =>
       _load_locators fv v (path ++ [PKey "locators"])) ;;
     if_in "poly_mesh" kv tt (fun _ =>
       Raise (ImportingNotImplementedError "poly_mesh"
                (path ++ [PKey "poly_mesh"]))) ;;;
     if_in "texture_meshes" kv tt (fun _ =>
       Raise (ImportingNotImplementedError "texture_meshes"
                (path ++ [PKey "texture_meshes"]))) ;;;
     Ok (mk_bone (str_or "name" kv None) (str_or "parent" kv None)
                 (field_or "pivot" kv zeros3) (field_or "rotation" kv zeros3)
                 mirror (JFloat (0 # 1)) false 0 cubes locators
                 (JDict []) (JList []))).
Proof.
  intros Hv Hpv Hok. unfold bone_head_ok in Hok.
  apply andb_prop in Hok. destruct Hok as [Hok Fnone].
  apply andb_prop in Hok. destruct Hok as [Hok Fmirror].
  apply andb_prop in Hok. destruct Hok as [Hok Frotation].
  apply andb_prop in Hok. destruct Hok as [Hok Fpivot].
  apply andb_prop in Hok. destruct Hok as [Hok Fparent].
  apply andb_prop in Hok. destruct Hok as [Hok Fn].
  assert (Hname : exists s, dict_get "name" kv = Some (JStr s)).
  { destruct (dict_get "name" kv) as [[]|]; try discriminate. eauto. }
  destruct Hname as [s Hs].
  assert (Fname : field_ok is_str "name" kv = true)
    by (unfold field_ok; rewrite Hs; reflexivity).
  assert (A1 : dict_get "inflate" kv = None)
    by (apply (none_of_absent _ kv _ Fnone); simpl; tauto).
  assert (A2 : dict_get "debug" kv = None)
    by (apply (none_of_absent _ kv _ Fnone); simpl; tauto).
  assert (A3 : dict_get "redner_group_id" kv = None)
    by (apply (none_of_absent _ kv _ Fnone); simpl; tauto).
  assert (A4 : dict_get "reset" kv = None)
    by (apply (none_of_absent _ kv _ Fnone); simpl; tauto).
  assert (A5 : dict_get "neverRender" kv = None)
    by (apply (none_of_absent _ kv _ Fnone); simpl; tauto).
  assert (A6 : dict_get "bind_pose_rotation" kv = None)
    by (apply (none_of_absent _ kv _ Fnone); simpl; tauto).
  assert (Htail :
    _load_bone_tail fv kv path (str_or "name" kv None)
      (str_or "parent" kv None) (field_or "pivot" kv zeros3)
      (field_or "rotation" kv zeros3)
    = (let mirror := bool_or "mirror" kv false in
       cubes <- if_in "cubes" kv [] (fun v =>
         _load_cubes fv v (path ++ [PKey "cubes"]) mirror) ;;
       locators <- if_in "locators" kv [] (fun v =>
         _load_locators fv v (path ++ [PKey "locators"])) ;;
       if_in "poly_mesh" kv tt (fun _ =>
         Raise (ImportingNotImplementedError "poly_mesh"
                  (path ++ [PKey "poly_mesh"]))) ;;;
       if_in "texture_meshes" kv tt (fun _ =>
         Raise (ImportingNotImplementedError "texture_meshes"
                  (path ++ [PKey "texture_meshes"]))) ;;;
       Ok (mk_bone (str_or "name" kv None) (str_or "parent" kv None)
                   (field_or "pivot" kv zeros3)
                   (field_or "rotation" kv zeros3)
                   mirror (JFloat (0 # 1)) false 0 cubes locators
                   (JDict []) (JList [])))).
  { unfold _load_bone_tail. cbv zeta.
    rewrite (if_in_bool_value "mirror" "mirror" kv _ _ Fmirror). cbn [bind].
    rewrite (if_in_absent "inflate" kv tt _ A1). cbn [bind].
    rewrite (if_in_absent "debug" kv tt _ A2). cbn [bind].
    rewrite (if_in_absent "redner_group_id" kv tt _ A3). cbn [bind].
    reflexivity. }
  unfold _load_bone. rewrite Hv. cbn [bind].
  destruct Hpv as [-> | ->]; cbn [String.eqb Ascii.eqb Bool.eqb];
    change (_assert_is_type "bone" (JDict kv) is_dict path)
      with (@Ok unit tt); cbn [bind];
    rewrite (present_required "bone" kv "name" (JStr s) path Hs); cbn [bind];
    unfold bone_keys in Hok; cbn [String.eqb Ascii.eqb Bool.eqb] in Hok;
    rewrite (keys_within_accepted "bone" kv _ path Hok); cbn [bind];
    rewrite (if_in_str_value "name" "name" kv _ _ Fname); cbn [bind].
  - rewrite (if_in_str_value "parent" "parent" kv _ _ Fparent). cbn [bind].
    rewrite (if_in_vector_value "pivot" "pivot" kv _ 3 _ Fpivot). cbn [bind].
    rewrite (if_in_vector_value "rotation" "rotation" kv _ 3 _ Frotation).
    cbn [bind]. exact Htail.
  - rewrite (if_in_absent "reset" kv tt _ A4). cbn [bind].
    rewrite (if_in_absent "neverRender" kv tt _ A5). cbn [bind].
    rewrite (if_in_str_value "parent" "parent" kv _ _ Fparent). cbn [bind].
    rewrite (if_in_vector_value "pivot" "pivot" kv _ 3 _ Fpivot). cbn [bind].
    rewrite (if_in_vector_value "rotation" "rotation" kv _ 3 _ Frotation).
    cbn [bind].
    rewrite (if_in_absent "bind_pose_rotation" kv tt _ A6). cbn [bind].
    exact Htail.
Qed.















(** ** The schema loader: key sets, as a whole load meets them *)

(** What [_load_geometry] raises as a malformed structure, the load
    raises. *)
Lemma load_model_geometry_error (data : json) (geometry_name : string)
    (fv : json) (path : json_path) :
  _load_format_version data = Ok fv ->
  structure_error (_load_geometry fv geometry_name data) path ->
  structure_error (load_model data geometry_name) path.
Proof.
  intros Hf H. unfold load_model. rewrite Hf. cbn [bind].
  apply structure_error_bind. exact H.
Qed.

Lemma load_model_description_error (data : json) (geometry_name : string)
    (fv geometry : json) (geometry_path path : json_path) :
  _load_format_version data = Ok fv ->
  _load_geometry fv geometry_name data = Ok (geometry, geometry_path) ->
  structure_error (_load_description fv geometry geometry_path) path ->
  structure_error (load_model data geometry_name) path.
Proof.
  intros Hf Hg H. unfold load_model. rewrite Hf. cbn [bind]. rewrite Hg.
  cbn [bind]. apply structure_error_bind. exact H.
Qed.

Lemma load_model_bones_error (data : json) (geometry_name : string)
    (fv : json) (gkv : list (string * json)) (geometry_path path : json_path)
    (d : description_data) (bones : json) :
  _load_format_version data = Ok fv ->
  _load_geometry fv geometry_name data = Ok (JDict gkv, geometry_path) ->
  _load_description fv (JDict gkv) geometry_path = Ok d ->
  dict_get "bones" gkv = Some bones ->
  structure_error
    (_load_bones fv bones (geometry_path ++ [PKey "bones"])) path ->
  structure_error (load_model data geometry_name) path.
Proof.
  intros Hf Hg Hd Hb H. unfold load_model. rewrite Hf. cbn [bind].
  rewrite Hg. cbn [bind]. rewrite Hd. cbn [bind json_getitem]. rewrite Hb.
  cbn [bind]. apply structure_error_bind. exact H.
Qed.

(** *** Geometries the loader passes over *)

(** A geometry of a 1.12.0 document that is looked at and not selected:
    an object with a description and bones and no other key, whose
    description holds an identifier other than the name asked for. *)
Definition passed_over_1_12 (geometry_name : string) (geometry : json)
    : bool :=
  match geometry with
  | JDict gkv =>
      keys_within gkv ["description"; "bones"] &&
      mem "description" (dict_keys gkv) && mem "bones" (dict_keys gkv) &&
      match dict_get "description" gkv with
      | Some desc =>
          match json_contains "identifier" desc,
                json_getitem desc "identifier" with
          | Ok true, Ok identifier =>
              negb (is_str_eq identifier geometry_name
                    || String.eqb geometry_name "")
          | _, _ => false
          end
      | None => false
      end
  | _ => false
  end.

(** An entry of a 1.8.0 document that is skipped, or looked at and not
    selected. *)
Definition passed_over_1_8 (geometry_name : string)
    (item : string * json) : bool :=
  mem (fst item) ["format_version"; "debug"] ||
  match snd item with
  | JDict gkv =>
      keys_within gkv geometry_keys_1_8 &&
      negb (String.eqb (fst item) geometry_name
            || String.eqb geometry_name "")
  | _ => false
  end.

Lemma both_required (what : string) (kv : list (string * json))
    (path : json_path) :
  mem "description" (dict_keys kv) = true ->
  mem "bones" (dict_keys kv) = true ->
  _assert_has_required_keys what (dict_keys kv) ["description"; "bones"] path
  = Ok tt.
Proof.
  intros Hd Hb.
  destruct (_assert_has_required_keys_cases what (dict_keys kv)
              ["description"; "bones"] path)
    as [[E _]|(missing & _ & Hne & Hin)]; [exact E|].
  exfalso. destruct missing as [|x l]; [congruence|].
  destruct (proj1 (Hin x) (or_introl eq_refl)) as [[<-|[<-|[]]] Hm];
    congruence.
Qed.

Lemma _load_geometry_1_12_from_passes (geometry_name : string) :
  forall (before tail : list json) (i : nat),
    forallb (passed_over_1_12 geometry_name) before = true ->
    _load_geometry_1_12_from i (before ++ tail) geometry_name
    = _load_geometry_1_12_from (i + List.length before) tail geometry_name.
Proof.
  induction before as [|g before IH]; intros tail i H.
  - cbn [app List.length]. rewrite Nat.add_0_r. reflexivity.
  - cbn [forallb] in H. apply andb_prop in H. destruct H as [Hg Hb].
    destruct g as [| | | | | |gkv]; try discriminate.
    cbn [passed_over_1_12] in Hg.
    apply andb_prop in Hg. destruct Hg as [Hg Hsel].
    apply andb_prop in Hg. destruct Hg as [Hg Hmb].
    apply andb_prop in Hg. destruct Hg as [Hk Hmd].
    cbn [app List.length _load_geometry_1_12_from].
    change (_assert_is_type "gometry" (JDict gkv) is_dict
              [PKey "minecraft:geometry"; PIdx i]) with (@Ok unit tt).
    cbn [bind keys_of].
    rewrite (both_required "geometry" gkv _ Hmd Hmb). cbn [bind].
    rewrite (keys_within_accepted "geometry" gkv _ _ Hk).
    cbn [bind json_getitem].
    destruct (dict_get "description" gkv) as [desc|]; [|discriminate].
    cbn [bind].
    destruct (json_contains "identifier" desc) as [[|]|]; try discriminate.
    cbn [bind negb].
    destruct (json_getitem desc "identifier") as [identifier|];
      [|discriminate].
    cbn [bind]. apply negb_true_iff in Hsel. rewrite Hsel.
    rewrite (IH tail (S i) Hb). f_equal. lia.
Qed.

Lemma _load_geometry_1_8_items_passes (geometry_name : string) :
  forall (before tail : list (string * json)),
    forallb (passed_over_1_8 geometry_name) before = true ->
    _load_geometry_1_8_items (before ++ tail) geometry_name
    = _load_geometry_1_8_items tail geometry_name.
Proof.
  induction before as [|[k g] before IH]; intros tail H; [reflexivity|].
  cbn [forallb] in H. apply andb_prop in H. destruct H as [Hg Hb].
  cbn [app _load_geometry_1_8_items]. unfold passed_over_1_8 in Hg.
  cbn [fst snd] in Hg.
  destruct (mem k ["format_version"; "debug"]); [exact (IH tail Hb)|].
  cbn [orb] in Hg. destruct g as [| | | | | |gkv]; try discriminate.
  apply andb_prop in Hg. destruct Hg as [Hk Hsel].
  change (_assert_is_type "gometry" (JDict gkv) is_dict [PKey k])
    with (@Ok unit tt).
  cbn [bind keys_of].
  rewrite (keys_within_accepted "geometry" gkv _ _ Hk). cbn [bind].
  apply negb_true_iff in Hsel. rewrite Hsel. exact (IH tail Hb).
Qed.

Lemma _load_geometry_1_12 (fv : json) (geometry_name : string)
    (kv : list (string * json)) (l : list json) :
  pick_version_parser known_parsers fv = Ok "1.12.0" ->
  dict_get "minecraft:geometry" kv = Some (JList l) ->
  _load_geometry fv geometry_name (JDict kv)
  = _load_geometry_1_12_from 0 l geometry_name.
Proof.
  intros Hv Hg. unfold _load_geometry. rewrite Hv.
  cbn [bind String.eqb Ascii.eqb Bool.eqb json_getitem]. rewrite Hg.
  reflexivity.
Qed.

Lemma _load_geometry_1_8 (fv : json) (geometry_name : string)
    (kv : list (string * json)) :
  pick_version_parser known_parsers fv = Ok "1.8.0" ->
  _load_geometry fv geometry_name (JDict kv)
  = _load_geometry_1_8_items kv geometry_name.
Proof.
  intros Hv. unfold _load_geometry. rewrite Hv. reflexivity.
Qed.

(** A geometry of a 1.12.0 document whose description holds no
    identifier: the error names the geometry. *)
Lemma _load_geometry_1_12_from_no_identifier (i : nat)
    (gkv : list (string * json)) (desc : json) (rest : list json)
    (geometry_name : string) :
  keys_within gkv ["description"; "bones"] = true ->
  mem "bones" (dict_keys gkv) = true ->
  dict_get "description" gkv = Some desc ->
  json_contains "identifier" desc = Ok false ->
  _load_geometry_1_12_from i (JDict gkv :: rest) geometry_name
  = Raise (FileIsNotAModelException
             (MsgMissingIdentifier [PKey "minecraft:geometry"; PIdx i])).
Proof.
  intros Hk Hb Hd Hc. cbn [_load_geometry_1_12_from].
  change (_assert_is_type "gometry" (JDict gkv) is_dict
            [PKey "minecraft:geometry"; PIdx i]) with (@Ok unit tt).
  cbn [bind keys_of].
  assert (Hmd : mem "description" (dict_keys gkv) = true).
  { destruct (mem "description" (dict_keys gkv)) eqn:E; [reflexivity|].
    apply mem_dict_get in E. congruence. }
  rewrite (both_required "geometry" gkv _ Hmd Hb). cbn [bind].
  rewrite (keys_within_accepted "geometry" gkv _ _ Hk).
  cbn [bind json_getitem]. rewrite Hd. cbn [bind]. rewrite Hc. reflexivity.
Qed.

(** *** Bones and cubes the loader gets to *)

Lemma _load_bones_from_reaches (fv : json) (path : json_path) :
  forall (before : list json) (bone : json) (rest : list json) (i : nat)
         (loaded : list bone_data) (p : json_path),
    _load_bones_from fv i before path = Ok loaded ->
    structure_error
      (_load_bone fv bone (path ++ [PIdx (i + List.length before)])) p ->
    structure_error
      (_load_bones_from fv i (before ++ bone :: rest) path) p.
Proof.
  induction before as [|b before IH]; intros bone rest i loaded p H He.
  - cbn [app List.length _load_bones_from] in *. rewrite Nat.add_0_r in He.
    apply structure_error_bind. exact He.
  - cbn [app List.length _load_bones_from] in *.
    destruct (_load_bone fv b (path ++ [PIdx i])) as [x|e]; cbn [bind] in *;
      [|discriminate].
    destruct (_load_bones_from fv (S i) before path) as [xs|e] eqn:E;
      cbn [bind] in H; [|discriminate].
    apply structure_error_bind. apply (IH bone rest (S i) xs p E).
    replace (S i + List.length before)%nat
      with (i + S (List.length before))%nat by lia.
    exact He.
Qed.

Lemma _load_cubes_from_reaches (fv : json) (path : json_path)
    (default_mirror : bool) :
  forall (before : list json) (cube : json) (rest : list json) (i : nat)
         (loaded : list cube_data) (p : json_path),
    _load_cubes_from fv i before path default_mirror = Ok loaded ->
    structure_error
      (_load_cube fv cube (path ++ [PIdx (i + List.length before)])
         default_mirror) p ->
    structure_error
      (_load_cubes_from fv i (before ++ cube :: rest) path default_mirror) p.
Proof.
  induction before as [|c before IH]; intros cube rest i loaded p H He.
  - cbn [app List.length _load_cubes_from] in *. rewrite Nat.add_0_r in He.
    apply structure_error_bind. exact He.
  - cbn [app List.length _load_cubes_from] in *.
    destruct (_load_cube fv c (path ++ [PIdx i]) default_mirror) as [x|e];
      cbn [bind] in *; [|discriminate].
    destruct (_load_cubes_from fv (S i) before path default_mirror)
      as [xs|e] eqn:E; cbn [bind] in H; [|discriminate].
    apply structure_error_bind. apply (IH cube rest (S i) xs p E).
    replace (S i + List.length before)%nat
      with (i + S (List.length before))%nat by lia.
    exact He.
Qed.

Lemma _load_bones_reaches (fv : json) (pv : string) (path : json_path)
    (before : list json) (bone : json) (rest : list json)
    (loaded : list bone_data) (p : json_path) :
  pick_version_parser known_parsers fv = Ok pv ->
  pv = "1.12.0" \/ pv = "1.8.0" ->
  _load_bones_from fv 0 before path = Ok loaded ->
  structure_error
    (_load_bone fv bone (path ++ [PIdx (List.length before)])) p ->
  structure_error (_load_bones fv (JList (before ++ bone :: rest)) path) p.
Proof.
  intros Hv Hpv H He. unfold _load_bones. rewrite Hv. cbn [bind].
  assert (E : String.eqb pv "1.12.0" || String.eqb pv "1.8.0" = true)
    by (destruct Hpv as [-> | ->]; reflexivity).
  rewrite E.
  change (_assert_is_type "bones property" (JList (before ++ bone :: rest))
            is_list path) with (@Ok unit tt).
  cbn [bind].
  exact (_load_bones_from_reaches fv path before bone rest 0%nat loaded p H
           He).
Qed.

(** A cube of a bone whose head is read, behind cubes that load. *)
Lemma _load_bone_reaches_cube (fv : json) (pv : string)
    (bkv : list (string * json)) (path : json_path)
    (before : list json) (cube : json) (rest : list json)
    (loaded : list cube_data) (p : json_path) :
  pick_version_parser known_parsers fv = Ok pv ->
  pv = "1.12.0" \/ pv = "1.8.0" ->
  bone_head_ok pv bkv = true ->
  dict_get "cubes" bkv = Some (JList (before ++ cube :: rest)) ->
  _load_cubes_from fv 0 before (path ++ [PKey "cubes"])
    (bool_or "mirror" bkv false) = Ok loaded ->
  structure_error
    (_load_cube fv cube
       ((path ++ [PKey "cubes"]) ++ [PIdx (List.length before)])
       (bool_or "mirror" bkv false)) p ->
  structure_error (_load_bone fv (JDict bkv) path) p.
Proof.
  intros Hv Hpv Hh Hc Hb He.
  rewrite (_load_bone_head fv pv bkv path Hv Hpv Hh). cbv zeta.
  apply structure_error_bind. unfold if_in. rewrite Hc.
  unfold _load_cubes. rewrite Hv. cbn [bind].
  assert (E : String.eqb pv "1.12.0" || String.eqb pv "1.8.0" = true)
    by (destruct Hpv as [-> | ->]; reflexivity).
  rewrite E.
  change (_assert_is_type "cubes property" (JList (before ++ cube :: rest))
            is_list (path ++ [PKey "cubes"])) with (@Ok unit tt).
  cbn [bind].
  exact (_load_cubes_from_reaches fv _ _ before cube rest 0%nat loaded p Hb
           He).
Qed.

Lemma cube_keys_unaccepted (fv : json) (pv : string)
    (ckv : list (string * json)) (path : json_path) (default_mirror : bool) :
  pick_version_parser known_parsers fv = Ok pv ->
  pv = "1.12.0" \/ pv = "1.8.0" ->
  (exists k, In k (dict_keys ckv) /\ mem k (cube_keys pv) = false) ->
  structure_error (_load_cube fv (JDict ckv) path default_mirror) path.
Proof.
  intros Hv [-> | ->] H.
  - exact (proj1 (_load_cube_key_checks fv ckv path default_mirror) Hv H).
  - exact (proj2 (_load_cube_key_checks fv ckv path default_mirror) Hv H).
Qed.

Lemma bone_keys_bad (fv : json) (pv : string) (bkv : list (string * json))
    (path : json_path) :
  pick_version_parser known_parsers fv = Ok pv ->
  pv = "1.12.0" \/ pv = "1.8.0" ->
  lacks_or_exceeds (dict_keys bkv) ["name"] (bone_keys pv) ->
  structure_error (_load_bone fv (JDict bkv) path) path.
Proof.
  intros Hv [-> | ->] H.
  - exact (proj1 (_load_bone_key_checks fv bkv path) Hv H).
  - exact (proj2 (_load_bone_key_checks fv bkv path) Hv H).
Qed.

(** C6. The key-set checks of the loader, as a load meets them.  Each
    fails as a malformed structure ([FileIsNotAModelException]) carrying
    the path of the object checked, and the load fails with it: for a
    document without [format_version] and for a top-level object with a
    bad key set, at the empty path; for a geometry the loader gets to
    (those before it being passed over), at the path of the geometry;
    for the description of the selected geometry of a 1.12.0 document
    with a key that is not accepted, at the path of the description; for
    a bone behind bones that load, at the path of the bone; for a cube
    behind cubes that load, in a bone whose head is read, at the path of
    the cube.  A description without [identifier] fails in the check of
    its geometry, with the path of the geometry. *)
Theorem loader_rejects_bad_key_sets :
  forall fv : json,
    (forall data geometry_name keys,
        keys_of data = Ok keys ->
        mem "format_version" keys = false ->
        load_model data geometry_name
        = Raise (FileIsNotAModelException
                   (MsgMissingProperties [] "model file" ["format_version"]))) /\
    (forall kv geometry_name,
        dict_get "format_version" kv = Some fv ->
        (pick_version_parser known_parsers fv = Ok "1.12.0" ->
         lacks_or_exceeds (dict_keys kv)
           ["minecraft:geometry"; "format_version"]
           ["minecraft:geometry"; "format_version"; "cape"] ->
         structure_error (load_model (JDict kv) geometry_name) []) /\
        (pick_version_parser known_parsers fv = Ok "1.8.0" ->
         (exists x, In x (dict_keys kv) /\ String.prefix "geometry." x = false /\
                    mem x ["debug"; "format_version"] = false) ->
         structure_error (load_model (JDict kv) geometry_name) [])) /\
    (forall kv geometry_name before gkv rest,
        _load_format_version (JDict kv) = Ok fv ->
        pick_version_parser known_parsers fv = Ok "1.12.0" ->
        dict_get "minecraft:geometry" kv
        = Some (JList (before ++ JDict gkv :: rest)) ->
        forallb (passed_over_1_12 geometry_name) before = true ->
        (lacks_or_exceeds (dict_keys gkv) ["description"; "bones"]
                          ["description"; "bones"] ->
         structure_error (load_model (JDict kv) geometry_name)
           [PKey "minecraft:geometry"; PIdx (List.length before)]) /\
        (forall desc,
            keys_within gkv ["description"; "bones"] = true ->
            mem "bones" (dict_keys gkv) = true ->
            dict_get "description" gkv = Some desc ->
            json_contains "identifier" desc = Ok false ->
            load_model (JDict kv) geometry_name
            = Raise (FileIsNotAModelException
                       (MsgMissingIdentifier
                          [PKey "minecraft:geometry";
                           PIdx (List.length before)])))) /\
    (forall geometry_name before k gkv rest,
        _load_format_version (JDict (before ++ (k, JDict gkv) :: rest))
        = Ok fv ->
        pick_version_parser known_parsers fv = Ok "1.8.0" ->
        forallb (passed_over_1_8 geometry_name) before = true ->
        mem k ["format_version"; "debug"] = false ->
        (exists k', In k' (dict_keys gkv) /\
                    mem k' geometry_keys_1_8 = false) ->
        structure_error
          (load_model (JDict (before ++ (k, JDict gkv) :: rest))
             geometry_name)
          [PKey k]) /\
    (forall data geometry_name gkv dkv path,
        _load_format_version data = Ok fv ->
        pick_version_parser known_parsers fv = Ok "1.12.0" ->
        _load_geometry fv geometry_name data = Ok (JDict gkv, path) ->
        dict_get "description" gkv = Some (JDict dkv) ->
        (exists k, In k (dict_keys dkv) /\
                   mem k description_keys_1_12 = false) ->
        structure_error (load_model data geometry_name)
          (path ++ [PKey "description"])) /\
    (forall pv data geometry_name gkv path d before bkv rest loaded,
        pick_version_parser known_parsers fv = Ok pv ->
        pv = "1.12.0" \/ pv = "1.8.0" ->
        _load_format_version data = Ok fv ->
        _load_geometry fv geometry_name data = Ok (JDict gkv, path) ->
        _load_description fv (JDict gkv) path = Ok d ->
        dict_get "bones" gkv = Some (JList (before ++ JDict bkv :: rest)) ->
        _load_bones_from fv 0 before (path ++ [PKey "bones"]) = Ok loaded ->
        (lacks_or_exceeds (dict_keys bkv) ["name"] (bone_keys pv) ->
         structure_error (load_model data geometry_name)
           (path ++ [PKey "bones"; PIdx (List.length before)])) /\
        (forall cubes_before ckv cubes_rest cubes_loaded,
            bone_head_ok pv bkv = true ->
            dict_get "cubes" bkv
            = Some (JList (cubes_before ++ JDict ckv :: cubes_rest)) ->
            _load_cubes_from fv 0 cubes_before
              (path ++ [PKey "bones"; PIdx (List.length before);
                        PKey "cubes"])
              (bool_or "mirror" bkv false) = Ok cubes_loaded ->
            (exists k, In k (dict_keys ckv) /\
                       mem k (cube_keys pv) = false) ->
            structure_error (load_model data geometry_name)
              (path ++ [PKey "bones"; PIdx (List.length before);
                        PKey "cubes"; PIdx (List.length cubes_before)]))).
Proof.
  intros fv.
  split; [intros; eapply load_model_without_format_version; eassumption|].
  split; [intros; apply _load_format_version_key_checks; assumption|].
  split; [|split; [|split]].
  - intros kv geometry_name before gkv rest Hf Hv Hg Hb. split.
    + intros Hbad. apply (load_model_geometry_error _ _ fv _ Hf).
      rewrite (_load_geometry_1_12 fv geometry_name kv _ Hv Hg).
      rewrite (_load_geometry_1_12_from_passes geometry_name before _ 0 Hb).
      cbn [Nat.add].
      exact (proj1 (_load_geometry_key_checks (List.length before) ""
                      gkv geometry_name) rest Hbad).
    + intros desc Hk Hmb Hd Hc. unfold load_model. rewrite Hf. cbn [bind].
      rewrite (_load_geometry_1_12 fv geometry_name kv _ Hv Hg).
      rewrite (_load_geometry_1_12_from_passes geometry_name before _ 0 Hb).
      cbn [Nat.add].
      rewrite (_load_geometry_1_12_from_no_identifier (List.length before)
                 gkv desc rest geometry_name Hk Hmb Hd Hc).
      reflexivity.
  - intros geometry_name before k gkv rest Hf Hv Hb Hk Hbad.
    apply (load_model_geometry_error _ _ fv _ Hf).
    rewrite (_load_geometry_1_8 fv geometry_name _ Hv).
    rewrite (_load_geometry_1_8_items_passes geometry_name before _ Hb).
    exact (proj2 (_load_geometry_key_checks 0 k gkv geometry_name) rest Hk
             Hbad).
  - intros data geometry_name gkv dkv path Hf Hv Hg Hd Hbad.
    apply (load_model_description_error _ _ fv _ path _ Hf Hg).
    apply (proj1 (_load_description_key_checks fv gkv path) Hv dkv Hd).
    right. exact Hbad.
  - intros pv data geometry_name gkv path d before bkv rest loaded
      Hv Hpv Hf Hg Hd Hb Hl.
    assert (P2 : path ++ [PKey "bones"; PIdx (List.length before)]
                 = (path ++ [PKey "bones"]) ++ [PIdx (List.length before)])
      by (rewrite <- app_assoc; reflexivity).
    split.
    + intros Hbad.
      apply (load_model_bones_error _ _ fv gkv path _ d _ Hf Hg Hd Hb).
      apply (_load_bones_reaches fv pv _ before _ rest loaded _ Hv Hpv Hl).
      rewrite P2. apply (bone_keys_bad fv pv bkv _ Hv Hpv Hbad).
    + intros cb ckv cr cl Hh Hc Hcl Hbad.
      assert (P3 : path ++ [PKey "bones"; PIdx (List.length before);
                            PKey "cubes"]
                   = ((path ++ [PKey "bones"])
                      ++ [PIdx (List.length before)]) ++ [PKey "cubes"])
        by (rewrite <- !app_assoc; reflexivity).
      assert (P4 : path ++ [PKey "bones"; PIdx (List.length before);
                            PKey "cubes"; PIdx (List.length cb)]
                   = (((path ++ [PKey "bones"])
                       ++ [PIdx (List.length before)]) ++ [PKey "cubes"])
                     ++ [PIdx (List.length cb)])
        by (rewrite <- !app_assoc; reflexivity).
      rewrite P3 in Hcl.
      apply (load_model_bones_error _ _ fv gkv path _ d _ Hf Hg Hd Hb).
      apply (_load_bones_reaches fv pv _ before _ rest loaded _ Hv Hpv Hl).
      apply (_load_bone_reaches_cube fv pv bkv _ cb (JDict ckv) cr cl _
               Hv Hpv Hh Hc Hcl).
      rewrite P4. apply (cube_keys_unaccepted fv pv ckv _ _ Hv Hpv Hbad).
Qed.

(** A document whose second bone holds, behind an empty cube, a cube with
    a key that no cube has; and one whose description has no
    identifier. *)
Definition bad_cube_document : json :=
  JDict
    [("format_version", JStr "1.12.0");
     ("minecraft:geometry",
      JList
        [JDict
           [("description", JDict [("identifier", JStr "geometry.a")]);
            ("bones",
             JList
               [JDict [("name", JStr "a")];
                JDict [("name", JStr "b");
                       ("cubes",
                        JList [JDict []; JDict [("bogus", JInt 1)]])]])]])].

Definition no_identifier_document : json :=
  JDict
    [("format_version", JStr "1.12.0");
     ("minecraft:geometry",
      JList
        [JDict [("description", JDict [("texture_width", JInt 16)]);
                ("bones", JList [])]])].

Lemma loader_rejects_bad_key_sets_witness :
  load_model (JDict [("minecraft:geometry", JList [])]) ""
  = Raise (FileIsNotAModelException
             (MsgMissingProperties [] "model file" ["format_version"])) /\
  structure_error (load_model bad_cube_document "")
    [PKey "minecraft:geometry"; PIdx 0; PKey "bones"; PIdx 1;
     PKey "cubes"; PIdx 1] /\
  load_model no_identifier_document ""
  = Raise (FileIsNotAModelException
             (MsgMissingIdentifier [PKey "minecraft:geometry"; PIdx 0])).
Proof.
  split; [|split].
  - apply (proj1 (loader_rejects_bad_key_sets JNull)) with
      (keys := ["minecraft:geometry"]); reflexivity.
  - refine (proj2 (proj2 (proj2 (proj2 (proj2 (proj2
              (loader_rejects_bad_key_sets (JStr "1.12.0"))))))
              "1.12.0" bad_cube_document ""
              [("description", JDict [("identifier", JStr "geometry.a")]);
               ("bones",
                JList
                  [JDict [("name", JStr "a")];
                   JDict [("name", JStr "b");
                          ("cubes",
                           JList [JDict []; JDict [("bogus", JInt 1)]])]])]
              [PKey "minecraft:geometry"; PIdx 0]
              (mk_description 64 64 zeros3 (JInt 1) (JInt 1)
                 (Some "geometry.a"))
              [JDict [("name", JStr "a")]]
              [("name", JStr "b");
               ("cubes", JList [JDict []; JDict [("bogus", JInt 1)]])]
              []
              [bone_of (JDict [("name", JStr "a")])]
              eq_refl (or_introl eq_refl) eq_refl eq_refl eq_refl eq_refl
              eq_refl)
              [JDict []] [("bogus", JInt 1)] [] [cube_of false (JDict [])]
              eq_refl eq_refl eq_refl _).
    exists "bogus". split; [left; reflexivity | reflexivity].
  - exact (proj2 (proj1 (proj2 (proj2 (loader_rejects_bad_key_sets
             (JStr "1.12.0"))))
             [("format_version", JStr "1.12.0");
              ("minecraft:geometry",
               JList
                 [JDict [("description",
                          JDict [("texture_width", JInt 16)]);
                         ("bones", JList [])]])]
             "" []
             [("description", JDict [("texture_width", JInt 16)]);
              ("bones", JList [])]
             [] eq_refl eq_refl eq_refl eq_refl)
             (JDict [("texture_width", JInt 16)]) eq_refl eq_refl eq_refl
             eq_refl).
Defined.

(** A document with two geometries; the second holds a key that no
    geometry accepts. *)
Definition two_geometries : json :=
  JDict
    [("format_version", JStr "1.12.0");
     ("minecraft:geometry",
      JList
        [JDict [("description", JDict [("identifier", JStr "geometry.a")]);
                ("bones", JList [])];
         JDict [("description", JDict [("identifier", JStr "geometry.b")]);
                ("bones", JList []);
                ("extra", JInt 1)]])].

(** A bone with an unsupported [inflate] whose cube holds an unknown key. *)
Definition inflated_bone : json :=
  JDict [("name", JStr "body"); ("inflate", JInt 1);
         ("cubes", JList [JDict [("bogus", JInt 1)]])].

(** C6, as stated, fails: a geometry after the selected one is never
    looked at, so its unaccepted key does not stop the load; and an error
    met earlier wins over a bad key set met later. *)
Lemma unreached_objects_are_not_checked :
  (exists k, In k ["description"; "bones"; "extra"] /\
             mem k ["description"; "bones"] = false) /\
  (exists loaded, load_model two_geometries "" = Ok loaded) /\
  _load_bone (JStr "1.12.0") inflated_bone [PIdx 0]
  = Raise (ImportingNotImplementedError "inflate" [PIdx 0; PKey "inflate"]).
Proof.
  split; [exists "extra"; split; [simpl; tauto | reflexivity]|].
  split; [eexists; vm_compute; reflexivity | vm_compute; reflexivity].
Qed.


(** ** Numbers written to the exported model *)

(** The number of thousandths [round(x, 3)] settles on. *)
Definition thousandths (x : pynum) : Z :=
  match x with
  | PyInt z => (1000 * z)%Z
  | PyFloat q => round_half_even (Qmult q (1000 # 1))
  | PyNegZero => 0%Z
  end.

(** How a number of thousandths is written: a whole number as an [int],
    anything else as a [float]. *)
Definition emit (k : Z) : pynum :=
  if (k mod 1000 =? 0)%Z then PyInt (k / 1000) else PyFloat (k # 1000).




Lemma quot_exact_1000 (k : Z) :
  (k mod 1000 = 0)%Z -> Z.quot k 1000 = (k / 1000)%Z.
Proof.
  intros H. apply Z.div_exact in H; [|lia].
  rewrite H at 1. rewrite Z.mul_comm, Z.quot_mul by lia. reflexivity.
Qed.

Lemma normalize_entry_emit (x : pynum) :
  normalize_entry (py_round3 x) = emit (thousandths x).
Proof.
  unfold emit. destruct x as [z|q|]; cbn [py_round3 thousandths].
  - replace (1000 * z)%Z with (z * 1000)%Z by lia.
    rewrite Z.mod_mul, Z.div_mul by lia. cbn [Z.eqb].
    unfold normalize_entry. cbn [is_zero].
    destruct (Z.eqb_spec z 0) as [->|]; reflexivity.
  - set (k := round_half_even (q * (1000 # 1))).
    destruct (Z.eqb_spec k 0) as [Hk|Hk].
    + rewrite Hk. cbn [andb].
      destruct (Qnum q <? 0)%Z; reflexivity.
    + cbn [andb]. unfold normalize_entry. cbn [is_zero Qnum].
      destruct (Z.eqb_spec k 0); [contradiction|].
      cbn [is_integer py_int_of Qnum Qden].
      destruct (Z.eqb_spec (k mod 1000) 0) as [Hm|Hm]; [|reflexivity].
      rewrite quot_exact_1000 by exact Hm. reflexivity.
  - reflexivity.
Qed.

Lemma get_vect_json_emit (arr : list pynum) :
  get_vect_json arr = map (fun x => emit (thousandths x)) arr.
Proof.
  unfold get_vect_json. rewrite map_map. apply map_ext.
  intros x. apply normalize_entry_emit.
Qed.

Lemma traverse_Forall2 {A B : Type} (f : A -> result B) (l : list A)
    (r : list B) :
  traverse f l = Ok r -> Forall2 (fun a b => f a = Ok b) l r.
Proof.
  revert r. induction l as [|a l IH]; cbn [traverse]; intros r H.
  - inversion H. constructor.
  - apply bind_Ok in H. destruct H as (b & Hb & H).
    apply bind_Ok in H. destruct H as (bs & Hbs & H).
    inversion H; subst. constructor; [exact Hb | apply IH, Hbs].
Qed.



Section BoneJsonFacts.

Variable Matrix : Type.
Variable matmul : Matrix -> Matrix -> Matrix.
Variable inverted : Matrix -> option Matrix.
Variable normalized : Matrix -> Matrix.
Variable to_translation : Matrix -> qvec3.
Variable to_euler_XZY : Matrix -> qvec3.
Variable quaternion_euler_XZY : Matrix -> qvec3.
Variable decompose_scale : Matrix -> qvec3.
Variable math_pi : Q.
Variable frames : nat.

Opaque get_vect_json.




Transparent get_vect_json.

End BoneJsonFacts.

(** *** A scene of translations

    Matrices that only translate: the product adds, the inverse negates,
    there is no rotation and no scale.  It serves as a concrete scene. *)

Definition flat_matmul (a b : qvec3) : qvec3 := qadd a b.
Definition flat_inverted (a : qvec3) : option qvec3 :=
  Some (mkq (- qx a) (- qy a) (- qz a)).
Definition flat_normalized (a : qvec3) : qvec3 := a.
Definition flat_to_translation (a : qvec3) : qvec3 := a.
Definition flat_to_euler (a : qvec3) : qvec3 := mkq 0 0 0.
Definition flat_scale (a : qvec3) : qvec3 := mkq 1 1 1.
Definition flat_pi : Q := 355 # 113.

(** A mesh without parent, 3/32 wide and 1/16 deep and high, at the
    origin: a bone and its own cube. *)
Definition sample_box : bpy_Object qvec3 :=
  let lo := mkq 0 0 0 in
  let hi := mkq (3 # 32) (1 # 16) (1 # 16) in
  BpyObject "MESH" "box" None "OBJECT" "" 0 [] (mkq 0 0 0)
            [lo; lo; lo; lo; lo; lo; hi; lo] [].

Definition sample_box_props : ObjectMcProperties qvec3 :=
  mk_props (mk_id "box" "") sample_box None [] BOTH.

Definition sample_box_bone : result mcbone_json :=
  get_mcbone_json flat_matmul flat_inverted flat_normalized
    flat_to_translation flat_to_euler flat_to_euler flat_scale flat_pi 8
    sample_box_props [sample_box_props] []
    [(mk_id "box" "", sample_box_props)].






(** ** Pivot resolution *)

Section PivotFacts.

Variable Matrix : Type.
Variable matmul : Matrix -> Matrix -> Matrix.
Variable inverted : Matrix -> option Matrix.
Variable normalized : Matrix -> Matrix.
Variable to_translation : Matrix -> qvec3.

Let props := ObjectMcProperties Matrix.
Let pivot := get_mcpivot matmul inverted normalized to_translation.
Let pivot_rec := _get_mcpivot matmul inverted normalized to_translation.

(** The [n]-th node up the chain of [mcparent], when the chain is that
    long. *)
Fixpoint ancestor (n : nat) (object_properties : properties_dict Matrix)
    (objprop : props) : option props :=
  match n with
  | O => Some objprop
  | S n' =>
      match mcparent objprop with
      | None => None
      | Some parent_id =>
          match props_get parent_id object_properties with
          | None => None
          | Some parent => ancestor n' object_properties parent
          end
      end
  end.

(** The chain above [objprop] runs into a node that is its own ancestor. *)
Definition chain_has_cycle (object_properties : properties_dict Matrix)
    (objprop : props) : Prop :=
  exists m n c,
    ancestor m object_properties objprop = Some c /\
    ancestor (S n) object_properties c = Some c.

(** The chain above [objprop] never ends. *)
Definition endless (object_properties : properties_dict Matrix)
    (objprop : props) : Prop :=
  forall n, ancestor n object_properties objprop <> None.

Lemma ancestor_add (a b : nat) (d : properties_dict Matrix) (x : props) :
  ancestor (a + b) d x
  = match ancestor a d x with
    | Some y => ancestor b d y
    | None => None
    end.
Proof.
  revert x. induction a as [|a IH]; intros x; simpl; [reflexivity|].
  destruct (mcparent x) as [pid|]; [|reflexivity].
  destruct (props_get pid d) as [p|]; [apply IH | reflexivity].
Qed.

Lemma ancestor_prefix (a b : nat) (d : properties_dict Matrix) (x : props) :
  ancestor (a + b) d x <> None -> ancestor a d x <> None.
Proof.
  rewrite ancestor_add. destruct (ancestor a d x); congruence.
Qed.

Lemma cycle_turns (d : properties_dict Matrix) (c : props) (n : nat) :
  ancestor (S n) d c = Some c ->
  forall k, ancestor (k * S n) d c = Some c.
Proof.
  intros H. induction k as [|k IH]; [reflexivity|].
  change (S k * S n)%nat with (S n + k * S n)%nat.
  rewrite ancestor_add, H. exact IH.
Qed.

Lemma chain_has_cycle_endless (d : properties_dict Matrix) (x : props) :
  chain_has_cycle d x -> endless d x.
Proof.
  intros (m & n & c & Hm & Hc) j.
  apply ancestor_prefix with (b := (m + j * S n)%nat).
  replace (j + (m + j * S n))%nat with (m + (j + j * S n))%nat by lia.
  rewrite ancestor_add, Hm.
  assert (Hc' : ancestor (j + j * S n) d c <> None).
  { replace (j + j * S n)%nat with (j * S n + j)%nat by lia.
    rewrite ancestor_add, (cycle_turns _ _ _ Hc).
    apply ancestor_prefix with (b := (j * n)%nat).
    replace (j + j * n)%nat with (j * S n)%nat by lia.
    rewrite (cycle_turns _ _ _ Hc). discriminate. }
  exact Hc'.
Qed.

Lemma endless_step (d : properties_dict Matrix) (x : props) :
  endless d x ->
  exists pid parent,
    mcparent x = Some pid /\ props_get pid d = Some parent /\ endless d parent.
Proof.
  intros H. pose proof (H 1%nat) as H1. simpl in H1.
  destruct (mcparent x) as [pid|] eqn:Ep; [|congruence].
  destruct (props_get pid d) as [p|] eqn:Eg; [|congruence].
  exists pid, p. split; [reflexivity|]. split; [exact Eg|].
  intros n. specialize (H (S n)). simpl in H. rewrite Ep, Eg in H. exact H.
Qed.

Lemma _get_mcpivot_endless (d : properties_dict Matrix) :
  forall frames x, endless d x -> exists e, pivot_rec frames d x = Raise e.
Proof.
  induction frames as [|frames IH]; intros x Hx; simpl; [eauto|].
  destruct (endless_step _ _ Hx) as (pid & parent & Ep & Eg & Hp).
  unfold pivot_rec. cbn [_get_mcpivot]. rewrite Ep, Eg.
  destruct (matrix_world matmul parent) as [pm|e]; cbn [bind]; [|eauto].
  destruct (matrix_world matmul x) as [cm|e]; cbn [bind]; [|eauto].
  destruct (local_crds matmul inverted normalized to_translation pm cm)
    as [l|e]; cbn [bind]; [|eauto].
  destruct (IH parent Hp) as [e He]. unfold pivot_rec in He. rewrite He.
  cbn [bind]. eauto.
Qed.

Lemma _get_mcpivot_more_frames (d : properties_dict Matrix) :
  forall frames x v,
    pivot_rec frames d x = Ok v ->
    forall frames', (frames <= frames')%nat -> pivot_rec frames' d x = Ok v.
Proof.
  unfold pivot_rec.
  induction frames as [|frames IH]; intros x v H frames' Hle;
    [discriminate|].
  destruct frames' as [|frames']; [lia|].
  cbn [_get_mcpivot] in *.
  destruct (mcparent x) as [pid|]; [|exact H].
  destruct (props_get pid d) as [parent|]; [|exact H].
  destruct (matrix_world matmul parent) as [pm|e]; cbn [bind] in *;
    [|exact H].
  destruct (matrix_world matmul x) as [cm|e]; cbn [bind] in *; [|exact H].
  destruct (local_crds matmul inverted normalized to_translation pm cm)
    as [l|e]; cbn [bind] in *; [|exact H].
  destruct (_get_mcpivot matmul inverted normalized to_translation frames d
              parent) as [up|e] eqn:E; cbn [bind] in H; [|discriminate].
  rewrite (IH parent up E frames') by lia. exact H.
Qed.

(** [matrix_world] and [local_crds] fail in one way each. *)
Lemma matrix_world_raises (p : props) (e : exn) :
  matrix_world matmul p = Raise e -> e = KeyError.
Proof.
  unfold matrix_world. destruct (String.eqb _ _); [|discriminate].
  destruct (find_bone _ _); [discriminate|]. intros H. congruence.
Qed.

Lemma local_crds_raises (pm cm : Matrix) (e : exn) :
  local_crds matmul inverted normalized to_translation pm cm = Raise e ->
  exists m, e = ValueError m.
Proof.
  unfold local_crds, get_local_matrix.
  destruct (inverted (normalized pm)); cbn [bind]; [discriminate|].
  intros H. injection H as <-. eauto.
Qed.

(** The chain above [objprop] ends, after [n] steps, at a node without
    parent, and the matrices on the way can be computed: no bone of an
    armature is missing and the matrix of every parent has an inverse. *)
Fixpoint chain_computes (n : nat) (object_properties : properties_dict Matrix)
    (objprop : props) : Prop :=
  match n with
  | O => mcparent objprop = None /\
         exists m, matrix_world matmul objprop = Ok m
  | S n' =>
      exists parent_id parent parent_matrix child_matrix local,
        mcparent objprop = Some parent_id /\
        props_get parent_id object_properties = Some parent /\
        matrix_world matmul parent = Ok parent_matrix /\
        matrix_world matmul objprop = Ok child_matrix /\
        local_crds matmul inverted normalized to_translation
          parent_matrix child_matrix = Ok local /\
        chain_computes n' object_properties parent
  end.

(** At every node of the chain above [objprop] that has its parent among
    the properties, the local coordinates can be computed. *)
Definition every_step_computes (object_properties : properties_dict Matrix)
    (objprop : props) : Prop :=
  forall k node parent_id parent,
    ancestor k object_properties objprop = Some node ->
    mcparent node = Some parent_id ->
    props_get parent_id object_properties = Some parent ->
    exists parent_matrix child_matrix local,
      matrix_world matmul parent = Ok parent_matrix /\
      matrix_world matmul node = Ok child_matrix /\
      local_crds matmul inverted normalized to_translation
        parent_matrix child_matrix = Ok local.

Lemma chain_computes_pivot (d : properties_dict Matrix) :
  forall n x, chain_computes n d x -> exists v, pivot_rec (S n) d x = Ok v.
Proof.
  unfold pivot_rec.
  induction n as [|n IH]; intros x H; cbn [chain_computes] in H.
  - destruct H as (Hp & m & Hm). cbn [_get_mcpivot]. rewrite Hp, Hm.
    cbn [bind]. eauto.
  - destruct H as (pid & parent & pm & cm & l & Hp & Hg & Hpm & Hcm & Hl & H).
    destruct (IH parent H) as [up Hup].
    change (_get_mcpivot matmul inverted normalized to_translation
              (S (S n)) d x)
      with (match mcparent x with
            | Some parent_id =>
                match props_get parent_id d with
                | None => Raise KeyError
                | Some parent =>
                    parent_matrix <- matrix_world matmul parent ;;
                    child_matrix <- matrix_world matmul x ;;
                    result <- local_crds matmul inverted normalized
                                to_translation parent_matrix child_matrix ;;
                    up <- _get_mcpivot matmul inverted normalized
                            to_translation (S n) d parent ;;
                    Ok (qadd result up)
                end
            | None => m <- matrix_world matmul x ;; Ok (to_translation m)
            end).
    rewrite Hp, Hg, Hpm, Hcm. cbn [bind]. rewrite Hl. cbn [bind].
    rewrite Hup. cbn [bind]. eauto.
Qed.

(** A chain that ends is resolved within as many frames as it has nodes,
    and not by running out of frames. *)
Lemma finite_chain_settles (d : properties_dict Matrix) :
  forall n x,
    ancestor (S n) d x = None ->
    exists r,
      r <> Raise RecursionError /\
      forall frames, (n < frames)%nat -> pivot_rec frames d x = r.
Proof.
  unfold pivot_rec.
  induction n as [|n IH]; intros x H.
  - cbn [ancestor] in H.
    destruct (mcparent x) as [pid|] eqn:Ep.
    + destruct (props_get pid d) as [parent|] eqn:Eg; [discriminate|].
      exists (Raise KeyError). split; [discriminate|].
      intros [|frames] Hf; [lia|]. cbn [_get_mcpivot]. rewrite Ep, Eg.
      reflexivity.
    + exists (m <- matrix_world matmul x ;; Ok (to_translation m)). split.
      * destruct (matrix_world matmul x) as [m|e] eqn:Em; cbn [bind];
          [discriminate|].
        rewrite (matrix_world_raises _ _ Em). discriminate.
      * intros [|frames] Hf; [lia|]. cbn [_get_mcpivot]. rewrite Ep.
        reflexivity.
  - change (ancestor (S (S n)) d x)
      with (match mcparent x with
            | None => None
            | Some parent_id =>
                match props_get parent_id d with
                | None => None
                | Some parent => ancestor (S n) d parent
                end
            end) in H.
    destruct (mcparent x) as [pid|] eqn:Ep.
    + destruct (props_get pid d) as [parent|] eqn:Eg.
      * destruct (IH parent H) as (r' & Hr' & Hall).
        exists (parent_matrix <- matrix_world matmul parent ;;
                child_matrix <- matrix_world matmul x ;;
                result <- local_crds matmul inverted normalized
                            to_translation parent_matrix child_matrix ;;
                up <- r' ;;
                Ok (qadd result up)).
        split.
        -- destruct (matrix_world matmul parent) as [pm|e] eqn:Epm;
             cbn [bind];
             [|rewrite (matrix_world_raises _ _ Epm); discriminate].
           destruct (matrix_world matmul x) as [cm|e] eqn:Ecm; cbn [bind];
             [|rewrite (matrix_world_raises _ _ Ecm); discriminate].
           destruct (local_crds matmul inverted normalized to_translation
                       pm cm) as [l|e] eqn:El; cbn [bind].
           ++ destruct r' as [up|e]; cbn [bind]; [discriminate|].
              intros Hx. apply Hr'. exact Hx.
           ++ destruct (local_crds_raises _ _ _ El) as [m ->]. discriminate.
        -- intros [|frames] Hf; [lia|]. cbn [_get_mcpivot].
           rewrite Ep, Eg. rewrite (Hall frames) by lia. reflexivity.
      * exists (Raise KeyError). split; [discriminate|].
        intros [|frames] Hf; [lia|]. cbn [_get_mcpivot]. rewrite Ep, Eg.
        reflexivity.
    + exists (m <- matrix_world matmul x ;; Ok (to_translation m)). split.
      * destruct (matrix_world matmul x) as [m|e] eqn:Em; cbn [bind];
          [discriminate|].
        rewrite (matrix_world_raises _ _ Em). discriminate.
      * intros [|frames] Hf; [lia|]. cbn [_get_mcpivot]. rewrite Ep.
        reflexivity.
Qed.

Lemma every_step_computes_parent (d : properties_dict Matrix) (x : props)
    (pid : ObjectId) (parent : props) :
  mcparent x = Some pid -> props_get pid d = Some parent ->
  every_step_computes d x -> every_step_computes d parent.
Proof.
  intros Ep Eg H k node pid' parent' Hk. apply (H (S k)).
  cbn [ancestor]. rewrite Ep, Eg. exact Hk.
Qed.

(** On a chain without end whose steps can be computed, every number of
    frames runs out. *)
Lemma _get_mcpivot_runs_out (d : properties_dict Matrix) :
  forall frames x,
    endless d x -> every_step_computes d x ->
    pivot_rec frames d x = Raise RecursionError.
Proof.
  unfold pivot_rec.
  induction frames as [|frames IH]; intros x Hx Hs; [reflexivity|].
  destruct (endless_step _ _ Hx) as (pid & parent & Ep & Eg & Hp).
  destruct (Hs 0%nat x pid parent eq_refl Ep Eg)
    as (pm & cm & l & Hpm & Hcm & Hl).
  cbn [_get_mcpivot]. rewrite Ep, Eg, Hpm, Hcm. cbn [bind]. rewrite Hl.
  cbn [bind].
  rewrite (IH parent Hp (every_step_computes_parent d x pid parent Ep Eg Hs)).
  reflexivity.
Qed.

(** C4. Pivots add up along the chain of parents.  For a node without
    parent the pivot is the translation of its world matrix with Y and Z
    swapped.  For a node whose parent is among the properties, the pivot
    is the pivot of the parent plus the local translation of the node in
    its parent with Y and Z swapped, an error of the parent's computation
    being passed on; as [get_mcbone_json] writes it, the local translation
    is multiplied by 16.  The recursion is bounded by the frames the
    interpreter allows.  A result does not change with more frames; a
    chain that ends after [n] steps is resolved once there are more than
    [n] frames, and not by running out of them; it yields a pivot when
    the matrices on the way can be computed.  On a chain with a cycle the
    call ends in an error whatever the number of frames: in
    [RecursionError] when the local coordinates along the chain can be
    computed. *)
Theorem get_mcpivot_adds_up_the_chain :
  forall (frames : nat) (objprop : props)
         (object_properties : properties_dict Matrix),
    (mcparent objprop = None ->
     pivot (S frames) objprop object_properties
     = (m <- matrix_world matmul objprop ;;
        Ok (mkq (qx (to_translation m)) (qz (to_translation m))
                (qy (to_translation m))))) /\
    (forall parent_id parent parent_matrix child_matrix local,
        mcparent objprop = Some parent_id ->
        props_get parent_id object_properties = Some parent ->
        matrix_world matmul parent = Ok parent_matrix ->
        matrix_world matmul objprop = Ok child_matrix ->
        local_crds matmul inverted normalized to_translation
          parent_matrix child_matrix = Ok local ->
        pivot (S frames) objprop object_properties
        = (up <- pivot frames parent object_properties ;;
           Ok (mkq (qx local + qx up) (qz local + qy up)
                   (qy local + qz up))%Q) /\
        match scaled_pivot matmul inverted normalized to_translation
                (S frames) objprop object_properties,
              scaled_pivot matmul inverted normalized to_translation
                frames parent object_properties with
        | Ok v, Ok up =>
            qeq v (mkq (qx local * (16 # 1) + qx up)
                       (qz local * (16 # 1) + qy up)
                       (qy local * (16 # 1) + qz up))%Q
        | Raise e, Raise e' => e = e'
        | _, _ => False
        end) /\
    (forall v,
        pivot frames objprop object_properties = Ok v ->
        forall frames', (frames <= frames')%nat ->
                        pivot frames' objprop object_properties = Ok v) /\
    (forall n,
        ancestor (S n) object_properties objprop = None ->
        exists r,
          r <> Raise RecursionError /\
          forall frames', (n < frames')%nat ->
                          pivot frames' objprop object_properties = r) /\
    (forall n,
        chain_computes n object_properties objprop ->
        exists v,
          forall frames', (n < frames')%nat ->
                          pivot frames' objprop object_properties = Ok v) /\
    (chain_has_cycle object_properties objprop ->
     (exists e, pivot frames objprop object_properties = Raise e) /\
     (every_step_computes object_properties objprop ->
      pivot frames objprop object_properties = Raise RecursionError)).
Proof.
  intros frames objprop d. unfold pivot, scaled_pivot, get_mcpivot.
  split; [|split; [|split; [|split; [|split]]]].
  - intros Hp. cbn [_get_mcpivot]. rewrite Hp.
    destruct (matrix_world matmul objprop); reflexivity.
  - intros pid parent pm cm l Hp Hg Hpm Hcm Hl.
    cbn [_get_mcpivot]. rewrite Hp, Hg, Hpm, Hcm. cbn [bind]. rewrite Hl.
    cbn [bind].
    destruct (_get_mcpivot matmul inverted normalized to_translation frames d
                parent) as [up|e]; cbn [bind]; split; try reflexivity.
    unfold qeq, MINECRAFT_SCALE_FACTOR; simpl. repeat split; ring.
  - intros v H frames' Hle.
    destruct (_get_mcpivot matmul inverted normalized to_translation frames d
                objprop) as [w|e] eqn:E; cbn [bind] in H; [|discriminate].
    pose proof (_get_mcpivot_more_frames d frames objprop w E frames' Hle)
      as Hm.
    unfold pivot_rec in Hm. rewrite Hm. exact H.
  - intros n Hn.
    destruct (finite_chain_settles d n objprop Hn) as (r & Hr & Hall).
    unfold pivot_rec in Hall.
    exists (v <- r ;; Ok (xzy v)). split.
    + destruct r as [v|e]; cbn [bind]; [discriminate | exact Hr].
    + intros frames' Hf. rewrite (Hall frames' Hf). reflexivity.
  - intros n Hn.
    destruct (chain_computes_pivot d n objprop Hn) as [v Hv].
    exists (xzy v). intros frames' Hf.
    pose proof (_get_mcpivot_more_frames d (S n) objprop v Hv frames') as Hm.
    unfold pivot_rec in Hm. rewrite Hm by lia. reflexivity.
  - intros Hc. split.
    + destruct (_get_mcpivot_endless d frames objprop
                  (chain_has_cycle_endless _ _ Hc)) as [e He].
      unfold pivot_rec in He. rewrite He. cbn [bind]. eauto.
    + intros Hs.
      pose proof (_get_mcpivot_runs_out d frames objprop
                    (chain_has_cycle_endless _ _ Hc) Hs) as He.
      unfold pivot_rec in He. rewrite He. reflexivity.
Qed.

End PivotFacts.

(** A child bone at (11, 22, 33) under a root bone at (10, 20, 30), and
    two bones that name each other as parent. *)
Definition sample_empty (name : string) (at_ : qvec3) : bpy_Object qvec3 :=
  BpyObject "EMPTY" name None "OBJECT" "" 1 [] at_ [] [].

Definition sample_root : ObjectMcProperties qvec3 :=
  mk_props (mk_id "root" "") (sample_empty "root" (mkq 10 20 30)) None [] BONE.

Definition sample_child : ObjectMcProperties qvec3 :=
  mk_props (mk_id "child" "") (sample_empty "child" (mkq 11 22 33))
           (Some (mk_id "root" "")) [] BONE.

Definition sample_chain : properties_dict qvec3 :=
  [(mk_id "root" "", sample_root); (mk_id "child" "", sample_child)].

Definition sample_loop_a : ObjectMcProperties qvec3 :=
  mk_props (mk_id "a" "") (sample_empty "a" (mkq 0 0 0))
           (Some (mk_id "b" "")) [] BONE.

Definition sample_loop_b : ObjectMcProperties qvec3 :=
  mk_props (mk_id "b" "") (sample_empty "b" (mkq 0 0 0))
           (Some (mk_id "a" "")) [] BONE.

Definition sample_loop : properties_dict qvec3 :=
  [(mk_id "a" "", sample_loop_a); (mk_id "b" "", sample_loop_b)].

Lemma sample_loop_nodes (k : nat) :
  ancestor qvec3 k sample_loop sample_loop_a = Some sample_loop_a \/
  ancestor qvec3 k sample_loop sample_loop_a = Some sample_loop_b.
Proof.
  assert (H : forall k,
            (ancestor qvec3 k sample_loop sample_loop_a = Some sample_loop_a \/
             ancestor qvec3 k sample_loop sample_loop_a = Some sample_loop_b) /\
            (ancestor qvec3 k sample_loop sample_loop_b = Some sample_loop_a \/
             ancestor qvec3 k sample_loop sample_loop_b = Some sample_loop_b)).
  { clear k. induction k as [|k [IHa IHb]].
    - split; [left | right]; reflexivity.
    - split.
      + change (ancestor qvec3 (S k) sample_loop sample_loop_a)
          with (ancestor qvec3 k sample_loop sample_loop_b). exact IHb.
      + change (ancestor qvec3 (S k) sample_loop sample_loop_b)
          with (ancestor qvec3 k sample_loop sample_loop_a). exact IHa. }
  exact (proj1 (H k)).
Qed.

Lemma sample_loop_computes :
  every_step_computes qvec3 flat_matmul flat_inverted flat_normalized
    flat_to_translation sample_loop sample_loop_a.
Proof.
  intros k node pid parent Hk Hp Hg.
  destruct (sample_loop_nodes k) as [E|E]; rewrite E in Hk;
    injection Hk as <-; injection Hp as <-; injection Hg as <-;
    do 3 eexists; repeat split; reflexivity.
Qed.

Lemma get_mcpivot_adds_up_the_chain_witness :
  get_mcpivot flat_matmul flat_inverted flat_normalized flat_to_translation
    2 sample_child sample_chain
  = Ok (mkq 11 33 22) /\
  get_mcpivot flat_matmul flat_inverted flat_normalized flat_to_translation
    1000 sample_loop_a sample_loop
  = Raise RecursionError.
Proof.
  split.
  - refine (eq_trans
              (proj1 (proj1 (proj2 (get_mcpivot_adds_up_the_chain qvec3
                 flat_matmul flat_inverted flat_normalized
                 flat_to_translation 1 sample_child sample_chain))
                 (mk_id "root" "") sample_root (mkq 10 20 30) (mkq 11 22 33)
                 (mkq 1 2 3) eq_refl eq_refl eq_refl eq_refl eq_refl)) _).
    reflexivity.
  - apply (proj2 (proj2 (proj2 (proj2 (proj2 (get_mcpivot_adds_up_the_chain
             qvec3 flat_matmul flat_inverted flat_normalized
             flat_to_translation 1000 sample_loop_a sample_loop)))))).
    + exists 0%nat, 1%nat, sample_loop_a. split; reflexivity.
    + exact sample_loop_computes.
Defined.

(** ** Name conflicts *)

(** A list with a repeated entry has a first entry that an earlier one
    equals. *)
Lemma first_repeat_exists :
  forall (l acc : list string),
    NoDup acc -> ~ NoDup (acc ++ l) ->
    exists l1 n l2,
      l = l1 ++ n :: l2 /\ NoDup (acc ++ l1) /\ In n (acc ++ l1).
Proof.
  induction l as [|x l IH]; intros acc Hacc Hnd.
  - rewrite app_nil_r in Hnd. contradiction.
  - destruct (in_dec string_dec x acc) as [Hin|Hout].
    + exists [], x, l. rewrite app_nil_r. repeat split; assumption.
    + assert (Hacc' : NoDup (acc ++ [x])).
      { apply NoDup_app; [exact Hacc | repeat constructor; simpl; tauto |].
        intros y Hy [<-|[]]. exact (Hout Hy). }
      destruct (IH (acc ++ [x]) Hacc') as (l1 & n & l2 & -> & H1 & H2).
      { rewrite <- app_assoc. exact Hnd. }
      exists (x :: l1), n, l2. rewrite <- app_assoc in H1, H2.
      repeat split; assumption.
Qed.

Section NameConflictFacts.

Variable Matrix : Type.

(** The exported names of the nodes that are bones, in the order of the
    dictionary. *)
Definition bone_names (values : list (ObjectMcProperties Matrix))
    : result (list string) :=
  traverse (@name Matrix)
           (filter (fun p => is_bone_or_both (mctype p)) values).

Lemma get_name_conflicts_from_spec :
  forall (values : list (ObjectMcProperties Matrix)) (acc ns : list string),
    bone_names values = Ok ns ->
    NoDup acc ->
    (NoDup (acc ++ ns) -> get_name_conflicts_from values acc = Ok "") /\
    (forall l1 n l2,
        ns = l1 ++ n :: l2 -> NoDup (acc ++ l1) -> In n (acc ++ l1) ->
        get_name_conflicts_from values acc = Ok n).
Proof.
  unfold bone_names.
  induction values as [|p values IH]; intros acc ns Hns Hacc.
  - injection Hns as <-. split; [reflexivity|].
    intros [|x l1] n l2 H; discriminate.
  - cbn [filter get_name_conflicts_from] in *.
    destruct (is_bone_or_both (mctype p)); cbn [negb];
      [|apply IH; assumption].
    cbn [traverse] in Hns.
    destruct (name p) as [n0|e]; cbn [bind] in *; [|discriminate].
    destruct (traverse _ _) as [ns'|e] eqn:E; cbn [bind] in Hns;
      [|discriminate].
    injection Hns as <-.
    destruct (mem n0 acc) eqn:Hm.
    + apply mem_In in Hm. split.
      * intros Hnd. exfalso.
        apply NoDup_remove_2 in Hnd. apply Hnd. apply in_or_app. left.
        exact Hm.
      * intros [|x l1] n l2 Hsplit Hnd Hin.
        -- injection Hsplit as -> _. reflexivity.
        -- exfalso. injection Hsplit as <- _.
           apply NoDup_remove_2 in Hnd. apply Hnd. apply in_or_app. left.
           exact Hm.
    + assert (Hn : ~ In n0 acc).
      { intros Hin. apply mem_In in Hin. congruence. }
      assert (Hacc' : NoDup (acc ++ [n0])).
      { apply NoDup_app; [exact Hacc | repeat constructor; simpl; tauto |].
        intros x Hx [<-|[]]. exact (Hn Hx). }
      destruct (IH (acc ++ [n0]) ns' eq_refl Hacc') as [H1 H2].
      split.
      * intros Hnd. apply H1. rewrite <- app_assoc. exact Hnd.
      * intros [|x l1] n l2 Hsplit Hnd Hin.
        -- exfalso. injection Hsplit as <- _. rewrite app_nil_r in Hin.
           exact (Hn Hin).
        -- injection Hsplit as <- ->.
           apply (H2 l1 n l2 eq_refl); rewrite <- app_assoc; assumption.
Qed.

Lemma get_name_conflicts_from_returns :
  forall (values : list (ObjectMcProperties Matrix)) (acc ns : list string),
    bone_names values = Ok ns ->
    exists n, get_name_conflicts_from values acc = Ok n.
Proof.
  unfold bone_names.
  induction values as [|p values IH]; intros acc ns Hns;
    cbn [filter get_name_conflicts_from] in *; [eauto|].
  destruct (is_bone_or_both (mctype p)); cbn [negb]; [|eauto].
  cbn [traverse] in Hns.
  destruct (name p) as [n0|e]; cbn [bind] in *; [|discriminate].
  destruct (traverse _ _) as [ns'|e] eqn:E; cbn [bind] in Hns;
    [|discriminate].
  destruct (mem n0 acc); eauto.
Qed.

(** [get_name_conflicts] passes on what [name] raises and nothing else. *)
Lemma get_name_conflicts_from_raises :
  forall (values : list (ObjectMcProperties Matrix)) (acc : list string)
         (e : exn),
    get_name_conflicts_from values acc = Raise e -> e = KeyError.
Proof.
  induction values as [|p values IH]; intros acc e H;
    cbn [get_name_conflicts_from] in H; [discriminate|].
  destruct (negb (is_bone_or_both (mctype p))); [exact (IH _ _ H)|].
  destruct (name p) as [n|e'] eqn:En; cbn [bind] in H.
  - destruct (mem n acc); [discriminate | exact (IH _ _ H)].
  - injection H as <-. unfold name in En.
    destruct (String.eqb _ _); [|discriminate].
    destruct (find_bone _ _); [discriminate|]. congruence.
Qed.

(** *** The dictionaries [get_object_mcproperties] builds *)

(** [name] returns on [p]. *)
Definition named (p : ObjectMcProperties Matrix) : Prop :=
  exists n, name p = Ok n.

Lemma classify_named (obj_id : ObjectId) (obj : bpy_Object Matrix)
    (p : ObjectMcProperties Matrix) :
  classify obj_id obj = Ok (Some p) -> named p.
Proof.
  unfold classify, named, name.
  destruct (String.eqb_spec (ob_type obj) "EMPTY") as [Et|_].
  - intros H. apply bind_Ok in H. destruct H as (mp & _ & H).
    injection H as <-. cbn [thisobj]. rewrite Et. cbn. eauto.
  - destruct (String.eqb_spec (ob_type obj) "MESH") as [Et|_].
    + destruct (_ || _).
      * intros H. injection H as <-. cbn [thisobj]. rewrite Et. cbn. eauto.
      * intros H. apply bind_Ok in H. destruct H as (mp & _ & H).
        injection H as <-. cbn [thisobj]. rewrite Et. cbn. eauto.
    + destruct (String.eqb (ob_type obj) "ARMATURE") eqn:Et; [|discriminate].
      destruct (find_bone (id_bone_name obj_id) obj) as [bone|] eqn:Eb;
        [|discriminate].
      destruct (_ && _); [discriminate|].
      intros H. injection H as <-. cbn [thisobj thisobj_id].
      rewrite Et, Eb. eauto.
Qed.

Lemma props_set_named (k : ObjectId) (p : ObjectMcProperties Matrix)
    (d : properties_dict Matrix) :
  named p -> Forall (fun kp => named (snd kp)) d ->
  Forall (fun kp => named (snd kp)) (props_set k p d).
Proof.
  intros Hp. induction d as [|[k' v] d IH]; intros Hd; cbn [props_set].
  - repeat constructor. exact Hp.
  - inversion Hd as [|? ? Hv Hd']; subst.
    destruct (ObjectId_eqb k k'); constructor; auto.
Qed.

Lemma props_get_named (k : ObjectId) (p : ObjectMcProperties Matrix)
    (d : properties_dict Matrix) :
  Forall (fun kp => named (snd kp)) d -> props_get k d = Some p -> named p.
Proof.
  induction d as [|[k' v] d IH]; intros Hd H; cbn [props_get] in H;
    [discriminate|].
  inversion Hd as [|? ? Hv Hd']; subst.
  destruct (ObjectId_eqb k k'); [injection H as <-; exact Hv | auto].
Qed.

Lemma collect_properties_named :
  forall (items : list (ObjectId * bpy_Object Matrix))
         (d d' : properties_dict Matrix),
    Forall (fun kp => named (snd kp)) d ->
    collect_properties items d = Ok d' ->
    Forall (fun kp => named (snd kp)) d'.
Proof.
  induction items as [|[obj_id obj] items IH]; intros d d' Hd H;
    cbn [collect_properties] in H.
  - injection H as <-. exact Hd.
  - apply bind_Ok in H. destruct H as (c & Hc & H).
    destruct c as [p|]; [|exact (IH _ _ Hd H)].
    apply (IH _ _ (props_set_named obj_id p d (classify_named _ _ _ Hc) Hd) H).
Qed.

Lemma fill_children_named (d : properties_dict Matrix) :
  Forall (fun kp => named (snd kp)) d ->
  Forall (fun kp => named (snd kp)) (fill_children d).
Proof.
  unfold fill_children.
  assert (H : forall (items acc : properties_dict Matrix),
            Forall (fun kp => named (snd kp)) acc ->
            Forall (fun kp => named (snd kp))
              (fold_left
                 (fun acc item =>
                    match mcparent (snd item) with
                    | Some parent_id =>
                        match props_get parent_id acc with
                        | Some _ => append_child parent_id (fst item) acc
                        | None => acc
                        end
                    | None => acc
                    end)
                 items acc)).
  { induction items as [|item items IH]; intros acc Hacc; cbn [fold_left];
      [exact Hacc|].
    apply IH.
    destruct (mcparent (snd item)) as [pid|]; [|exact Hacc].
    destruct (props_get pid acc) as [q|] eqn:Eq; [|exact Hacc].
    unfold append_child. rewrite Eq.
    apply props_set_named; [|exact Hacc].
    destruct (props_get_named pid q acc Hacc Eq) as [n Hn].
    exists n. exact Hn. }
  apply H.
Qed.

Lemma traverse_named (l : list (ObjectMcProperties Matrix)) :
  Forall named l -> exists ns, traverse (@name Matrix) l = Ok ns.
Proof.
  induction l as [|p l IH]; intros H; cbn [traverse]; [eauto|].
  inversion H as [|? ? [n Hn] Hl]; subst.
  destruct (IH Hl) as [ns Hns]. rewrite Hn, Hns. cbn [bind]. eauto.
Qed.

Lemma get_object_mcproperties_bone_names
    (selected : list (bpy_Object Matrix)) (d : properties_dict Matrix) :
  get_object_mcproperties selected = Ok d ->
  exists names, bone_names (map snd d) = Ok names.
Proof.
  unfold get_object_mcproperties. intros H.
  apply bind_Ok in H. destruct H as (d0 & H0 & H). injection H as <-.
  assert (Hd : Forall (fun kp => named (snd kp)) (fill_children d0)).
  { apply fill_children_named.
    exact (collect_properties_named _ [] d0 (Forall_nil _) H0). }
  apply traverse_named. rewrite Forall_forall in *.
  intros p Hp. apply filter_In in Hp. destruct Hp as [Hp _].
  apply in_map_iff in Hp. destruct Hp as (kp & <- & Hkp). exact (Hd kp Hkp).
Qed.

(** *** [export_model] *)

Variable B : Type.
Variable helper : bpy_Object Matrix -> list (bpy_Object Matrix) -> result B.
Variable lookup : ObjectId -> option (bpy_Object Matrix).
Variable properties_of_name :
  string -> properties_dict Matrix -> option (ObjectMcProperties Matrix).

Lemma child_cubes_raises (children : list ObjectId)
    (object_properties : properties_dict Matrix) (e : exn) :
  child_cubes lookup children object_properties = Raise e -> e = KeyError.
Proof.
  induction children as [|c children IH]; cbn [child_cubes];
    [discriminate|].
  destruct (props_get c object_properties) as [p|]; [|exact IH].
  destruct (MCObjType_eqb (mctype p) CUBE); [|exact IH].
  destruct (lookup c); [|intros H; congruence].
  destruct (child_cubes lookup children object_properties); cbn [bind];
    [discriminate | exact IH].
Qed.

(** [export_model] has no error of its own: what it raises comes from
    collecting the properties, from [bpy.data.objects] or from the bone
    helper. *)
Lemma export_bones_raises (objects : list (bpy_Object Matrix))
    (object_properties : properties_dict Matrix) (e : exn) :
  export_bones helper lookup properties_of_name objects object_properties
  = Raise e ->
  e = KeyError \/ exists obj cubes, helper obj cubes = Raise e.
Proof.
  induction objects as [|o objects IH]; cbn [export_bones]; [discriminate|].
  destruct (properties_of_name _ object_properties) as [p|]; [|exact IH].
  destruct (is_bone_or_both (mctype p)); [|exact IH].
  destruct (child_cubes lookup (mcchildren p) object_properties)
    as [cs|e'] eqn:Ec; cbn [bind].
  - destruct (helper o _) as [b|e'] eqn:Eh; cbn [bind].
    + destruct (export_bones helper lookup properties_of_name objects
                  object_properties); cbn [bind]; [discriminate | exact IH].
    + intros H. injection H as <-. right. eauto.
  - intros H. injection H as <-. left.
    exact (child_cubes_raises _ _ _ Ec).
Qed.

(** With the name taken as a [str] key no object is found in the
    dictionary, and no bone is written. *)
Lemma export_bones_by_str_key (objects : list (bpy_Object Matrix))
    (object_properties : properties_dict Matrix) :
  export_bones helper lookup (@by_str_key Matrix) objects object_properties
  = Ok [].
Proof.
  induction objects as [|o objects IH]; cbn [export_bones]; [reflexivity|].
  exact IH.
Qed.

End NameConflictFacts.

(** C8. [get_name_conflicts] answers by return value.  Going through the
    BONE and BOTH entries in the order of the dictionary, it returns the
    exported name of the first entry whose name an earlier one has, and
    the empty string when all the names differ.  On a dictionary that
    [get_object_mcproperties] built it always returns; on any dictionary
    the only exception it passes on is the [KeyError] of [name].
    [export_model] does not consult it and has no error of its own: with
    the name of an object taken as a [str] key it returns a document
    without bones for every selection whose properties can be collected;
    however the dictionary is indexed, what it raises is raised by
    [get_object_mcproperties], by [bpy.data.objects] or by the bone
    helper. *)
Theorem get_name_conflicts_reports_repeated_name :
  (forall (Matrix : Type) (object_properties : properties_dict Matrix)
          (names : list string),
      bone_names Matrix (map snd object_properties) = Ok names ->
      (NoDup names -> get_name_conflicts object_properties = Ok "") /\
      (forall l1 n l2,
          names = l1 ++ n :: l2 -> NoDup l1 -> In n l1 ->
          get_name_conflicts object_properties = Ok n) /\
      (~ NoDup names ->
       exists l1 n l2,
         names = l1 ++ n :: l2 /\ NoDup l1 /\ In n l1 /\
         get_name_conflicts object_properties = Ok n)) /\
  (forall (Matrix : Type) (selected : list (bpy_Object Matrix))
          (object_properties : properties_dict Matrix),
      get_object_mcproperties selected = Ok object_properties ->
      exists names n,
        bone_names Matrix (map snd object_properties) = Ok names /\
        get_name_conflicts object_properties = Ok n) /\
  (forall (Matrix : Type) (object_properties : properties_dict Matrix)
          (e : exn),
      get_name_conflicts object_properties = Raise e -> e = KeyError) /\
  (forall (Matrix B : Type)
          (helper : bpy_Object Matrix -> list (bpy_Object Matrix) -> result B)
          (lookup : ObjectId -> option (bpy_Object Matrix))
          (context : export_context Matrix)
          (object_properties : properties_dict Matrix),
      get_object_mcproperties (selected_objects context)
      = Ok object_properties ->
      export_model helper lookup (@by_str_key Matrix) context
      = Ok (get_mcmodel_json (model_name context) []
              (texture_width context) (texture_height context))) /\
  (forall (Matrix B : Type)
          (helper : bpy_Object Matrix -> list (bpy_Object Matrix) -> result B)
          (lookup : ObjectId -> option (bpy_Object Matrix))
          (properties_of_name :
             string -> properties_dict Matrix ->
             option (ObjectMcProperties Matrix))
          (context : export_context Matrix) (e : exn),
      export_model helper lookup properties_of_name context = Raise e ->
      get_object_mcproperties (selected_objects context) = Raise e \/
      e = KeyError \/
      exists obj cubes, helper obj cubes = Raise e).
Proof.
  split; [|split; [|split; [|split]]].
  - intros Matrix d names Hn. unfold get_name_conflicts.
    destruct (get_name_conflicts_from_spec Matrix (map snd d) [] names Hn
                (NoDup_nil _)) as [H1 H2].
    split; [exact H1|]. split; [exact H2|].
    intros Hnd.
    destruct (first_repeat_exists names [] (NoDup_nil _) Hnd)
      as (l1 & n & l2 & Hs & Hl1 & Hin).
    exists l1, n, l2. repeat split; try assumption.
    exact (H2 l1 n l2 Hs Hl1 Hin).
  - intros Matrix selected d Hd.
    destruct (get_object_mcproperties_bone_names Matrix selected d Hd)
      as [names Hn].
    destruct (get_name_conflicts_from_returns Matrix (map snd d) [] names Hn)
      as [n Hr].
    exists names, n. split; [exact Hn | exact Hr].
  - intros Matrix d e. unfold get_name_conflicts.
    apply get_name_conflicts_from_raises.
  - intros Matrix B helper lookup context d Hd.
    unfold export_model. rewrite Hd. cbn [bind].
    rewrite export_bones_by_str_key. reflexivity.
  - intros Matrix B helper lookup pon context e H.
    unfold export_model in H.
    destruct (get_object_mcproperties (selected_objects context))
      as [d|e'] eqn:Ed; cbn [bind] in H.
    + right.
      destruct (export_bones helper lookup pon (selected_objects context) d)
        as [bones|e'] eqn:Eb; cbn [bind] in H; [discriminate|].
      injection H as <-. exact (export_bones_raises _ _ _ _ _ _ _ _ Eb).
    + left. injection H as <-. reflexivity.
Qed.

(** Two selected empties, [arm] and [arm.001]: both are bones and both are
    exported under the name [arm]. *)
Definition two_arms : list (bpy_Object qvec3) :=
  [sample_empty "arm" (mkq 0 0 0); sample_empty "arm.001" (mkq 1 0 0)].

Definition two_arms_context : export_context qvec3 :=
  mk_context two_arms 64 64 "model".

Lemma get_name_conflicts_reports_repeated_name_witness :
  exists object_properties,
    get_object_mcproperties two_arms = Ok object_properties /\
    bone_names qvec3 (map snd object_properties) = Ok ["arm"; "arm"] /\
    get_name_conflicts object_properties = Ok "arm".
Proof.
  destruct (get_object_mcproperties two_arms) as [d|e] eqn:E;
    [|vm_compute in E; discriminate].
  assert (Hn : bone_names qvec3 (map snd d) = Ok ["arm"; "arm"]).
  { vm_compute in E. injection E as <-. reflexivity. }
  exists d. split; [reflexivity|]. split; [exact Hn|].
  apply (proj1 (proj2 (proj1 get_name_conflicts_reports_repeated_name
                         qvec3 d ["arm"; "arm"] Hn))
           ["arm"] "arm" []).
  - reflexivity.
  - repeat constructor. intros [].
  - left. reflexivity.
Defined.

(** C8, as stated, fails: for a selection with two bones exported as
    [arm], [get_name_conflicts] returns ["arm"], and [export_model] raises
    no name conflict.  With the name of an object taken as a [str] key it
    returns a document without bones, whatever the bone helper; with the
    dictionary read by object name it calls the helper on both bones and
    returns or fails as the helper does: with a helper that returns it
    puts both bones in the document, with one that raises [TypeError] (as
    a function of four arguments called with two does) it raises
    [TypeError]. *)
Lemma export_model_does_not_fail_on_name_conflict :
  (exists object_properties,
      get_object_mcproperties two_arms = Ok object_properties /\
      get_name_conflicts object_properties = Ok "arm") /\
  (forall (B : Type)
          (helper : bpy_Object qvec3 -> list (bpy_Object qvec3) -> result B)
          (lookup : ObjectId -> option (bpy_Object qvec3)),
      export_model helper lookup (@by_str_key qvec3) two_arms_context
      = Ok (get_mcmodel_json "model" [] 64 64) /\
      export_model helper lookup (@by_object_name qvec3) two_arms_context
      = (arm <- helper (sample_empty "arm" (mkq 0 0 0)) [] ;;
         arm_001 <- helper (sample_empty "arm.001" (mkq 1 0 0)) [] ;;
         Ok (get_mcmodel_json "model" [arm; arm_001] 64 64))) /\
  (forall lookup : ObjectId -> option (bpy_Object qvec3),
      export_model (fun _ _ => @Raise unit TypeError) lookup
        (@by_object_name qvec3) two_arms_context
      = Raise TypeError).
Proof.
  split; [|split].
  - eexists. split; vm_compute; reflexivity.
  - intros B helper lookup. split; [reflexivity|].
    unfold export_model.
    change (get_object_mcproperties (selected_objects two_arms_context))
      with (get_object_mcproperties two_arms).
    destruct (get_object_mcproperties two_arms) as [d|e] eqn:E;
      [|vm_compute in E; discriminate].
    vm_compute in E. injection E as <-. cbn [bind].
    cbn [export_bones selected_objects two_arms_context two_arms].
    unfold by_object_name. cbn.
    destruct (helper _ []) as [b1|e1]; cbn [bind]; [|reflexivity].
    destruct (helper _ []) as [b2|e2]; cbn [bind]; reflexivity.
  - intros lookup. reflexivity.
Qed.

(** ** The importer: parenting *)

(** The parent link of every object of the scene. *)
Definition parents (s : scene) : list (option nat) := map so_parent s.

(** The objects an import bone stands for: its own, those of its cubes,
    those of its locators. *)
Definition block (b : ImportBone) : list (option nat) :=
  ib_blend_empty b ::
  map ic_blend_cube (ib_cubes b) ++ map il_blend_empty (ib_locators b).

Definition all_ids (bones : list (string * ImportBone)) : list (option nat) :=
  flat_map (fun kb => block (snd kb)) bones.

(** [x] names an object of the scene. *)
Definition valid_in (s : scene) (x : option nat) : Prop :=
  exists i, x = Some i /\ (i < List.length s)%nat.

(** The declared parent of [bone] is no bone of the geometry. *)
Definition dangling (bones : list (string * ImportBone)) (bone : ImportBone)
    : Prop :=
  exists parent_name,
    ib_parent bone = Some parent_name /\
    mem parent_name (map fst bones) = false.

Lemma parents_length (s : scene) : List.length (parents s) = List.length s.
Proof. apply length_map. Qed.

Lemma update_object_spec (s s' : scene) (i : nat)
    (f : scene_object -> scene_object) :
  update_object s i f = Ok s' ->
  exists l1 o l2,
    s = l1 ++ o :: l2 /\ s' = l1 ++ f o :: l2 /\ List.length l1 = i.
Proof.
  unfold update_object. destruct (nth_error s i) as [o|] eqn:E; [|discriminate].
  intros H. injection H as <-.
  destruct (nth_error_split s i E) as (l1 & l2 & -> & Hl).
  exists l1, o, l2. split; [reflexivity|]. split; [|exact Hl].
  rewrite <- Hl. clear. induction l1 as [|a l1 IH]; simpl; [reflexivity|].
  f_equal. exact IH.
Qed.

Lemma update_object_parents (s s' : scene) (i : nat)
    (f : scene_object -> scene_object) :
  (forall o, so_parent (f o) = so_parent o) ->
  update_object s i f = Ok s' -> parents s' = parents s.
Proof.
  intros Hf H. apply update_object_spec in H.
  destruct H as (l1 & o & l2 & -> & -> & _).
  unfold parents. rewrite !map_app. simpl. rewrite Hf. reflexivity.
Qed.

Lemma update_object_ok (s : scene) (i : nat)
    (f : scene_object -> scene_object) :
  (i < List.length s)%nat -> exists s', update_object s i f = Ok s'.
Proof.
  intros Hi. unfold update_object.
  destruct (nth_error s i) eqn:E; [eauto|].
  apply nth_error_None in E. lia.
Qed.

Lemma set_parent_spec (s s' : scene) (child parent : nat) :
  set_parent s child parent = Ok s' ->
  List.length s' = List.length s /\
  forall j, j <> child -> nth_error (parents s') j = nth_error (parents s) j.
Proof.
  unfold set_parent. intros H. apply update_object_spec in H.
  destruct H as (l1 & o & l2 & -> & -> & Hl). split.
  - rewrite !length_app. reflexivity.
  - intros j Hj. unfold parents. rewrite !map_app. simpl.
    destruct (Nat.lt_ge_cases j (List.length l1)) as [Hlt|Hge].
    + rewrite !nth_error_app1 by (rewrite length_map; exact Hlt). reflexivity.
    + rewrite !nth_error_app2 by (rewrite length_map; exact Hge).
      rewrite length_map.
      destruct (j - List.length l1)%nat as [|k] eqn:E; [lia|reflexivity].
Qed.

Section BuildFacts.

Variable math_pi : Q.

Lemma _mc_pivot_parents (s s' : scene) (obj : nat) (v : json) :
  _mc_pivot s obj v = Ok s' -> parents s' = parents s.
Proof.
  unfold _mc_pivot. intros H. invert_binds.
  eapply update_object_parents; [|exact H]. reflexivity.
Qed.

Lemma _mc_set_size_parents (s s' : scene) (obj : nat) (v : json) :
  _mc_set_size s obj v = Ok s' -> parents s' = parents s.
Proof.
  unfold _mc_set_size. intros H. invert_binds.
  eapply update_object_parents; [|exact H]. reflexivity.
Qed.

Lemma _mc_translate_parents (s s' : scene) (obj : nat) (a b c : json) :
  _mc_translate s obj a b c = Ok s' -> parents s' = parents s.
Proof.
  unfold _mc_translate. intros H. invert_binds.
  eapply update_object_parents; [|exact H]. reflexivity.
Qed.

Lemma _mc_rotate_parents (s s' : scene) (obj : nat) (v : json) :
  _mc_rotate math_pi s obj v = Ok s' -> parents s' = parents s.
Proof.
  unfold _mc_rotate. intros H. invert_binds.
  eapply update_object_parents; [|exact H]. reflexivity.
Qed.

(** *** Creation: fresh objects, none of them parented *)

Lemma create_cubes_spec :
  forall (cubes : list ImportCube) (s s' : scene) (cubes' : list ImportCube),
    create_cubes s cubes = Ok (s', cubes') ->
    parents s' = parents s ++ repeat None (List.length cubes) /\
    map ic_blend_cube cubes'
    = map Some (seq (List.length s) (List.length cubes)).
Proof.
  induction cubes as [|cube cubes IH]; intros s s' cubes' H.
  - injection H as <- <-. simpl. rewrite app_nil_r. split; reflexivity.
  - cbn [create_cubes primitive_cube_add] in H. invert_binds.
    match goal with
    | r : (scene * list ImportCube)%type |- _ => destruct r as [s5 cs]
    end.
    injection H as <- <-. cbn [fst snd] in *.
    match goal with
    | Hc : create_cubes _ cubes = Ok _ |- _ => apply IH in Hc; destruct Hc as [Hp Hi]
    end.
    repeat match goal with
           | Hx : _mc_translate _ _ _ _ _ = Ok _ |- _ =>
               apply _mc_translate_parents in Hx
           | Hx : _mc_pivot _ _ _ = Ok _ |- _ => apply _mc_pivot_parents in Hx
           | Hx : _mc_set_size _ _ _ = Ok _ |- _ =>
               apply _mc_set_size_parents in Hx
           end.
    match goal with
    | Hx : (if ic_mirror _ then _ else _) = Ok ?s1 |- _ =>
        assert (Hm : parents s1 = parents s ++ [None])
    end.
    { match goal with
      | Hx : (if ic_mirror _ then _ else _) = Ok _ |- _ =>
          cbn [ic_mirror] in Hx; destruct (ic_mirror cube);
          [apply update_object_parents in Hx; [|reflexivity]; rewrite Hx
          |injection Hx as <-]
      end; unfold parents; rewrite map_app; reflexivity. }
    assert (Hlen : forall a b : scene,
               parents a = parents b -> List.length a = List.length b).
    { intros a b E. rewrite <- (parents_length a), E. apply parents_length. }
    split.
    + rewrite Hp. repeat match goal with
                         | Hx : parents _ = parents _ |- _ => rewrite Hx; clear Hx
                         end.
      rewrite Hm, <- app_assoc. reflexivity.
    + cbn [map ic_blend_cube List.length seq]. f_equal. rewrite Hi.
      f_equal. f_equal.
      repeat match goal with
             | Hx : parents _ = parents _ |- _ =>
                 rewrite (Hlen _ _ Hx); clear Hx
             end.
      rewrite <- (parents_length x), Hm, length_app, parents_length.
      simpl. lia.
Qed.

Lemma same_parents_same_length (a b : scene) :
  parents a = parents b -> List.length a = List.length b.
Proof.
  intros E. rewrite <- (parents_length a), E. apply parents_length.
Qed.

Lemma create_locators_spec :
  forall (locators : list ImportLocator) (s s' : scene)
         (locators' : list ImportLocator),
    create_locators s locators = Ok (s', locators') ->
    parents s' = parents s ++ repeat None (List.length locators) /\
    map il_blend_empty locators'
    = map Some (seq (List.length s) (List.length locators)).
Proof.
  induction locators as [|locator locators IH]; intros s s' locators' H.
  - injection H as <- <-. simpl. rewrite app_nil_r. split; reflexivity.
  - cbn [create_locators empty_add] in H. invert_binds.
    match goal with
    | r : (scene * list ImportLocator)%type |- _ => destruct r as [s5 ls]
    end.
    injection H as <- <-. cbn [fst snd] in *.
    match goal with
    | Hc : create_locators _ locators = Ok _ |- _ =>
        apply IH in Hc; destruct Hc as [Hp Hi]
    end.
    match goal with
    | Hx : _mc_pivot _ _ _ = Ok ?s1, Hy : update_object ?s1 _ _ = Ok ?s2 |- _ =>
        apply _mc_pivot_parents in Hx;
        apply update_object_parents in Hy; [|reflexivity];
        assert (Hm : parents s2 = parents s ++ [None])
          by (rewrite Hy, Hx; unfold parents; rewrite map_app; reflexivity);
        clear Hx Hy
    end.
    split.
    + rewrite Hp, Hm, <- app_assoc. reflexivity.
    + cbn [map il_blend_empty List.length seq]. f_equal. rewrite Hi.
      f_equal. f_equal.
      match goal with
      | _ : parents ?s2 = parents s ++ [None] |- List.length ?s2 = _ =>
          rewrite <- (parents_length s2), Hm, length_app, parents_length
      end.
      simpl. lia.
Qed.

(** Creation numbers the new objects in a row, leaves them without
    parent and keeps the keys of the bones. *)
Lemma create_bones_spec :
  forall (bones : list (string * ImportBone)) (s s' : scene)
         (bones' : list (string * ImportBone)),
    create_bones s bones = Ok (s', bones') ->
    exists n,
      parents s' = parents s ++ repeat None n /\
      all_ids bones' = map Some (seq (List.length s) n) /\
      map fst bones' = map fst bones /\
      Forall2 (fun b b' => ib_parent (snd b') = ib_parent (snd b)) bones bones'.
Proof.
  induction bones as [|[key bone] bones IH]; intros s s' bones' H.
  - injection H as <- <-. exists 0%nat. simpl. rewrite app_nil_r.
    repeat split. constructor.
  - cbn [create_bones empty_add] in H. invert_binds.
    repeat match goal with
           | r : (scene * _)%type |- _ => destruct r
           end.
    injection H as <- <-. cbn [fst snd] in *.
    match goal with
    | Hc : create_bones _ bones = Ok _ |- _ =>
        apply IH in Hc; destruct Hc as (n & Hp & Hi & Hk & Hpar)
    end.
    match goal with
    | Hc : create_cubes _ _ = Ok _ |- _ =>
        apply create_cubes_spec in Hc; destruct Hc as [Hcp Hci]
    end.
    match goal with
    | Hc : create_locators _ _ = Ok _ |- _ =>
        apply create_locators_spec in Hc; destruct Hc as [Hlp Hli]
    end.
    match goal with
    | Hx : _mc_pivot _ _ _ = Ok ?s1, Hy : update_object ?s1 _ _ = Ok ?s2,
      Hz : update_object ?s2 _ _ = Ok ?s3 |- _ =>
        apply _mc_pivot_parents in Hx;
        apply update_object_parents in Hy; [|reflexivity];
        apply update_object_parents in Hz; [|reflexivity];
        assert (Hm : parents s3 = parents s ++ [None])
          by (rewrite Hz, Hy, Hx; unfold parents; rewrite map_app; reflexivity);
        clear Hx Hy Hz
    end.
    exists (1 + List.length (ib_cubes bone) + List.length (ib_locators bone) + n)%nat.
    assert (L1 : forall a : scene, parents a = parents s ++ [None] ->
                 List.length a = S (List.length s)).
    { intros a E. rewrite <- (parents_length a), E, length_app, parents_length.
      simpl. lia. }
    assert (L2 : forall (a b : scene) k, parents a = parents b ++ repeat None k ->
                 List.length a = (List.length b + k)%nat).
    { intros a b k E.
      rewrite <- (parents_length a), E, length_app, parents_length, repeat_length.
      reflexivity. }
    split; [|split; [|split]].
    + rewrite Hp, Hlp, Hcp, Hm. rewrite <- !app_assoc. f_equal.
      simpl. f_equal. rewrite !repeat_app. rewrite <- !app_assoc. reflexivity.
    + unfold all_ids in *. cbn [flat_map snd]. unfold block at 1.
      cbn [ib_blend_empty ib_cubes ib_locators].
      rewrite Hi, Hci, Hli.
      rewrite (L2 _ _ _ Hlp), (L2 _ _ _ Hcp), (L1 _ Hm).
      replace (1 + List.length (ib_cubes bone) +
               List.length (ib_locators bone) + n)%nat
        with (S (List.length (ib_cubes bone) +
                 (List.length (ib_locators bone) + n)))%nat by lia.
      cbn [seq map]. rewrite <- app_comm_cons. f_equal.
      rewrite !seq_app, !map_app, <- ?app_assoc.
      repeat (f_equal; try lia).
    + simpl. f_equal. exact Hk.
    + constructor; [reflexivity | exact Hpar].
Qed.

(** *** Parenting *)

Lemma parent_cubes_spec (bone_obj : option nat) :
  forall (cubes : list ImportCube) (s s' : scene),
    parent_cubes s bone_obj cubes = Ok s' ->
    List.length s' = List.length s /\
    forall j, ~ In (Some j) (map ic_blend_cube cubes) ->
              nth_error (parents s') j = nth_error (parents s) j.
Proof.
  induction cubes as [|cube cubes IH]; intros s s' H.
  - injection H as <-. split; reflexivity.
  - cbn [parent_cubes] in H. invert_binds.
    apply IH in H. destruct H as [Hl Hj].
    match goal with
    | Hs : set_parent _ _ _ = Ok _ |- _ =>
        apply set_parent_spec in Hs; destruct Hs as [Hl' Hj']
    end.
    split; [congruence|].
    intros j Hn. rewrite Hj, Hj'; [reflexivity| |].
    + intros ->. apply Hn. left.
      match goal with
      | Hd : deref (ic_blend_cube cube) = Ok _ |- _ =>
          unfold deref in Hd; destruct (ic_blend_cube cube); inversion Hd;
          reflexivity
      end.
    + intros Hin. apply Hn. right. exact Hin.
Qed.

Lemma parent_locators_spec (bone_obj : option nat) :
  forall (locators : list ImportLocator) (s s' : scene),
    parent_locators s bone_obj locators = Ok s' ->
    List.length s' = List.length s /\
    forall j, ~ In (Some j) (map il_blend_empty locators) ->
              nth_error (parents s') j = nth_error (parents s) j.
Proof.
  induction locators as [|locator locators IH]; intros s s' H.
  - injection H as <-. split; reflexivity.
  - cbn [parent_locators] in H. invert_binds.
    apply IH in H. destruct H as [Hl Hj].
    match goal with
    | Hs : set_parent _ _ _ = Ok _ |- _ =>
        apply set_parent_spec in Hs; destruct Hs as [Hl' Hj']
    end.
    split; [congruence|].
    intros j Hn. rewrite Hj, Hj'; [reflexivity| |].
    + intros ->. apply Hn. left.
      match goal with
      | Hd : deref (il_blend_empty locator) = Ok _ |- _ =>
          unfold deref in Hd; destruct (il_blend_empty locator); inversion Hd;
          reflexivity
      end.
    + intros Hin. apply Hn. right. exact Hin.
Qed.

(** The objects whose parent link the parenting of [bone] sets. *)
Definition touched (all_bones : list (string * ImportBone)) (bone : ImportBone)
    : list (option nat) :=
  (match ib_parent bone with
   | Some parent_name =>
       if mem parent_name (map fst all_bones) then [ib_blend_empty bone] else []
   | None => []
   end) ++
  map ic_blend_cube (ib_cubes bone) ++ map il_blend_empty (ib_locators bone).

Lemma parent_bone_spec (all_bones : list (string * ImportBone))
    (bone : ImportBone) (s s' : scene) :
  parent_bone all_bones s bone = Ok s' ->
  List.length s' = List.length s /\
  forall j, ~ In (Some j) (touched all_bones bone) ->
            nth_error (parents s') j = nth_error (parents s) j.
Proof.
  unfold parent_bone, touched. intros H. invert_binds.
  apply parent_locators_spec in H. destruct H as [Hl3 Hj3].
  match goal with
  | Hc : parent_cubes _ _ _ = Ok _ |- _ =>
      apply parent_cubes_spec in Hc; destruct Hc as [Hl2 Hj2]
  end.
  match goal with
  | Hb : match ib_parent bone with _ => _ end = Ok ?s1 |- _ =>
      assert (H1 : List.length s1 = List.length s /\
                   forall j,
                     ~ In (Some j)
                        match ib_parent bone with
                        | Some parent_name =>
                            if mem parent_name (map fst all_bones)
                            then [ib_blend_empty bone] else []
                        | None => []
                        end ->
                     nth_error (parents s1) j = nth_error (parents s) j)
  end.
  { match goal with
    | Hb : match ib_parent bone with _ => _ end = Ok _ |- _ =>
        destruct (ib_parent bone) as [pn|];
        [destruct (mem pn (map fst all_bones));
         [destruct (lookup_bone pn all_bones); [|discriminate];
          invert_binds;
          apply set_parent_spec in Hb; destruct Hb as [Hl1 Hj1];
          split; [exact Hl1|];
          intros j Hn; apply Hj1; intros ->; apply Hn; left;
          match goal with
          | Hd : deref (ib_blend_empty bone) = Ok _ |- _ =>
              unfold deref in Hd; destruct (ib_blend_empty bone);
              inversion Hd; reflexivity
          end
         |injection Hb as <-; split; reflexivity]
        |injection Hb as <-; split; reflexivity]
    end. }
  destruct H1 as [Hl1 Hj1].
  split; [congruence|].
  intros j Hn. rewrite Hj3, Hj2, Hj1; [reflexivity| | |];
    intros Hin; apply Hn; rewrite !in_app_iff; tauto.
Qed.

Lemma parent_bones_spec (all_bones : list (string * ImportBone)) :
  forall (bones : list ImportBone) (s s' : scene),
    parent_bones all_bones s bones = Ok s' ->
    List.length s' = List.length s /\
    forall j,
      (forall b, In b bones -> ~ In (Some j) (touched all_bones b)) ->
      nth_error (parents s') j = nth_error (parents s) j.
Proof.
  induction bones as [|bone bones IH]; intros s s' H.
  - injection H as <-. split; reflexivity.
  - cbn [parent_bones] in H. invert_binds.
    apply IH in H. destruct H as [Hl Hj].
    match goal with
    | Hb : parent_bone _ _ _ = Ok _ |- _ =>
        apply parent_bone_spec in Hb; destruct Hb as [Hl' Hj']
    end.
    split; [congruence|].
    intros j Hn. rewrite Hj, Hj'; [reflexivity| |].
    + apply Hn. left. reflexivity.
    + intros b Hb. apply Hn. right. exact Hb.
Qed.

Lemma parent_cubes_ok (p : nat) :
  forall (cubes : list ImportCube) (s : scene),
    Forall (valid_in s) (map ic_blend_cube cubes) ->
    exists s', parent_cubes s (Some p) cubes = Ok s'.
Proof.
  induction cubes as [|cube cubes IH]; intros s Hv; [simpl; eauto|].
  inversion Hv as [|x l (i & Hi & Hlt) Hrest]; subst.
  cbn [parent_cubes]. rewrite Hi. cbn [deref bind].
  destruct (update_object_ok s i (fun o => with_parent o p) Hlt) as [s1 Hs1].
  unfold set_parent. rewrite Hs1. cbn [bind].
  apply IH.
  apply set_parent_spec in Hs1. destruct Hs1 as [Hl _].
  eapply Forall_impl; [|exact Hrest].
  intros a (j & -> & Hj). exists j. split; [reflexivity | lia].
Qed.

Lemma parent_locators_ok (p : nat) :
  forall (locators : list ImportLocator) (s : scene),
    Forall (valid_in s) (map il_blend_empty locators) ->
    exists s', parent_locators s (Some p) locators = Ok s'.
Proof.
  induction locators as [|locator locators IH]; intros s Hv; [simpl; eauto|].
  inversion Hv as [|x l (i & Hi & Hlt) Hrest]; subst.
  cbn [parent_locators]. rewrite Hi. cbn [deref bind].
  destruct (update_object_ok s i (fun o => with_parent o p) Hlt) as [s1 Hs1].
  unfold set_parent. rewrite Hs1. cbn [bind].
  apply IH.
  apply set_parent_spec in Hs1. destruct Hs1 as [Hl _].
  eapply Forall_impl; [|exact Hrest].
  intros a (j & -> & Hj). exists j. split; [reflexivity | lia].
Qed.

Lemma mem_lookup_bone (k : string) (bones : list (string * ImportBone)) :
  mem k (map fst bones) = true ->
  exists b, lookup_bone k bones = Some b /\ In b (map snd bones).
Proof.
  induction bones as [|[k' b] bones IH]; simpl; [discriminate|].
  destruct (String.eqb k k'); simpl; [eauto|].
  intros H. destruct (IH H) as (b' & Hb & Hin). eauto.
Qed.

Lemma parent_bone_ok (all_bones : list (string * ImportBone))
    (bone : ImportBone) (s : scene) :
  Forall (valid_in s) (block bone) ->
  (forall b, In b (map snd all_bones) -> valid_in s (ib_blend_empty b)) ->
  exists s', parent_bone all_bones s bone = Ok s'.
Proof.
  unfold block. intros Hv Hall.
  inversion Hv as [|x l (i & Hi & Hlt) Hrest]; subst.
  apply Forall_app in Hrest. destruct Hrest as [Hc Hl].
  assert (Hrest : forall s1, List.length s1 = List.length s ->
             exists s',
               (s2 <- parent_cubes s1 (Some i) (ib_cubes bone) ;;
                parent_locators s2 (Some i) (ib_locators bone)) = Ok s').
  { intros s1 Hl1.
    assert (Hc' : Forall (valid_in s1) (map ic_blend_cube (ib_cubes bone))).
    { eapply Forall_impl; [|exact Hc].
      intros a (j & -> & Hj). exists j. split; [reflexivity | lia]. }
    destruct (parent_cubes_ok i _ _ Hc') as [s2 Hs2]. rewrite Hs2. cbn [bind].
    apply parent_locators_ok.
    apply parent_cubes_spec in Hs2. destruct Hs2 as [Hl2 _].
    eapply Forall_impl; [|exact Hl].
    intros a (j & -> & Hj). exists j. split; [reflexivity | lia]. }
  unfold parent_bone. rewrite Hi. cbn zeta.
  destruct (ib_parent bone) as [pn|]; [|cbn [bind]; apply Hrest; reflexivity].
  destruct (mem pn (map fst all_bones)) eqn:Hm;
    [|cbn [bind]; apply Hrest; reflexivity].
  destruct (mem_lookup_bone _ _ Hm) as (parent & -> & Hin).
  destruct (Hall parent Hin) as (p & Hp & _).
  rewrite Hp. cbn [deref bind].
  destruct (update_object_ok s i (fun o => with_parent o p) Hlt) as [s1 Hs1].
  unfold set_parent. rewrite Hs1. cbn [bind].
  apply Hrest. apply (set_parent_spec s s1 i p). exact Hs1.
Qed.

Lemma parent_bones_ok (all_bones : list (string * ImportBone)) :
  forall (bones : list ImportBone) (s : scene),
    (forall b, In b bones -> Forall (valid_in s) (block b)) ->
    (forall b, In b (map snd all_bones) -> valid_in s (ib_blend_empty b)) ->
    exists s', parent_bones all_bones s bones = Ok s'.
Proof.
  induction bones as [|bone bones IH]; intros s Hv Hall; [simpl; eauto|].
  cbn [parent_bones].
  destruct (parent_bone_ok all_bones bone s (Hv bone (or_introl eq_refl)) Hall)
    as [s1 Hs1].
  rewrite Hs1. cbn [bind].
  apply parent_bone_spec in Hs1. destruct Hs1 as [Hl _].
  assert (Hmono : forall x, valid_in s x -> valid_in s1 x).
  { intros x (j & -> & Hj). exists j. split; [reflexivity | lia]. }
  apply IH.
  - intros b Hb. eapply Forall_impl; [exact Hmono | apply Hv; right; exact Hb].
  - intros b Hb. apply Hmono, Hall, Hb.
Qed.

Lemma rotate_cubes_parents :
  forall (cubes : list ImportCube) (s s' : scene),
    rotate_cubes math_pi s cubes = Ok s' -> parents s' = parents s.
Proof.
  induction cubes as [|cube cubes IH]; intros s s' H.
  - injection H as <-. reflexivity.
  - cbn [rotate_cubes] in H. invert_binds. apply IH in H.
    match goal with
    | Hr : _mc_rotate _ _ _ _ = Ok _ |- _ => apply _mc_rotate_parents in Hr
    end.
    congruence.
Qed.

Lemma rotate_bones_parents :
  forall (bones : list ImportBone) (s s' : scene),
    rotate_bones math_pi s bones = Ok s' -> parents s' = parents s.
Proof.
  induction bones as [|bone bones IH]; intros s s' H.
  - injection H as <-. reflexivity.
  - cbn [rotate_bones] in H. invert_binds. apply IH in H.
    match goal with
    | Hr : _mc_rotate _ _ _ _ = Ok _ |- _ => apply _mc_rotate_parents in Hr
    end.
    match goal with
    | Hr : rotate_cubes _ _ _ = Ok _ |- _ => apply rotate_cubes_parents in Hr
    end.
    congruence.
Qed.

End BuildFacts.

Lemma flat_map_shared {A B : Type} (f : A -> list B) (l : list A) :
  NoDup (flat_map f l) ->
  forall a b x, In a l -> In b l -> In x (f a) -> In x (f b) -> a = b.
Proof.
  induction l as [|c l IH]; intros Hnd a b x Ha Hb Hxa Hxb; [destruct Ha|].
  simpl in Hnd.
  assert (Hl : NoDup (flat_map f l)) by (eapply NoDup_app_remove_l; exact Hnd).
  assert (Hdis : forall y, In y (f c) -> ~ In y (flat_map f l)).
  { intros y Hy Hy'. revert Hnd. clear - Hy Hy'.
    induction (f c) as [|z fc IHfc]; [destruct Hy|].
    simpl. intros Hnd. inversion Hnd as [|? ? Hz Hnd']; subst.
    destruct Hy as [->|Hy].
    - apply Hz. apply in_or_app. right. exact Hy'.
    - apply IHfc; assumption. }
  destruct Ha as [->|Ha], Hb as [->|Hb].
  - reflexivity.
  - exfalso. apply (Hdis x Hxa). apply in_flat_map. eauto.
  - exfalso. apply (Hdis x Hxb). apply in_flat_map. eauto.
  - eapply IH; eassumption.
Qed.

Lemma flat_map_NoDup_part {A B : Type} (f : A -> list B) (l : list A) (a : A) :
  NoDup (flat_map f l) -> In a l -> NoDup (f a).
Proof.
  induction l as [|c l IH]; intros Hnd Ha; [destruct Ha|].
  simpl in Hnd. destruct Ha as [->|Ha].
  - eapply NoDup_app_remove_r. exact Hnd.
  - apply IH; [|exact Ha]. eapply NoDup_app_remove_l. exact Hnd.
Qed.

Lemma NoDup_map_Some (A : Type) (l : list A) :
  NoDup l -> NoDup (map Some l).
Proof.
  induction 1 as [|a l Hn _ IH]; simpl; constructor; [|exact IH].
  intros Hin. apply in_map_iff in Hin. destruct Hin as (b & E & Hb).
  injection E as ->. exact (Hn Hb).
Qed.

Lemma all_ids_valid (s0 s : scene) (bones : list (string * ImportBone))
    (n : nat) :
  parents s = parents s0 ++ repeat None n ->
  all_ids bones = map Some (seq (List.length s0) n) ->
  forall x, In x (all_ids bones) ->
    exists i, x = Some i /\ (i < List.length s)%nat /\
              nth_error (parents s) i = Some None.
Proof.
  intros Hp Hi x Hx. rewrite Hi in Hx. apply in_map_iff in Hx.
  destruct Hx as (i & <- & Hin). apply in_seq in Hin.
  exists i. split; [reflexivity|].
  assert (Hlen : List.length s = (List.length s0 + n)%nat).
  { rewrite <- (parents_length s), Hp, length_app, parents_length,
      repeat_length. reflexivity. }
  split; [lia|].
  rewrite Hp, nth_error_app2 by (rewrite parents_length; lia).
  rewrite parents_length.
  apply nth_error_repeat. lia.
Qed.

Lemma touched_in_block (all_bones : list (string * ImportBone))
    (b : ImportBone) (x : option nat) :
  In x (touched all_bones b) -> In x (block b).
Proof.
  unfold touched, block. rewrite in_app_iff. intros [H|H].
  - destruct (ib_parent b) as [pn|]; [|destruct H].
    destruct (mem pn (map fst all_bones)); [|destruct H].
    destruct H as [<-|[]]. left. reflexivity.
  - right. exact H.
Qed.

(** C10. A bone whose declared parent is no bone of the geometry is left
    without parent: the parenting of such a bone only links its cubes and
    locators under it, the parenting phase as a whole never fails, and in
    the scene [build] returns the object of the bone has no parent. *)
Theorem dangling_parent_leaves_bone_unparented :
  forall (math_pi : Q) (geometry : ImportGeometry) (s0 : scene),
    (forall all_bones s bone,
        dangling all_bones bone ->
        parent_bone all_bones s bone
        = (s1 <- parent_cubes s (ib_blend_empty bone) (ib_cubes bone) ;;
           parent_locators s1 (ib_blend_empty bone) (ib_locators bone))) /\
    (forall s bones,
        create_bones s0 (ig_bones geometry) = Ok (s, bones) ->
        exists s', parent_bones bones s (map snd bones) = Ok s') /\
    (forall s bones,
        build math_pi geometry s0 = Ok (s, bones) ->
        map fst bones = map fst (ig_bones geometry) /\
        forall key bone,
          In (key, bone) bones -> dangling bones bone ->
          exists i o,
            ib_blend_empty bone = Some i /\
            nth_error s i = Some o /\
            so_parent o = None).
Proof.
  intros math_pi geometry s0. split; [|split].
  - intros all_bones s bone (pn & Hp & Hm). unfold parent_bone.
    rewrite Hp, Hm. reflexivity.
  - intros s bones Hc.
    destruct (create_bones_spec _ _ _ _ Hc) as (n & Hp & Hi & _ & _).
    pose proof (all_ids_valid s0 s bones n Hp Hi) as Hv.
    apply parent_bones_ok.
    + intros b Hb. apply Forall_forall. intros x Hx.
      apply in_map_iff in Hb. destruct Hb as ([k b'] & <- & Hkb).
      cbn [snd] in Hx.
      destruct (Hv x) as (i & E & Hlt & _).
      { unfold all_ids. apply in_flat_map. exists (k, b'). split; assumption. }
      subst x. exists i. split; [reflexivity|exact Hlt].
    + intros b Hb.
      apply in_map_iff in Hb. destruct Hb as ([k b'] & <- & Hkb).
      cbn [snd].
      destruct (Hv (ib_blend_empty b')) as (i & E & Hlt & _).
      { unfold all_ids. apply in_flat_map. exists (k, b').
        split; [exact Hkb | left; reflexivity]. }
      rewrite E. exists i. split; [reflexivity|exact Hlt].
  - intros s bones H. unfold build in H. invert_binds.
    match goal with
    | r : (scene * list (string * ImportBone))%type |- _ => destruct r as [s1 bs]
    end.
    invert_binds. injection H as <- <-.
    match goal with
    | Hc : create_bones _ _ = Ok _ |- _ =>
        destruct (create_bones_spec _ _ _ _ Hc) as (n & Hp & Hi & Hk & _)
    end.
    split; [exact Hk|].
    intros key bone Hin Hd.
    pose proof (all_ids_valid s0 s1 bs n Hp Hi) as Hv.
    assert (Hnd : NoDup (all_ids bs)).
    { rewrite Hi. apply NoDup_map_Some, seq_NoDup. }
    destruct (Hv (ib_blend_empty bone)) as (i & Hbi & Hlt & Hnone).
    { unfold all_ids. apply in_flat_map. exists (key, bone).
      split; [exact Hin | left; reflexivity]. }
    match goal with
    | Hpb : parent_bones _ _ _ = Ok ?s2, Hrb : rotate_bones _ _ _ = Ok ?s3 |- _ =>
        apply parent_bones_spec in Hpb; destruct Hpb as [Hl2 Hj2];
        apply rotate_bones_parents in Hrb;
        assert (Hfin : nth_error (parents s3) i = Some None)
    end.
    { match goal with
      | Hrb : parents _ = parents _ |- _ => rewrite Hrb
      end.
      rewrite Hj2; [exact Hnone|].
      intros b Hb Ht. apply in_map_iff in Hb. destruct Hb as ([k b'] & <- & Hkb).
      cbn [snd] in Ht.
      assert (E : (k, b') = (key, bone)).
      { apply (flat_map_shared (fun kb => block (snd kb)) bs Hnd
                 (k, b') (key, bone) (Some i) Hkb Hin).
        - apply (touched_in_block bs). exact Ht.
        - left. exact Hbi. }
      injection E as -> ->.
      pose proof (flat_map_NoDup_part (fun kb => block (snd kb)) bs
                    (key, bone) Hnd Hin) as Hb0.
      cbn [snd] in Hb0. unfold block in Hb0. rewrite Hbi in Hb0.
      inversion Hb0 as [|? ? Hnot _]; subst. apply Hnot.
      destruct Hd as (pn & Hpn & Hm). unfold touched in Ht.
      rewrite Hpn, Hm in Ht. exact Ht. }
    unfold parents in Hfin. rewrite nth_error_map in Hfin.
    match goal with
    | _ : context [nth_error ?s3 i] |- _ =>
        destruct (nth_error s3 i) as [o|] eqn:Eo; [|discriminate]
    end.
    exists i, o. split; [exact Hbi|]. split; [exact Eo|].
    simpl in Hfin. congruence.
Qed.

(** Three bones: [arm] hangs under [root]; [leg] names a parent that is
    not there. *)
Definition sample_geometry : ImportGeometry :=
  mk_import_geometry "geometry.sample" 64 64
    [("root",
      mk_import_bone None "root" None
        [mk_import_cube None zeros2 false zeros3 zeros3
                        (JList [JInt 4; JInt 4; JInt 4]) zeros3]
        [] zeros3 zeros3 false);
     ("arm",
      mk_import_bone None "arm" (Some "root") []
        [mk_import_locator "hand" zeros3 None]
        (JList [JInt 16; JInt 0; JInt 0]) zeros3 false);
     ("leg",
      mk_import_bone None "leg" (Some "nobody") [] [] zeros3 zeros3 false)].

Lemma dangling_parent_leaves_bone_unparented_witness :
  exists s bones leg,
    build flat_pi sample_geometry [] = Ok (s, bones) /\
    In ("leg", leg) bones /\
    ib_parent leg = Some "nobody" /\
    exists i o,
      ib_blend_empty leg = Some i /\
      nth_error s i = Some o /\
      so_parent o = None.
Proof.
  destruct (build flat_pi sample_geometry []) as [[s bones]|e] eqn:E;
    [|vm_compute in E; discriminate].
  assert (Hin : In ("leg", mk_import_bone (Some 4%nat) "leg" (Some "nobody")
                              [] [] zeros3 zeros3 false) bones).
  { vm_compute in E. injection E as <- <-. right. right. left. reflexivity. }
  exists s, bones, (mk_import_bone (Some 4%nat) "leg" (Some "nobody")
                      [] [] zeros3 zeros3 false).
  split; [reflexivity|]. split; [exact Hin|]. split; [reflexivity|].
  apply (proj2 (proj2 (proj2 (dangling_parent_leaves_bone_unparented
                                flat_pi sample_geometry []))
                      s bones E) "leg" _ Hin).
  exists "nobody". split; [reflexivity|].
  rewrite (proj1 (proj2 (proj2 (dangling_parent_leaves_bone_unparented
                                  flat_pi sample_geometry [])) s bones E)).
  reflexivity.
Defined.

(* ================================================================== *)
(** * Part III. Further properties of the sources                      *)
(* ================================================================== *)

(** ** The rotation solver picks the closest representative *)

Section RotationSolverBounds.
Local Open Scope R_scope.

Definition sumsq (v : vec3) : R := c0 v * c0 v + c1 v * c1 v + c2 v * c2 v.

Lemma sumsq_nonneg (v : vec3) : 0 <= sumsq v.
Proof. unfold sumsq. nra. Qed.

Lemma norm_sumsq (v : vec3) : norm v = sqrt (sumsq v).
Proof. reflexivity. Qed.

Lemma norm_gt_iff (a b : vec3) : norm a > norm b <-> sumsq a > sumsq b.
Proof.
  rewrite !norm_sumsq. split; intros H.
  - apply sqrt_lt_0_alt. exact H.
  - apply sqrt_lt_1_alt. split; [apply sumsq_nonneg | exact H].
Qed.

Lemma norm_le_of_sumsq (a b : vec3) : sumsq a <= sumsq b -> norm a <= norm b.
Proof. rewrite !norm_sumsq. apply sqrt_le_1_alt. Qed.

(** The component an index of the loop [for i in range(3)] stands for. *)
Definition axis (i : nat) : nat :=
  match i with
  | 0%nat => 0%nat
  | 1%nat => 1%nat
  | _ => 2%nat
  end.

(** Adding a whole turn on axis [i] moves away from [close_to] exactly when
    the component is less than half a turn below its target. *)
Lemma step_up_farther (c t : vec3) (i : nat) :
  norm (vsub (vadd c (vset np_zeros3 i 360)) t) > norm (vsub c t)
  <-> vget t i - vget c i < 180.
Proof.
  rewrite norm_gt_iff. unfold sumsq.
  destruct i as [|[|i]]; simpl; split; intros H; nra.
Qed.

Lemma step_down_farther (c t : vec3) (i : nat) :
  norm (vsub (vsub c (vset np_zeros3 i 360)) t) > norm (vsub c t)
  <-> vget c i - vget t i < 180.
Proof.
  rewrite norm_gt_iff. unfold sumsq.
  destruct i as [|[|i]]; simpl; split; intros H; nra.
Qed.

Lemma step_up_axis (c : vec3) (i j : nat) :
  vget (vadd c (vset np_zeros3 i 360)) j
  = if Nat.eqb (axis i) (axis j) then vget c j + 360 else vget c j.
Proof. destruct i as [|[|i]], j as [|[|j]]; simpl; lra. Qed.

Lemma step_down_axis (c : vec3) (i j : nat) :
  vget (vsub c (vset np_zeros3 i 360)) j
  = if Nat.eqb (axis i) (axis j) then vget c j - 360 else vget c j.
Proof. destruct i as [|[|i]], j as [|[|j]]; simpl; lra. Qed.

(** What the first loop establishes. *)
Lemma while_below_post (t : vec3) (i : nat) :
  forall fuel d c st',
    d = norm (vsub c t) ->
    while_below fuel i (vset np_zeros3 i 360) t (d, c) = Some st' ->
    fst st' = norm (vsub (snd st') t) /\
    fst st' <= d /\
    vget t i - vget (snd st') i < 180 /\
    (vget (snd st') i - vget t i <= vget c i - vget t i \/
     vget (snd st') i - vget t i <= 180) /\
    (forall j, axis i <> axis j -> vget (snd st') j = vget c j).
Proof.
  induction fuel as [|fuel IH]; intros d c st' Hd Hrun; simpl in Hrun;
    [discriminate|].
  destruct (Rlt_dec (vget c i) (vget t i)) as [Hlt|Hge].
  - destruct (Rgt_dec _ d) as [Hfar|Hnear].
    + injection Hrun as <-. simpl. rewrite Hd in Hfar.
      apply step_up_farther in Hfar.
      repeat split; try lra; try (left; lra).
    + assert (Hacc : ~ vget t i - vget c i < 180).
      { intros H. apply Hnear. rewrite Hd. apply step_up_farther. exact H. }
      destruct (IH _ _ _ eq_refl Hrun) as (H1 & H2 & H3 & H4 & H5).
      pose proof (step_up_axis c i i) as Hi. rewrite Nat.eqb_refl in Hi.
      repeat split.
      * exact H1.
      * lra.
      * exact H3.
      * right. destruct H4 as [H4|H4]; lra.
      * intros j Hj. rewrite (H5 j Hj), step_up_axis.
        destruct (Nat.eqb_spec (axis i) (axis j)); [contradiction|reflexivity].
  - injection Hrun as <-. simpl. repeat split; try lra; try (left; lra).
Qed.

(** What the second loop establishes. *)
Lemma while_above_post (t : vec3) (i : nat) :
  forall fuel d c st',
    d = norm (vsub c t) ->
    while_above fuel i (vset np_zeros3 i 360) t (d, c) = Some st' ->
    fst st' = norm (vsub (snd st') t) /\
    fst st' <= d /\
    vget (snd st') i - vget t i < 180 /\
    (vget t i - vget (snd st') i <= vget t i - vget c i \/
     vget t i - vget (snd st') i <= 180) /\
    (forall j, axis i <> axis j -> vget (snd st') j = vget c j).
Proof.
  induction fuel as [|fuel IH]; intros d c st' Hd Hrun; simpl in Hrun;
    [discriminate|].
  destruct (Rgt_dec (vget c i) (vget t i)) as [Hgt|Hle].
  - destruct (Rgt_dec _ d) as [Hfar|Hnear].
    + injection Hrun as <-. simpl. rewrite Hd in Hfar.
      apply step_down_farther in Hfar.
      repeat split; try lra; try (left; lra).
    + assert (Hacc : ~ vget c i - vget t i < 180).
      { intros H. apply Hnear. rewrite Hd. apply step_down_farther. exact H. }
      destruct (IH _ _ _ eq_refl Hrun) as (H1 & H2 & H3 & H4 & H5).
      pose proof (step_down_axis c i i) as Hi. rewrite Nat.eqb_refl in Hi.
      repeat split.
      * exact H1.
      * lra.
      * exact H3.
      * right. destruct H4 as [H4|H4]; lra.
      * intros j Hj. rewrite (H5 j Hj), step_down_axis.
        destruct (Nat.eqb_spec (axis i) (axis j)); [contradiction|reflexivity].
  - injection Hrun as <-. simpl. repeat split; try lra; try (left; lra).
Qed.

(** One pass of the [for] loop brings its axis within half a turn of the
    target and leaves the other two alone. *)
Lemma axis_pass_post (t : vec3) (i fuel : nat) (st st' : R * vec3) :
  fst st = norm (vsub (snd st) t) ->
  axis_pass fuel t st i = Some st' ->
  fst st' = norm (vsub (snd st') t) /\
  fst st' <= fst st /\
  -180 <= vget (snd st') i - vget t i < 180 /\
  (forall j, axis i <> axis j -> vget (snd st') j = vget (snd st) j).
Proof.
  destruct st as [d c]. simpl. intros Hd Hrun. unfold axis_pass in Hrun.
  destruct (while_below fuel i _ t (d, c)) as [[d1 c1]|] eqn:E1;
    [|discriminate].
  destruct (while_below_post t i _ _ _ _ Hd E1) as (A1 & A2 & A3 & A4 & A5).
  simpl in A1, A2, A3, A4, A5.
  destruct (while_above_post t i _ _ _ _ A1 Hrun) as (B1 & B2 & B3 & B4 & B5).
  repeat split.
  - exact B1.
  - lra.
  - destruct B4 as [B4|B4]; lra.
  - exact B3.
  - intros j Hj. rewrite (B5 j Hj). apply A5, Hj.
Qed.

(** The candidate [_pick_closet_location] returns. *)
Lemma _pick_closet_location_post (fuel : nat) (modify t : vec3) (st : R * vec3) :
  _pick_closet_location fuel modify t = Some st ->
  fst st = norm (vsub (snd st) t) /\
  fst st <= norm (vsub modify t) /\
  -180 <= c0 (snd st) - c0 t < 180 /\
  -180 <= c1 (snd st) - c1 t < 180 /\
  -180 <= c2 (snd st) - c2 t < 180.
Proof.
  unfold _pick_closet_location. simpl.
  set (st0 := (norm (vsub modify t), modify)).
  destruct (axis_pass fuel t st0 0) as [s1|] eqn:E1; [|discriminate].
  destruct (axis_pass fuel t s1 1) as [s2|] eqn:E2; [|discriminate].
  intros E3.
  destruct (axis_pass_post t 0 fuel st0 s1 eq_refl E1) as (A1 & A2 & A3 & A4).
  destruct (axis_pass_post t 1 fuel s1 s2 A1 E2) as (B1 & B2 & B3 & B4).
  destruct (axis_pass_post t 2 fuel s2 st B1 E3) as (C1 & C2 & C3 & C4).
  simpl in A2.
  pose proof (B4 0%nat ltac:(discriminate)) as B40.
  pose proof (C4 0%nat ltac:(discriminate)) as C40.
  pose proof (C4 1%nat ltac:(discriminate)) as C41.
  simpl in *.
  repeat split; try lra.
Qed.

(** Among the vectors that differ by whole turns, one whose components
    are all within half a turn of the target is closest to it. *)
Lemma half_turn_is_closest (c v t : vec3) :
  turns v c ->
  -180 <= c0 c - c0 t < 180 ->
  -180 <= c1 c - c1 t < 180 ->
  -180 <= c2 c - c2 t < 180 ->
  norm (vsub c t) <= norm (vsub v t).
Proof.
  intros (k0 & k1 & k2 & ->) H0 H1 H2.
  apply norm_le_of_sumsq. unfold sumsq. simpl.
  assert (Hk : forall (k : Z) (x : R),
             -180 <= x < 180 -> x * x <= (x + 360 * IZR k) * (x + 360 * IZR k)).
  { intros k x Hx.
    assert (Hc : (k = 0 \/ 1 <= k \/ k <= -1)%Z) by lia.
    destruct Hc as [->|[Hc|Hc]].
    - simpl. nra.
    - apply IZR_le in Hc. nra.
    - apply IZR_le in Hc. nra. }
  pose proof (Hk k0 _ H0). pose proof (Hk k1 _ H1). pose proof (Hk k2 _ H2).
  replace (c0 c + 360 * IZR k0 - c0 t) with (c0 c - c0 t + 360 * IZR k0) by ring.
  replace (c1 c + 360 * IZR k1 - c1 t) with (c1 c - c1 t + 360 * IZR k1) by ring.
  replace (c2 c + 360 * IZR k2 - c2 t) with (c2 c - c2 t + 360 * IZR k2) by ring.
  lra.
Qed.

Lemma turns_sym (a b : vec3) : turns a b -> turns b a.
Proof.
  intros (k0 & k1 & k2 & ->). exists (- k0)%Z, (- k1)%Z, (- k2)%Z.
  apply vec3_eq; simpl; rewrite opp_IZR; lra.
Qed.

(** X1. [pick_closest_rotation] returns, and what it returns is at least
    as close to [close_to] as every vector that differs by whole turns
    from [modify] or from the flipped candidate; in particular it is never
    farther from [close_to] than [modify] itself. *)
Theorem pick_closest_rotation_is_closest :
  forall (modify close_to : vec3) (original_rotation : option vec3),
    (exists fuel res,
        pick_closest_rotation fuel modify close_to original_rotation
        = Some res) /\
    (forall fuel res,
        pick_closest_rotation fuel modify close_to original_rotation
        = Some res ->
        norm (vsub res close_to) <= norm (vsub modify close_to) /\
        forall v,
          turns v modify \/
          turns v (flipped modify (original_or_zero original_rotation)) ->
          norm (vsub res close_to) <= norm (vsub v close_to)).
Proof.
  intros modify t o. split; [apply pick_closest_rotation_fuel|].
  intros fuel res H. unfold pick_closest_rotation in H.
  set (r := original_or_zero o) in *.
  destruct (_pick_closet_location fuel modify t) as [[d1 a]|] eqn:E1;
    [|discriminate].
  destruct (_pick_closet_location fuel (flipped modify r) t) as [[d2 b]|] eqn:E2;
    [|discriminate].
  destruct (_pick_closet_location_post _ _ _ _ E1) as (A1 & A2 & A3 & A4 & A5).
  destruct (_pick_closet_location_post _ _ _ _ E2) as (B1 & B2 & B3 & B4 & B5).
  destruct (_pick_closet_location_aligned _ _ _ _ E1) as [Ta _].
  destruct (_pick_closet_location_aligned _ _ _ _ E2) as [Tb _].
  simpl in *.
  assert (Ha : forall v, turns v modify -> d1 <= norm (vsub v t)).
  { intros v Hv. rewrite A1. apply half_turn_is_closest; try assumption.
    eapply turns_trans; [exact Hv | apply turns_sym, Ta]. }
  assert (Hb : forall v, turns v (flipped modify r) -> d2 <= norm (vsub v t)).
  { intros v Hv. rewrite B1. apply half_turn_is_closest; try assumption.
    eapply turns_trans; [exact Hv | apply turns_sym, Tb]. }
  destruct (Rlt_dec d2 d1) as [Hlt|Hge]; injection H as <-.
  - rewrite <- B1. split; [lra|].
    intros v [Hv|Hv]; [specialize (Ha v Hv) | specialize (Hb v Hv)]; lra.
  - rewrite <- A1. split; [lra|].
    intros v [Hv|Hv]; [specialize (Ha v Hv) | specialize (Hb v Hv)]; lra.
Qed.

(** X2. Every component of the vector [pick_closest_rotation] returns lies
    within half a turn of the same component of [close_to], and the vector
    differs by whole turns from [modify] or from the flipped candidate. *)
Theorem pick_closest_rotation_within_half_turn :
  forall (modify close_to : vec3) (original_rotation : option vec3),
    (exists fuel res,
        pick_closest_rotation fuel modify close_to original_rotation
        = Some res) /\
    (forall fuel res,
        pick_closest_rotation fuel modify close_to original_rotation
        = Some res ->
        (turns res modify \/
         turns res (flipped modify (original_or_zero original_rotation))) /\
        -180 <= c0 res - c0 close_to < 180 /\
        -180 <= c1 res - c1 close_to < 180 /\
        -180 <= c2 res - c2 close_to < 180).
Proof.
  intros modify t o. split; [apply pick_closest_rotation_fuel|].
  intros fuel res H. unfold pick_closest_rotation in H.
  set (r := original_or_zero o) in *.
  destruct (_pick_closet_location fuel modify t) as [[d1 a]|] eqn:E1;
    [|discriminate].
  destruct (_pick_closet_location fuel (flipped modify r) t) as [[d2 b]|] eqn:E2;
    [|discriminate].
  destruct (_pick_closet_location_post _ _ _ _ E1) as (_ & _ & A3 & A4 & A5).
  destruct (_pick_closet_location_post _ _ _ _ E2) as (_ & _ & B3 & B4 & B5).
  destruct (_pick_closet_location_aligned _ _ _ _ E1) as [Ta _].
  destruct (_pick_closet_location_aligned _ _ _ _ E2) as [Tb _].
  simpl in *.
  destruct (Rlt_dec d2 d1); injection H as <-.
  - split; [right; exact Tb|]. repeat split; lra.
  - split; [left; exact Ta|]. repeat split; lra.
Qed.

End RotationSolverBounds.

(** ** Rounding twice *)

Lemma thousandths_emit (k : Z) : thousandths (emit k) = k.
Proof.
  unfold emit. destruct (Z.eqb_spec (k mod 1000) 0) as [Hm|Hm];
    cbn [thousandths].
  - apply Z.div_exact in Hm; lia.
  - unfold round_half_even, Qmult. cbn [Qnum Qden].
    change (Z.pos (1000 * 1)) with 1000%Z.
    rewrite Z.mod_mul, Z.div_mul by lia. reflexivity.
Qed.

(** X3. [get_vect_json] is idempotent: a vector it has returned passes
    through it unchanged.  It keeps the length of its input, and a vector
    of [int]s is returned as it is. *)
Theorem get_vect_json_idempotent :
  forall arr : list pynum,
    get_vect_json (get_vect_json arr) = get_vect_json arr /\
    List.length (get_vect_json arr) = List.length arr /\
    forall zs : list Z, get_vect_json (map PyInt zs) = map PyInt zs.
Proof.
  intros arr. rewrite !get_vect_json_emit. split; [|split].
  - rewrite map_map. apply map_ext. intros x.
    rewrite thousandths_emit. reflexivity.
  - apply length_map.
  - intros zs. rewrite get_vect_json_emit, map_map. apply map_ext.
    intros z. unfold emit. cbn [thousandths].
    replace (1000 * z)%Z with (z * 1000)%Z by lia.
    rewrite Z.mod_mul, Z.div_mul by lia. reflexivity.
Qed.

(** ** The parent bone of an object *)

Section ParentBoneFacts.

Variable Matrix : Type.

(** The chain [obj.parent], [obj.parent.parent], ..., nearest first. *)
Fixpoint ancestors (obj : bpy_Object Matrix) : list (bpy_Object Matrix) :=
  match obj with
  | BpyObject _ _ parent _ _ _ _ _ _ _ =>
      match parent with
      | None => []
      | Some p => p :: ancestors p
      end
  end.

(** [obj.type == 'EMPTY' or 'mc_is_bone' in obj] *)
Definition stands_for_bone (o : bpy_Object Matrix) : bool :=
  String.eqb (ob_type o) "EMPTY" || has_custom "mc_is_bone" o.

(** Every link of the chain above [obj] is a link to an object. *)
Definition object_links (obj : bpy_Object Matrix) : Prop :=
  forall o, In o (obj :: ancestors obj) -> ob_parent o <> None ->
            ob_parent_type o = "OBJECT".

Lemma bpy_Object_parent_ind (P : bpy_Object Matrix -> Prop) :
  (forall o, ob_parent o = None -> P o) ->
  (forall o p, ob_parent o = Some p -> P p -> P o) ->
  forall o, P o.
Proof.
  intros H0 H1. fix IH 1. intros [t n [p|] pt pb c cu m bb bs].
  - apply (H1 (BpyObject t n (Some p) pt pb c cu m bb bs) p eq_refl).
    apply IH.
  - apply H0. reflexivity.
Qed.

Lemma last_cons_indep {A : Type} (a d d' : A) (l : list A) :
  last (a :: l) d = last (a :: l) d'.
Proof.
  revert a. induction l as [|b l IH]; intros a; [reflexivity|].
  change (last (b :: l) d = last (b :: l) d'). apply IH.
Qed.

Lemma ancestors_parent (o p : bpy_Object Matrix) :
  ob_parent o = Some p -> ancestors o = p :: ancestors p.
Proof. destruct o; simpl. intros ->. reflexivity. Qed.

Lemma ancestors_root (o : bpy_Object Matrix) :
  ob_parent o = None -> ancestors o = [].
Proof. destruct o; simpl. intros ->. reflexivity. Qed.

Lemma get_parent_mc_bone_from_root (o : bpy_Object Matrix)
    (acc : option ObjectId) :
  ob_parent o = None -> get_parent_mc_bone_from o acc = Ok acc.
Proof. destruct o; simpl. intros ->. reflexivity. Qed.

Lemma get_parent_mc_bone_from_step (o p : bpy_Object Matrix)
    (acc : option ObjectId) :
  ob_parent o = Some p ->
  get_parent_mc_bone_from o acc
  = if String.eqb (ob_parent_type o) "BONE" then
      Ok (Some (mk_id (ob_name p) (ob_parent_bone o)))
    else if String.eqb (ob_parent_type o) "OBJECT" then
      if stands_for_bone p then Ok (Some (mk_id (ob_name p) ""))
      else get_parent_mc_bone_from p (Some (mk_id (ob_name p) ""))
    else Raise (PyException "Unsuported parent type").
Proof. destruct o; simpl. intros ->. reflexivity. Qed.

(** Whatever the walk returns is the variable [obj_id] it started with, on
    an object without parent, or names an ancestor. *)
Lemma get_parent_mc_bone_from_names_ancestor :
  forall (o : bpy_Object Matrix) (acc r : option ObjectId),
    get_parent_mc_bone_from o acc = Ok r ->
    (ob_parent o = None /\ r = acc) \/
    exists id a, r = Some id /\ In a (ancestors o) /\ id_name id = ob_name a.
Proof.
  induction o as [o Hroot|o p Hp IH] using bpy_Object_parent_ind;
    intros acc r H.
  - rewrite get_parent_mc_bone_from_root in H by exact Hroot.
    injection H as <-. left. split; [exact Hroot | reflexivity].
  - right. rewrite (get_parent_mc_bone_from_step o p acc Hp) in H.
    rewrite (ancestors_parent o p Hp).
    destruct (String.eqb (ob_parent_type o) "BONE").
    { injection H as <-. exists (mk_id (ob_name p) (ob_parent_bone o)), p.
      split; [reflexivity|]. split; [left; reflexivity | reflexivity]. }
    destruct (String.eqb (ob_parent_type o) "OBJECT"); [|discriminate].
    destruct (stands_for_bone p).
    { injection H as <-. exists (mk_id (ob_name p) ""), p.
      split; [reflexivity|]. split; [left; reflexivity | reflexivity]. }
    destruct (IH _ _ H) as [[Hr ->]|(id & a & -> & Ha & Hn)].
    + exists (mk_id (ob_name p) ""), p.
      split; [reflexivity|]. split; [left; reflexivity | reflexivity].
    + exists id, a. split; [reflexivity|]. split; [right; exact Ha | exact Hn].
Qed.

(** Along links to objects the walk stops at the first ancestor that
    stands for a bone, and at the topmost ancestor when there is none. *)
Lemma get_parent_mc_bone_from_object_links :
  forall (o : bpy_Object Matrix) (acc : option ObjectId),
    object_links o ->
    get_parent_mc_bone_from o acc
    = Ok (match find stands_for_bone (ancestors o) with
          | Some a => Some (mk_id (ob_name a) "")
          | None =>
              match ancestors o with
              | [] => acc
              | p :: _ => Some (mk_id (ob_name (last (ancestors o) p)) "")
              end
          end).
Proof.
  induction o as [o Hroot|o p Hp IH] using bpy_Object_parent_ind;
    intros acc Hl.
  - rewrite get_parent_mc_bone_from_root by exact Hroot.
    rewrite (ancestors_root o Hroot). reflexivity.
  - rewrite (get_parent_mc_bone_from_step o p acc Hp).
    assert (Ht : ob_parent_type o = "OBJECT").
    { apply Hl; [left; reflexivity | congruence]. }
    rewrite Ht. cbn [String.eqb Ascii.eqb Bool.eqb].
    rewrite (ancestors_parent o p Hp). cbn [find].
    destruct (stands_for_bone p) eqn:Es; [reflexivity|].
    rewrite IH.
    + destruct (find stands_for_bone (ancestors p)); [reflexivity|].
      destruct (ancestors p) as [|q l] eqn:Ea; [reflexivity|].
      change (last (p :: q :: l) p) with (last (q :: l) p).
      rewrite (last_cons_indep q p q l). reflexivity.
    + intros x Hx. apply Hl. right.
      rewrite (ancestors_parent o p Hp). exact Hx.
Qed.

(** X4. [get_parent_mc_bone] returns [None] exactly for an object without
    parent.  For an object with a parent, whatever it returns names an
    ancestor.  When the links above the object are links to objects, it
    names the nearest ancestor that is an empty or carries [mc_is_bone],
    and the topmost ancestor when there is none, with an empty bone name.
    A link to a bone ends the walk with the armature and the bone of the
    link; any other kind of link raises. *)
Theorem get_parent_mc_bone_names_nearest_bone :
  forall obj : bpy_Object Matrix,
    (ob_parent obj = None -> get_parent_mc_bone obj = Ok None) /\
    (forall r,
        ob_parent obj <> None -> get_parent_mc_bone obj = Ok r ->
        exists id a,
          r = Some id /\ In a (ancestors obj) /\ id_name id = ob_name a) /\
    (forall p,
        ob_parent obj = Some p -> object_links obj ->
        get_parent_mc_bone obj
        = Ok (Some (mk_id
                      (ob_name
                         match find stands_for_bone (ancestors obj) with
                         | Some a => a
                         | None => last (ancestors obj) p
                         end) ""))) /\
    (forall p,
        ob_parent obj = Some p -> ob_parent_type obj = "BONE" ->
        get_parent_mc_bone obj
        = Ok (Some (mk_id (ob_name p) (ob_parent_bone obj)))) /\
    (forall p,
        ob_parent obj = Some p ->
        ob_parent_type obj <> "BONE" -> ob_parent_type obj <> "OBJECT" ->
        exists m, get_parent_mc_bone obj = Raise (PyException m)).
Proof.
  intros obj. unfold get_parent_mc_bone. repeat split.
  - intros H. apply get_parent_mc_bone_from_root, H.
  - intros r Hp H.
    destruct (get_parent_mc_bone_from_names_ancestor _ _ _ H)
      as [[Hr _]|Hex]; [contradiction | exact Hex].
  - intros p Hp Hl. rewrite get_parent_mc_bone_from_object_links by exact Hl.
    rewrite (ancestors_parent obj p Hp).
    destruct (find stands_for_bone (p :: ancestors p)); reflexivity.
  - intros p Hp Ht. rewrite (get_parent_mc_bone_from_step obj p None Hp), Ht.
    reflexivity.
  - intros p Hp Hb Ho. rewrite (get_parent_mc_bone_from_step obj p None Hp).
    destruct (String.eqb_spec (ob_parent_type obj) "BONE"); [contradiction|].
    destruct (String.eqb_spec (ob_parent_type obj) "OBJECT"); [contradiction|].
    eauto.
Qed.

End ParentBoneFacts.

(** A mesh under a mesh under an empty under an empty. *)
Definition sample_torso : bpy_Object qvec3 :=
  BpyObject "EMPTY" "torso" (Some (sample_empty "root" (mkq 0 0 0)))
            "OBJECT" "" 1 [] (mkq 0 1 0) [] [].

Definition sample_arm : bpy_Object qvec3 :=
  BpyObject "MESH" "arm" (Some sample_torso) "OBJECT" "" 1 [] (mkq 1 1 0) [] [].

Definition sample_hand : bpy_Object qvec3 :=
  BpyObject "MESH" "hand" (Some sample_arm) "OBJECT" "" 0 [] (mkq 2 1 0) [] [].

Lemma get_parent_mc_bone_names_nearest_bone_witness :
  get_parent_mc_bone sample_hand = Ok (Some (mk_id "torso" "")).
Proof.
  apply (proj1 (proj2 (proj2
           (get_parent_mc_bone_names_nearest_bone qvec3 sample_hand)))
           sample_arm eq_refl).
  intros o [<-|[<-|[<-|[<-|[]]]]] _; reflexivity.
Defined.

(** ** The dictionary of [get_object_mcproperties] *)

Lemma ObjectId_eqb_eq (a b : ObjectId) : ObjectId_eqb a b = true <-> a = b.
Proof.
  destruct a as [n1 b1], b as [n2 b2]. unfold ObjectId_eqb. cbn [id_name id_bone_name].
  rewrite andb_true_iff, !String.eqb_eq. split.
  - intros [-> ->]. reflexivity.
  - intros H. injection H as -> ->. split; reflexivity.
Qed.

Lemma ObjectId_eqb_refl (a : ObjectId) : ObjectId_eqb a a = true.
Proof. apply ObjectId_eqb_eq. reflexivity. Qed.

Lemma ObjectId_eqb_neq (a b : ObjectId) : ObjectId_eqb a b = false <-> a <> b.
Proof.
  split.
  - intros H E. apply ObjectId_eqb_eq in E. congruence.
  - intros H. destruct (ObjectId_eqb a b) eqn:E; [|reflexivity].
    apply ObjectId_eqb_eq in E. contradiction.
Qed.

Section PropertiesFacts.

Variable Matrix : Type.

Local Abbreviation props := (ObjectMcProperties Matrix).
Local Abbreviation dict := (properties_dict Matrix).

(** [k] is the [mcparent] of [q]. *)
Definition has_parent (k : ObjectId) (q : props) : bool :=
  match mcparent q with
  | Some parent_id => ObjectId_eqb parent_id k
  | None => false
  end.

(** The keys of the entries of [l] whose [mcparent] is [k]. *)
Definition children_in (l : dict) (k : ObjectId) : list ObjectId :=
  map fst (filter (fun item => has_parent k (snd item)) l).

Definition with_children (p : props) (children : list ObjectId) : props :=
  mk_props (thisobj_id p) (thisobj p) (mcparent p) children (mctype p).

Lemma props_get_In (k : ObjectId) (d : dict) (p : props) :
  props_get k d = Some p -> In (k, p) d.
Proof.
  induction d as [|[k' v] d IH]; simpl; [discriminate|].
  destruct (ObjectId_eqb k k') eqn:E.
  - apply ObjectId_eqb_eq in E. subst. intros H. injection H as ->.
    left. reflexivity.
  - intros H. right. apply IH, H.
Qed.

Lemma props_get_None (k : ObjectId) (d : dict) :
  props_get k d = None <-> ~ In k (map fst d).
Proof.
  induction d as [|[k' v] d IH]; simpl; [tauto|].
  destruct (ObjectId_eqb k k') eqn:E.
  - apply ObjectId_eqb_eq in E. subst. split; [discriminate|].
    intros H. exfalso. apply H. left. reflexivity.
  - apply ObjectId_eqb_neq in E. rewrite IH. split.
    + intros H [H1|H1]; [congruence | contradiction].
    + intros H H1. apply H. right. exact H1.
Qed.

Lemma props_get_NoDup (k : ObjectId) (d : dict) (p : props) :
  NoDup (map fst d) -> In (k, p) d -> props_get k d = Some p.
Proof.
  induction d as [|[k' v] d IH]; simpl; intros Hnd Hin; [contradiction|].
  inversion Hnd as [|? ? Hnot Hnd']; subst.
  destruct Hin as [E|Hin].
  - injection E as -> ->. rewrite ObjectId_eqb_refl. reflexivity.
  - destruct (ObjectId_eqb k k') eqn:E.
    + apply ObjectId_eqb_eq in E. subst. exfalso. apply Hnot.
      apply in_map_iff. exists (k', p). split; [reflexivity | exact Hin].
    + apply IH; assumption.
Qed.

(** [d[k] = v] keeps the keys when [k] is one of them and adds [k] at the
    end otherwise. *)
Lemma props_set_keys (k : ObjectId) (v : props) (d : dict) :
  map fst (props_set k v d)
  = if existsb (ObjectId_eqb k) (map fst d) then map fst d
    else map fst d ++ [k].
Proof.
  induction d as [|[k' v'] d IH]; simpl; [reflexivity|].
  destruct (ObjectId_eqb k k'); simpl; [reflexivity|].
  rewrite IH. destruct (existsb _ _); reflexivity.
Qed.

Lemma existsb_ObjectId (k : ObjectId) (l : list ObjectId) :
  existsb (ObjectId_eqb k) l = true <-> In k l.
Proof.
  rewrite existsb_exists. split.
  - intros (x & Hx & E). apply ObjectId_eqb_eq in E. subst. exact Hx.
  - intros H. exists k. split; [exact H | apply ObjectId_eqb_refl].
Qed.

Lemma props_set_NoDup (k : ObjectId) (v : props) (d : dict) :
  NoDup (map fst d) -> NoDup (map fst (props_set k v d)).
Proof.
  intros Hnd. rewrite props_set_keys.
  destruct (existsb (ObjectId_eqb k) (map fst d)) eqn:E; [exact Hnd|].
  apply NoDup_app; [exact Hnd | repeat constructor; simpl; tauto |].
  intros x Hx [<-|[]].
  apply existsb_ObjectId in Hx. congruence.
Qed.

Lemma props_set_In (k k' : ObjectId) (v v' : props) (d : dict) :
  In (k', v') (props_set k v d) -> (k' = k /\ v' = v) \/ In (k', v') d.
Proof.
  induction d as [|[k0 v0] d IH]; simpl.
  - intros [E|[]]. injection E as <- <-. left. split; reflexivity.
  - destruct (ObjectId_eqb k k0) eqn:E.
    + apply ObjectId_eqb_eq in E. subst k0.
      intros [H|H]; [injection H as <- <-; left; split; reflexivity|].
      right. right. exact H.
    + intros [H|H]; [right; left; exact H|].
      destruct (IH H) as [H1|H1]; [left; exact H1 | right; right; exact H1].
Qed.

(** On a dictionary with distinct keys, [d[k] = v] for a key that is there
    changes the entry of that key and no other. *)
Lemma props_set_map (k : ObjectId) (v : props) (d : dict) :
  NoDup (map fst d) -> In k (map fst d) ->
  props_set k v d
  = map (fun kp => if ObjectId_eqb k (fst kp) then (fst kp, v) else kp) d.
Proof.
  induction d as [|[k' v'] d IH]; simpl; intros Hnd Hin; [contradiction|].
  inversion Hnd as [|? ? Hnot Hnd']; subst.
  destruct (ObjectId_eqb k k') eqn:E.
  - apply ObjectId_eqb_eq in E. subst k'. f_equal.
    rewrite <- (map_id d) at 1. apply map_ext_in. intros [k1 v1] H1. simpl.
    destruct (ObjectId_eqb k k1) eqn:E1; [|reflexivity].
    apply ObjectId_eqb_eq in E1. subst k1. exfalso. apply Hnot.
    apply in_map_iff. exists (k, v1). split; [reflexivity | exact H1].
  - f_equal. apply IH; [exact Hnd'|].
    destruct Hin as [H|H]; [|exact H].
    apply ObjectId_eqb_neq in E. congruence.
Qed.

(** *** The first loop *)

Lemma classify_fields (obj_id : ObjectId) (obj : bpy_Object Matrix) (p : props) :
  classify obj_id obj = Ok (Some p) ->
  thisobj_id p = obj_id /\ thisobj p = obj /\ mcchildren p = [].
Proof.
  unfold classify. intros H.
  destruct (String.eqb (ob_type obj) "EMPTY").
  { apply bind_Ok in H. destruct H as (parent & _ & H).
    injection H as <-. repeat split. }
  destruct (String.eqb (ob_type obj) "MESH").
  { destruct (_ || _).
    - injection H as <-. repeat split.
    - apply bind_Ok in H. destruct H as (parent & _ & H).
      injection H as <-. repeat split. }
  destruct (String.eqb (ob_type obj) "ARMATURE"); [|discriminate].
  destruct (find_bone _ obj) as [bone|]; [|discriminate].
  destruct (_ && _); [discriminate|].
  injection H as <-. repeat split.
Qed.

(** What holds of the dictionary while the first loop fills it: the keys
    are distinct, and every entry is what [classify] makes of one of the
    pairs [loop_objects] yields. *)
Definition collected (all : list (ObjectId * bpy_Object Matrix)) (d : dict)
    : Prop :=
  NoDup (map fst d) /\
  forall k p, In (k, p) d ->
    In (k, thisobj p) all /\ classify k (thisobj p) = Ok (Some p).

Lemma collect_properties_collected (all : list (ObjectId * bpy_Object Matrix)) :
  forall items d d',
    (forall x, In x items -> In x all) ->
    collected all d ->
    collect_properties items d = Ok d' ->
    collected all d'.
Proof.
  induction items as [|[obj_id obj] items IH]; intros d d' Hsub Hd H;
    cbn [collect_properties] in H.
  - injection H as <-. exact Hd.
  - apply bind_Ok in H. destruct H as (c & Hc & H).
    assert (Hsub' : forall x, In x items -> In x all)
      by (intros x Hx; apply Hsub; right; exact Hx).
    destruct c as [p|]; [|exact (IH _ _ Hsub' Hd H)].
    apply (IH _ _ Hsub') in H; [exact H|].
    destruct Hd as [Hnd Hall]. split; [apply props_set_NoDup, Hnd|].
    intros k q Hin. apply props_set_In in Hin.
    destruct Hin as [[-> ->]|Hin]; [|apply Hall, Hin].
    destruct (classify_fields _ _ _ Hc) as (_ & Ho & _).
    rewrite Ho. split; [apply Hsub; left; reflexivity | exact Hc].
Qed.

(** *** The second loop *)

(** The entry of the dictionary once the loop has gone through [l]. *)
Definition filled (l : dict) (kp : ObjectId * props) : ObjectId * props :=
  (fst kp, with_children (snd kp) (children_in l (fst kp))).

Lemma children_in_app (l1 l2 : dict) (k : ObjectId) :
  children_in (l1 ++ l2) k = children_in l1 k ++ children_in l2 k.
Proof. unfold children_in. rewrite filter_app, map_app. reflexivity. Qed.

Lemma map_filled_keys (l d : dict) : map fst (map (filled l) d) = map fst d.
Proof. rewrite map_map. reflexivity. Qed.

Lemma fill_children_step (d l1 : dict) (item : ObjectId * props) :
  NoDup (map fst d) ->
  match mcparent (snd item) with
  | Some parent_id =>
      match props_get parent_id (map (filled l1) d) with
      | Some _ => append_child parent_id (fst item) (map (filled l1) d)
      | None => map (filled l1) d
      end
  | None => map (filled l1) d
  end
  = map (filled (l1 ++ [item])) d.
Proof.
  intros Hnd. destruct item as [c q]. cbn [fst snd].
  assert (Hother : forall k,
             has_parent k q = false ->
             children_in (l1 ++ [(c, q)]) k = children_in l1 k).
  { intros k Hk. rewrite children_in_app. unfold children_in at 2.
    cbn [filter snd]. rewrite Hk. apply app_nil_r. }
  destruct (mcparent q) as [pid|] eqn:Ep.
  - destruct (props_get pid (map (filled l1) d)) as [p'|] eqn:Eg.
    + unfold append_child. rewrite Eg.
      pose proof (props_get_In _ _ _ Eg) as Hin.
      apply in_map_iff in Hin. destruct Hin as ([k0 p0] & E0 & Hin0).
      unfold filled in E0. cbn [fst snd] in E0. injection E0 as -> <-.
      rewrite props_set_map.
      2: { rewrite map_filled_keys. exact Hnd. }
      2: { rewrite map_filled_keys. apply in_map_iff.
           exists (pid, p0). split; [reflexivity | exact Hin0]. }
      rewrite map_map. apply map_ext_in. intros [k p] Hkp.
      unfold filled. cbn [fst snd].
      destruct (ObjectId_eqb pid k) eqn:E.
      * apply ObjectId_eqb_eq in E. subst k.
        assert (p = p0).
        { pose proof (props_get_NoDup _ _ _ Hnd Hkp) as G1.
          pose proof (props_get_NoDup _ _ _ Hnd Hin0) as G2. congruence. }
        subst p0. f_equal. unfold with_children. cbn.
        f_equal. rewrite children_in_app. f_equal.
        unfold children_in. cbn [filter snd]. unfold has_parent.
        rewrite Ep, ObjectId_eqb_refl. reflexivity.
      * rewrite Hother; [reflexivity|]. unfold has_parent. rewrite Ep. exact E.
    + apply map_ext_in. intros [k p] Hkp. unfold filled. cbn [fst snd].
      rewrite Hother; [reflexivity|]. unfold has_parent. rewrite Ep.
      apply ObjectId_eqb_neq. intros ->.
      apply props_get_None in Eg. apply Eg. rewrite map_filled_keys.
      apply in_map_iff. exists (k, p). split; [reflexivity | exact Hkp].
  - apply map_ext_in. intros [k p] Hkp. unfold filled. cbn [fst snd].
    rewrite Hother; [reflexivity|]. unfold has_parent. rewrite Ep. reflexivity.
Qed.

Lemma fill_children_closed (d : dict) :
  NoDup (map fst d) ->
  (forall k p, In (k, p) d -> mcchildren p = []) ->
  fill_children d = map (filled d) d.
Proof.
  intros Hnd Hfresh. unfold fill_children.
  assert (Hgen : forall l2 l1,
             fold_left
               (fun acc item =>
                  match mcparent (snd item) with
                  | Some parent_id =>
                      match props_get parent_id acc with
                      | Some _ => append_child parent_id (fst item) acc
                      | None => acc
                      end
                  | None => acc
                  end) l2 (map (filled l1) d)
             = map (filled (l1 ++ l2)) d).
  { induction l2 as [|item l2 IH]; intros l1; cbn [fold_left].
    - rewrite app_nil_r. reflexivity.
    - cbv beta. rewrite (fill_children_step d l1 item Hnd), IH, <- app_assoc.
      reflexivity. }
  specialize (Hgen d []). cbn [app] in Hgen. rewrite <- Hgen. f_equal.
  rewrite <- (map_id d) at 1. apply map_ext_in. intros [k p] Hkp.
  unfold filled, children_in. cbn. f_equal.
  specialize (Hfresh k p Hkp). destruct p; cbn in *. subst. reflexivity.
Qed.

Lemma children_in_filled (l d : dict) (k : ObjectId) :
  children_in (map (filled l) d) k = children_in d k.
Proof.
  unfold children_in. induction d as [|[k' p] d IH]; [reflexivity|].
  cbn [map filter filled fst snd].
  change (has_parent k (with_children p (children_in l k')))
    with (has_parent k p).
  destruct (has_parent k p); cbn [map fst]; rewrite IH; reflexivity.
Qed.

(** The dictionary [get_object_mcproperties] returns, from the one its
    first loop has built. *)
Lemma get_object_mcproperties_closed
    (selected_objects : list (bpy_Object Matrix)) (d : dict) :
  get_object_mcproperties selected_objects = Ok d ->
  exists d0,
    collected (loop_objects selected_objects) d0 /\
    d = map (filled d0) d0.
Proof.
  unfold get_object_mcproperties. intros H.
  apply bind_Ok in H. destruct H as (d0 & H0 & H). injection H as <-.
  assert (Hc : collected (loop_objects selected_objects) d0).
  { apply (collect_properties_collected (loop_objects selected_objects)
             (loop_objects selected_objects) [] d0); [auto| |exact H0].
    split; [constructor | intros k p []]. }
  exists d0. split; [exact Hc|].
  apply fill_children_closed; [apply Hc|].
  intros k p Hin. destruct Hc as [_ Hall].
  destruct (Hall k p Hin) as [_ Hcl].
  apply (classify_fields _ _ _ Hcl).
Qed.

(** X5. In the dictionary [get_object_mcproperties] returns the keys are
    distinct; every entry is stored under its own id and belongs to an
    object or bone [loop_objects] yields; and the list of children of an
    entry holds exactly the keys of the entries whose [mcparent] is that
    entry, each once, in the order of the dictionary. *)
Theorem get_object_mcproperties_children :
  forall (selected_objects : list (bpy_Object Matrix))
         (object_properties : dict),
    get_object_mcproperties selected_objects = Ok object_properties ->
    NoDup (map fst object_properties) /\
    forall k p,
      In (k, p) object_properties ->
      thisobj_id p = k /\
      In (k, thisobj p) (loop_objects selected_objects) /\
      mcchildren p = children_in object_properties k.
Proof.
  intros sel d H.
  destruct (get_object_mcproperties_closed sel d H) as (d0 & [Hnd Hall] & ->).
  split; [rewrite map_filled_keys; exact Hnd|].
  intros k p Hin. apply in_map_iff in Hin.
  destruct Hin as ([k0 p0] & E & Hin0). unfold filled in E.
  cbn [fst snd] in E. injection E as -> <-.
  destruct (Hall k p0 Hin0) as [Hloop Hcl].
  destruct (classify_fields _ _ _ Hcl) as (Hid & _ & _).
  split; [exact Hid|]. split; [exact Hloop|].
  rewrite children_in_filled. reflexivity.
Qed.

(** X6. The type of an entry of the dictionary tells what its object is:
    a [BOTH] entry is a mesh without parent or with [mc_is_bone], and has
    no [mcparent], whether the mesh has a parent or not; a [CUBE] entry is
    a mesh with a parent and without [mc_is_bone]; a [LOCATOR] entry is an
    empty with a parent, without children and without [mc_is_bone]; a
    [BONE] entry is an empty or the bone of an armature.  Cubes and
    locators always have an [mcparent]. *)
Theorem get_object_mcproperties_types :
  forall (selected_objects : list (bpy_Object Matrix))
         (object_properties : dict),
    get_object_mcproperties selected_objects = Ok object_properties ->
    forall k p,
      In (k, p) object_properties ->
      match mctype p with
      | BOTH =>
          ob_type (thisobj p) = "MESH" /\ mcparent p = None /\
          (ob_parent (thisobj p) = None \/
           has_custom "mc_is_bone" (thisobj p) = true)
      | CUBE =>
          ob_type (thisobj p) = "MESH" /\ ob_parent (thisobj p) <> None /\
          has_custom "mc_is_bone" (thisobj p) = false /\ mcparent p <> None
      | LOCATOR =>
          ob_type (thisobj p) = "EMPTY" /\ ob_parent (thisobj p) <> None /\
          ob_children (thisobj p) = 0%nat /\
          has_custom "mc_is_bone" (thisobj p) = false /\ mcparent p <> None
      | BONE =>
          ob_type (thisobj p) = "EMPTY" \/ ob_type (thisobj p) = "ARMATURE"
      end.
Proof.
  intros sel d H k p Hin.
  destruct (get_object_mcproperties_closed sel d H) as (d0 & [Hnd Hall] & ->).
  apply in_map_iff in Hin.
  destruct Hin as ([k0 p0] & E & Hin0). unfold filled in E.
  cbn [fst snd] in E. injection E as -> <-.
  destruct (Hall k p0 Hin0) as [_ Hcl].
  change (mctype (with_children p0 (children_in d0 k))) with (mctype p0).
  change (thisobj (with_children p0 (children_in d0 k))) with (thisobj p0).
  change (mcparent (with_children p0 (children_in d0 k))) with (mcparent p0).
  set (obj := thisobj p0) in *. clearbody obj.
  assert (Hsome : forall r,
             ob_parent obj <> None -> get_parent_mc_bone obj = Ok r ->
             r <> None).
  { intros r Hp Hr.
    destruct (get_parent_mc_bone_from_names_ancestor Matrix _ _ _ Hr)
      as [[Hroot _]|(id & a & -> & _)]; [contradiction | discriminate]. }
  unfold classify in Hcl.
  destruct (String.eqb_spec (ob_type obj) "EMPTY") as [Ht|Ht].
  { apply bind_Ok in Hcl. destruct Hcl as (parent & Hparent & Hcl).
    injection Hcl as <-. cbn [mctype thisobj mcparent].
    destruct (ob_parent obj) as [q|] eqn:Eq; cbn [andb].
    - destruct (Nat.eqb_spec (ob_children obj) 0) as [Hc|Hc]; cbn [andb];
        [|left; exact Ht].
      destruct (has_custom "mc_is_bone" obj) eqn:Eb; cbn [negb];
        [left; exact Ht|].
      repeat split; try assumption; try discriminate.
      apply Hsome; [discriminate | exact Hparent].
    - left. exact Ht. }
  destruct (String.eqb_spec (ob_type obj) "MESH") as [Hm|Hm].
  { destruct (ob_parent obj) as [q|] eqn:Eq; cbn [orb] in Hcl.
    - destruct (has_custom "mc_is_bone" obj) eqn:Eb.
      + injection Hcl as <-. cbn [mctype thisobj mcparent].
        repeat split; try assumption. right. reflexivity.
      + apply bind_Ok in Hcl. destruct Hcl as (parent & Hparent & Hcl).
        injection Hcl as <-. cbn [mctype thisobj mcparent].
        repeat split; try assumption; try discriminate.
        apply Hsome; [discriminate | exact Hparent].
    - injection Hcl as <-. cbn [mctype thisobj mcparent].
      repeat split; try assumption. left. reflexivity. }
  destruct (String.eqb_spec (ob_type obj) "ARMATURE") as [Ha|Ha];
    [|discriminate].
  destruct (find_bone _ obj) as [bone|]; [|discriminate].
  destruct (_ && _); [discriminate|].
  injection Hcl as <-. cbn [mctype]. right. exact Ha.
Qed.

End PropertiesFacts.

(** The chain of [sample_hand], selected as a whole. *)
Definition sample_body : list (bpy_Object qvec3) :=
  [sample_hand; sample_arm; sample_torso; sample_empty "root" (mkq 0 0 0)].

Lemma get_object_mcproperties_children_witness :
  exists d,
    get_object_mcproperties sample_body = Ok d /\
    map (fun kp => (id_name (fst kp), map id_name (mcchildren (snd kp)))) d
    = [("hand", []); ("arm", []); ("torso", ["hand"; "arm"]);
       ("root", ["torso"])] /\
    NoDup (map fst d) /\
    forall k p,
      In (k, p) d ->
      thisobj_id p = k /\
      In (k, thisobj p) (loop_objects sample_body) /\
      mcchildren p = children_in qvec3 d k.
Proof.
  destruct (get_object_mcproperties sample_body) as [d|e] eqn:E;
    [|vm_compute in E; discriminate].
  exists d. split; [reflexivity|]. split.
  - vm_compute in E. injection E as <-. reflexivity.
  - exact (get_object_mcproperties_children qvec3 sample_body d E).
Defined.

Lemma get_object_mcproperties_types_witness :
  exists d,
    get_object_mcproperties sample_body = Ok d /\
    map (fun kp => (id_name (fst kp), mctype (snd kp))) d
    = [("hand", CUBE); ("arm", CUBE); ("torso", BONE); ("root", BONE)] /\
    forall p,
      In (mk_id "hand" "", p) d ->
      match mctype p with
      | CUBE => mcparent p <> None
      | _ => True
      end.
Proof.
  destruct (get_object_mcproperties sample_body) as [d|e] eqn:E;
    [|vm_compute in E; discriminate].
  exists d. split; [reflexivity|]. split.
  - vm_compute in E. injection E as <-. reflexivity.
  - intros p Hin.
    pose proof (get_object_mcproperties_types qvec3 sample_body d E _ p Hin)
      as H.
    destruct (mctype p); try exact I. apply H.
Defined.

(** ** The exported name of an object *)

(** [s.split('.')[0]] *)
Definition first_part (s : string) : string :=
  hd EmptyString (split_on "."%char s).

Definition dotless (s : string) : Prop :=
  ~ In "."%char (list_ascii_of_string s).

Lemma split_on_nonempty (sep : ascii) (s : string) : split_on sep s <> [].
Proof.
  destruct s as [|c t]; simpl; [discriminate|].
  destruct (Ascii.eqb c sep); [discriminate|].
  destruct (split_on sep t); discriminate.
Qed.

Lemma first_part_cons (c : ascii) (t : string) :
  first_part (String c t)
  = if Ascii.eqb c "."%char then EmptyString else String c (first_part t).
Proof.
  unfold first_part. cbn [split_on].
  destruct (Ascii.eqb c "."%char); [reflexivity|].
  pose proof (split_on_nonempty "."%char t) as Hne.
  destruct (split_on "."%char t); [contradiction | reflexivity].
Qed.

(** The first part holds no dot, and the string is the first part alone
    or the first part, a dot and a rest. *)
Lemma first_part_spec (s : string) :
  dotless (first_part s) /\
  (s = first_part s \/
   exists rest, s = String.append (first_part s) (String "."%char rest)).
Proof.
  induction s as [|c t [IHd IHs]].
  - split; [intros []|]. left. reflexivity.
  - rewrite first_part_cons.
    destruct (Ascii.eqb_spec c "."%char) as [->|Hc].
    + split; [intros []|]. right. exists t. reflexivity.
    + split.
      * intros [H|H]; [congruence | exact (IHd H)].
      * destruct IHs as [IHs|[rest IHs]].
        -- left. rewrite <- IHs. reflexivity.
        -- right. exists rest. cbn [String.append]. rewrite <- IHs.
           reflexivity.
Qed.

(** A suffix after a dot is dropped. *)
Lemma first_part_append (n rest : string) :
  dotless n ->
  first_part n = n /\
  first_part (String.append n (String "."%char rest)) = n.
Proof.
  induction n as [|c t IH]; intros Hn.
  - split; reflexivity.
  - cbn [String.append]. rewrite !first_part_cons.
    destruct (Ascii.eqb_spec c "."%char) as [->|Hc].
    + exfalso. apply Hn. left. reflexivity.
    + destruct IH as [IH1 IH2].
      { intros H. apply Hn. right. exact H. }
      rewrite IH1, IH2. split; reflexivity.
Qed.

(** X7. The exported name of a mesh or an empty is the name of the object
    up to its first dot: it holds no dot, and a suffix that starts with a
    dot (as Blender appends to duplicates) is dropped, so that objects
    that differ in such a suffix only are exported under one name.  The
    exported name of an armature bone is the name of the bone, dots
    included; a bone the armature does not have is a [KeyError]. *)
Theorem name_drops_the_suffix :
  forall (Matrix : Type) (p : ObjectMcProperties Matrix),
    (ob_type (thisobj p) <> "ARMATURE" ->
     exists n,
       name p = Ok n /\ dotless n /\
       (ob_name (thisobj p) = n \/
        exists rest,
          ob_name (thisobj p) = String.append n (String "."%char rest)) /\
       forall q : ObjectMcProperties Matrix,
         ob_type (thisobj q) <> "ARMATURE" ->
         (ob_name (thisobj q) = n \/
          exists rest,
            ob_name (thisobj q) = String.append n (String "."%char rest)) ->
         name q = Ok n) /\
    (ob_type (thisobj p) = "ARMATURE" ->
     match find_bone (id_bone_name (thisobj_id p)) (thisobj p) with
     | Some bone => name p = Ok (ab_name bone)
     | None => name p = Raise KeyError
     end).
Proof.
  intros Matrix p. unfold name. split.
  - intros Ht.
    destruct (String.eqb_spec (ob_type (thisobj p)) "ARMATURE");
      [contradiction|].
    fold (first_part (ob_name (thisobj p))).
    destruct (first_part_spec (ob_name (thisobj p))) as [Hd Hs].
    exists (first_part (ob_name (thisobj p))).
    split; [reflexivity|]. split; [exact Hd|]. split; [exact Hs|].
    intros q Hq Hn.
    destruct (String.eqb_spec (ob_type (thisobj q)) "ARMATURE");
      [contradiction|].
    fold (first_part (ob_name (thisobj q))). f_equal.
    destruct Hn as [->|[rest ->]].
    + apply (first_part_append _ EmptyString Hd).
    + apply (first_part_append _ rest Hd).
  - intros ->. cbn [String.eqb Ascii.eqb Bool.eqb].
    destruct (find_bone _ _); reflexivity.
Qed.

Lemma name_drops_the_suffix_witness :
  name (mk_props (mk_id "arm.001" "") (sample_empty "arm.001" (mkq 0 0 0))
                 None [] BONE) = Ok "arm" /\
  name (mk_props (mk_id "arm.L.002" "") (sample_empty "arm.L.002" (mkq 0 0 0))
                 None [] BONE) = Ok "arm".
Proof.
  set (p := mk_props (mk_id "arm.001" "") (sample_empty "arm.001" (mkq 0 0 0))
                     None [] BONE).
  assert (Hp : ob_type (thisobj p) <> "ARMATURE") by discriminate.
  destruct (proj1 (name_drops_the_suffix qvec3 p) Hp)
    as (n & Hn & _ & _ & Hsame).
  assert (En : n = "arm") by (vm_compute in Hn; congruence).
  split; [rewrite Hn, En; reflexivity|].
  rewrite En in Hsame. apply Hsame; [discriminate|].
  right. exists "L.002". reflexivity.
Defined.

(** ** The shape of an exported bone *)

Lemma str_dict_set_keys {V : Type} (k k' : string) (v : V)
    (d : list (string * V)) :
  In k' (map fst (str_dict_set k v d)) <-> k' = k \/ In k' (map fst d).
Proof.
  induction d as [|[k0 v0] d IH]; simpl.
  - split; [intros [H|[]]; left; congruence | intros [H|[]]; left; congruence].
  - destruct (String.eqb_spec k k0) as [->|Hk]; simpl.
    + split; [intros [H|H]; auto | intros [H|[H|H]]; auto; left; congruence].
    + rewrite IH. split; [intros [H|[H|H]]; auto | intros [H|[H|H]]; auto].
Qed.

Lemma str_dict_set_NoDup {V : Type} (k : string) (v : V)
    (d : list (string * V)) :
  NoDup (map fst d) -> NoDup (map fst (str_dict_set k v d)).
Proof.
  induction d as [|[k0 v0] d IH]; simpl; intros Hnd.
  - constructor; [intros [] | constructor].
  - inversion Hnd as [|? ? Hnot Hnd']; subst.
    destruct (String.eqb_spec k k0) as [->|Hk]; simpl.
    + constructor; assumption.
    + constructor; [|apply IH, Hnd'].
      intros H. apply str_dict_set_keys in H.
      destruct H as [H|H]; [congruence | contradiction].
Qed.

Lemma fold_dict_set_keys {V : Type} (entries d : list (string * V)) :
  NoDup (map fst d) ->
  NoDup (map fst (fold_left (fun d e => str_dict_set (fst e) (snd e) d)
                            entries d)) /\
  forall k,
    In k (map fst (fold_left (fun d e => str_dict_set (fst e) (snd e) d)
                             entries d))
    <-> In k (map fst entries) \/ In k (map fst d).
Proof.
  revert d. induction entries as [|e entries IH]; intros d Hnd; cbn [fold_left].
  - split; [exact Hnd|]. intros k. simpl. tauto.
  - destruct (IH (str_dict_set (fst e) (snd e) d)
                 (str_dict_set_NoDup _ _ _ Hnd)) as [H1 H2].
    split; [exact H1|]. intros k. rewrite H2, str_dict_set_keys. simpl.
    split; [intros [H|[H|H]]; auto | intros [[H|H]|H]; auto].
Qed.

Section BoneJsonShape.

Variable Matrix : Type.
Variable matmul : Matrix -> Matrix -> Matrix.
Variable inverted : Matrix -> option Matrix.
Variable normalized : Matrix -> Matrix.
Variable to_translation : Matrix -> qvec3.
Variable to_euler_XZY : Matrix -> qvec3.
Variable quaternion_euler_XZY : Matrix -> qvec3.
Variable decompose_scale : Matrix -> qvec3.
Variable math_pi : Q.
Variable frames : nat.

Local Abbreviation bone_json :=
  (get_mcbone_json matmul inverted normalized to_translation to_euler_XZY
     quaternion_euler_XZY decompose_scale math_pi frames).

(** [name] fails in one way only. *)
Lemma name_raises (p : ObjectMcProperties Matrix) (e : exn) :
  name p = Raise e -> e = KeyError.
Proof.
  unfold name. destruct (String.eqb _ _); [|discriminate].
  destruct (find_bone _ _); [discriminate|]. intros H. congruence.
Qed.

(** X8. A bone whose [mcparent] is no key of the dictionary, as happens
    when the parent of a selected object is not selected, cannot be
    exported: [get_mcbone_json] and [get_mcpivot] raise [KeyError],
    whatever the cubes and locators. *)
Theorem get_mcbone_json_missing_parent :
  forall (boneprop : ObjectMcProperties Matrix)
         (cubeprops locatorprops : list (ObjectMcProperties Matrix))
         (object_properties : properties_dict Matrix)
         (parent_id : ObjectId),
    mcparent boneprop = Some parent_id ->
    props_get parent_id object_properties = None ->
    bone_json boneprop cubeprops locatorprops object_properties
    = Raise KeyError /\
    get_mcpivot matmul inverted normalized to_translation (S frames)
      boneprop object_properties = Raise KeyError.
Proof.
  intros boneprop cubeprops locatorprops d pid Hp Hg. split.
  - unfold get_mcbone_json. destruct (name boneprop) as [n|e] eqn:En.
    + cbn [bind]. rewrite Hp, Hg. reflexivity.
    + cbn [bind]. rewrite (name_raises _ _ En). reflexivity.
  - unfold get_mcpivot. cbn [_get_mcpivot]. rewrite Hp, Hg. reflexivity.
Qed.

Lemma locator_entry_name (l : ObjectMcProperties Matrix)
    (d : properties_dict Matrix) (e : string * list pynum) :
  locator_entry matmul inverted normalized to_translation decompose_scale
    frames l d = Ok e ->
  name l = Ok (fst e).
Proof.
  unfold locator_entry. intros H. invert_binds. injection H as <-.
  cbn [fst]. assumption.
Qed.

Lemma cube_entry_optional (boneprop c : ObjectMcProperties Matrix)
    (d : properties_dict Matrix) (j : mccube_json) :
  cube_entry matmul inverted normalized to_translation to_euler_XZY
    quaternion_euler_XZY decompose_scale math_pi frames boneprop c d = Ok j ->
  cj_mirror j = has_mc_mirror c /\
  match cj_inflate j with
  | Some i => has_mc_inflate c = true /\ get_mc_inflate c = Ok i
  | None => has_mc_inflate c = false
  end /\
  (has_uv c = false -> cj_uv j = [PyInt 0; PyInt 0]).
Proof.
  unfold cube_entry. intros H. invert_binds.
  repeat match goal with
         | x : (qvec3 * qvec3)%type |- _ => destruct x
         end.
  invert_binds. injection H as <-.
  cbn [cj_mirror cj_inflate cj_uv]. split; [reflexivity|]. split.
  - destruct (has_mc_inflate c).
    + match goal with
      | Hi : bind (get_mc_inflate c) _ = Ok _ |- _ =>
          apply bind_Ok in Hi; destruct Hi as (i & Hi & Hr);
          injection Hr as <-; split; [reflexivity | exact Hi]
      end.
    + match goal with
      | Hi : Ok None = Ok _ |- _ => injection Hi as <-; reflexivity
      end.
  - intros Hu.
    match goal with
    | Huv : (if has_uv c then _ else _) = Ok _ |- _ =>
        rewrite Hu in Huv; injection Huv as <-; reflexivity
    end.
Qed.

(** X9. The bone [get_mcbone_json] returns carries the exported name of
    the bone; a parent exactly when the bone has an [mcparent], and then
    the exported name of that entry; one cube per element of [cubeprops],
    in order, with [mirror] set exactly for the cubes that carry
    [mc_mirror], [inflate] present exactly for those that carry
    [mc_inflate], and [uv] equal to [[0, 0]] for those without [mc_uv]; and
    a dictionary of locators exactly when [locatorprops] is not empty,
    whose keys are the exported names of the locators, each once. *)
Theorem get_mcbone_json_shape :
  forall (boneprop : ObjectMcProperties Matrix)
         (cubeprops locatorprops : list (ObjectMcProperties Matrix))
         (object_properties : properties_dict Matrix) (b : mcbone_json),
    bone_json boneprop cubeprops locatorprops object_properties = Ok b ->
    name boneprop = Ok (bj_name b) /\
    match mcparent boneprop with
    | None => bj_parent b = None
    | Some parent_id =>
        exists parent n,
          props_get parent_id object_properties = Some parent /\
          name parent = Ok n /\ bj_parent b = Some n
    end /\
    Forall2
      (fun c j =>
         cj_mirror j = has_mc_mirror c /\
         match cj_inflate j with
         | Some i => has_mc_inflate c = true /\ get_mc_inflate c = Ok i
         | None => has_mc_inflate c = false
         end /\
         (has_uv c = false -> cj_uv j = [PyInt 0; PyInt 0]))
      cubeprops (bj_cubes b) /\
    match bj_locators b with
    | None => locatorprops = []
    | Some locators =>
        locatorprops <> [] /\ NoDup (map fst locators) /\
        forall n,
          In n (map fst locators)
          <-> exists l, In l locatorprops /\ name l = Ok n
    end.
Proof.
  intros boneprop cubeprops locatorprops d b H.
  unfold get_mcbone_json in H. invert_binds.
  repeat match goal with
         | x : (option string * qvec3)%type |- _ => destruct x
         end.
  invert_binds. injection H as <-.
  cbn [bj_name bj_parent bj_cubes bj_locators].
  split; [assumption|]. split; [|split].
  - destruct (mcparent boneprop) as [pid|].
    + destruct (props_get pid d) as [parent|]; [|discriminate].
      match goal with
      | Hh : bind (name parent) _ = Ok _ |- _ =>
          apply bind_Ok in Hh; destruct Hh as (n & Hn & Hh)
      end.
      invert_binds.
      match goal with
      | Hh : Ok _ = Ok _ |- _ => injection Hh as <- <-
      end.
      exists parent, n. repeat split; assumption.
    + invert_binds.
      match goal with
      | Hh : Ok _ = Ok _ |- _ => injection Hh as <- <-
      end.
      reflexivity.
  - match goal with
    | Ht : traverse _ cubeprops = Ok _ |- _ =>
        apply traverse_Forall2 in Ht; induction Ht; constructor;
        [eapply cube_entry_optional; eassumption | assumption]
    end.
  - destruct locatorprops as [|l0 ls]; [reflexivity|].
    cbn [List.length Nat.ltb Nat.leb].
    split; [discriminate|].
    match goal with
    | Hx : traverse _ (l0 :: ls) = Ok _ |- _ =>
        apply traverse_Forall2 in Hx; rename Hx into Ht
    end.
    match type of Ht with
    | Forall2 _ _ ?es =>
        destruct (fold_dict_set_keys es (@nil (string * list pynum))
                    (NoDup_nil _)) as [Hnd Hkeys]
    end.
    split; [exact Hnd|]. intros n. rewrite Hkeys. clear Hnd Hkeys.
    revert Ht. generalize (l0 :: ls). intros lps Ht.
    split.
    + intros [Hin|[]]. apply in_map_iff in Hin.
      destruct Hin as ([n' v] & Hn & Hin). cbn [fst] in Hn. subst n'.
      induction Ht as [|l e lps' es' Hle Ht IH]; [destruct Hin|].
      destruct Hin as [->|Hin].
      * exists l. split; [left; reflexivity|].
        apply (locator_entry_name _ _ _ Hle).
      * destruct (IH Hin) as (l' & Hl' & Hn').
        exists l'. split; [right; exact Hl' | exact Hn'].
    + intros (l & Hl & Hn). left.
      induction Ht as [|l1 e lps' es' Hle Ht IH]; [destruct Hl|].
      destruct Hl as [->|Hl].
      * left. apply locator_entry_name in Hle. cbn [fst]. congruence.
      * right. apply IH, Hl.
Qed.

End BoneJsonShape.

(** [sample_torso] selected without its parent. *)
Definition sample_torso_props : ObjectMcProperties qvec3 :=
  mk_props (mk_id "torso" "") sample_torso (Some (mk_id "root" "")) [] BONE.

Lemma get_mcbone_json_missing_parent_witness :
  get_object_mcproperties [sample_torso]
  = Ok [(mk_id "torso" "", sample_torso_props)] /\
  get_mcbone_json flat_matmul flat_inverted flat_normalized
    flat_to_translation flat_to_euler flat_to_euler flat_scale flat_pi 8
    sample_torso_props [] [] [(mk_id "torso" "", sample_torso_props)]
  = Raise KeyError.
Proof.
  split; [reflexivity|].
  apply (get_mcbone_json_missing_parent qvec3 flat_matmul flat_inverted
           flat_normalized flat_to_translation flat_to_euler flat_to_euler
           flat_scale flat_pi 8 sample_torso_props [] []
           [(mk_id "torso" "", sample_torso_props)] (mk_id "root" ""));
    reflexivity.
Defined.

Lemma get_mcbone_json_shape_witness :
  exists b,
    sample_box_bone = Ok b /\
    bj_name b = "box" /\ bj_parent b = None /\
    List.length (bj_cubes b) = 1%nat /\ bj_locators b = None.
Proof.
  destruct sample_box_bone as [b|e] eqn:E; [|vm_compute in E; discriminate].
  exists b. split; [reflexivity|].
  destruct (get_mcbone_json_shape qvec3 flat_matmul flat_inverted
              flat_normalized flat_to_translation flat_to_euler flat_to_euler
              flat_scale flat_pi 8 sample_box_props [sample_box_props] []
              [(mk_id "box" "", sample_box_props)] b E)
    as (Hn & Hp & Hc & Hl).
  split.
  { assert (Hb : name sample_box_props = Ok "box") by reflexivity.
    rewrite Hb in Hn. injection Hn as Hn. symmetry. exact Hn. }
  split; [exact Hp|].
  split; [symmetry; apply (Forall2_length Hc)|].
  destruct (bj_locators b) as [ls|]; [|reflexivity].
  destruct Hl as [Hne _]. contradiction Hne. reflexivity.
Defined.

(** ** What the loader hands over *)

Lemma _assert_is_vector_inv (name : string) (v : json) (n : nat)
    (path : json_path) :
  _assert_is_vector name v n is_int_or_float path = Ok tt ->
  vector_ok n v = true.
Proof.
  unfold _assert_is_vector, _assert, vector_ok.
  destruct v; cbn [is_list bind]; try discriminate.
  destruct (Nat.eqb (List.length l) n); cbn [bind]; [|discriminate].
  destruct (forallb is_int_or_float l); [reflexivity | discriminate].
Qed.

(** An optional vector: the default, or the entry of the document, which
    then is a list of [n] numbers. *)
Lemma if_in_vector_inv (name key : string) (kv : list (string * json))
    (st x : json) (n : nat) (path : json_path) :
  if_in key kv st
    (fun v => _assert_is_vector name v n is_int_or_float path ;;; Ok v)
  = Ok x ->
  (dict_get key kv = None /\ x = st) \/
  (dict_get key kv = Some x /\ vector_ok n x = true).
Proof.
  unfold if_in. destruct (dict_get key kv) as [v|].
  - intros H. apply bind_Ok in H. destruct H as ([] & Hv & H).
    injection H as <-. right. split; [reflexivity|].
    eapply _assert_is_vector_inv, Hv.
  - intros H. injection H as <-. left. split; reflexivity.
Qed.

Lemma if_in_type_inv (name key : string) (kv : list (string * json))
    (st x : json) (check : json -> bool) (path : json_path) :
  if_in key kv st (fun v => _assert_is_type name v check path ;;; Ok v)
  = Ok x ->
  (dict_get key kv = None /\ x = st) \/
  (dict_get key kv = Some x /\ check x = true).
Proof.
  unfold if_in, _assert_is_type. destruct (dict_get key kv) as [v|].
  - destruct (check v) eqn:E; cbn [negb bind]; [|discriminate].
    intros H. injection H as <-. right. split; [reflexivity | exact E].
  - intros H. injection H as <-. left. split; reflexivity.
Qed.

Lemma if_in_bool_inv (name key : string) (kv : list (string * json))
    (st x : bool) (path : json_path) :
  if_in key kv st (fun v => checked_bool name v path) = Ok x ->
  (dict_get key kv = None /\ x = st) \/ dict_get key kv = Some (JBool x).
Proof.
  unfold if_in, checked_bool, _assert_is_type.
  destruct (dict_get key kv) as [v|].
  - destruct v; cbn [is_bool negb bind]; try discriminate.
    intros H. injection H as <-. right. reflexivity.
  - intros H. injection H as <-. left. split; reflexivity.
Qed.

Lemma if_in_str_inv (name key : string) (kv : list (string * json))
    (st x : option string) (path : json_path) :
  if_in key kv st (fun v => s <- checked_str name v path ;; Ok (Some s))
  = Ok x ->
  (dict_get key kv = None /\ x = st) \/
  exists s, dict_get key kv = Some (JStr s) /\ x = Some s.
Proof.
  unfold if_in, checked_str, _assert_is_type.
  destruct (dict_get key kv) as [v|].
  - destruct v; cbn [is_str negb bind]; try discriminate.
    intros H. injection H as <-. right. eauto.
  - intros H. injection H as <-. left. split; reflexivity.
Qed.

(** A cube as the builder needs it. *)
Definition cube_wf (c : cube_data) : Prop :=
  vector_ok 3 (cube_origin c) = true /\
  vector_ok 3 (cube_size c) = true /\
  vector_ok 3 (cube_rotation c) = true /\
  vector_ok 3 (cube_pivot c) = true /\
  vector_ok 2 (cube_uv c) = true /\
  is_int_or_float (cube_inflate c) = true.

(** The entry [key] of the document, when there is one, is [x]. *)
Definition taken_over (key : string) (kv : list (string * json)) (x : json)
    : Prop :=
  forall v, dict_get key kv = Some v -> x = v.

Lemma if_in_vector_facts (name key : string) (kv : list (string * json))
    (st x : json) (n : nat) (path : json_path) :
  if_in key kv st
    (fun v => _assert_is_vector name v n is_int_or_float path ;;; Ok v)
  = Ok x ->
  vector_ok n st = true ->
  vector_ok n x = true /\ taken_over key kv x.
Proof.
  intros H Hst. apply if_in_vector_inv in H.
  destruct H as [[Hn ->]|[Hs Hx]]; (split; [assumption|]);
    intros v Hv; congruence.
Qed.

Lemma if_in_type_facts (name key : string) (kv : list (string * json))
    (st x : json) (check : json -> bool) (path : json_path) :
  if_in key kv st (fun v => _assert_is_type name v check path ;;; Ok v)
  = Ok x ->
  check st = true ->
  check x = true /\ taken_over key kv x.
Proof.
  intros H Hst. apply if_in_type_inv in H.
  destruct H as [[Hn ->]|[Hs Hx]]; (split; [assumption|]);
    intros v Hv; congruence.
Qed.

Lemma if_in_bool_facts (name key : string) (kv : list (string * json))
    (st x : bool) (path : json_path) :
  if_in key kv st (fun v => checked_bool name v path) = Ok x ->
  forall v, dict_get key kv = Some v -> v = JBool x.
Proof.
  intros H v Hv. apply if_in_bool_inv in H.
  destruct H as [[Hn _]|Hs]; congruence.
Qed.

(** The [uv] of a cube, as each parser reads it. *)
Lemma if_in_uv_1_12_facts (kv : list (string * json)) (st x : json)
    (path : json_path) :
  if_in "uv" kv st (fun v =>
    _assert_is_type "uv" v is_list_or_dict path ;;;
    if is_dict v then
      Raise (ImportingNotImplementedError "uv dictionary" path)
    else if is_list v then
      _assert_is_vector "uv" v 2 is_int_or_float path ;;; Ok v
    else
      Raise (FileIsNotAModelException (MsgNotInstance path "uv")))
  = Ok x ->
  vector_ok 2 st = true ->
  vector_ok 2 x = true /\ taken_over "uv" kv x.
Proof.
  unfold if_in, _assert_is_type. intros H Hst.
  destruct (dict_get "uv" kv) as [v|] eqn:Eg.
  - destruct (is_list_or_dict v); cbn [negb bind] in H; [|discriminate].
    destruct (is_dict v); [discriminate|].
    destruct (is_list v); [|discriminate].
    apply bind_Ok in H. destruct H as ([] & Hv & H). injection H as <-.
    split; [eapply _assert_is_vector_inv, Hv|].
    intros v' Hv'. congruence.
  - injection H as <-. split; [exact Hst|]. intros v Hv. congruence.
Qed.

Lemma if_in_uv_1_8_facts (kv : list (string * json)) (st x : json)
    (path : json_path) :
  if_in "uv" kv st (fun v =>
    _assert_is_type "uv" v is_list path ;;;
    _assert_is_vector "uv" v 2 is_int_or_float path ;;; Ok v)
  = Ok x ->
  vector_ok 2 st = true ->
  vector_ok 2 x = true /\ taken_over "uv" kv x.
Proof.
  unfold if_in, _assert_is_type. intros H Hst.
  destruct (dict_get "uv" kv) as [v|] eqn:Eg.
  - destruct (is_list v); cbn [negb bind] in H; [|discriminate].
    apply bind_Ok in H. destruct H as ([] & Hv & H). injection H as <-.
    split; [eapply _assert_is_vector_inv, Hv|].
    intros v' Hv'. congruence.
  - injection H as <-. split; [exact Hst|]. intros v Hv. congruence.
Qed.

Lemma accepted_keys_absent (what key : string) (kv : list (string * json))
    (accepted : list string) (path : json_path) :
  _assert_has_accepted_keys_only what (dict_keys kv) accepted path = Ok tt ->
  mem key accepted = false ->
  dict_get key kv = None.
Proof.
  intros H Hm.
  destruct (_assert_has_accepted_keys_only_cases what (dict_keys kv) accepted
              path) as [[_ Hall]|(additional & E & _)]; [|congruence].
  apply mem_dict_get. destruct (mem key (dict_keys kv)) eqn:Hk; [|reflexivity].
  apply mem_In in Hk. rewrite (Hall key Hk) in Hm. discriminate.
Qed.

Lemma required_keys_present (what key : string) (kv : list (string * json))
    (path : json_path) :
  _assert_has_required_keys what (dict_keys kv) [key] path = Ok tt ->
  exists v, dict_get key kv = Some v.
Proof.
  intros H.
  destruct (_assert_has_required_keys_cases what (dict_keys kv) [key] path)
    as [[_ Hall]|(missing & E & _)]; [|congruence].
  specialize (Hall key (or_introl eq_refl)).
  destruct (dict_get key kv) as [v|] eqn:Ev; [eauto|].
  apply mem_dict_get in Ev. congruence.
Qed.

(** Every field read through [if_in] gives up what is known of it. *)
Ltac field_facts :=
  repeat match goal with
         | Hx : if_in _ _ _ _ = Ok _ |- _ =>
             first [ apply if_in_vector_facts in Hx; [|reflexivity]
                   | apply if_in_type_facts in Hx; [|reflexivity]
                   | apply if_in_uv_1_12_facts in Hx; [|reflexivity]
                   | apply if_in_uv_1_8_facts in Hx; [|reflexivity] ];
             destruct Hx as [? ?]
         end.

Lemma _load_cube_well_formed (fv : json) (kv : list (string * json))
    (path : json_path) (default_mirror : bool) (c : cube_data) :
  _load_cube fv (JDict kv) path default_mirror = Ok c ->
  cube_wf c /\
  taken_over "origin" kv (cube_origin c) /\
  taken_over "size" kv (cube_size c) /\
  taken_over "inflate" kv (cube_inflate c) /\
  taken_over "uv" kv (cube_uv c) /\
  (forall v, dict_get "mirror" kv = Some v -> v = JBool (cube_mirror c)) /\
  (pick_version_parser known_parsers fv = Ok "1.12.0" ->
   taken_over "rotation" kv (cube_rotation c) /\
   taken_over "pivot" kv (cube_pivot c)) /\
  (pick_version_parser known_parsers fv = Ok "1.8.0" ->
   cube_rotation c = zeros3 /\ cube_pivot c = zeros3 /\
   dict_get "rotation" kv = None /\ dict_get "pivot" kv = None).
Proof.
  unfold _load_cube, cube_wf. intros H.
  destruct (pick_version_parser known_parsers fv) as [pv|] eqn:Ev;
    cbn [bind] in H; [|discriminate].
  destruct (String.eqb_spec pv "1.12.0") as [->|Hn12].
  - simpl in H. invert_binds. injection H as <-.
    field_facts. cbn.
    repeat split; try assumption; try discriminate.
    match goal with
    | Hx : if_in "mirror" _ _ _ = Ok _ |- _ =>
        exact (if_in_bool_facts _ _ _ _ _ _ Hx)
    end.
  - destruct (String.eqb_spec pv "1.8.0") as [->|Hn8]; [|discriminate].
    simpl in H. invert_binds. injection H as <-.
    repeat match goal with u : unit |- _ => destruct u end.
    field_facts. cbn.
    repeat split; try assumption; try congruence;
      first [ match goal with
              | Hx : if_in "mirror" _ _ _ = Ok _ |- _ =>
                  exact (if_in_bool_facts _ _ _ _ _ _ Hx)
              end
            | match goal with
              | Ha : _assert_has_accepted_keys_only _ _ _ _ = Ok _ |- _ =>
                  eapply accepted_keys_absent; [exact Ha | reflexivity]
              end ].
Qed.

Lemma _load_cube_is_dict (fv cube : json) (path : json_path)
    (default_mirror : bool) (c : cube_data) :
  _load_cube fv cube path default_mirror = Ok c -> exists kv, cube = JDict kv.
Proof.
  unfold _load_cube. intros H.
  destruct (pick_version_parser known_parsers fv) as [pv|]; cbn [bind] in H;
    [|discriminate].
  destruct cube; try (exists kv; reflexivity); exfalso;
    destruct (String.eqb pv "1.12.0"); try discriminate;
    destruct (String.eqb pv "1.8.0"); discriminate.
Qed.

Lemma _load_cubes_from_well_formed (fv : json) (path : json_path)
    (default_mirror : bool) :
  forall (l : list json) (i : nat) (cs : list cube_data),
    _load_cubes_from fv i l path default_mirror = Ok cs ->
    List.length cs = List.length l /\ Forall cube_wf cs.
Proof.
  induction l as [|cube l IH]; intros i cs H; cbn [_load_cubes_from] in H.
  - injection H as <-. split; [reflexivity | constructor].
  - apply bind_Ok in H. destruct H as (c & Hc & H).
    apply bind_Ok in H. destruct H as (rest & Hrest & H). injection H as <-.
    destruct (IH _ _ Hrest) as [Hlen Hall].
    split; [simpl; congruence|]. constructor; [|exact Hall].
    destruct (_load_cube_is_dict _ _ _ _ _ Hc) as [kv ->].
    apply (_load_cube_well_formed _ _ _ _ _ Hc).
Qed.

Lemma _load_cubes_well_formed (fv cubes : json) (path : json_path)
    (default_mirror : bool) (cs : list cube_data) :
  _load_cubes fv cubes path default_mirror = Ok cs ->
  (exists l, cubes = JList l /\ List.length cs = List.length l) /\
  Forall cube_wf cs.
Proof.
  unfold _load_cubes. intros H.
  destruct (pick_version_parser known_parsers fv) as [pv|]; cbn [bind] in H;
    [|discriminate].
  destruct (_ || _); [|discriminate].
  destruct cubes; try discriminate. simpl in H.
  apply _load_cubes_from_well_formed in H. destruct H as [Hlen Hall].
  split; [eauto | exact Hall].
Qed.

(** A locator is handed over as the document has it. *)
Lemma _load_locator_same (fv locator : json) (path : json_path) (v : json) :
  _load_locator fv locator path = Ok v ->
  v = locator /\ vector_ok 3 locator = true.
Proof.
  unfold _load_locator, _assert_is_type. intros H.
  destruct (pick_version_parser known_parsers fv) as [pv|]; cbn [bind] in H;
    [|discriminate].
  destruct (String.eqb pv "1.12.0").
  - destruct (is_list locator).
    + apply bind_Ok in H. destruct H as ([] & Hv & H). injection H as <-.
      split; [reflexivity | eapply _assert_is_vector_inv, Hv].
    + destruct (is_dict locator); discriminate.
  - destruct (String.eqb pv "1.8.0"); [|discriminate].
    destruct (is_list locator); cbn [negb bind] in H; [|discriminate].
    apply bind_Ok in H. destruct H as ([] & Hv & H). injection H as <-.
    split; [reflexivity | eapply _assert_is_vector_inv, Hv].
Qed.

Lemma _load_locators_items_same (fv : json) (path : json_path) :
  forall items r,
    _load_locators_items fv items path = Ok r ->
    r = items /\ Forall (fun kv => vector_ok 3 (snd kv) = true) items.
Proof.
  induction items as [|[k v] items IH]; intros r H;
    cbn [_load_locators_items] in H.
  - injection H as <-. split; [reflexivity | constructor].
  - apply bind_Ok in H. destruct H as (v' & Hv & H).
    apply bind_Ok in H. destruct H as (rest & Hrest & H). injection H as <-.
    destruct (_load_locator_same _ _ _ _ Hv) as [-> Hok].
    destruct (IH _ Hrest) as [-> Hall].
    split; [reflexivity | constructor; assumption].
Qed.

Lemma _load_locators_same (fv locators : json) (path : json_path)
    (r : list (string * json)) :
  _load_locators fv locators path = Ok r ->
  locators = JDict r /\ Forall (fun kv => vector_ok 3 (snd kv) = true) r.
Proof.
  unfold _load_locators. intros H.
  destruct (pick_version_parser known_parsers fv) as [pv|]; cbn [bind] in H;
    [|discriminate].
  destruct (_ || _); [|discriminate].
  destruct locators; try discriminate. simpl in H.
  apply _load_locators_items_same in H. destruct H as [-> Hall].
  split; [reflexivity | exact Hall].
Qed.

Lemma bind_raise_never {A B : Type} (m : result A) (e : exn) (r : B) :
  (m ;;; Raise e) <> Ok r.
Proof. destruct m; discriminate. Qed.

(** An entry whose reading always ends in an error is not there when the
    object loads. *)
Lemma if_in_raising_inv {A : Type} (key : string) (kv : list (string * json))
    (st x : A) (f : json -> result A) :
  (forall v r, f v <> Ok r) ->
  if_in key kv st f = Ok x ->
  dict_get key kv = None.
Proof.
  unfold if_in. intros Hf H.
  destruct (dict_get key kv) as [v|]; [|reflexivity].
  exfalso. exact (Hf v x H).
Qed.

(** A bone as the builder needs it. *)
Definition bone_wf (b : bone_data) : Prop :=
  bone_name b <> None /\
  vector_ok 3 (bone_pivot b) = true /\
  vector_ok 3 (bone_rotation b) = true /\
  Forall cube_wf (bone_cubes b) /\
  Forall (fun kv => vector_ok 3 (snd kv) = true) (bone_locators b).

(** The entries of a bone that stand for features the importer lacks. *)
Definition not_implemented_bone_keys : list string :=
  ["inflate"; "debug"; "poly_mesh"; "texture_meshes"].

Lemma _load_bone_tail_facts (fv : json) (kv : list (string * json))
    (path : json_path) (name parent : option string) (pivot rotation : json)
    (b : bone_data) :
  _load_bone_tail fv kv path name parent pivot rotation = Ok b ->
  bone_name b = name /\ bone_parent b = parent /\
  bone_pivot b = pivot /\ bone_rotation b = rotation /\
  (forall v, dict_get "mirror" kv = Some v -> v = JBool (bone_mirror b)) /\
  Forall cube_wf (bone_cubes b) /\
  (forall v, dict_get "cubes" kv = Some v ->
     exists l, v = JList l /\ List.length (bone_cubes b) = List.length l) /\
  Forall (fun kv => vector_ok 3 (snd kv) = true) (bone_locators b) /\
  (forall v, dict_get "locators" kv = Some v -> v = JDict (bone_locators b)) /\
  Forall (fun k => dict_get k kv = None) not_implemented_bone_keys /\
  dict_get "redner_group_id" kv = None /\
  bone_inflate b = JFloat (0 # 1) /\ bone_debug b = false /\
  bone_render_group_id b = 0%Z /\
  bone_poly_mesh b = JDict [] /\ bone_texture_meshes b = JList [].
Proof.
  unfold _load_bone_tail. intros H. simpl in H. invert_binds.
  injection H as <-. cbn.
  repeat match goal with u : unit |- _ => destruct u end.
  repeat match goal with
         | Hx : if_in ?k kv tt _ = Ok tt |- _ =>
             apply if_in_raising_inv in Hx;
             [|intros; first [apply bind_raise_never | discriminate]]
         end.
  match goal with
  | Hx : if_in "cubes" _ _ _ = Ok ?cs |- _ =>
      assert (Hcubes : Forall cube_wf cs /\
                (forall v, dict_get "cubes" kv = Some v ->
                   exists l, v = JList l /\ List.length cs = List.length l))
  end.
  { match goal with
    | Hx : if_in "cubes" _ _ _ = Ok _ |- _ => unfold if_in in Hx
    end.
    destruct (dict_get "cubes" kv) as [v|].
    - match goal with
      | Hx : _load_cubes _ _ _ _ = Ok _ |- _ =>
          apply _load_cubes_well_formed in Hx; destruct Hx as [Hl Hall]
      end.
      split; [exact Hall|]. intros v' Hv'. injection Hv' as <-. exact Hl.
    - match goal with
      | Hx : Ok _ = Ok _ |- _ => injection Hx as <-
      end.
      split; [constructor | intros v Hv; discriminate]. }
  match goal with
  | Hx : if_in "locators" _ _ _ = Ok ?ls |- _ =>
      assert (Hlocs : Forall (fun kv => vector_ok 3 (snd kv) = true) ls /\
                (forall v, dict_get "locators" kv = Some v -> v = JDict ls))
  end.
  { match goal with
    | Hx : if_in "locators" _ _ _ = Ok _ |- _ => unfold if_in in Hx
    end.
    destruct (dict_get "locators" kv) as [v|].
    - match goal with
      | Hx : _load_locators _ _ _ = Ok _ |- _ =>
          apply _load_locators_same in Hx; destruct Hx as [-> Hall]
      end.
      split; [exact Hall|]. intros v' Hv'. injection Hv' as <-. reflexivity.
    - match goal with
      | Hx : Ok _ = Ok _ |- _ => injection Hx as <-
      end.
      split; [constructor | intros v Hv; discriminate]. }
  destruct Hcubes as [Hc1 Hc2]. destruct Hlocs as [Hl1 Hl2].
  repeat split; try assumption.
  - match goal with
    | Hx : if_in "mirror" _ _ _ = Ok _ |- _ =>
        exact (if_in_bool_facts _ _ _ _ _ _ Hx)
    end.
  - unfold not_implemented_bone_keys. repeat constructor; assumption.
Qed.

Lemma _load_bone_facts (fv bone : json) (path : json_path) (b : bone_data) :
  _load_bone fv bone path = Ok b ->
  exists kv n,
    bone = JDict kv /\
    dict_get "name" kv = Some (JStr n) /\ bone_name b = Some n /\
    ((dict_get "parent" kv = None /\ bone_parent b = None) \/
     exists p, dict_get "parent" kv = Some (JStr p) /\ bone_parent b = Some p) /\
    vector_ok 3 (bone_pivot b) = true /\ taken_over "pivot" kv (bone_pivot b) /\
    vector_ok 3 (bone_rotation b) = true /\
    taken_over "rotation" kv (bone_rotation b) /\
    _load_bone_tail fv kv path (bone_name b) (bone_parent b) (bone_pivot b)
      (bone_rotation b) = Ok b /\
    (pick_version_parser known_parsers fv = Ok "1.8.0" ->
     Forall (fun k => dict_get k kv = None)
            ["reset"; "neverRender"; "bind_pose_rotation"]).
Proof.
  unfold _load_bone. intros H.
  destruct (pick_version_parser known_parsers fv) as [pv|] eqn:Ev;
    cbn [bind] in H; [|discriminate].
  assert (Hd : exists kv, bone = JDict kv).
  { destruct bone; try (eexists; reflexivity); exfalso;
      destruct (String.eqb pv "1.12.0"); try discriminate;
      destruct (String.eqb pv "1.8.0"); discriminate. }
  destruct Hd as [kv ->]. exists kv.
  destruct (String.eqb_spec pv "1.12.0") as [->|Hn12];
    [|destruct (String.eqb_spec pv "1.8.0") as [->|Hn8]; [|discriminate]];
    simpl in H; invert_binds;
    repeat match goal with u : unit |- _ => destruct u end;
    match goal with
    | Hr : _assert_has_required_keys _ _ ["name"] _ = Ok tt |- _ =>
        destruct (required_keys_present _ _ _ _ Hr) as [nv Hnv]
    end;
    match goal with
    | Hx : if_in "name" _ _ _ = Ok ?x |- _ =>
        apply if_in_str_inv in Hx;
        destruct Hx as [[Hx _]|(n & Hn & ->)]; [congruence|]
    end;
    match goal with
    | Hx : if_in "parent" _ _ _ = Ok ?x |- _ =>
        apply if_in_str_inv in Hx
    end;
    field_facts;
    repeat match goal with
           | Hx : if_in ?k kv tt _ = Ok tt |- _ =>
               apply if_in_raising_inv in Hx;
               [|intros; apply bind_raise_never]
           end;
    match goal with
    | Ht : _load_bone_tail _ _ _ _ _ _ _ = Ok b |- _ =>
        destruct (_load_bone_tail_facts _ _ _ _ _ _ _ _ Ht)
          as (T1 & T2 & T3 & T4 & _)
    end;
    exists n; rewrite T1, T2, T3, T4;
    (split; [reflexivity|]); (split; [exact Hn|]); (split; [reflexivity|]);
    (split;
     [match goal with
      | Hx : _ \/ _ |- _ =>
          destruct Hx as [[Hx ->]|(p & Hx & ->)];
          [left; split; [exact Hx | reflexivity] | right; eauto]
      end|]);
    repeat split; try assumption; try discriminate.
  repeat constructor; assumption.
Qed.

Lemma _load_bone_well_formed (fv bone : json) (path : json_path)
    (b : bone_data) :
  _load_bone fv bone path = Ok b -> bone_wf b.
Proof.
  intros H. destruct (_load_bone_facts _ _ _ _ H)
    as (kv & n & _ & _ & Hn & _ & Hp & _ & Hr & _ & Ht & _).
  destruct (_load_bone_tail_facts _ _ _ _ _ _ _ _ Ht)
    as (_ & _ & _ & _ & _ & Hc & _ & Hl & _).
  unfold bone_wf. rewrite Hn. repeat split; try assumption. discriminate.
Qed.

Lemma _load_bones_from_well_formed (fv : json) (path : json_path) :
  forall (l : list json) (i : nat) (bs : list bone_data),
    _load_bones_from fv i l path = Ok bs ->
    List.length bs = List.length l /\ Forall bone_wf bs.
Proof.
  induction l as [|bone l IH]; intros i bs H; cbn [_load_bones_from] in H.
  - injection H as <-. split; [reflexivity | constructor].
  - apply bind_Ok in H. destruct H as (b & Hb & H).
    apply bind_Ok in H. destruct H as (rest & Hrest & H). injection H as <-.
    destruct (IH _ _ Hrest) as [Hlen Hall].
    split; [simpl; congruence|]. constructor; [|exact Hall].
    apply (_load_bone_well_formed _ _ _ _ Hb).
Qed.

Lemma _load_bones_well_formed (fv bones : json) (path : json_path)
    (bs : list bone_data) :
  _load_bones fv bones path = Ok bs ->
  (exists l, bones = JList l /\ List.length bs = List.length l) /\
  Forall bone_wf bs.
Proof.
  unfold _load_bones. intros H.
  destruct (pick_version_parser known_parsers fv) as [pv|]; cbn [bind] in H;
    [|discriminate].
  destruct (_ || _); [|discriminate].
  destruct bones; try discriminate. simpl in H.
  apply _load_bones_from_well_formed in H. destruct H as [Hlen Hall].
  split; [eauto | exact Hall].
Qed.

Lemma _load_description_fields_facts (desc : list (string * json))
    (path : json_path) (w h identifier : string) (d : description_data) :
  _load_description_fields desc path w h identifier = Ok d ->
  desc_identifier d = Some identifier /\
  vector_ok 3 (desc_visible_bounds_offset d) = true /\
  is_int_or_float (desc_visible_bounds_width d) = true /\
  is_int_or_float (desc_visible_bounds_height d) = true /\
  taken_over "visible_bounds_offset" desc (desc_visible_bounds_offset d) /\
  taken_over "visible_bounds_width" desc (desc_visible_bounds_width d) /\
  taken_over "visible_bounds_height" desc (desc_visible_bounds_height d) /\
  (forall v, dict_get w desc = Some v ->
     py_int_of_number v = Ok (desc_texture_width d)) /\
  (forall v, dict_get h desc = Some v ->
     py_int_of_number v = Ok (desc_texture_height d)).
Proof.
  unfold _load_description_fields. intros H. simpl in H. invert_binds.
  injection H as <-. field_facts. cbn.
  repeat split; try assumption;
    intros v Hv;
    match goal with
    | Hx : if_in _ desc _ _ = Ok _ |- _ =>
        unfold if_in in Hx; rewrite Hv in Hx;
        apply bind_Ok in Hx; destruct Hx as (? & _ & Hx); exact Hx
    end.
Qed.

Lemma _load_description_facts (fv geometry : json) (path : json_path)
    (d : description_data) :
  _load_description fv geometry path = Ok d ->
  desc_identifier d <> None /\
  vector_ok 3 (desc_visible_bounds_offset d) = true /\
  is_int_or_float (desc_visible_bounds_width d) = true /\
  is_int_or_float (desc_visible_bounds_height d) = true.
Proof.
  unfold _load_description. intros H.
  destruct (pick_version_parser known_parsers fv) as [pv|]; cbn [bind] in H;
    [|discriminate].
  destruct (String.eqb pv "1.12.0");
    [|destruct (String.eqb pv "1.8.0"); [|discriminate]];
    invert_binds;
    match goal with
    | Hx : match ?desc with JDict _ => _ | _ => _ end = Ok d |- _ =>
        destruct desc; try discriminate
    end;
    invert_binds;
    match goal with
    | Hx : _load_description_fields _ _ _ _ _ = Ok d |- _ =>
        apply _load_description_fields_facts in Hx;
        destruct Hx as (Hi & Ho & Hw & Hh & _)
    end;
    rewrite Hi; repeat split; try assumption; discriminate.
Qed.

Lemma _load_format_version_facts (data fv : json) :
  _load_format_version data = Ok fv ->
  json_getitem data "format_version" = Ok fv /\
  (pick_version_parser known_parsers fv = Ok "1.12.0" \/
   pick_version_parser known_parsers fv = Ok "1.8.0").
Proof.
  unfold _load_format_version. intros H. invert_binds.
  match goal with
  | Hp : pick_version_parser known_parsers ?v = Ok ?pv |- _ =>
      destruct (String.eqb_spec pv "1.12.0") as [->|Hn12];
      [|destruct (String.eqb_spec pv "1.8.0") as [->|Hn8]; [|discriminate]]
  end;
    invert_binds;
    match goal with
    | Hx : (if ?c then _ else _) = Ok fv |- _ =>
        destruct c; [discriminate|]; injection Hx as <-
    end;
    (split; [assumption|]); [left | right]; assumption.
Qed.

(** X10. On a document that loads, the loader keeps the document and its
    [format_version], which selects one of the two parsers; the
    description has an identifier and well-formed bounds; and every bone
    has a name, a pivot and a rotation of three numbers, cubes whose
    origin, size, rotation and pivot are three numbers, whose uv is two
    numbers and whose inflate is a number, and locators of three
    numbers. *)
Theorem load_model_well_formed :
  forall (data : json) (geometry_name : string) (loader : ModelLoader),
    load_model data geometry_name = Ok loader ->
    loader_data loader = data /\
    json_getitem data "format_version" = Ok (loader_format_version loader) /\
    (pick_version_parser known_parsers (loader_format_version loader)
     = Ok "1.12.0" \/
     pick_version_parser known_parsers (loader_format_version loader)
     = Ok "1.8.0") /\
    desc_identifier (loader_description loader) <> None /\
    vector_ok 3 (desc_visible_bounds_offset (loader_description loader))
    = true /\
    is_int_or_float (desc_visible_bounds_width (loader_description loader))
    = true /\
    is_int_or_float (desc_visible_bounds_height (loader_description loader))
    = true /\
    Forall bone_wf (loader_bones loader).
Proof.
  intros data geometry_name loader H. unfold load_model in H.
  apply bind_Ok in H. destruct H as (fv & Hfv & H).
  apply bind_Ok in H. destruct H as ([geometry path] & Hg & H).
  invert_binds. injection H as <-.
  cbn [loader_data loader_format_version loader_description loader_bones].
  destruct (_load_format_version_facts _ _ Hfv) as [Hget Hpv].
  split; [reflexivity|]. split; [exact Hget|]. split; [exact Hpv|].
  match goal with
  | Hd : _load_description _ _ _ = Ok _ |- _ =>
      destruct (_load_description_facts _ _ _ _ Hd) as (D1 & D2 & D3 & D4)
  end.
  match goal with
  | Hb : _load_bones _ _ _ = Ok _ |- _ =>
      destruct (_load_bones_well_formed _ _ _ _ Hb) as [_ Hall]
  end.
  repeat split; assumption.
Qed.

(** A model of two bones: a body with one cube and one locator, and a
    head under it. *)
Definition sample_document : json :=
  JDict
    [("format_version", JStr "1.12.0");
     ("minecraft:geometry",
      JList
        [JDict
           [("description",
             JDict [("identifier", JStr "geometry.sample");
                    ("texture_width", JInt 32)]);
            ("bones",
             JList
               [JDict
                  [("name", JStr "body");
                   ("pivot", JList [JInt 0; JInt 8; JInt 0]);
                   ("cubes",
                    JList
                      [JDict
                         [("origin", JList [JInt (-4); JInt 0; JInt (-2)]);
                          ("size", JList [JInt 8; JInt 12; JInt 4]);
                          ("uv", JList [JInt 16; JInt 16])]]);
                   ("locators",
                    JDict [("lead", JList [JInt 0; JInt 12; JInt 0])])];
                JDict
                  [("name", JStr "head");
                   ("parent", JStr "body");
                   ("pivot", JList [JInt 0; JInt 24; JInt 0]);
                   ("rotation", JList [JInt 0; JInt 90; JInt 0]);
                   ("render_group_id", JInt 5)]])]])].

Lemma load_model_well_formed_witness :
  exists loader,
    load_model sample_document "" = Ok loader /\
    map bone_name (loader_bones loader) = [Some "body"; Some "head"] /\
    Forall bone_wf (loader_bones loader).
Proof.
  destruct (load_model sample_document "") as [loader|e] eqn:E;
    [|vm_compute in E; discriminate].
  exists loader. split; [reflexivity|]. split.
  - vm_compute in E. injection E as <-. reflexivity.
  - apply (load_model_well_formed sample_document "" loader E).
Defined.

(** X11. What the document holds is handed over as it stands.  A cube
    that loads has the origin, size, inflate, uv and mirror of the
    document where the document has them (and its rotation and pivot
    under the 1.12.0 parser); a bone that loads is an object with a string
    [name], which is the name of the bone, and has the parent, pivot,
    rotation and mirror of the document, one cube per entry of its
    [cubes] and the very dictionary of its [locators]; the texture sizes of
    a description are the document's, converted with [int]. *)
Theorem loader_takes_entries_over :
  forall fv : json,
    (forall kv path default_mirror c,
        _load_cube fv (JDict kv) path default_mirror = Ok c ->
        taken_over "origin" kv (cube_origin c) /\
        taken_over "size" kv (cube_size c) /\
        taken_over "inflate" kv (cube_inflate c) /\
        taken_over "uv" kv (cube_uv c) /\
        (forall v, dict_get "mirror" kv = Some v -> v = JBool (cube_mirror c)) /\
        (pick_version_parser known_parsers fv = Ok "1.12.0" ->
         taken_over "rotation" kv (cube_rotation c) /\
         taken_over "pivot" kv (cube_pivot c))) /\
    (forall bone path b,
        _load_bone fv bone path = Ok b ->
        exists kv n,
          bone = JDict kv /\
          dict_get "name" kv = Some (JStr n) /\ bone_name b = Some n /\
          ((dict_get "parent" kv = None /\ bone_parent b = None) \/
           exists p,
             dict_get "parent" kv = Some (JStr p) /\ bone_parent b = Some p) /\
          taken_over "pivot" kv (bone_pivot b) /\
          taken_over "rotation" kv (bone_rotation b) /\
          (forall v, dict_get "mirror" kv = Some v ->
             v = JBool (bone_mirror b)) /\
          (forall v, dict_get "cubes" kv = Some v ->
             exists l,
               v = JList l /\ List.length (bone_cubes b) = List.length l) /\
          (forall v, dict_get "locators" kv = Some v ->
             v = JDict (bone_locators b))) /\
    (forall desc path w h identifier d,
        _load_description_fields desc path w h identifier = Ok d ->
        desc_identifier d = Some identifier /\
        taken_over "visible_bounds_offset" desc (desc_visible_bounds_offset d) /\
        taken_over "visible_bounds_width" desc (desc_visible_bounds_width d) /\
        taken_over "visible_bounds_height" desc
          (desc_visible_bounds_height d) /\
        (forall v, dict_get w desc = Some v ->
           py_int_of_number v = Ok (desc_texture_width d)) /\
        (forall v, dict_get h desc = Some v ->
           py_int_of_number v = Ok (desc_texture_height d))).
Proof.
  intros fv. split; [|split].
  - intros kv path dm c H.
    destruct (_load_cube_well_formed _ _ _ _ _ H)
      as (_ & H1 & H2 & H3 & H4 & H5 & H6 & _).
    repeat split; try assumption; apply H6; assumption.
  - intros bone path b H.
    destruct (_load_bone_facts _ _ _ _ H)
      as (kv & n & Hk & Hn & Hb & Hp & _ & Hpv & _ & Hr & Ht & _).
    destruct (_load_bone_tail_facts _ _ _ _ _ _ _ _ Ht)
      as (_ & _ & _ & _ & Hm & _ & Hc & _ & Hl & _).
    exists kv, n. repeat split; assumption.
  - intros desc path w h identifier d H.
    destruct (_load_description_fields_facts _ _ _ _ _ _ H)
      as (H1 & _ & _ & _ & H5 & H6 & H7 & H8 & H9).
    repeat split; assumption.
Qed.

Lemma loader_takes_entries_over_witness :
  exists b,
    _load_bone (JStr "1.12.0")
      (JDict [("name", JStr "head"); ("parent", JStr "body");
              ("pivot", JList [JInt 0; JInt 24; JInt 0])]) [] = Ok b /\
    bone_name b = Some "head" /\ bone_parent b = Some "body" /\
    bone_pivot b = JList [JInt 0; JInt 24; JInt 0].
Proof.
  set (doc := JDict [("name", JStr "head"); ("parent", JStr "body");
                     ("pivot", JList [JInt 0; JInt 24; JInt 0])]).
  destruct (_load_bone (JStr "1.12.0") doc []) as [b|e] eqn:E;
    [|vm_compute in E; discriminate].
  exists b. split; [reflexivity|].
  destruct (proj1 (proj2 (loader_takes_entries_over (JStr "1.12.0")))
              doc [] b E)
    as (kv & n & Hk & Hn & Hb & Hp & Hpv & _).
  injection Hk as <-.
  split; [rewrite Hb; f_equal; vm_compute in Hn; congruence|].
  split.
  - destruct Hp as [[Hp _]|(p & Hp & ->)];
      [vm_compute in Hp; discriminate|].
    f_equal. vm_compute in Hp. congruence.
  - apply Hpv. reflexivity.
Defined.

(** X12. A bone that loads uses none of the features the importer lacks:
    it has no [inflate], [debug], [poly_mesh] or [texture_meshes] entry
    (nor, under the 1.8.0 parser, [reset], [neverRender] or
    [bind_pose_rotation]), and the fields of the loaded bone that stand
    for such features hold their defaults.  The misspelt key
    [redner_group_id] is no accepted key, so a bone that holds it is
    rejected as malformed, while [render_group_id] is accepted and the
    loaded bone keeps group 0 whatever the document says. *)
Theorem bone_features_not_implemented :
  forall (fv bone : json) (path : json_path),
    (forall b,
        _load_bone fv bone path = Ok b ->
        exists kv,
          bone = JDict kv /\
          Forall (fun k => dict_get k kv = None) not_implemented_bone_keys /\
          (pick_version_parser known_parsers fv = Ok "1.8.0" ->
           Forall (fun k => dict_get k kv = None)
                  ["reset"; "neverRender"; "bind_pose_rotation"]) /\
          bone_inflate b = JFloat (0 # 1) /\ bone_debug b = false /\
          bone_render_group_id b = 0%Z /\
          bone_poly_mesh b = JDict [] /\ bone_texture_meshes b = JList []) /\
    (forall kv,
        bone = JDict kv ->
        pick_version_parser known_parsers fv = Ok "1.12.0" \/
        pick_version_parser known_parsers fv = Ok "1.8.0" ->
        In "redner_group_id" (dict_keys kv) ->
        structure_error (_load_bone fv bone path) path).
Proof.
  intros fv bone path. split.
  - intros b H.
    destruct (_load_bone_facts _ _ _ _ H)
      as (kv & n & Hk & _ & _ & _ & _ & _ & _ & _ & Ht & H18).
    destruct (_load_bone_tail_facts _ _ _ _ _ _ _ _ Ht)
      as (_ & _ & _ & _ & _ & _ & _ & _ & _ & Hni & _ & F1 & F2 & F3 & F4 & F5).
    exists kv. repeat split; assumption.
  - intros kv -> Hpv Hin. destruct Hpv as [Hpv|Hpv].
    + apply (proj1 (_load_bone_key_checks fv kv path) Hpv).
      right. exists "redner_group_id". split; [exact Hin | reflexivity].
    + apply (proj2 (_load_bone_key_checks fv kv path) Hpv).
      right. exists "redner_group_id". split; [exact Hin | reflexivity].
Qed.

Lemma bone_features_not_implemented_witness :
  exists b,
    _load_bone (JStr "1.12.0")
      (JDict [("name", JStr "head"); ("render_group_id", JInt 5)]) [] = Ok b /\
    bone_render_group_id b = 0%Z.
Proof.
  set (doc := JDict [("name", JStr "head"); ("render_group_id", JInt 5)]).
  destruct (_load_bone (JStr "1.12.0") doc []) as [b|e] eqn:E;
    [|vm_compute in E; discriminate].
  exists b. split; [reflexivity|].
  destruct (proj1 (bone_features_not_implemented (JStr "1.12.0") doc [])
              b E) as (kv & _ & _ & _ & _ & _ & Hg & _).
  exact Hg.
Defined.

(** ** From the loader to the import records *)

(** A cube and a bone of the import as [build] needs them. *)
Definition import_cube_wf (c : ImportCube) : Prop :=
  vector_ok 3 (ic_origin c) = true /\
  vector_ok 3 (ic_pivot c) = true /\
  vector_ok 3 (ic_size c) = true /\
  vector_ok 3 (ic_rotation c) = true /\
  vector_ok 2 (ic_uv c) = true.

Definition import_bone_wf (b : ImportBone) : Prop :=
  vector_ok 3 (ib_pivot b) = true /\
  vector_ok 3 (ib_rotation b) = true /\
  Forall import_cube_wf (ib_cubes b) /\
  Forall (fun l => vector_ok 3 (il_position l) = true) (ib_locators b).

Lemma new_ImportBone_spec (data : bone_data) :
  bone_wf data ->
  exists b n,
    new_ImportBone data = Ok b /\
    bone_name data = Some n /\ ib_name b = n /\
    ib_parent b = bone_parent data /\
    ib_blend_empty b = None /\
    ib_pivot b = bone_pivot data /\ ib_rotation b = bone_rotation data /\
    ib_mirror b = bone_mirror data /\
    ib_cubes b = map new_ImportCube (bone_cubes data) /\
    map il_name (ib_locators b) = map fst (bone_locators data) /\
    map il_position (ib_locators b) = map snd (bone_locators data) /\
    import_bone_wf b.
Proof.
  intros (Hn & Hp & Hr & Hc & Hl). unfold new_ImportBone.
  destruct (bone_name data) as [n|]; [|contradiction].
  eexists. exists n. split; [reflexivity|].
  cbn [ib_name ib_parent ib_blend_empty ib_pivot ib_rotation ib_mirror
       ib_cubes ib_locators].
  rewrite !map_map. cbn [il_name il_position].
  repeat split; try assumption.
  - apply Forall_map. eapply Forall_impl; [|exact Hc].
    intros c (C1 & C2 & C3 & C4 & C5 & _). unfold import_cube_wf.
    cbn. repeat split; assumption.
  - apply Forall_map. exact Hl.
Qed.

Lemma lookup_bone_set (k k' : string) (v : ImportBone)
    (d : list (string * ImportBone)) :
  lookup_bone k (str_dict_set k' v d)
  = if String.eqb k k' then Some v else lookup_bone k d.
Proof.
  induction d as [|[k0 v0] d IH]; cbn [str_dict_set lookup_bone].
  - reflexivity.
  - destruct (String.eqb_spec k' k0) as [->|Hk]; cbn [lookup_bone].
    + destruct (String.eqb k k0); reflexivity.
    + rewrite IH. destruct (String.eqb_spec k k0) as [->|Hk0].
      * destruct (String.eqb_spec k0 k'); [congruence | reflexivity].
      * reflexivity.
Qed.

Lemma lookup_bone_In (k : string) (b : ImportBone)
    (d : list (string * ImportBone)) :
  lookup_bone k d = Some b -> In (k, b) d.
Proof.
  induction d as [|[k0 v0] d IH]; cbn [lookup_bone]; [discriminate|].
  destruct (String.eqb_spec k k0) as [->|Hk].
  - intros H. injection H as ->. left. reflexivity.
  - intros H. right. apply IH, H.
Qed.

Lemma In_lookup_bone (k : string) (b : ImportBone)
    (d : list (string * ImportBone)) :
  NoDup (map fst d) -> In (k, b) d -> lookup_bone k d = Some b.
Proof.
  induction d as [|[k0 v0] d IH]; cbn [lookup_bone map fst];
    intros Hnd Hin; [destruct Hin|].
  inversion Hnd as [|? ? Hnot Hnd']; subst.
  destruct Hin as [E|Hin].
  - injection E as -> ->. rewrite String.eqb_refl. reflexivity.
  - destruct (String.eqb_spec k k0) as [->|Hk]; [|apply IH; assumption].
    exfalso. apply Hnot. apply in_map_iff. exists (k0, b).
    split; [reflexivity | exact Hin].
Qed.

(** What the loop of [ImportGeometry.__init__] keeps true of
    [self.bones]. *)
Definition bones_dict_ok (d : list (string * ImportBone)) : Prop :=
  NoDup (map fst d) /\
  Forall (fun kb => ib_name (snd kb) = fst kb /\ import_bone_wf (snd kb) /\
                    ib_blend_empty (snd kb) = None) d.

Lemma str_dict_set_Forall {V : Type} (P : string * V -> Prop) (k : string)
    (v : V) (d : list (string * V)) :
  P (k, v) -> Forall P d -> Forall P (str_dict_set k v d).
Proof.
  intros Hv Hd. induction Hd as [|[k' v'] d Hx Hd IH]; cbn [str_dict_set].
  - constructor; [exact Hv | constructor].
  - destruct (String.eqb_spec k k') as [->|Hk]; constructor; assumption.
Qed.

Lemma read_bones_spec :
  forall (bones : list bone_data) (acc : list (string * ImportBone)),
    Forall bone_wf bones ->
    bones_dict_ok acc ->
    exists r,
      read_bones bones acc = Ok r /\
      bones_dict_ok r /\
      (forall n,
          In n (map fst r)
          <-> In n (map fst acc) \/ In (Some n) (map bone_name bones)).
Proof.
  induction bones as [|bd bones IH]; intros acc Hall Hacc.
  - exists acc. split; [reflexivity|]. split; [exact Hacc|].
    intros n. simpl. tauto.
  - inversion Hall as [|? ? Hbd Hall']; subst.
    destruct (new_ImportBone_spec bd Hbd)
      as (b & n & Hb & Hn & Hname & _ & Hnone & _ & _ & _ & _ & _ & _ & Hwf).
    cbn [read_bones]. rewrite Hb. cbn [bind]. rewrite Hname.
    destruct (IH (str_dict_set n b acc) Hall') as (r & Hr & Hok & Hkeys).
    { destruct Hacc as [Hnd Hf]. split; [apply str_dict_set_NoDup, Hnd|].
      apply str_dict_set_Forall; [|exact Hf].
      cbn [fst snd]. split; [exact Hname|]. split; [exact Hwf | exact Hnone]. }
    exists r. split; [exact Hr|]. split; [exact Hok|].
    intros m. rewrite Hkeys, str_dict_set_keys. cbn [map]. rewrite Hn.
    split.
    + intros [[E|H]|H].
      * subst. right. left. reflexivity.
      * left. exact H.
      * right. right. exact H.
    + intros [H|[E|H]].
      * left. right. exact H.
      * injection E as <-. left. left. reflexivity.
      * right. exact H.
Qed.

Lemma read_bones_keeps (n : string) :
  forall (bones : list bone_data) (acc r : list (string * ImportBone)),
    read_bones bones acc = Ok r ->
    (forall bd, In bd bones -> bone_name bd <> Some n) ->
    lookup_bone n r = lookup_bone n acc.
Proof.
  induction bones as [|bd bones IH]; intros acc r H Hno; cbn [read_bones] in H.
  - injection H as <-. reflexivity.
  - apply bind_Ok in H. destruct H as (b & Hb & H).
    rewrite (IH _ _ H) by (intros bd' Hbd'; apply Hno; right; exact Hbd').
    rewrite lookup_bone_set.
    destruct (String.eqb_spec n (ib_name b)) as [->|Hne]; [|reflexivity].
    exfalso. apply (Hno bd (or_introl eq_refl)).
    unfold new_ImportBone in Hb.
    destruct (bone_name bd) as [m|]; [|discriminate].
    injection Hb as <-. reflexivity.
Qed.

(** The bone stored under a name is the last one of that name. *)
Lemma read_bones_last (n : string) (bd : bone_data) (b : ImportBone) :
  forall (l1 l2 : list bone_data) (acc r : list (string * ImportBone)),
    read_bones (l1 ++ bd :: l2) acc = Ok r ->
    bone_name bd = Some n ->
    new_ImportBone bd = Ok b ->
    (forall bd', In bd' l2 -> bone_name bd' <> Some n) ->
    lookup_bone n r = Some b.
Proof.
  induction l1 as [|x l1 IH]; intros l2 acc r H Hn Hb Hno.
  - cbn [app read_bones] in H. rewrite Hb in H. cbn [bind] in H.
    rewrite (read_bones_keeps n _ _ _ H Hno), lookup_bone_set.
    assert (E : ib_name b = n).
    { unfold new_ImportBone in Hb. rewrite Hn in Hb. injection Hb as <-.
      reflexivity. }
    rewrite E, String.eqb_refl. reflexivity.
  - cbn [app read_bones] in H. apply bind_Ok in H.
    destruct H as (bx & _ & H). exact (IH _ _ _ H Hn Hb Hno).
Qed.

Lemma load_model_well_formed_facts (data : json) (geometry_name : string)
    (loader : ModelLoader) :
  load_model data geometry_name = Ok loader ->
  desc_identifier (loader_description loader) <> None /\
  Forall bone_wf (loader_bones loader).
Proof.
  intros H. unfold load_model in H.
  apply bind_Ok in H. destruct H as (fv & Hfv & H).
  apply bind_Ok in H. destruct H as ([geometry path] & Hg & H).
  invert_binds. injection H as <-. cbn [loader_description loader_bones].
  match goal with
  | Hd : _load_description _ _ _ = Ok _ |- _ =>
      destruct (_load_description_facts _ _ _ _ Hd) as (D1 & _)
  end.
  match goal with
  | Hb : _load_bones _ _ _ = Ok _ |- _ =>
      destruct (_load_bones_well_formed _ _ _ _ Hb) as [_ Hall]
  end.
  split; assumption.
Qed.

(** X13. Every model that loads becomes an [ImportGeometry]: the
    constructor does not fail, it takes the identifier and the texture
    size of the description, and its dictionary of bones has one entry per
    name among the loaded bones, stored under that name, with the vectors
    [build] reads well-formed and no Blender object yet.  Of several
    loaded bones with one name the last one is kept. *)
Theorem new_ImportGeometry_of_loaded_model :
  forall (data : json) (geometry_name : string) (loader : ModelLoader),
    load_model data geometry_name = Ok loader ->
    exists g,
      new_ImportGeometry loader = Ok g /\
      desc_identifier (loader_description loader) = Some (ig_identifier g) /\
      ig_texture_width g = desc_texture_width (loader_description loader) /\
      ig_texture_height g = desc_texture_height (loader_description loader) /\
      bones_dict_ok (ig_bones g) /\
      (forall n,
          In n (map fst (ig_bones g))
          <-> In (Some n) (map bone_name (loader_bones loader))) /\
      (forall l1 bd l2 n,
          loader_bones loader = l1 ++ bd :: l2 ->
          bone_name bd = Some n ->
          (forall bd', In bd' l2 -> bone_name bd' <> Some n) ->
          exists b,
            new_ImportBone bd = Ok b /\
            lookup_bone n (ig_bones g) = Some b).
Proof.
  intros data geometry_name loader H.
  destruct (load_model_well_formed_facts data geometry_name loader H)
    as (Hid & Hbones).
  unfold new_ImportGeometry.
  destruct (desc_identifier (loader_description loader)) as [i|];
    [|contradiction].
  cbn [bind].
  destruct (read_bones_spec (loader_bones loader) [] Hbones)
    as (r & Hr & Hok & Hkeys).
  { split; constructor. }
  rewrite Hr. cbn [bind]. eexists. split; [reflexivity|].
  cbn [ig_identifier ig_texture_width ig_texture_height ig_bones].
  repeat split; try apply Hok.
  - intros Hin. apply Hkeys in Hin. destruct Hin as [[]|Hin]. exact Hin.
  - intros Hin. apply Hkeys. right. exact Hin.
  - intros l1 bd l2 n Hsplit Hn Hno.
    assert (Hbd : bone_wf bd).
    { rewrite Forall_forall in Hbones. apply Hbones. rewrite Hsplit.
      apply in_or_app. right. left. reflexivity. }
    destruct (new_ImportBone_spec bd Hbd) as (b & n' & Hb & _).
    exists b. split; [exact Hb|].
    rewrite Hsplit in Hr. exact (read_bones_last n bd b _ _ _ _ Hr Hn Hb Hno).
Qed.

Lemma new_ImportGeometry_of_loaded_model_witness :
  exists loader g,
    load_model sample_document "" = Ok loader /\
    new_ImportGeometry loader = Ok g /\
    map fst (ig_bones g) = ["body"; "head"] /\
    bones_dict_ok (ig_bones g).
Proof.
  destruct (load_model sample_document "") as [loader|e] eqn:E;
    [|vm_compute in E; discriminate].
  destruct (new_ImportGeometry_of_loaded_model sample_document "" loader E)
    as (g & Hg & _ & _ & _ & Hok & _).
  exists loader, g. split; [reflexivity|]. split; [exact Hg|].
  split; [|exact Hok].
  vm_compute in E. injection E as <-.
  vm_compute in Hg. injection Hg as <-. reflexivity.
Defined.

(** ** The geometry the loader selects *)

(** The value a JSON path leads to. *)
Fixpoint json_at (v : json) (path : json_path) : option json :=
  match path with
  | [] => Some v
  | PKey k :: path' =>
      match v with
      | JDict kv =>
          match dict_get k kv with
          | Some x => json_at x path'
          | None => None
          end
      | _ => None
      end
  | PIdx i :: path' =>
      match v with
      | JList l =>
          match nth_error l i with
          | Some x => json_at x path'
          | None => None
          end
      | _ => None
      end
  end.

(** [geometry] is an object with a description and bones and nothing
    else, and the identifier of its description is [identifier]. *)
Definition geometry_1_12 (geometry identifier : json) : Prop :=
  exists kv desc bones,
    geometry = JDict kv /\
    dict_get "description" kv = Some desc /\
    dict_get "bones" kv = Some bones /\
    json_getitem desc "identifier" = Ok identifier.

(** [identifier == geometry_name or geometry_name == ''] *)
Definition selects (geometry_name : string) (identifier : json) : bool :=
  is_str_eq identifier geometry_name || String.eqb geometry_name "".

Lemma json_contains_getitem (k : string) (obj : json) :
  json_contains k obj = Ok true ->
  forall v, json_getitem obj k = Ok v ->
  exists kv, obj = JDict kv /\ dict_get k kv = Some v.
Proof.
  intros _ v H. unfold json_getitem in H. destruct obj; try discriminate.
  destruct (dict_get k kv) as [x|] eqn:E; [|discriminate].
  injection H as <-. eauto.
Qed.

Lemma _load_geometry_1_12_from_spec (geometry_name : string) :
  forall (l : list json) (i : nat),
    match _load_geometry_1_12_from i l geometry_name with
    | Ok (geometry, path) =>
        exists j identifier,
          path = [PKey "minecraft:geometry"; PIdx (i + j)] /\
          nth_error l j = Some geometry /\
          geometry_1_12 geometry identifier /\
          selects geometry_name identifier = true /\
          forall j' g,
            (j' < j)%nat -> nth_error l j' = Some g ->
            exists identifier',
              geometry_1_12 g identifier' /\
              selects geometry_name identifier' = false
    | Raise (ValueError _) =>
        Forall (fun g =>
                  exists identifier,
                    geometry_1_12 g identifier /\
                    selects geometry_name identifier = false) l
    | Raise _ => True
    end.
Proof.
  induction l as [|g l IH]; intros i; cbn [_load_geometry_1_12_from].
  - constructor.
  - unfold _assert_is_type.
    destruct g as [| | | | | |kv]; cbn [is_dict negb bind keys_of]; try exact I.
    destruct (_assert_has_required_keys_cases "geometry" (dict_keys kv)
                ["description"; "bones"]
                [PKey "minecraft:geometry"; PIdx i])
      as [[-> Hreq]|(missing & -> & _)]; [|exact I].
    cbn [bind].
    destruct (_assert_has_accepted_keys_only_cases "geometry" (dict_keys kv)
                ["description"; "bones"]
                [PKey "minecraft:geometry"; PIdx i])
      as [[-> _]|(additional & -> & _)]; [|exact I].
    cbn [bind json_getitem].
    destruct (dict_get "description" kv) as [desc|] eqn:Ed; [|exact I].
    destruct (dict_get "bones" kv) as [bones|] eqn:Eb.
    2: { exfalso. apply mem_dict_get in Eb.
         rewrite (Hreq "bones") in Eb; [discriminate|].
         right. left. reflexivity. }
    cbn [bind].
    assert (Hc : (exists b, json_contains "identifier" desc = Ok b) \/
                 json_contains "identifier" desc = Raise TypeError)
      by (destruct desc; cbn [json_contains]; eauto).
    destruct Hc as [[[|] Ec]| ->]; [| rewrite Ec; exact I | exact I].
    rewrite Ec. cbn [bind negb].
    assert (Hi : (exists v, json_getitem desc "identifier" = Ok v) \/
                 json_getitem desc "identifier" = Raise KeyError \/
                 json_getitem desc "identifier" = Raise TypeError).
    { destruct desc; cbn [json_getitem]; eauto.
      destruct (dict_get "identifier" kv0); eauto. }
    destruct Hi as [[identifier Ei]|[Ei|Ei]]; rewrite Ei; cbn [bind];
      try exact I.
    assert (Hg : geometry_1_12 (JDict kv) identifier).
    { exists kv, desc, bones. repeat split; assumption. }
    fold (selects geometry_name identifier).
    destruct (selects geometry_name identifier) eqn:Es.
    + exists 0%nat, identifier. rewrite Nat.add_0_r.
      repeat split; try assumption. intros j' g Hlt. lia.
    + specialize (IH (S i)).
      destruct (_load_geometry_1_12_from (S i) l geometry_name)
        as [[geometry path]|e].
      * destruct IH as (j & identifier' & Hp & Hn & Hg' & Hs & Hfirst).
        exists (S j), identifier'.
        replace (i + S j)%nat with (S i + j)%nat by lia.
        repeat split; try assumption.
        intros [|j'] g Hlt Hnth; cbn [nth_error] in Hnth.
        -- injection Hnth as <-. exists identifier. split; assumption.
        -- apply (Hfirst j' g); [lia | exact Hnth].
      * destruct e; try exact I. constructor; [|exact IH].
        exists identifier. split; assumption.
Qed.

Lemma _load_geometry_1_8_items_spec (geometry_name : string) :
  forall (items : list (string * json)) (geometry : json) (path : json_path),
    _load_geometry_1_8_items items geometry_name = Ok (geometry, path) ->
    exists k,
      path = [PKey k] /\ dict_get k items = Some geometry /\
      is_dict geometry = true /\
      mem k ["format_version"; "debug"] = false /\
      (String.eqb k geometry_name || String.eqb geometry_name "") = true.
Proof.
  induction items as [|[k0 g0] items IH]; intros geometry path H;
    cbn [_load_geometry_1_8_items] in H; [discriminate|].
  destruct (mem k0 ["format_version"; "debug"]) eqn:Em.
  - destruct (IH _ _ H) as (k & Hp & Hg & Hd & Hm & Hs).
    exists k. repeat split; try assumption.
    cbn [dict_get]. destruct (String.eqb_spec k k0) as [->|Hk];
      [congruence | exact Hg].
  - invert_binds.
    destruct (String.eqb k0 geometry_name || String.eqb geometry_name "")
      eqn:Es.
    + injection H as <- <-. exists k0.
      cbn [dict_get]. rewrite String.eqb_refl.
      repeat split; try assumption.
      match goal with
      | Hx : _assert_is_type _ g0 is_dict _ = Ok _ |- _ =>
          unfold _assert_is_type in Hx;
          destruct (is_dict g0); [reflexivity | discriminate]
      end.
    + destruct (IH _ _ H) as (k & Hp & Hg & Hd & Hm & Hs).
      exists k. repeat split; try assumption.
      cbn [dict_get]. destruct (String.eqb_spec k k0) as [->|Hk];
        [congruence | exact Hg].
Qed.

(** X14. The path [_load_geometry] returns leads to the geometry it
    returns.  Under the 1.12.0 parser that is the first element of
    [minecraft:geometry] whose identifier is [geometry_name] (the first
    element when the name is empty), an object with a description and
    bones and nothing else, every element before it being such an object
    with another identifier; a [ValueError] means that every element is
    such an object and none has the name.  Under the 1.8.0 parser it is
    the entry of the document under the key [geometry_name] (the first
    entry other than [format_version] and [debug] when the name is
    empty). *)
Theorem _load_geometry_selects :
  forall (fv : json) (geometry_name : string) (data : json),
    (forall geometry path,
        _load_geometry fv geometry_name data = Ok (geometry, path) ->
        json_at data path = Some geometry /\
        (pick_version_parser known_parsers fv = Ok "1.12.0" ->
         exists l j identifier,
           json_getitem data "minecraft:geometry" = Ok (JList l) /\
           path = [PKey "minecraft:geometry"; PIdx j] /\
           geometry_1_12 geometry identifier /\
           selects geometry_name identifier = true /\
           forall j' g,
             (j' < j)%nat -> nth_error l j' = Some g ->
             exists identifier',
               geometry_1_12 g identifier' /\
               selects geometry_name identifier' = false) /\
        (pick_version_parser known_parsers fv = Ok "1.8.0" ->
         exists k,
           path = [PKey k] /\ is_dict geometry = true /\
           mem k ["format_version"; "debug"] = false /\
           (k = geometry_name \/ geometry_name = ""))) /\
    (forall m l,
        pick_version_parser known_parsers fv = Ok "1.12.0" ->
        json_getitem data "minecraft:geometry" = Ok (JList l) ->
        _load_geometry fv geometry_name data = Raise (ValueError m) ->
        Forall (fun g =>
                  exists identifier,
                    geometry_1_12 g identifier /\
                    selects geometry_name identifier = false) l).
Proof.
  intros fv geometry_name data. split.
  - intros geometry path H. unfold _load_geometry in H.
    destruct (pick_version_parser known_parsers fv) as [pv|] eqn:Ev;
      cbn [bind] in H; [|discriminate].
    destruct (String.eqb_spec pv "1.12.0") as [->|Hn12].
    + apply bind_Ok in H. destruct H as (geometries & Hget & H).
      apply bind_Ok in H. destruct H as ([] & _ & H).
      destruct geometries as [| | | | |l|]; try discriminate.
      pose proof (_load_geometry_1_12_from_spec geometry_name l 0) as Hs.
      rewrite H in Hs.
      destruct Hs as (j & identifier & -> & Hn & Hg & Hsel & Hfirst).
      cbn [Nat.add]. split; [|split; [|discriminate]].
      * unfold json_getitem in Hget. destruct data; try discriminate.
        destruct (dict_get "minecraft:geometry" kv) as [x|] eqn:E;
          [|discriminate].
        injection Hget as ->. cbn [json_at]. rewrite E. cbn [json_at].
        rewrite Hn. reflexivity.
      * intros _. exists l, j, identifier. repeat split; assumption.
    + destruct (String.eqb_spec pv "1.8.0") as [->|Hn8]; [|discriminate].
      apply bind_Ok in H. destruct H as ([] & _ & H).
      destruct data as [| | | | | |items]; try discriminate.
      destruct (_load_geometry_1_8_items_spec _ _ _ _ H)
        as (k & -> & Hg & Hd & Hm & Hs).
      split; [|split; [discriminate|]].
      * cbn [json_at]. rewrite Hg. reflexivity.
      * intros _. exists k. repeat split; try assumption.
        apply orb_true_iff in Hs. destruct Hs as [Hs|Hs].
        -- left. apply String.eqb_eq, Hs.
        -- right. apply String.eqb_eq, Hs.
  - intros m l Hv Hget H. unfold _load_geometry in H.
    rewrite Hv in H. cbn [bind] in H.
    cbn [String.eqb Ascii.eqb Bool.eqb] in H. rewrite Hget in H.
    cbn [bind] in H. unfold _assert_is_type in H.
    cbn [is_list negb bind] in H.
    pose proof (_load_geometry_1_12_from_spec geometry_name l 0) as Hs.
    rewrite H in Hs. exact Hs.
Qed.

Lemma _load_geometry_selects_witness :
  exists geometry,
    _load_geometry (JStr "1.12.0") "geometry.sample" sample_document
    = Ok (geometry, [PKey "minecraft:geometry"; PIdx 0]) /\
    json_at sample_document [PKey "minecraft:geometry"; PIdx 0]
    = Some geometry.
Proof.
  destruct (_load_geometry (JStr "1.12.0") "geometry.sample" sample_document)
    as [[geometry path]|e] eqn:E; [|vm_compute in E; discriminate].
  destruct (proj1 (_load_geometry_selects (JStr "1.12.0") "geometry.sample"
                     sample_document) geometry path E) as [Hat _].
  assert (Hp : path = [PKey "minecraft:geometry"; PIdx 0])
    by (vm_compute in E; congruence).
  subst path. exists geometry. split; [reflexivity | exact Hat].
Defined.


(** ** The scene [build] makes *)

(** The number a JSON number stands for, and [np.array(v)[[0, 2, 1]]] of
    a list of three numbers. *)
Definition num_of (v : json) : Q :=
  match v with
  | JInt z => (z # 1)%Q
  | JFloat q => q
  | JBool b => (if b then 1 # 1 else 0 # 1)%Q
  | _ => (0 # 1)%Q
  end.

Definition vec_xzy (v : json) : qvec3 :=
  match v with
  | JList (a :: b :: c :: _) => mkq (num_of a) (num_of c) (num_of b)
  | _ => mkq 0 0 0
  end.

Lemma number_of_json_ok (v : json) :
  is_int_or_float v = true -> number_of_json v = Ok (num_of v).
Proof. destruct v; try discriminate; reflexivity. Qed.

Lemma np_xzy_ok (v : json) :
  vector_ok 3 v = true -> np_xzy v = Ok (vec_xzy v).
Proof.
  unfold vector_ok. destruct v as [| | | | |l|]; try discriminate.
  destruct l as [|a [|b [|c [|d l]]]]; try discriminate.
  cbn [List.length Nat.eqb andb forallb]. intros H.
  apply andb_prop in H. destruct H as [Ha H].
  apply andb_prop in H. destruct H as [Hb H].
  apply andb_prop in H. destruct H as [Hc _].
  cbn [np_xzy vec_xzy].
  rewrite (number_of_json_ok a Ha), (number_of_json_ok b Hb),
    (number_of_json_ok c Hc).
  reflexivity.
Qed.

Lemma update_object_middle (l1 l2 : scene) (o : scene_object)
    (f : scene_object -> scene_object) :
  update_object (l1 ++ o :: l2) (List.length l1) f = Ok (l1 ++ f o :: l2).
Proof.
  unfold update_object.
  rewrite nth_error_app2 by lia. rewrite Nat.sub_diag. cbn [nth_error].
  f_equal. induction l1 as [|a l1 IH]; [reflexivity|].
  cbn [List.length app firstn skipn] in *. f_equal. exact IH.
Qed.

Lemma update_object_last (s : scene) (o : scene_object)
    (f : scene_object -> scene_object) :
  update_object (s ++ [o]) (List.length s) f = Ok (s ++ [f o]).
Proof. apply update_object_middle. Qed.

Lemma update_object_id (s : scene) (i : nat) :
  (i < List.length s)%nat -> update_object s i (fun o => o) = Ok s.
Proof.
  intros Hi. destruct (nth_error s i) as [o|] eqn:E.
  - destruct (nth_error_split s i E) as (l1 & l2 & -> & <-).
    apply update_object_middle.
  - apply nth_error_None in E. lia.
Qed.

Section BuildObjects.

Variable math_pi : Q.

(** *** What each step does to the object it is given *)

Definition pivot_f (mcpivot : json) (o : scene_object) : scene_object :=
  with_location o
    (qadd (so_location o) (qdiv (vec_xzy mcpivot) MINECRAFT_SCALE_FACTOR)).

Definition size_f (mcsize : json) (o : scene_object) : scene_object :=
  let pos_delta :=
    qdiv (qdiv (vec_xzy mcsize) (2 # 1)) MINECRAFT_SCALE_FACTOR in
  let p := (1 # 1)%Q in
  let m := (-1 # 1)%Q in
  with_vertices o
    (map (qmul pos_delta)
         [mkq m m m; mkq m m p; mkq m p m; mkq m p p;
          mkq p m m; mkq p m p; mkq p p m; mkq p p p]).

Definition translate_f (mctranslation mcsize mcpivot : json)
    (o : scene_object) : scene_object :=
  let pivot_offset := qdiv (vec_xzy mcpivot) MINECRAFT_SCALE_FACTOR in
  let size_offset :=
    qdiv (qdiv (vec_xzy mcsize) (2 # 1)) MINECRAFT_SCALE_FACTOR in
  let translation := qdiv (vec_xzy mctranslation) MINECRAFT_SCALE_FACTOR in
  with_vertices o
    (map (fun co => qadd co (qadd (qsub translation pivot_offset) size_offset))
         (so_vertices o)).

Definition rotate_f (mcrotation : json) (o : scene_object) : scene_object :=
  with_rotation o
    (qdiv (qscale (qmul (vec_xzy mcrotation) (mkq (1 # 1) (1 # 1) (-1 # 1)))
                  math_pi)
          (180 # 1)).

Lemma _mc_pivot_update (s : scene) (obj : nat) (v : json) :
  vector_ok 3 v = true ->
  _mc_pivot s obj v = update_object s obj (pivot_f v).
Proof. intros H. unfold _mc_pivot. rewrite (np_xzy_ok v H). reflexivity. Qed.

Lemma _mc_set_size_update (s : scene) (obj : nat) (v : json) :
  vector_ok 3 v = true ->
  _mc_set_size s obj v = update_object s obj (size_f v).
Proof.
  intros H. unfold _mc_set_size. rewrite (np_xzy_ok v H). reflexivity.
Qed.

Lemma _mc_translate_update (s : scene) (obj : nat) (t size pivot : json) :
  vector_ok 3 t = true -> vector_ok 3 size = true ->
  vector_ok 3 pivot = true ->
  _mc_translate s obj t size pivot
  = update_object s obj (translate_f t size pivot).
Proof.
  intros Ht Hs Hp. unfold _mc_translate.
  rewrite (np_xzy_ok pivot Hp), (np_xzy_ok size Hs), (np_xzy_ok t Ht).
  reflexivity.
Qed.

Lemma _mc_rotate_update (s : scene) (obj : nat) (v : json) :
  vector_ok 3 v = true ->
  _mc_rotate math_pi s obj v = update_object s obj (rotate_f v).
Proof.
  intros H. unfold _mc_rotate. rewrite (np_xzy_ok v H). reflexivity.
Qed.

(** *** The objects of the first phase *)

Definition new_empty : scene_object :=
  mk_scene_object "EMPTY" "Empty" (mkq 0 0 0) [] [] None None [].

Definition new_cube : scene_object :=
  mk_scene_object "MESH" "Cube" (mkq 0 0 0) [] unit_cube_vertices
                  None None [].

Definition created_bone (b : ImportBone) : scene_object :=
  with_custom (with_name (pivot_f (ib_pivot b) new_empty) (ib_name b))
              "mc_is_bone".

Definition created_cube (c : ImportCube) : scene_object :=
  translate_f (ic_origin c) (ic_size c) (ic_pivot c)
    (pivot_f (ic_pivot c)
       (size_f (ic_size c)
          (if ic_mirror c then with_custom new_cube "mc_mirror"
           else new_cube))).

Definition created_locator (l : ImportLocator) : scene_object :=
  with_name (pivot_f (il_position l) new_empty) (il_name l).

(** The import records once their objects exist: the objects are numbered
    in the order of their creation. *)
Definition numbered_cube (i : nat) (c : ImportCube) : ImportCube :=
  mk_import_cube (Some i) (ic_uv c) (ic_mirror c) (ic_origin c) (ic_pivot c)
                 (ic_size c) (ic_rotation c).

Definition numbered_locator (i : nat) (l : ImportLocator) : ImportLocator :=
  mk_import_locator (il_name l) (il_position l) (Some i).

Fixpoint number_cubes (base : nat) (cubes : list ImportCube)
    : list ImportCube :=
  match cubes with
  | [] => []
  | c :: cubes' => numbered_cube base c :: number_cubes (S base) cubes'
  end.

Fixpoint number_locators (base : nat) (locators : list ImportLocator)
    : list ImportLocator :=
  match locators with
  | [] => []
  | l :: locators' =>
      numbered_locator base l :: number_locators (S base) locators'
  end.

Definition numbered_bone (base : nat) (b : ImportBone) : ImportBone :=
  mk_import_bone (Some base) (ib_name b) (ib_parent b)
    (number_cubes (S base) (ib_cubes b))
    (number_locators (S base + List.length (ib_cubes b)) (ib_locators b))
    (ib_pivot b) (ib_rotation b) (ib_mirror b).

(** The objects one bone stands for. *)
Definition bone_size (b : ImportBone) : nat :=
  S (List.length (ib_cubes b) + List.length (ib_locators b)).

Fixpoint number_bones (base : nat) (bones : list (string * ImportBone))
    : list (string * ImportBone) :=
  match bones with
  | [] => []
  | (key, b) :: bones' =>
      (key, numbered_bone base b)
      :: number_bones (base + bone_size b) bones'
  end.

Definition created_objects (b : ImportBone) : list scene_object :=
  created_bone b :: map created_cube (ib_cubes b)
  ++ map created_locator (ib_locators b).

Lemma create_cubes_closed :
  forall (cubes : list ImportCube) (s : scene),
    Forall import_cube_wf cubes ->
    create_cubes s cubes
    = Ok (s ++ map created_cube cubes, number_cubes (List.length s) cubes).
Proof.
  induction cubes as [|c cubes IH]; intros s Hall.
  - cbn. rewrite app_nil_r. reflexivity.
  - inversion Hall as [|? ? Hc Hall']; subst.
    destruct Hc as (Ho & Hp & Hs & Hr & Hu).
    cbn [create_cubes primitive_cube_add ic_mirror ic_size ic_pivot ic_origin].
    fold new_cube.
    assert (Hc : created_cube c
                 = translate_f (ic_origin c) (ic_size c) (ic_pivot c)
                     (pivot_f (ic_pivot c)
                        (size_f (ic_size c)
                           (if ic_mirror c
                            then with_custom new_cube "mc_mirror"
                            else new_cube)))) by reflexivity.
    destruct (ic_mirror c) eqn:Em;
      [rewrite update_object_last|]; cbn [bind];
      rewrite (_mc_set_size_update _ _ _ Hs), update_object_last; cbn [bind];
      rewrite (_mc_pivot_update _ _ _ Hp), update_object_last; cbn [bind];
      rewrite (_mc_translate_update _ _ _ _ _ Ho Hs Hp), update_object_last;
      cbn [bind]; rewrite <- Hc;
      rewrite (IH _ Hall'); cbn [bind fst snd map number_cubes];
      rewrite length_app, Nat.add_1_r, <- app_assoc;
      unfold numbered_cube; rewrite Em; reflexivity.
Qed.

Lemma create_locators_closed :
  forall (locators : list ImportLocator) (s : scene),
    Forall (fun l => vector_ok 3 (il_position l) = true) locators ->
    create_locators s locators
    = Ok (s ++ map created_locator locators,
          number_locators (List.length s) locators).
Proof.
  induction locators as [|l locators IH]; intros s Hall.
  - cbn. rewrite app_nil_r. reflexivity.
  - inversion Hall as [|? ? Hl Hall']; subst.
    cbn [create_locators empty_add il_position il_name]. fold new_empty.
    rewrite (_mc_pivot_update _ _ _ Hl), update_object_last. cbn [bind].
    rewrite update_object_last. cbn [bind].
    change (with_name (pivot_f (il_position l) new_empty) (il_name l))
      with (created_locator l).
    rewrite (IH _ Hall'). cbn [bind fst snd map number_locators].
    rewrite length_app, Nat.add_1_r, <- app_assoc. reflexivity.
Qed.

Lemma create_bones_closed :
  forall (bones : list (string * ImportBone)) (s : scene),
    Forall (fun kb => import_bone_wf (snd kb)) bones ->
    create_bones s bones
    = Ok (s ++ flat_map (fun kb => created_objects (snd kb)) bones,
          number_bones (List.length s) bones).
Proof.
  induction bones as [|[key b] bones IH]; intros s Hall.
  - cbn. rewrite app_nil_r. reflexivity.
  - inversion Hall as [|? ? Hb Hall']; subst.
    destruct Hb as (Hp & Hr & Hc & Hl).
    cbn [create_bones empty_add snd]. fold new_empty.
    rewrite (_mc_pivot_update _ _ _ Hp), update_object_last. cbn [bind].
    rewrite update_object_last. cbn [bind].
    rewrite update_object_last. cbn [bind].
    change (with_custom (with_name (pivot_f (ib_pivot b) new_empty)
                                   (ib_name b)) "mc_is_bone")
      with (created_bone b).
    rewrite (create_cubes_closed _ _ Hc). cbn [bind fst snd].
    rewrite (create_locators_closed _ _ Hl). cbn [bind fst snd].
    rewrite (IH _ Hall'). cbn [bind fst snd flat_map number_bones].
    rewrite !length_app, !length_map. cbn [List.length].
    f_equal. f_equal.
    + unfold created_objects. cbn [app]. rewrite <- ?app_assoc. cbn [app].
      rewrite <- ?app_assoc. reflexivity.
    + unfold numbered_bone, bone_size.
      replace (List.length s + 1)%nat with (S (List.length s)) by lia.
      replace (S (List.length s) + List.length (ib_cubes b)
               + List.length (ib_locators b))%nat
        with (List.length s
              + S (List.length (ib_cubes b) + List.length (ib_locators b)))%nat
        by lia.
      reflexivity.
Qed.

(** *** The second and the third phase as lists of updates *)

(** [obj_i = f_i(obj_i)] for each pair of the list, in order. *)
Fixpoint apply_updates (us : list (nat * (scene_object -> scene_object)))
    (s : scene) : result scene :=
  match us with
  | [] => Ok s
  | (i, f) :: us' => s' <- update_object s i f ;; apply_updates us' s'
  end.

Lemma apply_updates_app (us vs : list (nat * (scene_object -> scene_object)))
    (s : scene) :
  apply_updates (us ++ vs) s = (s' <- apply_updates us s ;; apply_updates vs s').
Proof.
  revert s. induction us as [|[i f] us IH]; intros s; cbn [app apply_updates].
  - reflexivity.
  - destruct (update_object s i f) as [s'|e]; cbn [bind]; [apply IH|reflexivity].
Qed.

Lemma apply_updates_length (us : list (nat * (scene_object -> scene_object))) :
  forall s s', apply_updates us s = Ok s' -> List.length s' = List.length s.
Proof.
  induction us as [|[i f] us IH]; intros s s' H; cbn [apply_updates] in H.
  - injection H as <-. reflexivity.
  - apply bind_Ok in H. destruct H as (s1 & H1 & H).
    rewrite (IH _ _ H). apply update_object_spec in H1.
    destruct H1 as (l1 & o & l2 & -> & -> & _). rewrite !length_app.
    reflexivity.
Qed.

(** The functions of [fs] applied to the objects of [objs], one by one. *)
Fixpoint zip_apply (fs : list (scene_object -> scene_object))
    (objs : list scene_object) : list scene_object :=
  match fs, objs with
  | f :: fs', o :: objs' => f o :: zip_apply fs' objs'
  | _, _ => []
  end.

Lemma zip_apply_app (fs gs : list (scene_object -> scene_object))
    (xs ys : list scene_object) :
  List.length fs = List.length xs ->
  zip_apply (fs ++ gs) (xs ++ ys) = zip_apply fs xs ++ zip_apply gs ys.
Proof.
  revert xs. induction fs as [|f fs IH]; intros [|x xs] H;
    try discriminate; cbn [app zip_apply]; [reflexivity|].
  f_equal. apply IH. simpl in H. lia.
Qed.

Lemma zip_apply_length (fs : list (scene_object -> scene_object))
    (objs : list scene_object) :
  List.length fs = List.length objs ->
  List.length (zip_apply fs objs) = List.length objs.
Proof.
  revert objs. induction fs as [|f fs IH]; intros [|o objs] H;
    try discriminate; cbn [zip_apply List.length]; [reflexivity|].
  f_equal. apply IH. simpl in H. lia.
Qed.

Lemma zip_apply_repeat (f : scene_object -> scene_object)
    (objs : list scene_object) :
  zip_apply (repeat f (List.length objs)) objs = map f objs.
Proof.
  induction objs as [|o objs IH]; cbn; [reflexivity|]. f_equal. exact IH.
Qed.

(** Updates of the objects a scene ends with, one for each. *)
Lemma apply_updates_block :
  forall (objs : list scene_object)
         (fs : list (scene_object -> scene_object)) (s0 : scene),
    List.length fs = List.length objs ->
    apply_updates (combine (seq (List.length s0) (List.length objs)) fs)
      (s0 ++ objs)
    = Ok (s0 ++ zip_apply fs objs).
Proof.
  induction objs as [|o objs IH]; intros [|f fs] s0 H; try discriminate.
  - reflexivity.
  - cbn [List.length seq combine apply_updates zip_apply].
    rewrite update_object_middle. cbn [bind].
    change (s0 ++ f o :: objs) with (s0 ++ [f o] ++ objs).
    rewrite app_assoc.
    replace (S (List.length s0)) with (List.length (s0 ++ [f o]))
      by (rewrite length_app; simpl; lia).
    rewrite IH by (simpl in H; lia).
    rewrite <- app_assoc. reflexivity.
Qed.

Definition id_of (x : option nat) : nat :=
  match x with
  | Some i => i
  | None => 0%nat
  end.

(** What the parenting phase does to the empty of [b]; [all_bones] is
    [self.bones]. *)
Definition bone_parent_f (all_bones : list (string * ImportBone))
    (b : ImportBone) : scene_object -> scene_object :=
  match ib_parent b with
  | Some parent_name =>
      if mem parent_name (map fst all_bones) then
        match lookup_bone parent_name all_bones with
        | Some parent =>
            fun o => with_parent o (id_of (ib_blend_empty parent))
        | None => fun o => o
        end
      else fun o => o
  | None => fun o => o
  end.

Definition under (e : nat) (o : scene_object) : scene_object :=
  with_parent o e.

Lemma parent_cubes_updates (e : nat) :
  forall (cubes : list ImportCube) (base : nat) (s : scene),
    parent_cubes s (Some e) (number_cubes base cubes)
    = apply_updates
        (combine (seq base (List.length cubes))
                 (repeat (under e) (List.length cubes))) s.
Proof.
  induction cubes as [|c cubes IH]; intros base s; [reflexivity|].
  cbn [number_cubes parent_cubes numbered_cube ic_blend_cube deref bind
       List.length seq repeat combine apply_updates].
  unfold set_parent. fold (under e).
  destruct (update_object s base (under e)) as [s'|err]; cbn [bind];
    [apply IH | reflexivity].
Qed.

Lemma parent_locators_updates (e : nat) :
  forall (locators : list ImportLocator) (base : nat) (s : scene),
    parent_locators s (Some e) (number_locators base locators)
    = apply_updates
        (combine (seq base (List.length locators))
                 (repeat (under e) (List.length locators))) s.
Proof.
  induction locators as [|l locators IH]; intros base s; [reflexivity|].
  cbn [number_locators parent_locators numbered_locator il_blend_empty deref
       bind List.length seq repeat combine apply_updates].
  unfold set_parent. fold (under e).
  destruct (update_object s base (under e)) as [s'|err]; cbn [bind];
    [apply IH | reflexivity].
Qed.

Lemma combine_seq_app (A : Type) (fs gs : list A) (base n : nat) :
  combine (seq base (List.length fs + n)) (fs ++ gs)
  = combine (seq base (List.length fs)) fs
    ++ combine (seq (base + List.length fs) n) gs.
Proof.
  revert base. induction fs as [|f fs IH]; intros base; cbn [List.length].
  - cbn. rewrite Nat.add_0_r. reflexivity.
  - cbn [Nat.add seq app combine]. f_equal. rewrite IH. f_equal. f_equal.
    f_equal. lia.
Qed.

Lemma apply_updates_identity :
  forall (n base : nat) (s : scene),
    (base + n <= List.length s)%nat ->
    apply_updates
      (combine (seq base n) (repeat (fun o : scene_object => o) n)) s
    = Ok s.
Proof.
  induction n as [|n IH]; intros base s H; [reflexivity|].
  cbn [seq repeat combine apply_updates].
  rewrite update_object_id by lia. cbn [bind]. apply IH. lia.
Qed.

(** The updates of the parenting phase for one bone, its cubes and its
    locators, and for all the bones. *)
Definition bone_parent_fs (all_bones : list (string * ImportBone))
    (base : nat) (b : ImportBone) : list (scene_object -> scene_object) :=
  bone_parent_f all_bones b
  :: repeat (under base) (List.length (ib_cubes b))
  ++ repeat (under base) (List.length (ib_locators b)).

Fixpoint parent_fs (all_bones : list (string * ImportBone)) (base : nat)
    (bones : list (string * ImportBone))
    : list (scene_object -> scene_object) :=
  match bones with
  | [] => []
  | (_, b) :: bones' =>
      bone_parent_fs all_bones base b
      ++ parent_fs all_bones (base + bone_size b) bones'
  end.

(** The updates of the rotation phase: the locators are not rotated. *)
Definition bone_rotate_fs (b : ImportBone)
    : list (scene_object -> scene_object) :=
  rotate_f (ib_rotation b)
  :: map (fun c => rotate_f (ic_rotation c)) (ib_cubes b)
  ++ repeat (fun o => o) (List.length (ib_locators b)).

Definition rotate_fs (bones : list (string * ImportBone))
    : list (scene_object -> scene_object) :=
  flat_map (fun kb => bone_rotate_fs (snd kb)) bones.

Definition objects_count (bones : list (string * ImportBone)) : nat :=
  list_sum (map (fun kb => bone_size (snd kb)) bones).

Lemma bone_parent_fs_length (B : list (string * ImportBone)) (base : nat)
    (b : ImportBone) :
  List.length (bone_parent_fs B base b) = bone_size b.
Proof.
  unfold bone_parent_fs, bone_size. cbn [List.length].
  rewrite length_app, !repeat_length. reflexivity.
Qed.

Lemma bone_rotate_fs_length (b : ImportBone) :
  List.length (bone_rotate_fs b) = bone_size b.
Proof.
  unfold bone_rotate_fs, bone_size. cbn [List.length].
  rewrite length_app, length_map, repeat_length. reflexivity.
Qed.

Lemma created_objects_length (b : ImportBone) :
  List.length (created_objects b) = bone_size b.
Proof.
  unfold created_objects, bone_size. cbn [List.length].
  rewrite length_app, !length_map. reflexivity.
Qed.

Lemma parent_fs_length (B : list (string * ImportBone)) :
  forall bones base,
    List.length (parent_fs B base bones) = objects_count bones.
Proof.
  induction bones as [|[k b] bones IH]; intros base; [reflexivity|].
  cbn [parent_fs]. rewrite length_app, bone_parent_fs_length, IH.
  reflexivity.
Qed.

Lemma rotate_fs_length (bones : list (string * ImportBone)) :
  List.length (rotate_fs bones) = objects_count bones.
Proof.
  induction bones as [|[k b] bones IH]; [reflexivity|].
  unfold rotate_fs, objects_count in *. cbn [flat_map map list_sum snd].
  rewrite length_app, bone_rotate_fs_length, IH. reflexivity.
Qed.

Lemma created_all_length (bones : list (string * ImportBone)) :
  List.length (flat_map (fun kb => created_objects (snd kb)) bones)
  = objects_count bones.
Proof.
  induction bones as [|[k b] bones IH]; [reflexivity|].
  unfold objects_count in *. cbn [flat_map map list_sum snd].
  rewrite length_app, created_objects_length, IH. reflexivity.
Qed.

(** Every bone of the dictionary has its empty. *)
Definition have_empties (B : list (string * ImportBone)) : Prop :=
  forall k p, lookup_bone k B = Some p -> ib_blend_empty p <> None.

Lemma number_bones_have_empties :
  forall bones base, have_empties (number_bones base bones).
Proof.
  induction bones as [|[k b] bones IH]; intros base k' p H.
  - discriminate.
  - cbn [number_bones lookup_bone] in H.
    destruct (String.eqb k' k).
    + injection H as <-. discriminate.
    + exact (IH _ _ _ H).
Qed.

Lemma parent_bone_updates (B : list (string * ImportBone)) (s : scene)
    (base : nat) (b : ImportBone) :
  have_empties B ->
  (base < List.length s)%nat ->
  parent_bone B s (numbered_bone base b)
  = apply_updates
      (combine (seq base (bone_size b)) (bone_parent_fs B base b)) s.
Proof.
  intros HB Hlt.
  unfold parent_bone, bone_size, bone_parent_fs.
  cbn [numbered_bone ib_blend_empty ib_parent ib_cubes ib_locators seq
       combine apply_updates].
  assert (Hfirst :
    match ib_parent b with
    | Some parent_name =>
        if mem parent_name (map fst B) then
          match lookup_bone parent_name B with
          | None => Raise KeyError
          | Some parent =>
              child <- deref (Some base) ;;
              p <- deref (ib_blend_empty parent) ;;
              set_parent s child p
          end
        else Ok s
    | None => Ok s
    end = update_object s base (bone_parent_f B b)).
  { unfold bone_parent_f.
    destruct (ib_parent b) as [pn|];
      [|symmetry; apply update_object_id; exact Hlt].
    destruct (mem pn (map fst B)) eqn:Em;
      [|symmetry; apply update_object_id; exact Hlt].
    destruct (mem_lookup_bone _ _ Em) as (p & Hp & _). rewrite Hp.
    specialize (HB _ _ Hp).
    destruct (ib_blend_empty p) as [pid|]; [|congruence].
    reflexivity. }
  rewrite Hfirst.
  destruct (update_object s base (bone_parent_f B b)) as [s1|e];
    cbn [bind]; [|reflexivity].
  pose proof (combine_seq_app _
                (repeat (under base) (List.length (ib_cubes b)))
                (repeat (under base) (List.length (ib_locators b)))
                (S base) (List.length (ib_locators b))) as Hc.
  rewrite repeat_length in Hc. rewrite Hc, apply_updates_app.
  rewrite parent_cubes_updates.
  destruct (apply_updates _ s1) as [s2|e]; cbn [bind]; [|reflexivity].
  rewrite parent_locators_updates. reflexivity.
Qed.

Lemma number_bones_count :
  forall bones base,
    List.length (number_bones base bones) = List.length bones.
Proof.
  induction bones as [|[k b] bones IH]; intros base; [reflexivity|].
  cbn [number_bones List.length]. f_equal. apply IH.
Qed.

Lemma parent_bones_updates (B : list (string * ImportBone)) :
  have_empties B ->
  forall (bones : list (string * ImportBone)) (base : nat) (s : scene),
    (base + objects_count bones <= List.length s)%nat ->
    parent_bones B s (map snd (number_bones base bones))
    = apply_updates
        (combine (seq base (objects_count bones)) (parent_fs B base bones)) s.
Proof.
  intros HB. induction bones as [|[k b] bones IH]; intros base s Hle.
  - reflexivity.
  - cbn [number_bones map snd parent_bones parent_fs].
    assert (Hc : objects_count ((k, b) :: bones)
                 = (bone_size b + objects_count bones)%nat) by reflexivity.
    rewrite Hc in *.
    rewrite parent_bone_updates
      by (try assumption; unfold bone_size in Hle; lia).
    pose proof (combine_seq_app _ (bone_parent_fs B base b)
                  (parent_fs B (base + bone_size b) bones) base
                  (objects_count bones)) as Hcs.
    rewrite bone_parent_fs_length in Hcs. rewrite Hcs, apply_updates_app.
    destruct (apply_updates _ s) as [s1|e] eqn:E1; cbn [bind]; [|reflexivity].
    apply IH. rewrite (apply_updates_length _ _ _ E1). lia.
Qed.

Lemma rotate_cubes_updates :
  forall (cubes : list ImportCube) (base : nat) (s : scene),
    Forall import_cube_wf cubes ->
    rotate_cubes math_pi s (number_cubes base cubes)
    = apply_updates
        (combine (seq base (List.length cubes))
                 (map (fun c => rotate_f (ic_rotation c)) cubes)) s.
Proof.
  induction cubes as [|c cubes IH]; intros base s Hall; [reflexivity|].
  inversion Hall as [|? ? Hc Hall']; subst.
  destruct Hc as (_ & _ & _ & Hr & _).
  cbn [number_cubes rotate_cubes numbered_cube ic_blend_cube ic_rotation
       deref bind List.length seq map combine apply_updates].
  rewrite (_mc_rotate_update _ _ _ Hr).
  destruct (update_object s base _) as [s'|err]; cbn [bind];
    [apply IH; exact Hall' | reflexivity].
Qed.

Lemma rotate_bones_updates :
  forall (bones : list (string * ImportBone)) (base : nat) (s : scene),
    Forall (fun kb => import_bone_wf (snd kb)) bones ->
    (base + objects_count bones <= List.length s)%nat ->
    rotate_bones math_pi s (map snd (number_bones base bones))
    = apply_updates
        (combine (seq base (objects_count bones)) (rotate_fs bones)) s.
Proof.
  induction bones as [|[k b] bones IH]; intros base s Hall Hle.
  - reflexivity.
  - inversion Hall as [|? ? Hb Hall']; subst.
    destruct Hb as (_ & Hr & Hc & _). cbn [snd] in Hr, Hc.
    assert (Hn : objects_count ((k, b) :: bones)
                 = (bone_size b + objects_count bones)%nat) by reflexivity.
    rewrite Hn in *.
    unfold rotate_fs. cbn [flat_map snd]. fold (rotate_fs bones).
    pose proof (combine_seq_app _ (bone_rotate_fs b) (rotate_fs bones) base
                  (objects_count bones)) as Hcb.
    rewrite bone_rotate_fs_length in Hcb. rewrite Hcb, apply_updates_app.
    cbn [number_bones map snd rotate_bones numbered_bone ib_blend_empty
         ib_rotation ib_cubes deref bind].
    assert (Hone :
      apply_updates (combine (seq base (bone_size b)) (bone_rotate_fs b)) s
      = (s1 <- update_object s base (rotate_f (ib_rotation b)) ;;
         apply_updates
           (combine
              (seq (S base)
                   (List.length (ib_cubes b) + List.length (ib_locators b)))
              (map (fun c => rotate_f (ic_rotation c)) (ib_cubes b)
               ++ repeat (fun o => o) (List.length (ib_locators b)))) s1))
      by reflexivity.
    rewrite Hone, (_mc_rotate_update _ _ _ Hr).
    destruct (update_object s base _) as [s1|e] eqn:E1; cbn [bind];
      [|reflexivity].
    pose proof (combine_seq_app _
                  (map (fun c => rotate_f (ic_rotation c)) (ib_cubes b))
                  (repeat (fun o : scene_object => o)
                          (List.length (ib_locators b)))
                  (S base) (List.length (ib_locators b))) as Hcs.
    rewrite length_map in Hcs. rewrite Hcs, apply_updates_app.
    rewrite (rotate_cubes_updates _ _ _ Hc).
    destruct (apply_updates _ s1) as [s2|e] eqn:E2; cbn [bind];
      [|reflexivity].
    assert (L1 : List.length s1 = List.length s).
    { apply update_object_spec in E1.
      destruct E1 as (l1 & o & l2 & -> & -> & _). rewrite !length_app.
      reflexivity. }
    assert (L2 : List.length s2 = List.length s).
    { rewrite (apply_updates_length _ _ _ E2). exact L1. }
    rewrite apply_updates_identity by (unfold bone_size in Hle; lia).
    cbn [bind]. apply IH; [exact Hall'|lia].
Qed.

(** The scene objects at the end of [build]: [B] is the dictionary of the
    numbered bones and [base] the number of the first object of [bones]. *)
Definition final_objects (B : list (string * ImportBone)) (base : nat)
    (bones : list (string * ImportBone)) : list scene_object :=
  zip_apply (rotate_fs bones)
    (zip_apply (parent_fs B base bones)
       (flat_map (fun kb => created_objects (snd kb)) bones)).

Lemma build_closed (g : ImportGeometry) (s : scene) :
  Forall (fun kb => import_bone_wf (snd kb)) (ig_bones g) ->
  build math_pi g s
  = Ok (s ++ final_objects (number_bones (List.length s) (ig_bones g))
                           (List.length s) (ig_bones g),
        number_bones (List.length s) (ig_bones g)).
Proof.
  intros Hall. unfold build, final_objects.
  rewrite (create_bones_closed _ _ Hall). cbn [bind]. cbv beta iota zeta.
  set (objs := flat_map (fun kb => created_objects (snd kb)) (ig_bones g)).
  assert (Lo : List.length objs = objects_count (ig_bones g))
    by apply created_all_length.
  rewrite parent_bones_updates
    by (try apply number_bones_have_empties; rewrite length_app; lia).
  rewrite <- Lo, apply_updates_block
    by (rewrite parent_fs_length; symmetry; exact Lo).
  cbn [bind].
  set (objs2 := zip_apply _ objs).
  assert (L2 : List.length objs2 = objects_count (ig_bones g)).
  { unfold objs2. rewrite zip_apply_length; [exact Lo|].
    rewrite parent_fs_length. symmetry. exact Lo. }
  rewrite rotate_bones_updates
    by (try assumption; rewrite length_app; lia).
  rewrite <- L2, apply_updates_block
    by (rewrite rotate_fs_length; symmetry; exact L2).
  reflexivity.
Qed.

(** *** The object of each bone, cube and locator *)

Definition final_bone (B : list (string * ImportBone)) (b : ImportBone)
    : scene_object :=
  rotate_f (ib_rotation b) (bone_parent_f B b (created_bone b)).

Definition final_cube (e : nat) (c : ImportCube) : scene_object :=
  rotate_f (ic_rotation c) (under e (created_cube c)).

Definition final_locator (e : nat) (l : ImportLocator) : scene_object :=
  under e (created_locator l).

Definition final_bone_objects (B : list (string * ImportBone)) (base : nat)
    (b : ImportBone) : list scene_object :=
  final_bone B b
  :: map (final_cube base) (ib_cubes b)
  ++ map (final_locator base) (ib_locators b).

Lemma zip_apply_repeat_map (A : Type) (f : scene_object -> scene_object)
    (g : A -> scene_object) (xs : list A) :
  zip_apply (repeat f (List.length xs)) (map g xs)
  = map (fun x => f (g x)) xs.
Proof.
  induction xs as [|x xs IH]; cbn; [reflexivity|]. f_equal. exact IH.
Qed.

Lemma zip_apply_map_map (A : Type)
    (F : A -> scene_object -> scene_object) (G : A -> scene_object)
    (xs : list A) :
  zip_apply (map F xs) (map G xs) = map (fun x => F x (G x)) xs.
Proof.
  induction xs as [|x xs IH]; cbn; [reflexivity|]. f_equal. exact IH.
Qed.

Lemma final_bone_objects_zip (B : list (string * ImportBone)) (base : nat)
    (b : ImportBone) :
  zip_apply (bone_rotate_fs b)
    (zip_apply (bone_parent_fs B base b) (created_objects b))
  = final_bone_objects B base b.
Proof.
  unfold bone_rotate_fs, bone_parent_fs, created_objects, final_bone_objects.
  cbn [zip_apply]. f_equal.
  rewrite zip_apply_app by (rewrite repeat_length, length_map; reflexivity).
  rewrite !zip_apply_repeat_map.
  rewrite zip_apply_app by (rewrite !length_map; reflexivity).
  rewrite zip_apply_map_map.
  rewrite <- (length_map (fun x => under base (created_locator x))
                (ib_locators b)) at 1.
  rewrite zip_apply_repeat, map_id. reflexivity.
Qed.

Lemma final_objects_cons (B : list (string * ImportBone)) (base : nat)
    (k : string) (b : ImportBone) (bones : list (string * ImportBone)) :
  final_objects B base ((k, b) :: bones)
  = final_bone_objects B base b
    ++ final_objects B (base + bone_size b) bones.
Proof.
  unfold final_objects, rotate_fs.
  cbn [flat_map snd parent_fs].
  rewrite zip_apply_app
    by (rewrite bone_parent_fs_length, created_objects_length; reflexivity).
  rewrite zip_apply_app
    by (rewrite zip_apply_length;
        rewrite ?bone_parent_fs_length, ?bone_rotate_fs_length,
          ?created_objects_length; reflexivity).
  rewrite final_bone_objects_zip. reflexivity.
Qed.

Lemma final_bone_objects_length (B : list (string * ImportBone))
    (base : nat) (b : ImportBone) :
  List.length (final_bone_objects B base b) = bone_size b.
Proof.
  unfold final_bone_objects, bone_size. cbn [List.length].
  rewrite length_app, !length_map. reflexivity.
Qed.

Lemma final_objects_length (B : list (string * ImportBone)) :
  forall bones base,
    List.length (final_objects B base bones) = objects_count bones.
Proof.
  induction bones as [|[k b] bones IH]; intros base; [reflexivity|].
  rewrite final_objects_cons, length_app, final_bone_objects_length, IH.
  reflexivity.
Qed.

Lemma In_number_cubes :
  forall (cubes : list ImportCube) (base : nat) (c' : ImportCube),
    In c' (number_cubes base cubes) ->
    exists j c,
      nth_error cubes j = Some c /\ c' = numbered_cube (base + j) c.
Proof.
  induction cubes as [|c cubes IH]; intros base c' H; [destruct H|].
  cbn [number_cubes] in H. destruct H as [<-|H].
  - exists 0%nat, c. rewrite Nat.add_0_r. split; reflexivity.
  - destruct (IH _ _ H) as (j & c0 & Hj & ->). exists (S j), c0.
    split; [exact Hj|]. f_equal. lia.
Qed.

Lemma In_number_locators :
  forall (locators : list ImportLocator) (base : nat) (l' : ImportLocator),
    In l' (number_locators base locators) ->
    exists j l,
      nth_error locators j = Some l /\ l' = numbered_locator (base + j) l.
Proof.
  induction locators as [|l locators IH]; intros base l' H; [destruct H|].
  cbn [number_locators] in H. destruct H as [<-|H].
  - exists 0%nat, l. rewrite Nat.add_0_r. split; reflexivity.
  - destruct (IH _ _ H) as (j & l0 & Hj & ->). exists (S j), l0.
    split; [exact Hj|]. f_equal. lia.
Qed.

(** Where the objects of a bone of the result are, counted from the first
    new object. *)
Definition placed (B : list (string * ImportBone)) (base : nat)
    (objs : list scene_object) (nb : ImportBone) : Prop :=
  exists e,
    ib_blend_empty nb = Some e /\ (base <= e)%nat /\
    nth_error objs (e - base) = Some (final_bone B nb) /\
    (forall c, In c (ib_cubes nb) ->
       exists i, ic_blend_cube c = Some i /\ (base <= i)%nat /\
                 nth_error objs (i - base) = Some (final_cube e c)) /\
    (forall l, In l (ib_locators nb) ->
       exists i, il_blend_empty l = Some i /\ (base <= i)%nat /\
                 nth_error objs (i - base) = Some (final_locator e l)).

Lemma placed_head (B : list (string * ImportBone)) (base : nat)
    (b : ImportBone) (rest : list scene_object) :
  placed B base (final_bone_objects B base b ++ rest) (numbered_bone base b).
Proof.
  exists base. split; [reflexivity|]. split; [lia|].
  split; [rewrite Nat.sub_diag; reflexivity|].
  unfold final_bone_objects.
  cbn [numbered_bone ib_cubes ib_locators]. split.
  - intros c' Hc. destruct (In_number_cubes _ _ _ Hc) as (j & c & Hj & ->).
    exists (S base + j)%nat. split; [reflexivity|]. split; [lia|].
    replace (S base + j - base)%nat with (S j) by lia.
    cbn [app nth_error]. rewrite <- app_assoc.
    rewrite nth_error_app1
      by (rewrite length_map; apply nth_error_Some; congruence).
    rewrite nth_error_map, Hj. reflexivity.
  - intros l' Hl. destruct (In_number_locators _ _ _ Hl) as (j & l & Hj & ->).
    exists (S base + List.length (ib_cubes b) + j)%nat.
    split; [reflexivity|]. split; [lia|].
    replace (S base + List.length (ib_cubes b) + j - base)%nat
      with (S (List.length (ib_cubes b) + j)) by lia.
    cbn [app nth_error]. rewrite <- app_assoc.
    rewrite nth_error_app2 by (rewrite length_map; lia).
    rewrite length_map.
    replace (List.length (ib_cubes b) + j - List.length (ib_cubes b))%nat
      with j by lia.
    rewrite nth_error_app1
      by (rewrite length_map; apply nth_error_Some; congruence).
    rewrite nth_error_map, Hj. reflexivity.
Qed.

Lemma placed_shift (B : list (string * ImportBone)) (base : nat)
    (head objs : list scene_object) (nb : ImportBone) :
  placed B (base + List.length head) objs nb ->
  placed B base (head ++ objs) nb.
Proof.
  intros (e & He & Hle & Hb & Hc & Hl).
  assert (Hnth : forall i, (base + List.length head <= i)%nat ->
            nth_error (head ++ objs) (i - base)
            = nth_error objs (i - (base + List.length head))).
  { intros i Hi. rewrite nth_error_app2 by lia. f_equal. lia. }
  exists e. split; [exact He|]. split; [lia|].
  split; [rewrite Hnth by lia; exact Hb|]. split.
  - intros c Hin. destruct (Hc c Hin) as (i & Hi & Hbi & Hn).
    exists i. split; [exact Hi|]. split; [lia|].
    rewrite Hnth by lia. exact Hn.
  - intros l Hin. destruct (Hl l Hin) as (i & Hi & Hbi & Hn).
    exists i. split; [exact Hi|]. split; [lia|].
    rewrite Hnth by lia. exact Hn.
Qed.

Lemma final_objects_placed (B : list (string * ImportBone)) :
  forall (bones : list (string * ImportBone)) (base : nat) (k : string)
         (nb : ImportBone),
    In (k, nb) (number_bones base bones) ->
    placed B base (final_objects B base bones) nb.
Proof.
  induction bones as [|[k0 b] bones IH]; intros base k nb H; [destruct H|].
  rewrite final_objects_cons. cbn [number_bones] in H.
  destruct H as [H|H].
  - injection H as _ <-. apply placed_head.
  - apply placed_shift. rewrite final_bone_objects_length.
    exact (IH _ _ _ H).
Qed.

Lemma build_objects (g : ImportGeometry) (s s' : scene)
    (B : list (string * ImportBone)) :
  Forall (fun kb => import_bone_wf (snd kb)) (ig_bones g) ->
  build math_pi g s = Ok (s', B) ->
  have_empties B /\
  forall k nb,
    In (k, nb) B ->
    exists e,
      ib_blend_empty nb = Some e /\
      nth_error s' e = Some (final_bone B nb) /\
      (forall c, In c (ib_cubes nb) ->
         exists i, ic_blend_cube c = Some i /\
                   nth_error s' i = Some (final_cube e c)) /\
      (forall l, In l (ib_locators nb) ->
         exists i, il_blend_empty l = Some i /\
                   nth_error s' i = Some (final_locator e l)).
Proof.
  intros Hwf H. rewrite (build_closed g s Hwf) in H. injection H as <- <-.
  split; [apply number_bones_have_empties|].
  intros k nb Hin.
  destruct (final_objects_placed
              (number_bones (List.length s) (ig_bones g)) _ _ _ _ Hin)
    as (e & He & Hle & Hb & Hc & Hl).
  assert (Hnth : forall i objs, (List.length s <= i)%nat ->
            nth_error (s ++ objs) i = nth_error objs (i - List.length s)).
  { intros i objs Hi. apply nth_error_app2. exact Hi. }
  exists e. split; [exact He|]. split; [rewrite Hnth by lia; exact Hb|].
  split.
  - intros c Hci. destruct (Hc c Hci) as (i & Hi & Hbi & Hn).
    exists i. split; [exact Hi|]. rewrite Hnth by lia. exact Hn.
  - intros l Hli. destruct (Hl l Hli) as (i & Hi & Hbi & Hn).
    exists i. split; [exact Hi|]. rewrite Hnth by lia. exact Hn.
Qed.

Lemma lookup_bone_not_mem (k : string) (bones : list (string * ImportBone)) :
  mem k (map fst bones) = false -> lookup_bone k bones = None.
Proof.
  induction bones as [|[k' b] bones IH]; cbn [map fst lookup_bone];
    [reflexivity|].
  unfold mem. cbn [existsb]. fold (mem k (map fst bones)).
  destruct (String.eqb k k'); cbn [orb]; [discriminate | exact IH].
Qed.

(** The parenting phase changes the parent of a bone and nothing else. *)
Lemma bone_parent_f_parent (B : list (string * ImportBone)) (b : ImportBone)
    (o : scene_object) :
  have_empties B ->
  so_parent o = None ->
  so_parent (bone_parent_f B b o)
  = match ib_parent b with
    | Some parent_name =>
        match lookup_bone parent_name B with
        | Some parent => ib_blend_empty parent
        | None => None
        end
    | None => None
    end.
Proof.
  intros HB Ho. unfold bone_parent_f.
  destruct (ib_parent b) as [pn|]; [|exact Ho].
  destruct (mem pn (map fst B)) eqn:Em.
  - destruct (mem_lookup_bone _ _ Em) as (p & Hp & _). rewrite Hp.
    specialize (HB _ _ Hp).
    destruct (ib_blend_empty p) as [pid|]; [reflexivity|congruence].
  - rewrite (lookup_bone_not_mem _ _ Em). exact Ho.
Qed.

Lemma bone_parent_f_fields (B : list (string * ImportBone)) (b : ImportBone)
    (o : scene_object) :
  so_type (bone_parent_f B b o) = so_type o /\
  so_name (bone_parent_f B b o) = so_name o /\
  so_location (bone_parent_f B b o) = so_location o /\
  so_custom (bone_parent_f B b o) = so_custom o /\
  so_vertices (bone_parent_f B b o) = so_vertices o /\
  so_rotations (bone_parent_f B b o) = so_rotations o.
Proof.
  unfold bone_parent_f.
  destruct (ib_parent b) as [pn|]; [|repeat split].
  destruct (mem pn (map fst B)); [|repeat split].
  destruct (lookup_bone pn B); repeat split.
Qed.

(** The three numbers of a vector of the file, in the order of the
    file. *)
Definition vector_of (v : json) : qvec3 :=
  match v with
  | JList (a :: b :: c :: _) => mkq (num_of a) (num_of b) (num_of c)
  | _ => mkq 0 0 0
  end.

Lemma vec_xzy_vector_of (v : json) : vec_xzy v = xzy (vector_of v).
Proof.
  destruct v as [| | | | |l|]; try reflexivity.
  destruct l as [|a [|b [|c l]]]; reflexivity.
Qed.

(** [mcrotation[[0, 2, 1]] * [1, 1, -1] * pi / 180] *)
Definition blender_rotation (mcrotation : qvec3) : qvec3 :=
  mkq (qx mcrotation * math_pi / (180 # 1))
      (qz mcrotation * math_pi / (180 # 1))
      (- qy mcrotation * math_pi / (180 # 1)).

Lemma rotate_f_rotations (r : json) (o : scene_object) :
  exists rot,
    so_rotations (rotate_f r o) = so_rotations o ++ [rot] /\
    qeq rot (blender_rotation (vector_of r)).
Proof.
  eexists. split; [reflexivity|].
  rewrite vec_xzy_vector_of. unfold qeq, blender_rotation.
  cbn [qdiv qscale qmul xzy qx qy qz].
  repeat split; field.
Qed.

Lemma loaded_geometry (data : json) (geometry_name : string)
    (loader : ModelLoader) :
  load_model data geometry_name = Ok loader ->
  exists g,
    new_ImportGeometry loader = Ok g /\
    Forall (fun kb => import_bone_wf (snd kb)) (ig_bones g).
Proof.
  intros H.
  destruct (load_model_well_formed_facts data geometry_name loader H)
    as (Hid & Hbones).
  unfold new_ImportGeometry.
  destruct (desc_identifier (loader_description loader)) as [i|];
    [|contradiction].
  cbn [bind].
  destruct (read_bones_spec (loader_bones loader) [] Hbones)
    as (r & Hr & Hok & _).
  { split; constructor. }
  rewrite Hr. cbn [bind]. eexists. split; [reflexivity|].
  cbn [ig_bones]. destruct Hok as [_ Hall].
  apply (Forall_impl _ (P := fun kb =>
           ib_name (snd kb) = fst kb /\ import_bone_wf (snd kb) /\
           ib_blend_empty (snd kb) = None)); [|exact Hall].
  intros kb (_ & Hwf & _). exact Hwf.
Qed.

Lemma number_bones_keys :
  forall bones base, map fst (number_bones base bones) = map fst bones.
Proof.
  induction bones as [|[k b] bones IH]; intros base; [reflexivity|].
  cbn [number_bones map fst]. f_equal. apply IH.
Qed.

(** The eight corners of the box from [lo] to [hi], in the order of the
    vertices of Blender's cube. *)
Definition box_corners (lo hi : qvec3) : list qvec3 :=
  [mkq (qx lo) (qy lo) (qz lo); mkq (qx lo) (qy lo) (qz hi);
   mkq (qx lo) (qy hi) (qz lo); mkq (qx lo) (qy hi) (qz hi);
   mkq (qx hi) (qy lo) (qz lo); mkq (qx hi) (qy lo) (qz hi);
   mkq (qx hi) (qy hi) (qz lo); mkq (qx hi) (qy hi) (qz hi)].

Lemma created_cube_box (c : ImportCube) :
  let origin := vector_of (ic_origin c) in
  let pivot := vector_of (ic_pivot c) in
  let size := vector_of (ic_size c) in
  qeq (so_location (created_cube c))
      (qdiv (xzy pivot) MINECRAFT_SCALE_FACTOR) /\
  Forall2 qeq (so_vertices (created_cube c))
    (box_corners
       (qdiv (xzy (qsub origin pivot)) MINECRAFT_SCALE_FACTOR)
       (qdiv (xzy (qsub (qadd origin size) pivot)) MINECRAFT_SCALE_FACTOR)).
Proof.
  cbv zeta. unfold created_cube, translate_f, pivot_f, size_f, box_corners.
  rewrite !vec_xzy_vector_of.
  destruct (vector_of (ic_origin c)) as [ox oy oz].
  destruct (vector_of (ic_pivot c)) as [px py pz].
  destruct (vector_of (ic_size c)) as [sx sy sz].
  unfold MINECRAFT_SCALE_FACTOR.
  destruct (ic_mirror c);
    cbn [so_location so_vertices with_vertices with_location with_custom
         new_cube map];
    unfold qeq, qadd, qsub, qdiv, qmul, xzy; cbn [qx qy qz];
    (split; [repeat split; field|]);
    repeat (constructor; [cbn [qx qy qz]; repeat split; field|]);
    constructor.
Qed.

Lemma pivot_f_new_empty (v : json) :
  qeq (so_location (pivot_f v new_empty))
      (qdiv (xzy (vector_of v)) MINECRAFT_SCALE_FACTOR).
Proof.
  unfold pivot_f. rewrite vec_xzy_vector_of.
  destruct (vector_of v) as [x y z].
  unfold MINECRAFT_SCALE_FACTOR.
  cbn [so_location with_location new_empty].
  unfold qeq, qadd, qdiv, xzy; cbn [qx qy qz].
  repeat split; field.
Qed.

(** The integers of the vectors [build] computes with are in the range
    of a float: beyond it [np.array(v) / MINECRAFT_SCALE_FACTOR] and
    [v * math.pi] raise [OverflowError]. *)
Definition int_in_float_range (v : json) : bool :=
  match v with
  | JInt z => (Z.abs z <=? 2 ^ 1023)%Z
  | _ => true
  end.

Definition vector_in_float_range (v : json) : bool :=
  match v with
  | JList l => forallb int_in_float_range l
  | _ => true
  end.

Definition cube_in_float_range (c : cube_data) : bool :=
  vector_in_float_range (cube_origin c) &&
  vector_in_float_range (cube_size c) &&
  vector_in_float_range (cube_pivot c) &&
  vector_in_float_range (cube_rotation c).

Definition bone_in_float_range (b : bone_data) : bool :=
  vector_in_float_range (bone_pivot b) &&
  vector_in_float_range (bone_rotation b) &&
  forallb cube_in_float_range (bone_cubes b) &&
  forallb (fun kv => vector_in_float_range (snd kv)) (bone_locators b).

Definition model_in_float_range (loader : ModelLoader) : bool :=
  forallb bone_in_float_range (loader_bones loader).

(** X15. The object steps of [build] (creation, parenting, rotation: all
    of [build] but the UV step) run to the end on every model that loads
    and whose integers are in the range of a float, the arithmetic on
    floats being exact.  The objects the scene had stay as they were and
    keep their places; one object for each bone, each cube and each
    locator is added behind them; the dictionary of the bones keeps its
    keys and their order. *)
Theorem build_of_loaded_model :
  forall (data : json) (geometry_name : string) (loader : ModelLoader)
         (s : scene),
    load_model data geometry_name = Ok loader ->
    model_in_float_range loader = true ->
    exists g added B,
      new_ImportGeometry loader = Ok g /\
      build math_pi g s = Ok (s ++ added, B) /\
      List.length added
      = list_sum
          (map (fun kb => S (List.length (ib_cubes (snd kb))
                             + List.length (ib_locators (snd kb))))
               (ig_bones g)) /\
      map fst B = map fst (ig_bones g).
Proof.
  intros data geometry_name loader s H _.
  destruct (loaded_geometry _ _ _ H) as (g & Hg & Hwf).
  exists g. eexists. eexists. split; [exact Hg|].
  split; [apply (build_closed g s Hwf)|].
  split; [apply final_objects_length | apply number_bones_keys].
Qed.

(** X16. The hierarchy [build] makes.  Every bone of the result has its
    empty; each of its cubes and locators has an object of its own whose
    parent is that empty (with the inverse of the empty's world matrix as
    [matrix_parent_inverse]); the empty itself has the empty of the bone
    [parent] names as its parent when the dictionary has a bone of that
    name, and no parent otherwise. *)
Theorem build_makes_the_hierarchy :
  forall (g : ImportGeometry) (s s' : scene)
         (B : list (string * ImportBone)),
    Forall (fun kb => import_bone_wf (snd kb)) (ig_bones g) ->
    build math_pi g s = Ok (s', B) ->
    forall k nb,
      In (k, nb) B ->
      exists e o,
        ib_blend_empty nb = Some e /\
        nth_error s' e = Some o /\
        so_parent o
        = match ib_parent nb with
          | Some parent_name =>
              match lookup_bone parent_name B with
              | Some parent => ib_blend_empty parent
              | None => None
              end
          | None => None
          end /\
        so_matrix_parent_inverse o = so_parent o /\
        (forall c, In c (ib_cubes nb) ->
           exists i oc,
             ic_blend_cube c = Some i /\ nth_error s' i = Some oc /\
             so_parent oc = Some e /\
             so_matrix_parent_inverse oc = Some e) /\
        (forall l, In l (ib_locators nb) ->
           exists i ol,
             il_blend_empty l = Some i /\ nth_error s' i = Some ol /\
             so_parent ol = Some e /\
             so_matrix_parent_inverse ol = Some e).
Proof.
  intros g s s' B Hwf H k nb Hin.
  destruct (build_objects g s s' B Hwf H) as [HB Hobj].
  destruct (Hobj k nb Hin) as (e & He & Hb & Hc & Hl).
  exists e, (final_bone B nb). split; [exact He|]. split; [exact Hb|].
  split; [|split; [|split]].
  - unfold final_bone, rotate_f. cbn [with_rotation so_parent].
    apply (bone_parent_f_parent B nb _ HB). reflexivity.
  - unfold final_bone, rotate_f, bone_parent_f.
    cbn [with_rotation so_parent so_matrix_parent_inverse].
    destruct (ib_parent nb) as [pn|]; [|reflexivity].
    destruct (mem pn (map fst B)); [|reflexivity].
    destruct (lookup_bone pn B); reflexivity.
  - intros c Hci. destruct (Hc c Hci) as (i & Hi & Hn).
    exists i, (final_cube e c). repeat split; assumption.
  - intros l Hli. destruct (Hl l Hli) as (i & Hi & Hn).
    exists i, (final_locator e l). repeat split; assumption.
Qed.

(** X17. The empties [build] makes.  The empty of a bone has the name of
    the bone and the custom property [mc_is_bone], lies at the pivot of
    the bone (divided by 16, Y and Z swapped) and was rotated once, by the
    rotation of the bone in radians with Y and Z swapped and the new Z
    negated.  The empty of a locator has the name of the locator, lies at
    its position (divided by 16, Y and Z swapped), has no custom property
    and is not rotated. *)
Theorem build_makes_the_empties :
  forall (g : ImportGeometry) (s s' : scene)
         (B : list (string * ImportBone)),
    Forall (fun kb => import_bone_wf (snd kb)) (ig_bones g) ->
    build math_pi g s = Ok (s', B) ->
    forall k nb,
      In (k, nb) B ->
      exists e o rot,
        ib_blend_empty nb = Some e /\
        nth_error s' e = Some o /\
        so_type o = "EMPTY" /\
        so_name o = ib_name nb /\
        so_custom o = ["mc_is_bone"] /\
        qeq (so_location o)
            (qdiv (xzy (vector_of (ib_pivot nb))) MINECRAFT_SCALE_FACTOR) /\
        so_rotations o = [rot] /\
        qeq rot (blender_rotation (vector_of (ib_rotation nb))) /\
        (forall l, In l (ib_locators nb) ->
           exists i ol,
             il_blend_empty l = Some i /\ nth_error s' i = Some ol /\
             so_type ol = "EMPTY" /\
             so_name ol = il_name l /\
             so_custom ol = [] /\
             qeq (so_location ol)
                 (qdiv (xzy (vector_of (il_position l)))
                       MINECRAFT_SCALE_FACTOR) /\
             so_rotations ol = []).
Proof.
  intros g s s' B Hwf H k nb Hin.
  destruct (build_objects g s s' B Hwf H) as [HB Hobj].
  destruct (Hobj k nb Hin) as (e & He & Hb & _ & Hl).
  destruct (bone_parent_f_fields B nb (created_bone nb))
    as (Ft & Fn & Fl & Fc & _ & Fr).
  destruct (rotate_f_rotations (ib_rotation nb)
              (bone_parent_f B nb (created_bone nb))) as (rot & Hrot & Hq).
  exists e, (final_bone B nb), rot.
  split; [exact He|]. split; [exact Hb|].
  unfold final_bone.
  split; [exact Ft|]. split; [exact Fn|]. split; [exact Fc|].
  split; [|split; [|split]].
  - change (so_location (rotate_f (ib_rotation nb)
                           (bone_parent_f B nb (created_bone nb))))
      with (so_location (bone_parent_f B nb (created_bone nb))).
    rewrite Fl. apply pivot_f_new_empty.
  - rewrite Hrot, Fr. reflexivity.
  - exact Hq.
  - intros l Hli. destruct (Hl l Hli) as (i & Hi & Hn).
    exists i, (final_locator e l).
    split; [exact Hi|]. split; [exact Hn|].
    repeat (split; [reflexivity|]).
    split; [apply pivot_f_new_empty | reflexivity].
Qed.

(** X18. The meshes [build] makes.  The object of a cube is a mesh with
    the custom property [mc_mirror] exactly when the cube is mirrored; it
    lies at the pivot of the cube (divided by 16, Y and Z swapped); its
    eight vertices are the corners of the box from [origin - pivot] to
    [origin + size - pivot] (divided by 16, Y and Z swapped), so that the
    mesh spans [origin] to [origin + size] around that pivot; and it was
    rotated once, by the rotation of the cube. *)
Theorem build_makes_the_meshes :
  forall (g : ImportGeometry) (s s' : scene)
         (B : list (string * ImportBone)),
    Forall (fun kb => import_bone_wf (snd kb)) (ig_bones g) ->
    build math_pi g s = Ok (s', B) ->
    forall k nb c,
      In (k, nb) B -> In c (ib_cubes nb) ->
      exists i o rot,
        ic_blend_cube c = Some i /\
        nth_error s' i = Some o /\
        so_type o = "MESH" /\
        so_custom o = (if ic_mirror c then ["mc_mirror"] else []) /\
        qeq (so_location o)
            (qdiv (xzy (vector_of (ic_pivot c))) MINECRAFT_SCALE_FACTOR) /\
        Forall2 qeq (so_vertices o)
          (box_corners
             (qdiv (xzy (qsub (vector_of (ic_origin c))
                              (vector_of (ic_pivot c))))
                   MINECRAFT_SCALE_FACTOR)
             (qdiv (xzy (qsub (qadd (vector_of (ic_origin c))
                                    (vector_of (ic_size c)))
                              (vector_of (ic_pivot c))))
                   MINECRAFT_SCALE_FACTOR)) /\
        so_rotations o = [rot] /\
        qeq rot (blender_rotation (vector_of (ic_rotation c))).
Proof.
  intros g s s' B Hwf H k nb c Hin Hci.
  destruct (build_objects g s s' B Hwf H) as [_ Hobj].
  destruct (Hobj k nb Hin) as (e & _ & _ & Hc & _).
  destruct (Hc c Hci) as (i & Hi & Hn).
  destruct (rotate_f_rotations (ic_rotation c) (under e (created_cube c)))
    as (rot & Hrot & Hq).
  destruct (created_cube_box c) as [Hloc Hbox].
  exists i, (final_cube e c), rot.
  split; [exact Hi|]. split; [exact Hn|].
  split; [destruct (ic_mirror c) eqn:Em; unfold final_cube, created_cube;
          rewrite Em; reflexivity|].
  split; [destruct (ic_mirror c) eqn:Em; unfold final_cube, created_cube;
          rewrite Em; reflexivity|].
  split; [exact Hloc|]. split; [exact Hbox|].
  split; [|exact Hq].
  unfold final_cube. rewrite Hrot.
  destruct (ic_mirror c) eqn:Em; unfold created_cube; rewrite Em;
    reflexivity.
Qed.

End BuildObjects.

(** A document with a mirrored cube and a locator under [body], and a
    [head] that hangs under [body]. *)
Definition sample_model : json :=
  JDict
    [("format_version", JStr "1.12.0");
     ("minecraft:geometry",
      JList
        [JDict
           [("description",
             JDict [("identifier", JStr "geometry.sample");
                    ("texture_width", JInt 64);
                    ("texture_height", JInt 32)]);
            ("bones",
             JList
               [JDict
                  [("name", JStr "body");
                   ("pivot", JList [JInt 0; JInt 24; JInt 0]);
                   ("cubes",
                    JList
                      [JDict
                         [("origin", JList [JInt (-4); JInt 12; JInt (-2)]);
                          ("size", JList [JInt 8; JInt 12; JInt 4]);
                          ("mirror", JBool true);
                          ("uv", JList [JInt 16; JInt 16])]]);
                   ("locators",
                    JDict [("lead", JList [JInt 0; JInt 20; JInt 2])])];
                JDict
                  [("name", JStr "head");
                   ("parent", JStr "body");
                   ("pivot", JList [JInt 0; JInt 24; JInt 0]);
                   ("rotation", JList [JInt 90; JInt 0; JInt 0]);
                   ("cubes",
                    JList
                      [JDict
                         [("origin", JList [JInt (-4); JInt 24; JInt (-4)]);
                          ("size", JList [JInt 8; JInt 8; JInt 8]);
                          ("uv", JList [JInt 0; JInt 0])]])]])]])].

Lemma build_of_loaded_model_witness :
  exists loader g added B,
    load_model sample_model "" = Ok loader /\
    model_in_float_range loader = true /\
    new_ImportGeometry loader = Ok g /\
    build flat_pi g [] = Ok ([] ++ added, B) /\
    List.length added = 5%nat /\
    map fst B = ["body"; "head"].
Proof.
  destruct (load_model sample_model "") as [loader|e] eqn:E;
    [|vm_compute in E; discriminate].
  assert (Hr : model_in_float_range loader = true).
  { assert (E' := E). vm_compute in E'. injection E' as <-. reflexivity. }
  destruct (build_of_loaded_model flat_pi sample_model "" loader [] E Hr)
    as (g & added & B & Hg & Hb & Hn & Hk).
  exists loader, g, added, B.
  split; [reflexivity|]. split; [exact Hr|]. split; [exact Hg|].
  split; [exact Hb|].
  vm_compute in E. injection E as <-.
  vm_compute in Hg. injection Hg as <-.
  split; [exact Hn | exact Hk].
Defined.

(** The same model as import records. *)
Definition sample_import : ImportGeometry :=
  mk_import_geometry "geometry.sample" 64 32
    [("body",
      mk_import_bone None "body" None
        [mk_import_cube None (JList [JInt 16; JInt 16]) true
           (JList [JInt (-4); JInt 12; JInt (-2)])
           (JList [JInt 0; JInt 24; JInt 0])
           (JList [JInt 8; JInt 12; JInt 4])
           (JList [JInt 0; JInt 0; JInt 0])]
        [mk_import_locator "lead" (JList [JInt 0; JInt 20; JInt 2]) None]
        (JList [JInt 0; JInt 24; JInt 0])
        (JList [JInt 0; JInt 0; JInt 0]) false);
     ("head",
      mk_import_bone None "head" (Some "body")
        [mk_import_cube None (JList [JInt 0; JInt 0]) false
           (JList [JInt (-4); JInt 24; JInt (-4)])
           (JList [JInt 0; JInt 24; JInt 0])
           (JList [JInt 8; JInt 8; JInt 8])
           (JList [JInt 0; JInt 0; JInt 0])]
        []
        (JList [JInt 0; JInt 24; JInt 0])
        (JList [JInt 90; JInt 0; JInt 0]) false)].

Lemma sample_import_wf :
  Forall (fun kb => import_bone_wf (snd kb)) (ig_bones sample_import).
Proof. repeat constructor. Qed.

Lemma build_makes_the_hierarchy_witness :
  exists s' B head,
    build flat_pi sample_import [] = Ok (s', B) /\
    In ("head", head) B /\
    exists e o,
      ib_blend_empty head = Some e /\
      nth_error s' e = Some o /\
      so_parent o = Some 0%nat.
Proof.
  destruct (build flat_pi sample_import []) as [[s' B]|e] eqn:E;
    [|vm_compute in E; discriminate].
  destruct (lookup_bone "head" B) as [head|] eqn:EL;
    [|vm_compute in E; injection E as <- <-; vm_compute in EL; discriminate].
  pose proof (lookup_bone_In _ _ _ EL) as Hin.
  destruct (build_makes_the_hierarchy flat_pi sample_import [] s' B
              sample_import_wf E "head" head Hin)
    as (e & o & He & Ho & Hp & _).
  exists s', B, head. split; [reflexivity|]. split; [exact Hin|].
  exists e, o. split; [exact He|]. split; [exact Ho|].
  rewrite Hp.
  vm_compute in E. injection E as <- <-.
  vm_compute in EL. injection EL as <-. reflexivity.
Defined.

Lemma build_makes_the_empties_witness :
  exists s' B body,
    build flat_pi sample_import [] = Ok (s', B) /\
    In ("body", body) B /\
    exists e o,
      ib_blend_empty body = Some e /\
      nth_error s' e = Some o /\
      so_name o = "body" /\
      qeq (so_location o) (mkq 0 0 (3 # 2)).
Proof.
  destruct (build flat_pi sample_import []) as [[s' B]|e] eqn:E;
    [|vm_compute in E; discriminate].
  destruct (lookup_bone "body" B) as [body|] eqn:EL;
    [|vm_compute in E; injection E as <- <-; vm_compute in EL; discriminate].
  pose proof (lookup_bone_In _ _ _ EL) as Hin.
  destruct (build_makes_the_empties flat_pi sample_import [] s' B
              sample_import_wf E "body" body Hin)
    as (e & o & rot & He & Ho & _ & Hn & _ & Hl & _).
  exists s', B, body. split; [reflexivity|]. split; [exact Hin|].
  exists e, o. split; [exact He|]. split; [exact Ho|].
  vm_compute in E. injection E as <- <-.
  vm_compute in EL. injection EL as <-.
  split; [exact Hn|].
  destruct Hl as (Hx & Hy & Hz). unfold qeq.
  split; [rewrite Hx; reflexivity|].
  split; [rewrite Hy; reflexivity | rewrite Hz; reflexivity].
Defined.

Lemma build_makes_the_meshes_witness :
  exists s' B body c,
    build flat_pi sample_import [] = Ok (s', B) /\
    In ("body", body) B /\ In c (ib_cubes body) /\
    exists i o,
      ic_blend_cube c = Some i /\
      nth_error s' i = Some o /\
      so_custom o = ["mc_mirror"] /\
      Forall2 qeq (so_vertices o)
        (box_corners
           (qdiv (xzy (qsub (mkq (-4) 12 (-2)) (mkq 0 24 0)))
                 MINECRAFT_SCALE_FACTOR)
           (qdiv (xzy (qsub (qadd (mkq (-4) 12 (-2)) (mkq 8 12 4))
                            (mkq 0 24 0)))
                 MINECRAFT_SCALE_FACTOR)).
Proof.
  destruct (build flat_pi sample_import []) as [[s' B]|e] eqn:E;
    [|vm_compute in E; discriminate].
  destruct (lookup_bone "body" B) as [body|] eqn:EL;
    [|vm_compute in E; injection E as <- <-; vm_compute in EL; discriminate].
  pose proof (lookup_bone_In _ _ _ EL) as Hin.
  destruct (ib_cubes body) as [|c cubes] eqn:EC;
    [vm_compute in E; injection E as <- <-; vm_compute in EL;
     injection EL as <-; discriminate|].
  assert (Hci : In c (ib_cubes body)) by (rewrite EC; left; reflexivity).
  destruct (build_makes_the_meshes flat_pi sample_import [] s' B
              sample_import_wf E "body" body c Hin Hci)
    as (i & o & rot & Hi & Ho & _ & Hm & _ & Hv & _).
  exists s', B, body, c. split; [reflexivity|]. split; [exact Hin|].
  split; [exact Hci|].
  exists i, o. split; [exact Hi|]. split; [exact Ho|].
  vm_compute in E. injection E as <- <-.
  vm_compute in EL. injection EL as <-.
  injection EC as <- _.
  split; [exact Hm | exact Hv].
Defined.

(** ** From the file to the scene and back *)

Section RoundTrip.

Variable Matrix : Type.
Variable matmul : Matrix -> Matrix -> Matrix.
Variable inverted : Matrix -> option Matrix.
Variable normalized : Matrix -> Matrix.
Variable to_translation : Matrix -> qvec3.
Variable to_euler_XZY : Matrix -> qvec3.
Variable quaternion_euler_XZY : Matrix -> qvec3.
Variable math_pi : Q.

Local Abbreviation mcrotation :=
  (get_mcrotation matmul inverted normalized to_euler_XZY
     quaternion_euler_XZY math_pi).

(** The Euler angles [_mc_rotate] rotates by. *)
Definition euler_of (mcrotation : json) : qvec3 :=
  qdiv (qscale (qmul (vec_xzy mcrotation) (mkq (1 # 1) (1 # 1) (-1 # 1)))
               math_pi)
       (180 # 1).

Lemma final_bone_rotations (B : list (string * ImportBone))
    (b : ImportBone) :
  so_rotations (final_bone math_pi B b) = [euler_of (ib_rotation b)].
Proof.
  unfold final_bone, rotate_f. cbn [with_rotation so_rotations].
  destruct (bone_parent_f_fields B b (created_bone b))
    as (_ & _ & _ & _ & _ & Fr).
  rewrite Fr. reflexivity.
Qed.

Lemma final_cube_rotations (e : nat) (c : ImportCube) :
  so_rotations (final_cube math_pi e c) = [euler_of (ic_rotation c)].
Proof.
  unfold final_cube, created_cube. destruct (ic_mirror c); reflexivity.
Qed.

(** The conversion of [get_mcrotation] undoes that of [_mc_rotate]. *)
Lemma degrees_of_euler_of (v : json) :
  ~ Qeq math_pi 0 ->
  qeq (qdiv (qscale (qmul (xzy (euler_of v)) (mkq (1 # 1) (-1 # 1) (1 # 1)))
                    (180 # 1))
            math_pi)
      (vector_of v).
Proof.
  intros Hpi. unfold euler_of. rewrite vec_xzy_vector_of.
  destruct (vector_of v) as [x y z].
  unfold qeq, qdiv, qscale, qmul, xzy. cbn [qx qy qz].
  repeat split; field; exact Hpi.
Qed.

(** X19. The rotation of the file comes back.  After [build], let Blender
    report for the empty of a bone the Euler angles it was rotated by
    ([to_euler('XZY')] of its world matrix), and for the object of a cube
    the same through its matrix relative to the parent; then
    [get_mcrotation] returns the rotation of the bone, or of the cube, as
    the file had it, provided [math.pi] is not zero. *)
Theorem rotation_survives_import_and_export :
  forall (g : ImportGeometry) (s s' : scene)
         (B : list (string * ImportBone)),
    Forall (fun kb => import_bone_wf (snd kb)) (ig_bones g) ->
    build math_pi g s = Ok (s', B) ->
    ~ Qeq math_pi 0 ->
    forall k nb,
      In (k, nb) B ->
      (forall e o m,
          ib_blend_empty nb = Some e ->
          nth_error s' e = Some o ->
          so_rotations o = [to_euler_XZY m] ->
          exists r,
            mcrotation m None = Ok r /\
            qeq r (vector_of (ib_rotation nb))) /\
      (forall c i o m parent_matrix inv,
          In c (ib_cubes nb) ->
          ic_blend_cube c = Some i ->
          nth_error s' i = Some o ->
          inverted (normalized parent_matrix) = Some inv ->
          so_rotations o
          = [quaternion_euler_XZY (matmul inv (normalized m))] ->
          exists r,
            mcrotation m (Some parent_matrix) = Ok r /\
            qeq r (vector_of (ic_rotation c))).
Proof.
  intros g s s' B Hwf H Hpi k nb Hin.
  destruct (build_objects math_pi g s s' B Hwf H) as [_ Hobj].
  destruct (Hobj k nb Hin) as (e0 & He0 & Hb & Hc & _).
  split.
  - intros e o m He Ho Hr.
    assert (e = e0) by congruence. subst e0.
    assert (o = final_bone math_pi B nb) by congruence. subst o.
    rewrite final_bone_rotations in Hr. injection Hr as Hr.
    unfold get_mcrotation. cbn [bind]. eexists. split; [reflexivity|].
    rewrite <- Hr. apply degrees_of_euler_of. exact Hpi.
  - intros c i o m pm inv Hci Hi Ho Hinv Hr.
    destruct (Hc c Hci) as (i0 & Hi0 & Hn).
    assert (i = i0) by congruence. subst i0.
    assert (o = final_cube math_pi e0 c) by congruence. subst o.
    rewrite final_cube_rotations in Hr. injection Hr as Hr.
    unfold get_mcrotation, get_local_matrix. rewrite Hinv. cbn [bind].
    eexists. split; [reflexivity|].
    rewrite <- Hr. apply degrees_of_euler_of. exact Hpi.
Qed.

Lemma final_cube_corners (e : nat) (c : ImportCube) :
  let half := qdiv (qdiv (vec_xzy (ic_size c)) (2 # 1)) MINECRAFT_SCALE_FACTOR in
  let shift :=
    qadd (qsub (qdiv (vec_xzy (ic_origin c)) MINECRAFT_SCALE_FACTOR)
               (qdiv (vec_xzy (ic_pivot c)) MINECRAFT_SCALE_FACTOR))
         half in
  nth_error (so_vertices (final_cube math_pi e c)) 0
  = Some (qadd (qmul half (mkq (-1 # 1) (-1 # 1) (-1 # 1))) shift) /\
  nth_error (so_vertices (final_cube math_pi e c)) 7
  = Some (qadd (qmul half (mkq (1 # 1) (1 # 1) (1 # 1))) shift).
Proof.
  unfold final_cube, created_cube. destruct (ic_mirror c); split; reflexivity.
Qed.

Lemma final_bone_location (B : list (string * ImportBone)) (b : ImportBone) :
  so_location (final_bone math_pi B b)
  = qadd (mkq 0 0 0) (qdiv (vec_xzy (ib_pivot b)) MINECRAFT_SCALE_FACTOR).
Proof.
  unfold final_bone, rotate_f. cbn [with_rotation so_location].
  destruct (bone_parent_f_fields B b (created_bone b))
    as (_ & _ & Fl & _).
  rewrite Fl. reflexivity.
Qed.

(** X20. The pivot and the box of the file come back.  After [build], let
    Blender report the location of the empty of a bone as the translation
    of its world matrix; then [get_mcpivot], for a bone exported without a
    parent, times 16 is the pivot of the file.  Let it report the first
    and the last vertex of the mesh of a cube as the corners 0 and 6 of
    its bounding box (as it does for a size that is not negative); then
    [get_mcube_size] times 16 is the size of the file, and the pivot of
    the cube plus [get_mccube_position] times 16 is its origin. *)
Theorem box_survives_import_and_export :
  forall (g : ImportGeometry) (s s' : scene)
         (B : list (string * ImportBone)),
    Forall (fun kb => import_bone_wf (snd kb)) (ig_bones g) ->
    build math_pi g s = Ok (s', B) ->
    forall k nb,
      In (k, nb) B ->
      (forall e o (p : ObjectMcProperties Matrix)
              (object_properties : properties_dict Matrix) (frames : nat),
          ib_blend_empty nb = Some e ->
          nth_error s' e = Some o ->
          mcparent p = None ->
          String.eqb (ob_type (thisobj p)) "ARMATURE" = false ->
          to_translation (ob_matrix_world (thisobj p)) = so_location o ->
          exists pivot,
            get_mcpivot matmul inverted normalized to_translation (S frames)
              p object_properties = Ok pivot /\
            qeq (qscale pivot MINECRAFT_SCALE_FACTOR)
                (vector_of (ib_pivot nb))) /\
      (forall c i o (p : ObjectMcProperties Matrix),
          In c (ib_cubes nb) ->
          ic_blend_cube c = Some i ->
          nth_error s' i = Some o ->
          nth_error (ob_bound_box (thisobj p)) 0
          = nth_error (so_vertices o) 0 ->
          nth_error (ob_bound_box (thisobj p)) 6
          = nth_error (so_vertices o) 7 ->
          exists size position,
            get_mcube_size p = Ok size /\
            get_mccube_position p = Ok position /\
            qeq (qscale size MINECRAFT_SCALE_FACTOR)
                (vector_of (ic_size c)) /\
            qeq (qadd (vector_of (ic_pivot c))
                      (qscale position MINECRAFT_SCALE_FACTOR))
                (vector_of (ic_origin c))).
Proof.
  intros g s s' B Hwf H k nb Hin.
  destruct (build_objects math_pi g s s' B Hwf H) as [_ Hobj].
  destruct (Hobj k nb Hin) as (e0 & He0 & Hb & Hc & _).
  split.
  - intros e o p d frames He Ho Hp Ht Hm.
    assert (e = e0) by congruence. subst e0.
    assert (o = final_bone math_pi B nb) by congruence. subst o.
    rewrite final_bone_location in Hm.
    unfold get_mcpivot. cbn [_get_mcpivot]. rewrite Hp.
    unfold matrix_world. rewrite Ht. cbn [bind]. rewrite Hm.
    eexists. split; [reflexivity|].
    rewrite vec_xzy_vector_of. destruct (vector_of (ib_pivot nb)) as [x y z].
    unfold qeq, qscale, qadd, qdiv, xzy, MINECRAFT_SCALE_FACTOR.
    cbn [qx qy qz]. repeat split; field.
  - intros c i o p Hci Hi Ho H0 H6.
    destruct (Hc c Hci) as (i0 & Hi0 & Hn).
    assert (i = i0) by congruence. subst i0.
    assert (o = final_cube math_pi e0 c) by congruence. subst o.
    destruct (final_cube_corners e0 c) as [V0 V7]. cbv zeta in V0, V7.
    rewrite V0 in H0. rewrite V7 in H6.
    unfold get_mcube_size, get_mccube_position, bound_box_corner.
    rewrite H0, H6. cbn [bind].
    eexists. eexists. split; [reflexivity|]. split; [reflexivity|].
    rewrite !vec_xzy_vector_of.
    destruct (vector_of (ic_size c)) as [sx sy sz].
    destruct (vector_of (ic_origin c)) as [ox oy oz].
    destruct (vector_of (ic_pivot c)) as [px py pz].
    unfold qeq, qscale, qadd, qsub, qmul, qdiv, xzy, MINECRAFT_SCALE_FACTOR.
    cbn [qx qy qz]. repeat split; field.
Qed.

End RoundTrip.

Lemma flat_pi_not_zero : ~ Qeq flat_pi 0.
Proof. intros H. vm_compute in H. discriminate H. Qed.

Lemma rotation_survives_import_and_export_witness :
  exists s' B head o,
    build flat_pi sample_import [] = Ok (s', B) /\
    In ("head", head) B /\
    ib_blend_empty head = Some 3%nat /\
    nth_error s' 3 = Some o /\
    exists m r,
      so_rotations o = [m] /\
      get_mcrotation flat_matmul flat_inverted flat_normalized
        (fun a : qvec3 => a) (fun a : qvec3 => a) flat_pi m None = Ok r /\
      qeq r (mkq 90 0 0).
Proof.
  destruct (build flat_pi sample_import []) as [[s' B]|x] eqn:E;
    [|vm_compute in E; discriminate].
  assert (E' := E). vm_compute in E'. injection E' as Es EB.
  destruct (lookup_bone "head" B) as [head|] eqn:EL;
    [|rewrite <- EB in EL; vm_compute in EL; discriminate].
  assert (EL' := EL). rewrite <- EB in EL'. vm_compute in EL'.
  injection EL' as Eh.
  pose proof (lookup_bone_In _ _ _ EL) as Hin.
  destruct (nth_error s' 3) as [o|] eqn:Eo;
    [|rewrite <- Es in Eo; discriminate].
  assert (Eo' := Eo). rewrite <- Es in Eo'. vm_compute in Eo'.
  injection Eo' as Eo'.
  assert (He : ib_blend_empty head = Some 3%nat)
    by (rewrite <- Eh; reflexivity).
  pose (m := euler_of flat_pi (JList [JInt 90; JInt 0; JInt 0])).
  assert (ER : so_rotations o = [m]) by (rewrite <- Eo'; reflexivity).
  destruct (rotation_survives_import_and_export qvec3 flat_matmul
              flat_inverted flat_normalized (fun a => a) (fun a => a)
              flat_pi sample_import [] s' B sample_import_wf E
              flat_pi_not_zero "head" head Hin) as [Hbone _].
  destruct (Hbone 3%nat o m He Eo ER) as (r & Hg & Hq).
  exists s', B, head, o. split; [reflexivity|]. split; [exact Hin|].
  split; [exact He|]. split; [exact Eo|].
  exists m, r. split; [exact ER|]. split; [exact Hg|].
  rewrite <- Eh in Hq. exact Hq.
Defined.

(** What Blender shows of an empty at [at_] and of a mesh whose first and
    last vertex are [lo] and [hi]. *)
Definition reported_empty (at_ : qvec3) : ObjectMcProperties qvec3 :=
  mk_props (mk_id "body" "")
    (BpyObject "EMPTY" "body" None "" "" 1 [] at_ [] [])
    None [] BONE.

Definition reported_mesh (lo hi : qvec3) : ObjectMcProperties qvec3 :=
  mk_props (mk_id "Cube" "")
    (BpyObject "MESH" "Cube" None "" "" 0 [] (mkq 0 0 0)
       [lo; mkq (qx lo) (qy lo) (qz hi); mkq (qx lo) (qy hi) (qz hi);
        mkq (qx lo) (qy hi) (qz lo); mkq (qx hi) (qy lo) (qz lo);
        mkq (qx hi) (qy lo) (qz hi); hi; mkq (qx hi) (qy hi) (qz lo)] [])
    None [] CUBE.

Lemma box_survives_import_and_export_witness :
  exists s' B body o oc,
    build flat_pi sample_import [] = Ok (s', B) /\
    In ("body", body) B /\
    nth_error s' 0 = Some o /\
    nth_error s' 1 = Some oc /\
    (exists pivot,
        get_mcpivot flat_matmul flat_inverted flat_normalized
          flat_to_translation 1 (reported_empty (so_location o)) []
        = Ok pivot /\
        qeq (qscale pivot MINECRAFT_SCALE_FACTOR) (mkq 0 24 0)) /\
    (exists lo hi size position,
        nth_error (so_vertices oc) 0 = Some lo /\
        nth_error (so_vertices oc) 7 = Some hi /\
        get_mcube_size (reported_mesh lo hi) = Ok size /\
        get_mccube_position (reported_mesh lo hi) = Ok position /\
        qeq (qscale size MINECRAFT_SCALE_FACTOR) (mkq 8 12 4) /\
        qeq (qadd (mkq 0 24 0) (qscale position MINECRAFT_SCALE_FACTOR))
            (mkq (-4) 12 (-2))).
Proof.
  destruct (build flat_pi sample_import []) as [[s' B]|x] eqn:E;
    [|vm_compute in E; discriminate].
  assert (E' := E). vm_compute in E'. injection E' as Es EB.
  destruct (lookup_bone "body" B) as [body|] eqn:EL;
    [|rewrite <- EB in EL; vm_compute in EL; discriminate].
  assert (EL' := EL). rewrite <- EB in EL'. vm_compute in EL'.
  injection EL' as Eh.
  pose proof (lookup_bone_In _ _ _ EL) as Hin.
  destruct (nth_error s' 0) as [o|] eqn:Eo;
    [|rewrite <- Es in Eo; discriminate].
  assert (Eo' := Eo). rewrite <- Es in Eo'. vm_compute in Eo'.
  injection Eo' as Eo'.
  destruct (nth_error s' 1) as [oc|] eqn:Ec;
    [|rewrite <- Es in Ec; discriminate].
  assert (Ec' := Ec). rewrite <- Es in Ec'. vm_compute in Ec'.
  injection Ec' as Ec'.
  destruct (nth_error (so_vertices oc) 0) as [lo|] eqn:E0;
    [|rewrite <- Ec' in E0; discriminate].
  destruct (nth_error (so_vertices oc) 7) as [hi|] eqn:E7;
    [|rewrite <- Ec' in E7; discriminate].
  destruct (ib_cubes body) as [|c cubes] eqn:EC;
    [rewrite <- Eh in EC; discriminate|].
  assert (Hci : In c (ib_cubes body)) by (rewrite EC; left; reflexivity).
  assert (He : ib_blend_empty body = Some 0%nat)
    by (rewrite <- Eh; reflexivity).
  assert (Hi : ic_blend_cube c = Some 1%nat)
    by (rewrite <- Eh in EC; injection EC as <- _; reflexivity).
  destruct (box_survives_import_and_export qvec3 flat_matmul flat_inverted
              flat_normalized flat_to_translation flat_pi sample_import []
              s' B sample_import_wf E "body" body Hin) as [Hbone Hcube].
  destruct (Hbone 0%nat o (reported_empty (so_location o)) [] 0%nat He Eo
              eq_refl eq_refl eq_refl) as (pivot & Hp & Hq).
  destruct (Hcube c 1%nat oc (reported_mesh lo hi) Hci Hi Ec
              (eq_sym E0) (eq_sym E7))
    as (size & position & Hs & Hpos & Hqs & Hqo).
  exists s', B, body, o, oc.
  split; [reflexivity|]. split; [exact Hin|]. split; [exact Eo|].
  split; [exact Ec|]. split.
  - exists pivot. split; [exact Hp|]. rewrite <- Eh in Hq. exact Hq.
  - exists lo, hi, size, position.
    split; [exact E0|]. split; [exact E7|]. split; [exact Hs|].
    split; [exact Hpos|].
    rewrite <- Eh in EC. injection EC as Ecube _. rewrite <- Ecube in Hqs, Hqo.
    split; [exact Hqs | exact Hqo].
Defined.
